(* ===== verification/_CoqProject ===== *)
-Q . S2P
Prelude.v
Process.v
Script.v
Errors.v
Types.v
Config.v
Tables.v
World.v
Oss.v
Discovery.v
Consul.v
Sql.v
Records.v
Enums.v
Schema.v
Build.v
Cache.v
SeqStore.v
RecBox.v
ShardedBox.v
Pusher.v
Producer.v
Gateway.v
WsServer.v
ConnTasks.v
GroupStore.v
GroupData.v
GroupContent.v
GroupInv.v
UserStore.v
Auth.v
UserApi.v
FriendStore.v
FriendInv.v
FriendFlow.v
Stores.v
Consumer.v
Handling.v
Delivery.v
EndToEnd.v
Rpc.v
SeqProtocol.v
SeqFaults.v
Parts.v
Joined.v
Topic.v
Migrate.v
Startup.v
OAuth.v
ApiNotify.v
FriendApi.v
GroupApi.v
Services.v
Routes.v
