(* ===== verification/Prelude.v ===== *)
(** * Sandcat backend: a model of its services, stores and API

    ** The program

    An instant-messaging backend in Rust, a workspace of services:

    - [msg_gateway]: WebSocket connections, one hub of clients per process; a
      client's message gets a send number from the cache and goes to the chat
      service by gRPC; pushes from the message server come back to the hub;
    - [msg_server]: the chat service puts messages on a Kafka topic
      ([productor.rs]); the consumer ([consumer.rs]) takes them off, assigns
      receive numbers, stores them and pushes them to all gateways ([pusher]);
    - [cache]: Redis, with the sequence counters (two Lua scripts), the members
      of groups, registration codes and the set of users online;
    - [db]: PostgreSQL (sequence reservations, history, groups, users,
      friends) and MongoDB (the receive box, in a legacy and a sharded form);
    - [abi]: the wire types, errors and configuration; [api]: the HTTP server;
      [utils]: discovery; [cmd]: start-up, which loads the counters; [oss].

    ** Files

    - [Prelude]: outcomes of a call (value, error, panic, never completing),
      the state-and-error monad, frames ([keeps]), tactics, hints.
    - [Process]: tasks that run side by side over one state, started, joined
      and raced by each other, with the orders any run keeps.
    - [Script]: programs as scripts of calls, what it is for a program to be
      made of calls of some kind, and scripts whose calls interleave.
    - [Errors] ([abi/src/errors/mod.rs]): error kinds, gRPC and HTTP forms.
    - [Types] ([abi/src/pb/message.rs], [abi/src/types/msg.rs],
      [db/src/mongodb/utils.rs]): message types, [Msg], request constructors,
      validators, BSON documents.
    - [Enums]: the enumerations of the protocol as instances of one class.
    - [Config] ([abi/src/config.rs]): the configuration and its URLs.
    - [Tables] (the migrations): rows and tables of the database.
    - [World]: the services the programs talk to. [Redis] is a map with
      expiries and the commands used; a database statement is a function on
      the tables; MongoDB a map of collections; plus the Kafka topic, the
      pushes, the registry, the object store, the clock, the id generator, and
      the state the message server keeps in memory (its gateway list and its
      collection sets). Every remote call consults a schedule of faults: it passes, fails
      without effect, or takes effect and loses its reply.
    - [Cache] ([cache/src/redis/mod.rs]): every method of the trait; the
      scripts statement by statement.
    - [SeqStore] ([db/src/postgres/seq.rs], [message.rs],
      [cmd/src/load_seq.rs]).
    - [RecBox] ([db/src/message.rs], [db/src/mongodb/message.rs], the message
      handlers of [api]): the trait [MsgRecBoxRepo] as a record, the laws its
      clients use as the class [MsgRecBoxLaws], the legacy box.
    - [ShardedBox] ([db/src/mongodb/sharded_message.rs], [db/src/lib.rs]): the
      sharded box, which meets the same laws.
    - [Pusher] ([msg_server/src/pusher]), [Producer]
      ([msg_server/src/productor.rs]).
    - [Gateway] ([msg_gateway/src/manager.rs], [client.rs], [rpc.rs]),
      [WsServer] ([msg_gateway/src/ws_server.rs]): the rate limiter, the life
      cycle of a connection over the hub; [ConnTasks]: its ping, watch and
      receive tasks with their timers.
    - [Schema] (every type declared in [abi/src/pb/message.rs], as data),
      [Build] ([abi/build.rs]): what the generator was told.
    - [Rpc] (the clients and servers in [abi/src/pb/message.rs]): which method
      a stub's path reaches.
    - [Sql]: what the stores need of [sqlx] and PostgreSQL: rows as columns
      with typed values and their decoding, transactions, the check of a
      statement's columns and types against the migrations, frames of a store.
    - [Records] ([abi/src/types/group.rs], [friend.rs], [user.rs]): the
      records of the API and their [FromRow]s.
    - [GroupStore], [GroupData], [GroupContent] ([db/src/postgres/group.rs]):
      membership and roles; groups, settings and categories; files, polls and
      announcements. [GroupInv]: an invariant of all their operations.
    - [UserStore] ([db/src/postgres/user.rs]), [Auth] ([api_utils/custom_extract],
      the claims), [UserApi] ([api/src/handlers/users]), [OAuth] ([oauth2.rs]:
      redirects and callbacks of the providers).
    - [FriendStore] ([db/src/postgres/friend.rs]), [FriendInv]: its invariant,
      [FriendFlow]: the friend lists over the life of a friendship.
    - [Stores] ([db/src/lib.rs] and its traits): the repositories as records
      of operations with their laws, and [DbRepo] over one database.
    - [ApiNotify] (how a handler of [api] numbers and queues a message),
      [FriendApi] ([api/src/handlers/friends]), [GroupApi]
      ([api/src/handlers/groups]).
    - [Discovery] ([utils/src/lib.rs], [utils/src/service_discovery],
      [api/src/api_utils/lb]): rounds of discovery, channels, load balancing.
    - [Consul] ([utils/src/service_register_center], [utils/src/lib.rs]): the
      trait of a service register, the Consul client with its requests and
      JSON, and the channels that follow it.
    - [Oss] ([oss/src], [api/src/handlers/files]): the object store's client,
      its start-up, uploads and downloads.
    - [Routes] ([api/src/routes.rs]): the route table and the matching of
      requests.
    - [Consumer] ([msg_server/src/consumer.rs]), [Handling] (handling a record
      as a script of calls, for whatever is known of them), [Delivery] (what one
      handled message does, against the interfaces of box and pusher),
      [SeqProtocol] (the counters and reservations as a step relation),
      [SeqFaults] (the same call by call, under faults), [Parts] (scripts that
      keep to their own part of the world, in any interleaving), [Joined] (the
      tasks of a message as such scripts), [Topic] (reading, committing and
      reading again).
    - [EndToEnd]: gateways, topic, consumer and boxes as one system whose
      parts take their next piece of work in any order.
    - [Services]: every call of the API, the chat service, the consumer and
      the loader as requests to one system over one database, each a script of
      calls to repositories, cache and the rest.
    - [Startup] ([cmd/src/main.rs], [api/src/lib.rs], the [start] functions):
      the command line, the configuration's loading, and each component's
      start as tasks of [Process], action by action.
    - [Migrate] ([cmd/src/migrate.rs]): the copy of the legacy box into the
      sharded one, by tasks that run side by side.

    ** What is shown

    - Sequence numbers. The counter invariant holds under every operation and
      fault schedule; increments behave as specified on every branch and the
      group script agrees with the single one; over all interleavings of
      deliveries and cache losses no receive number is issued twice. Where
      calls fail, a number falls back by no more than the cache was ahead of the
      reservation when it was lost; a lost reservation and a lost flush of the
      loader are shown to bring numbers back. The send
      counters are shown to lack this: their persistence is dead code and
      numbers are reissued after a cache loss.
    - Delivery. A handled single or group message yields exactly the documents,
      counter moves, reservations and pushes it should, for any box and pusher
      meeting the laws, and both boxes meet them, whatever the order of the
      tasks it is left to. Every record is handled to an answer at least once,
      and one that was handled before a crash, its offset not committed, is
      handled again and stored and pushed a second time. The history store is called
      exactly when it should not be, and its statement always fails.
    - End to end. A message accepted at one gateway is numbered, queued,
      stored, pushed to the receiver's connections and found when it is pulled;
      a group message reaches every other member in the same way.
      The stubs between the processes reach the methods of their names. The
      generated types are those the build script asks for, every message can be
      decoded by its tags, and passwords stay out of JSON and of contents.
    - Database. What [DbRepo::new] builds keeps the references of groups,
      mutual friendships and accounts with their counters, and so do all the
      processes together, however the calls of their requests interleave, fail
      or are cut short.
    - Storage. The legacy box refines an abstract list of messages and its
      synchronisation read is exact; the sharded box stores messages where its
      reads do not look, and its cleaning task locks itself out; the cleaning
      rounds delete nothing.
    - Migration. Under every interleaving of its tasks it moves every message
      once and can be run again; with sharding switched off it doubles the box.
    - Gateways. Who receives a frame; the hub is well formed and never lists a
      dead connection, though a live one can be dropped by a race; the tasks of
      a connection implement its life cycle, and a silent connection is closed
      in time; the rate limit holds; every client message is answered; the pusher's fan-out and
      its handling of failed or missing gateways.
    - Groups. Removal acts exactly for managers, contents are managed by the
      managers and makers among the members, and every operation keeps the foreign keys; but
      inviting and muting compare role labels alphabetically, no row of a group
      can be decoded, votes are never recorded, and the handlers' notices and
      cache updates leave members out of the deliveries.
    - Users. Who registers under an address no account answers to can log in with
      it (the code does not check that, and one that is taken can lock the new
      account out), a changed password is the one accepted, every operation
      keeps accounts and counters together and changes what a login checks
      only where it was asked to; a token
      admits to any user's data and a code to any user's password; the state
      of a sign-in through GitHub is never compared.
    - Friends. Friendship is mutual under every operation and fault; from the
      request to the deletion the lists of both sides show it; acceptances on
      every branch; the handlers' notices never undo or hide what the store
      answered; which statements of the store can run at all, by typing them
      against the migrations, and that the operations made of the others fail
      whatever the server would do with them.
    - Files and routes. Start-up of the object store is idempotent, an upload is
      answered byte for byte under a name with its extension; every route but
      one is reached with its parameters, and exactly the listed handlers run
      without a token.
    - Discovery. The channel follows the listed services as long as its bounded
      queue has room or its receiver takes part, and waits for ever otherwise;
      round robin is fair, asking for a channel ends; and the URLs of the
      configuration can be read back as long as nothing in them needs escaping.
      With an agent that follows Consul's documented interface, what is
      registered is listed with all its data, and a polled channel is the
      register.
    - Start-up. In every run of every component the counters are loaded first,
      listeners are bound before they are served and nothing is consumed before
      its stores are open; every start-up ends, and completes when no task
      fails.

    ** Conventions and limits

    Library code is a parameter where a definition needs it ([serde_json],
    [bincode], [nanoid], [jsonwebtoken], the hash of the shard choice,
    [chrono]'s calendar); what is assumed of it is a named hypothesis with a
    witness. SQL, Redis commands, Lua and MongoDB queries are part of the
    source and are given their documented meaning. A spawned task that is
    joined runs in place, which [Joined] justifies for the consumer; its panic
    is a join error of the joiner. The clock
    does not move inside one handler. Tasks that are not joined run side by
    side in any order: at start-up action by action ([Process]), for a
    connection round by round ([ConnTasks]), between the services one piece of
    work at a time ([EndToEnd]), the requests over the database call by call
    ([Services], where a method of a repository or of the cache is one call).
    The receiver of a bounded channel ([Discovery.Chan]) acts in turns
    before, between and after the sends, whatever they are; a process that
    ends and starts again ([Topic.reboot]) loses its memory and nothing else.
    All loops are structural over their
    data, so no fuel is used, and a start-up has a measure that bounds its
    steps; background loops are modelled by one round. Integers
    are unbounded where the source only stores or compares them, and bounded
    by explicit checks where an operation can overflow.

    Of the database: a table is a map from its primary key, a read without an
    order lists it in the map's order; a transaction is all or nothing; the
    lengths of VARCHAR columns and the collation are not modelled. A statement
    that names a missing column, or assigns or compares types PostgreSQL does
    not convert, is refused by the server before it does anything; such a
    statement is written down as the list of its columns and types ([Stmt]).
    What the server would do with one of the statements on columns no table
    has is a parameter of the model ([PgServer]), given the statement, its
    bound values and the tables.
    The body of a request arrives parsed; what parsing refuses is an argument.

    Not modelled: the libraries' own code (tonic and prost, the generator, the
    OAuth2, mail and HTTP clients, YAML and JSON parsing, the Consul agent and
    the registry process), which appear as parameters; the sockets below a frame
    or a request; the interleaving of the statements within one method of a
    repository or the cache, and of the tasks one request of the API joins. What
    is left of the sources are the generated builders of the clients and of the
    second server, which set what [Rpc] has for the first one, the tests with
    their helpers and databases, and the benchmarks. *)

From stdpp Require Export base tactics list gmap strings sets fin_maps sorting.
From Stdlib Require Export ZArith Lia.

Declare Scope sandcat_scope.
Delimit Scope sandcat_scope with sandcat.

(** ** Machine integers of the source *)

Definition i64_max : Z := 9223372036854775807.
Definition i64_min : Z := -9223372036854775808.
Definition u64_modulus : Z := 18446744073709551616.
Definition in_i64 (z : Z) : bool := bool_decide (i64_min ≤ z)%Z && bool_decide (z ≤ i64_max)%Z.

(** [z as u8], [z as u32], [z as u64]: reduction modulo the width. *)
Definition as_u8 (z : Z) : Z := (z mod 256)%Z.
Definition as_u32 (z : Z) : Z := (z mod 4294967296)%Z.
Definition as_u64 (z : Z) : Z := (z mod u64_modulus)%Z.

(** ** Outcomes

    A Rust call returns [Ok], returns [Err], panics, or never completes (it
    waits for a channel or a lock that nobody will release). A panic inside a
    spawned task is observed by the joiner as a [JoinError]. *)

Inductive outcome (E A : Type) : Type :=
| Ok (a : A)
| Err (e : E)
| Panic
| Hang.
Arguments Ok {E A} a.
Arguments Err {E A} e.
Arguments Panic {E A}.
Arguments Hang {E A}.

Definition is_ok {E A} (o : outcome E A) : bool :=
  match o with Ok _ => true | _ => false end.

(** ** The state-and-error monad *)

Definition M (S E A : Type) : Type := S → outcome E A * S.

Global Instance M_ret {S E} : MRet (M S E) := λ A a s, (Ok a, s).
Global Instance M_bind {S E} : MBind (M S E) := λ A B k m s,
  match m s with
  | (Ok a, s') => k a s'
  | (Err e, s') => (Err e, s')
  | (Panic, s') => (Panic, s')
  | (Hang, s') => (Hang, s')
  end.

Definition throw {S E A} (e : E) : M S E A := λ s, (Err e, s).
Definition panic {S E A} : M S E A := λ s, (Panic, s).
Definition hang {S E A} : M S E A := λ s, (Hang, s).
Definition gets {S E A} (f : S → A) : M S E A := λ s, (Ok (f s), s).
Definition modify {S E} (f : S → S) : M S E unit := λ s, (Ok tt, f s).

(** [match m.await { Ok(a) => .., Err(e) => .. }]: the error becomes a value. *)
Definition attempt {S E A} (m : M S E A) : M S E (E + A) := λ s,
  match m s with
  | (Ok a, s') => (Ok (inr a), s')
  | (Err e, s') => (Ok (inl e), s')
  | (Panic, s') => (Panic, s')
  | (Hang, s') => (Hang, s')
  end.

(** [if let Err(e) = m.await { error!(..) }]: the error is logged and dropped. *)
Definition log_err {S E A} (m : M S E A) : M S E unit := λ s,
  match m s with
  | (Panic, s') => (Panic, s')
  | (Hang, s') => (Hang, s')
  | (_, s') => (Ok tt, s')
  end.

(** [tokio::spawn(m)] followed by the join: a panic becomes a join error. *)
Definition spawn {S E A} (m : M S E A) : M S E (outcome E A) := λ s,
  match m s with
  | (Ok a, s') => (Ok (Ok a), s')
  | (Err e, s') => (Ok (Err e), s')
  | (Panic, s') => (Ok Panic, s')
  | (Hang, s') => (Hang, s')
  end.

(** [m.await.unwrap()]: an error becomes a panic. *)
Definition unwrap {S E A} (m : M S E A) : M S E A := λ s,
  match m s with
  | (Err _, s') => (Panic, s')
  | x => x
  end.

Definition from_option {S E A} (e : E) (o : option A) : M S E A :=
  match o with Some a => mret a | None => throw e end.

(** [for x in l { f(x).await?; }] *)
Fixpoint for_each {S E A} (l : list A) (f : A → M S E unit) : M S E unit :=
  match l with
  | [] => mret tt
  | x :: l' => f x ;; for_each l' f
  end.

(** ** Frames

    [keeps R m]: every run of [m], whether it ends in a value, an error or a
    panic, takes the state to an [R]-related one. With [R] an equality of
    projections this is a frame; with [R s s' := I s → I s'] it is the
    preservation of the invariant [I] on every path. *)

Definition keeps {S E A} (R : S → S → Prop) (m : M S E A) : Prop :=
  ∀ s, R s (m s).2.

Definition preserving {S} (I : S → Prop) (s s' : S) : Prop := I s → I s'.
Definition same {S X} (f : S → X) (s s' : S) : Prop := f s' = f s.

Global Instance preserving_preorder {S} (I : S → Prop) : PreOrder (preserving I).
Proof. split; unfold preserving; [intros s; auto|intros s1 s2 s3; auto]. Qed.

Global Instance same_preorder {S X} (f : S → X) : PreOrder (same f).
Proof. split; unfold same; [done|intros ???; congruence]. Qed.

Create HintDb frames.

Section frames.
Context {S E : Type} (R : S → S → Prop) `{!PreOrder R}.

Lemma keeps_ret {A} (a : A) : keeps (E := E) R (mret a).
Proof. intros s. reflexivity. Qed.

Lemma keeps_throw {A} (e : E) : keeps (A := A) R (throw e).
Proof. intros s. reflexivity. Qed.

Lemma keeps_panic {A} : keeps (E := E) (A := A) R panic.
Proof. intros s. reflexivity. Qed.

Lemma keeps_hang {A} : keeps (E := E) (A := A) R hang.
Proof. intros s. reflexivity. Qed.

Lemma keeps_unwrap {A} (m : M S E A) : keeps R m → keeps R (unwrap m).
Proof.
  intros Hm s. specialize (Hm s). unfold unwrap. by destruct (m s) as [[] ?].
Qed.

Lemma keeps_gets {A} (f : S → A) : keeps (E := E) R (gets f).
Proof. intros s. reflexivity. Qed.

Lemma keeps_bind {A B} (m : M S E A) (k : A → M S E B) :
  keeps R m → (∀ a, keeps R (k a)) → keeps R (m ≫= k).
Proof.
  intros Hm Hk s. specialize (Hm s). unfold mbind, M_bind.
  destruct (m s) as [[a|e| |] s']; simpl in *; try done.
  etrans; [exact Hm|]. apply Hk.
Qed.

Lemma keeps_attempt {A} (m : M S E A) : keeps R m → keeps R (attempt m).
Proof.
  intros Hm s. specialize (Hm s). unfold attempt. by destruct (m s) as [[] ?].
Qed.

Lemma keeps_log_err {A} (m : M S E A) : keeps R m → keeps R (log_err m).
Proof.
  intros Hm s. specialize (Hm s). unfold log_err. by destruct (m s) as [[] ?].
Qed.

Lemma keeps_spawn {A} (m : M S E A) : keeps R m → keeps R (spawn m).
Proof.
  intros Hm s. specialize (Hm s). unfold spawn. by destruct (m s) as [[] ?].
Qed.

Lemma keeps_from_option {A} (e : E) (o : option A) : keeps R (from_option e o).
Proof. destruct o; [apply keeps_ret|apply keeps_throw]. Qed.

Lemma keeps_for_each {A} (l : list A) (f : A → M S E unit) :
  (∀ x, keeps R (f x)) → keeps R (for_each l f).
Proof.
  intros Hf. induction l as [|x l IH]; simpl; [apply keeps_ret|].
  apply keeps_bind; [apply Hf|]. intros _. exact IH.
Qed.

Lemma keeps_if {A} (b : bool) (m1 m2 : M S E A) :
  keeps R m1 → keeps R m2 → keeps R (if b then m1 else m2).
Proof. by destruct b. Qed.
End frames.

#[export] Hint Resolve keeps_ret keeps_throw keeps_panic keeps_hang keeps_unwrap keeps_gets keeps_bind
  keeps_attempt keeps_log_err keeps_spawn keeps_from_option keeps_for_each keeps_if : frames.

(** ** Runs *)

Lemma bind_ok {S E A B} (m : M S E A) (k : A → M S E B) s a s' :
  m s = (Ok a, s') → (m ≫= k) s = k a s'.
Proof. intros H. unfold mbind, M_bind. by rewrite H. Qed.

Lemma bind_err {S E A B} (m : M S E A) (k : A → M S E B) s e s' :
  m s = (Err e, s') → (m ≫= k) s = (Err e, s').
Proof. intros H. unfold mbind, M_bind. by rewrite H. Qed.

Lemma log_err_ok {S E A} (m : M S E A) s a s' : m s = (Ok a, s') → log_err m s = (Ok tt, s').
Proof. intros H. unfold log_err. by rewrite H. Qed.

Lemma log_err_err {S E A} (m : M S E A) s e s' : m s = (Err e, s') → log_err m s = (Ok tt, s').
Proof. intros H. unfold log_err. by rewrite H. Qed.

Lemma spawn_ok {S E A} (m : M S E A) s a s' : m s = (Ok a, s') → spawn m s = (Ok (Ok a), s').
Proof. intros H. unfold spawn. by rewrite H. Qed.

Lemma spawn_err {S E A} (m : M S E A) s e s' : m s = (Err e, s') → spawn m s = (Ok (Err e), s').
Proof. intros H. unfold spawn. by rewrite H. Qed.

(** ** Text; characters are given by their code *)

(** [s.split(c)] *)
Fixpoint split_on (c : nat) (s : string) : list string :=
  match s with
  | String.EmptyString => [""%string]
  | String.String a s' =>
      if (Ascii.nat_of_ascii a =? c)%nat then ""%string :: split_on c s'
      else match split_on c s' with
           | x :: xs => String.String a x :: xs
           | [] => [String.String a ""]
           end
  end.

Fixpoint lacks (c : nat) (s : string) : bool :=
  match s with
  | String.EmptyString => true
  | String.String a s' => negb (Ascii.nat_of_ascii a =? c)%nat && lacks c s'
  end.

Lemma lacks_app c (x y : string) : lacks c (x +:+ y) = lacks c x && lacks c y.
Proof. induction x as [|b x IH]; simpl; [done|]. by rewrite IH, andb_assoc. Qed.

Lemma split_on_lacks c s : lacks c s = true → split_on c s = [s].
Proof.
  induction s as [|a s IH]; [done|]. cbn. intros [Ha Hs]%andb_prop.
  destruct (_ =? c)%nat; [done|]. by rewrite IH.
Qed.

(** ** Automation *)

(** Take the first step of a bind, which the fact [H] evaluates. *)
Ltac mrun H := rewrite (bind_ok _ _ _ _ _ H).

(** One symbolic step of a monadic run in the goal. *)
Ltac mstep :=
  unfold mbind, M_bind, mret, M_ret, gets, modify, throw, panic, hang, unwrap, attempt, log_err,
    spawn, from_option; simpl.

(** Case analysis on the innermost match of the goal. *)
Ltac split_match :=
  match goal with
  | |- context [match ?x with _ => _ end] =>
      lazymatch x with
      | context [match _ with _ => _ end] => fail
      | _ => destruct x eqn:?
      end
  end.
