(* ===== verification/Process.v ===== *)
(** * Processes made of tasks

    What the start-up of the services needs of [tokio]: tasks are sequences of
    actions that may spawn further tasks and end by waiting for them with
    [select!] or [try_join!]. A step runs one instruction of one task; the
    process is over when its main task is. Used by [Startup]. *)

From S2P Require Import Prelude.

Inductive Instr (T A : Type) : Type :=
| Do (a : A)
| Spawn (t : T)
| Select (ts : list T)
| TryJoin (ts : list T).
Arguments Do {T A} a.
Arguments Spawn {T A} t.
Arguments Select {T A} ts.
Arguments TryJoin {T A} ts.

(** A task runs, hangs in its last action, or has ended, by a panic or not. *)
Inductive Mode : Type := Live | Blocked | Ended (panicked : bool).
Global Instance Mode_eq_dec : EqDecision Mode.
Proof. solve_decision. Defined.

Section process.
Context {W E T A : Type} `{Countable T}.
Abbreviation Instr := (Instr T A).
Context (code : T → list Instr) (perform : A → M W E unit) (main : T).

(** The tasks with the number of instructions they have begun, and the actions
    that were performed, in order, each given by its task and place. *)
Record Proc : Type := mkProc {
  pr_world : W;
  pr_tasks : gmap T (nat * Mode);
  pr_log : list (T * nat)
}.

Definition start (w : W) : Proc := mkProc w {[main := (0, Live)]} [].

Definition ended (s : Proc) (t : T) : bool :=
  match pr_tasks s !! t with Some (_, Ended _) => true | _ => false end.
Definition panicked (s : Proc) (t : T) : bool :=
  match pr_tasks s !! t with Some (_, Ended true) => true | _ => false end.

Definition put (t : T) (x : nat * Mode) (s : Proc) : Proc :=
  mkProc (pr_world s) (<[t := x]> (pr_tasks s)) (pr_log s).

(** One instruction of task [t], at place [pc]. An error that reaches the top
    of a task was unwrapped, so it is a panic. *)
Definition run_instr (t : T) (pc : nat) (i : Instr) (s : Proc) : option Proc :=
  match i with
  | Do a =>
      let '(o, w) := perform a (pr_world s) in
      let m := match o with Ok _ => Live | Hang => Blocked | _ => Ended true end in
      Some (mkProc w (<[t := (S pc, m)]> (pr_tasks s)) (pr_log s ++ [(t, pc)]))
  | Spawn t' => Some (put t' (0, Live) (put t (S pc, Live) s))
  | Select l => if existsb (ended s) l then Some (put t (S pc, Live) s) else None
  | TryJoin l =>
      if existsb (panicked s) l then Some (put t (S pc, Ended true) s)
      else if forallb (ended s) l then Some (put t (S pc, Live) s) else None
  end.

Definition step_task (t : T) (s : Proc) : option Proc :=
  if ended s main then None
  else match pr_tasks s !! t with
       | Some (pc, Live) =>
           match code t !! pc with
           | Some i => run_instr t pc i s
           | None => Some (put t (pc, Ended false) s)
           end
       | _ => None
       end.

Definition step (s s' : Proc) : Prop := ∃ t, step_task t s = Some s'.
Definition quiescent (s : Proc) : Prop := ∀ t, step_task t s = None.

(** A schedule names the task of each step; a task that cannot run is skipped. *)
Fixpoint run_schedule (ts : list T) (s : Proc) : Proc :=
  match ts with
  | [] => s
  | t :: ts' => run_schedule ts' (match step_task t s with Some s' => s' | None => s end)
  end.

Lemma run_schedule_rtc ts : ∀ s, rtc step s (run_schedule ts s).
Proof.
  induction ts as [|t ts IH]; intros s; [done|]. simpl.
  destruct (step_task t s) as [s'|] eqn:Hs; [|apply IH]. eapply rtc_l; [by exists t|apply IH].
Qed.

(** ** Well-formed programs *)

Definition action_at (t : T) (i : nat) : Prop := ∃ a, code t !! i = Some (Do a).
Definition spawns (p : T) (k : nat) (t : T) : Prop := code p !! k = Some (Spawn t).
Definition waits_for (p t : T) : Prop :=
  ∃ l, t ∈ l ∧ (last (code p) = Some (Select l) ∨ last (code p) = Some (TryJoin l)).

(** Every task is spawned at one place; waiting is the last thing a task does;
    a task that is not waited for is one action; and only a task somebody
    selects on has tasks of its own. *)
Record program_ok : Prop := {
  po_main p k : ¬ spawns p k main;
  po_once p k p' k' t : spawns p k t → spawns p' k' t → p = p' ∧ k = k';
  po_last t k l : code t !! k = Some (Select l) ∨ code t !! k = Some (TryJoin l) → S k = length (code t);
  po_awaited p k t : spawns p k t → waits_for p t ∨ ∃ a, code t = [Do a];
  po_leaf p k t : spawns p k t →
    (∃ l, last (code p) = Some (Select l) ∧ t ∈ l) ∨ ∀ k' t', ¬ spawns t k' t'
}.
Context (Hprog : program_ok).

(** ** The invariant of all runs *)

Record proc_inv (s : Proc) : Prop := {
  pi_pc t pc m : pr_tasks s !! t = Some (pc, m) → pc ≤ length (code t);
  pi_main : is_Some (pr_tasks s !! main);
  pi_panicked t pc : pr_tasks s !! t = Some (pc, Ended true) → 0 < pc;
  pi_log t i : (t, i) ∈ pr_log s ↔ action_at t i ∧ ∃ pc m, pr_tasks s !! t = Some (pc, m) ∧ i < pc;
  pi_spawned p k t : spawns p k t →
    is_Some (pr_tasks s !! t) ↔ ∃ pc m, pr_tasks s !! p = Some (pc, m) ∧ k < pc;
  pi_done t pc : pr_tasks s !! t = Some (pc, Ended false) → pc = length (code t);
  pi_blocked t pc : pr_tasks s !! t = Some (pc, Blocked) → ∃ i, pc = S i ∧ action_at t i
}.

Lemma start_inv w : proc_inv (start w).
Proof.
  split; simpl; intros *.
  - intros [-> ?]%lookup_singleton_Some. simplify_eq. lia.
  - rewrite lookup_singleton_eq. by eexists.
  - intros [_ ?]%lookup_singleton_Some. simplify_eq.
  - split; [set_solver|]. intros (_ & pc & m & [-> ?]%lookup_singleton_Some & ?). simplify_eq. lia.
  - intros Hs. split.
    + intros [x [<- _]%lookup_singleton_Some]. by destruct (po_main Hprog p k).
    + intros (pc & m & [-> ?]%lookup_singleton_Some & ?). simplify_eq. lia.
  - intros [_ ?]%lookup_singleton_Some. simplify_eq.
  - intros [_ ?]%lookup_singleton_Some. simplify_eq.
Qed.

(** What a step does to the tasks: [t] advances, perhaps to its end, and the
    task it spawns appears. *)
Inductive moves (s s' : Proc) (t : T) (pc : nat) : Prop :=
| mv_do a m : code t !! pc = Some (Do a) →
    pr_tasks s' = <[t := (S pc, m)]> (pr_tasks s) → m ≠ Ended false →
    pr_log s' = pr_log s ++ [(t, pc)] → moves s s' t pc
| mv_spawn t' : spawns t pc t' →
    pr_tasks s' = <[t' := (0, Live)]> (<[t := (S pc, Live)]> (pr_tasks s)) →
    pr_log s' = pr_log s → moves s s' t pc
| mv_wait l m : code t !! pc = Some (Select l) ∨ code t !! pc = Some (TryJoin l) →
    pr_tasks s' = <[t := (S pc, m)]> (pr_tasks s) → m = Live ∨ m = Ended true →
    pr_log s' = pr_log s → moves s s' t pc
| mv_end : code t !! pc = None →
    pr_tasks s' = <[t := (pc, Ended false)]> (pr_tasks s) →
    pr_log s' = pr_log s → moves s s' t pc.

Lemma step_moves s s' : step s s' →
  ended s main = false ∧ ∃ t pc, pr_tasks s !! t = Some (pc, Live) ∧ moves s s' t pc.
Proof.
  intros [t Ht]. unfold step_task in Ht. destruct (ended s main); [done|]. split; [done|].
  destruct (pr_tasks s !! t) as [[pc []]|] eqn:Et; try done. exists t, pc. split; [done|].
  destruct (code t !! pc) as [[a|t'|l|l]|] eqn:Ec; simpl in Ht.
  - destruct (perform a (pr_world s)) as [o w]. simplify_eq. eapply mv_do; [done|reflexivity| |done].
    by destruct o.
  - simplify_eq. by eapply mv_spawn.
  - case_match; simplify_eq. eapply mv_wait; [by left|reflexivity|by left|done].
  - repeat case_match; simplify_eq; (eapply mv_wait; [by right|reflexivity|eauto|done]).
  - simplify_eq. by apply mv_end.
Qed.

Definition begun (s : Proc) (t : T) (i : nat) : Prop := ∃ pc m, pr_tasks s !! t = Some (pc, m) ∧ i < pc.

Lemma moves_dom s s' t pc v : pr_tasks s !! t = Some (pc, Live) → moves s s' t pc →
  is_Some (pr_tasks s' !! v) ↔ is_Some (pr_tasks s !! v) ∨ spawns t pc v.
Proof.
  intros Ht Hm. unfold spawns.
  assert (H1 : ∀ x, is_Some (<[t := x]> (pr_tasks s) !! v) ↔ is_Some (pr_tasks s !! v)).
  { intros x. rewrite lookup_insert_is_Some. destruct (decide (t = v)) as [<-|]; [|tauto]. rewrite Ht. split; eauto. }
  destruct Hm as [a m Hc -> _ _|t' Hc -> _|l m Hc -> _ _|Hc -> _]; [| |destruct Hc as [Hc|Hc]|].
  2: { rewrite lookup_insert_is_Some, H1. unfold spawns in Hc. rewrite Hc.
       destruct (decide (t' = v)) as [<-|]; [tauto|]. split; [tauto|]. intros [?|[= ?]]; tauto. }
  all: rewrite H1, Hc; split; [tauto|]; by intros [?|?].
Qed.

Lemma moves_begun s s' t pc u i : proc_inv s → pr_tasks s !! t = Some (pc, Live) → moves s s' t pc →
  begun s' u i ↔ begun s u i ∨ (u = t ∧ i = pc ∧ pc < length (code t)).
Proof.
  intros Hi Ht Hm.
  assert (H1 : ∀ n m (ts : gmap T (nat * Mode)), ts = <[t := (n, m)]> (pr_tasks s) → u ≠ t →
    (∃ pc' m', ts !! u = Some (pc', m') ∧ i < pc') ↔ begun s u i).
  { intros n m ts -> Hne. unfold begun. by rewrite lookup_insert_ne by done. }
  assert (H2 : ∀ n m (ts : gmap T (nat * Mode)), ts = <[t := (n, m)]> (pr_tasks s) →
    (∃ pc' m', ts !! t = Some (pc', m') ∧ i < pc') ↔ i < n).
  { intros n m ts ->. rewrite lookup_insert_eq. split; [intros (? & ? & ? & ?); by simplify_eq|eauto]. }
  assert (Hb : begun s t i ↔ i < pc).
  { unfold begun. rewrite Ht. split; [intros (? & ? & ? & ?); by simplify_eq|eauto]. }
  assert (Hother : u ≠ t → begun s' u i ↔ begun s u i).
  { intros Hne. destruct Hm as [a m Hc Hts _ _|t' Hc Hts _|l m Hc Hts _ _|Hc Hts _]; [by eapply H1| |by eapply H1..].
    unfold begun at 1. rewrite Hts. destruct (decide (t' = u)) as [<-|Hne']; [|rewrite lookup_insert_ne by done; by eapply H1].
    rewrite lookup_insert_eq. split; [intros (? & ? & ? & ?); simplify_eq; lia|].
    intros (pc' & m' & Hu & _). exfalso.
    destruct (proj1 (pi_spawned _ Hi _ _ _ Hc) ltac:(by rewrite Hu)) as (? & ? & ? & ?). simplify_eq. lia. }
  destruct (decide (u = t)) as [->|Hne].
  2: { rewrite (Hother Hne). split; [by left|]. intros [?|[? _]]; [done|by destruct Hne]. }
  assert (Hfin : ∀ n, (n = S pc ∧ pc < length (code t)) ∨ (n = pc ∧ length (code t) ≤ pc) →
    i < n ↔ i < pc ∨ (t = t ∧ i = pc ∧ pc < length (code t))).
  { intros n Hn. split; [|intros [?|(_ & ? & ?)]; lia]. intros ?.
    destruct (decide (i = pc)); [right; split_and!; [done|done|lia]|left; lia]. }
  rewrite Hb. destruct Hm as [a m Hc Hts _ _|t' Hc Hts _|l m Hc Hts _ _|Hc Hts _].
  - apply lookup_lt_Some in Hc. unfold begun. rewrite (H2 _ _ _ Hts). apply Hfin. lia.
  - pose proof Hc as Hlt. apply lookup_lt_Some in Hlt.
    assert (t' ≠ t).
    { intros ->. destruct (proj1 (pi_spawned _ Hi _ _ _ Hc) ltac:(by rewrite Ht)) as (? & ? & ? & ?).
      simplify_eq. lia. }
    unfold begun. rewrite Hts, lookup_insert_ne by done. rewrite (H2 _ _ _ eq_refl). apply Hfin. lia.
  - assert (pc < length (code t)) by (destruct Hc as [Hc|Hc]; by apply lookup_lt_Some in Hc).
    unfold begun. rewrite (H2 _ _ _ Hts). apply Hfin. lia.
  - apply lookup_ge_None in Hc. unfold begun. rewrite (H2 _ _ _ Hts). apply Hfin. lia.
Qed.

Lemma moves_log s s' t pc : moves s s' t pc →
  pr_log s' = pr_log s ++ [(t, pc)] ∧ action_at t pc ∨ pr_log s' = pr_log s ∧ ¬ action_at t pc.
Proof.
  intros [a m Hc _ _ Hl|t' Hc _ Hl|l m Hc _ _ Hl|Hc _ Hl]; [left; split; [done|by exists a]|right..];
    (split; [done|]); intros [b Hb]; unfold spawns in *; try congruence.
  destruct Hc; congruence.
Qed.

Lemma step_inv s s' : proc_inv s → step s s' → proc_inv s'.
Proof.
  intros Hi (_ & t & pc & Ht & Hm)%step_moves.
  pose proof (λ u i, moves_begun s s' t pc u i Hi Ht Hm) as Hbegun.
  pose proof (λ v, moves_dom s s' t pc v Ht Hm) as Hdom.
  assert (Hpc : pc ≤ length (code t)) by (by eapply pi_pc).
  (* a task of the new state is an old one, the new one, or [t] *)
  assert (Hcase : ∀ u n m, pr_tasks s' !! u = Some (n, m) →
    pr_tasks s !! u = Some (n, m) ∨ (n = 0 ∧ m = Live) ∨
    (u = t ∧ ((n = S pc ∧ pc < length (code t) ∧ m ≠ Ended false ∧ (m = Blocked → action_at t pc))
              ∨ (n = pc ∧ n = length (code t) ∧ m = Ended false)))).
  { intros u n m Hu. destruct Hm as [a m' Hc Hts Hm' _|t' Hc Hts _|l m' Hc Hts Hm' _|Hc Hts _];
      rewrite Hts in Hu.
    - apply lookup_insert_Some in Hu as [[<- ?]|[_ ?]]; [|by left]. simplify_eq. right; right.
      split; [done|]. left. split_and!; [done|by eapply lookup_lt_Some|done|]. intros _. by exists a.
    - apply lookup_insert_Some in Hu as [[<- ?]|[_ Hu]]; [right; left; by simplify_eq|].
      apply lookup_insert_Some in Hu as [[<- ?]|[_ ?]]; [|by left]. simplify_eq. right; right.
      split; [done|]. left. split_and!; [done|by eapply lookup_lt_Some|done|done].
    - apply lookup_insert_Some in Hu as [[<- ?]|[_ ?]]; [|by left]. simplify_eq. right; right.
      split; [done|]. left. split_and!; [done| |by destruct Hm' as [-> | ->]|by destruct Hm' as [-> | ->]].
      destruct Hc as [Hc|Hc]; by eapply lookup_lt_Some.
    - apply lookup_insert_Some in Hu as [[<- ?]|[_ ?]]; [|by left]. simplify_eq. right; right.
      split; [done|]. right. apply lookup_ge_None in Hc. split_and!; [done|lia|done]. }
  split.
  - intros u n m [?|[[-> _]|(-> & [(-> & ? & _)|(-> & ? & _)])]]%Hcase; [by eapply pi_pc|lia..].
  - apply Hdom. left. apply (pi_main _ Hi).
  - intros u n [?|[[_ ?]|(-> & [(-> & _)|(_ & _ & ?)])]]%Hcase; [by eapply pi_panicked|done|lia|done].
  - intros u i. fold (begun s' u i). rewrite Hbegun.
    destruct (moves_log _ _ _ _ Hm) as [[-> Ha]|[-> Hna]].
    + rewrite elem_of_app, (pi_log _ Hi). fold (begun s u i). rewrite list_elem_of_singleton.
      assert (pc < length (code t)) by (destruct Ha as [? ?]; by eapply lookup_lt_Some).
      split; [intros [[? ?]|[= -> ->]]|intros [? [?|(-> & -> & _)]]]; auto.
    + rewrite (pi_log _ Hi). fold (begun s u i).
      split; [intros [? ?]|intros [? [?|(-> & -> & _)]]]; auto. done.
  - intros p k v Hs. fold (begun s' p k). rewrite Hbegun, Hdom, (pi_spawned _ Hi _ _ _ Hs). fold (begun s p k).
    split; [|intros [?|(-> & -> & _)]; auto]. intros [?|Hs']; [by left|]. right.
    destruct (po_once Hprog _ _ _ _ _ Hs Hs') as [-> ->]. split_and!; [done..|by eapply lookup_lt_Some].
  - intros u n [?|[[_ ?]|(-> & [(-> & ? & ? & _)|(-> & ? & _)])]]%Hcase; [by eapply pi_done|done..].
  - intros u n [?|[[_ ?]|(-> & [(-> & ? & ? & Hb)|(-> & ? & ?)])]]%Hcase; [by eapply pi_blocked|done| |done].
    exists pc. split; [done|by apply Hb].
Qed.

Lemma steps_inv s s' : proc_inv s → rtc step s s' → proc_inv s'.
Proof. intros Hi Hr. induction Hr as [|x y z Hs _ IH]; [done|]. apply IH. by eapply step_inv. Qed.

Lemma reach_inv w s : rtc step (start w) s → proc_inv s.
Proof. apply steps_inv, start_inv. Qed.

(** ** Order: what an action of a task comes after *)

(** [x] is performed before task [t] exists: in a task that spawns it later, or
    before such a task exists. *)
Inductive before_task (x : T * nat) : T → Prop :=
| bt_here k t : spawns x.1 k t → x.2 < k → before_task x t
| bt_up p k t : spawns p k t → before_task x p → before_task x t.

(** Earlier in its own task, or before that task was spawned. *)
Definition direct (x y : T * nat) : Prop :=
  action_at x.1 x.2 ∧ ((x.1 = y.1 ∧ x.2 < y.2) ∨ before_task x y.1).

Definition ordered (s : Proc) : Prop :=
  ∀ n y, pr_log s !! n = Some y → ∀ x, direct x y → x ∈ take n (pr_log s).

Lemma before_begun s x t : proc_inv s → before_task x t → is_Some (pr_tasks s !! t) → begun s x.1 x.2.
Proof.
  intros Hi Hb. induction Hb as [k t Hk Hlt|p k t Hk _ IH]; intros Ht; apply (pi_spawned _ Hi _ _ _ Hk) in Ht.
  - destruct Ht as (n & m & ? & ?). exists n, m. split; [done|lia].
  - destruct Ht as (n & m & Hp & _). apply IH. by rewrite Hp.
Qed.

Lemma step_ordered s s' : proc_inv s → ordered s → step s s' → ordered s'.
Proof.
  intros Hi Ho (_ & t & pc & Ht & Hm)%step_moves.
  destruct (moves_log _ _ _ _ Hm) as [[Hl Ha]|[Hl _]]; unfold ordered; rewrite Hl; [|exact Ho].
  intros n y Hn x Hx. apply lookup_app_Some in Hn as [Hn|[Hge Hn]].
  - rewrite take_app_le; [by eapply Ho|]. apply lookup_lt_Some in Hn. lia.
  - apply list_lookup_singleton_Some in Hn as [Hn <-]. replace n with (length (pr_log s)) by lia.
    rewrite take_app_length. destruct x as [p i]. destruct Hx as [Hp Hx]. simpl in *.
    apply (pi_log _ Hi). split; [done|]. destruct Hx as [[-> ?]|Hb]; [by eauto|].
    apply (before_begun s (p, i) t Hi Hb). by rewrite Ht.
Qed.

Lemma reach_ordered w s : rtc step (start w) s → ordered s.
Proof.
  assert (H0 : ordered (start w)) by (intros n y; simpl; rewrite lookup_nil; done).
  intros Hr. pose proof (start_inv w) as Hi. revert Hi H0. induction Hr as [|x y z Hs _ IH]; [done|].
  intros Hi Ho. apply IH; [by eapply step_inv|by eapply step_ordered].
Qed.

(** ** Every run is finite *)

Definition weight (s : Proc) (t : T) : nat :=
  match pr_tasks s !! t with
  | None => S (2 * length (code t))
  | Some (pc, Live) => S (2 * (length (code t) - pc))
  | Some _ => 0
  end.
Definition measure (all : list T) (s : Proc) : nat := sum_list_with (weight s) all.

Lemma sum_list_lt (f g : T → nat) (l : list T) (t : T) :
  (∀ u, f u ≤ g u) → t ∈ l → f t < g t → sum_list_with f l < sum_list_with g l.
Proof.
  intros Hle Hin Hlt.
  assert (Hall : ∀ l, sum_list_with f l ≤ sum_list_with g l).
  { clear -Hle. intros l. induction l as [|y l IH]; simpl; [lia|]. specialize (Hle y). lia. }
  induction l as [|x l IH]; simpl; [by apply not_elem_of_nil in Hin|]. specialize (Hall l).
  apply elem_of_cons in Hin as [<-|Hin]; [lia|]. specialize (Hle x). specialize (IH Hin). lia.
Qed.

Lemma step_measure all s s' : (∀ t, t ∈ all) → proc_inv s → step s s' → measure all s' < measure all s.
Proof.
  intros Hall Hi (_ & t & pc & Ht & Hm)%step_moves. apply (sum_list_lt _ _ _ t); [|done|].
  all: unfold weight.
  - intros u. destruct (decide (u = t)) as [->|Hne].
    + rewrite Ht. destruct Hm as [a m _ -> _ _|t' Hc -> _|l m _ -> _ _|_ -> _]; rewrite ?lookup_insert_eq.
      * destruct m; lia.
      * destruct (decide (t' = t)) as [->|]; [|rewrite lookup_insert_ne, lookup_insert_eq by done; lia].
        destruct (proj1 (pi_spawned _ Hi _ _ _ Hc) ltac:(by rewrite Ht)) as (? & ? & ? & ?). simplify_eq. lia.
      * destruct m; lia.
      * lia.
    + destruct Hm as [a m _ -> _ _|t' Hc -> _|l m _ -> _ _|_ -> _]; rewrite ?(lookup_insert_ne _ t u) by done; [done| |done..].
      destruct (decide (t' = u)) as [->|Hne']; [|by rewrite !lookup_insert_ne by done].
      rewrite lookup_insert_eq. destruct (pr_tasks s !! u) as [x|] eqn:Eu; [|lia].
      destruct (proj1 (pi_spawned _ Hi _ _ _ Hc) ltac:(by rewrite Eu)) as (? & ? & ? & ?). simplify_eq. lia.
  - pose proof (pi_pc _ Hi _ _ _ Ht). rewrite Ht.
    destruct Hm as [a m Hc -> _ _|t' Hc -> _|l m Hc -> _ _|Hc -> _].
    + apply lookup_lt_Some in Hc. rewrite lookup_insert_eq. destruct m; lia.
    + assert (t' ≠ t).
      { intros ->. destruct (proj1 (pi_spawned _ Hi _ _ _ Hc) ltac:(by rewrite Ht)) as (? & ? & ? & ?).
        simplify_eq. lia. }
      apply lookup_lt_Some in Hc. rewrite lookup_insert_ne, lookup_insert_eq by done. lia.
    + assert (pc < length (code t)) by (destruct Hc as [Hc|Hc]; by apply lookup_lt_Some in Hc).
      rewrite lookup_insert_eq. destruct m; lia.
    + rewrite lookup_insert_eq. lia.
Qed.

Lemma run_bounded all n : (∀ t, t ∈ all) → ∀ s s', proc_inv s → nsteps step n s s' → n + measure all s' ≤ measure all s.
Proof.
  intros Hall s s' Hi Hn. induction Hn as [|n x y z Hs _ IH]; [done|].
  pose proof (step_measure all _ _ Hall Hi Hs). specialize (IH (step_inv _ _ Hi Hs)). lia.
Qed.

(** ** Where a process can come to rest *)

(** The tasks of a program: its main task and what they spawn. *)
Definition belongs : T → Prop := rtc (λ p t, ∃ k, spawns p k t) main.

Section rest.
Context (s : Proc) (Hi : proc_inv s) (Hq : quiescent s) (Hrun : ended s main = false).
Context (Hend : ∀ t pc, pr_tasks s !! t = Some (pc, Blocked) → pc = length (code t)).

Lemma live_waits t pc : pr_tasks s !! t = Some (pc, Live) →
  S pc = length (code t) ∧ ∃ l, (code t !! pc = Some (Select l) ∧ existsb (ended s) l = false)
    ∨ (code t !! pc = Some (TryJoin l) ∧ existsb (panicked s) l = false).
Proof.
  intros Ht. specialize (Hq t). unfold step_task in Hq. rewrite Hrun, Ht in Hq.
  destruct (code t !! pc) as [i|] eqn:Ec; [|done]. destruct i as [a|t'|l|l]; simpl in Hq.
  - by destruct (perform a _).
  - done.
  - destruct (existsb _ l) eqn:El; [done|]. split; [eapply po_last; eauto|eauto].
  - destruct (existsb _ l) eqn:El; [done|]. split; [eapply po_last; eauto|eauto].
Qed.

(** A task that has not panicked has begun all its actions and spawns. *)
Lemma all_begun t i : is_Some (pr_tasks s !! t) → panicked s t = false →
  action_at t i ∨ (∃ v, spawns t i v) → begun s t i.
Proof.
  intros [[pc m] Ht] Hp Hinstr. exists pc, m. split; [done|]. unfold panicked in Hp. rewrite Ht in Hp.
  assert (Hlt : i < length (code t)) by (destruct Hinstr as [[? ?]|[? ?]]; by eapply lookup_lt_Some).
  destruct m as [| |[]]; [| |done|].
  - destruct (live_waits t pc Ht) as (Hlen & l & Hw). destruct (decide (i = pc)) as [->|]; [|lia].
    unfold action_at, spawns in Hinstr. exfalso.
    destruct Hw as [[Hc _]|[Hc _]], Hinstr as [[? ?]|[? ?]]; congruence.
  - rewrite (Hend _ _ Ht). done.
  - rewrite (pi_done _ Hi _ _ Ht). done.
Qed.

(** What a task that has not ended waits for has not happened. *)
Lemma awaited p t : ended s p = false → is_Some (pr_tasks s !! p) → waits_for p t →
  panicked s t = false ∧ ((∃ l, last (code p) = Some (Select l) ∧ t ∈ l) → ended s t = false).
Proof.
  intros Hp [[pc m] Ht] (l & Hin & Hl). unfold ended in Hp. rewrite Ht in Hp.
  assert (Hex : ∀ f : T → bool, existsb f l = false → f t = false).
  { intros f Hf. apply not_true_is_false. intros Hft. apply not_true_iff_false in Hf. apply Hf.
    apply existsb_exists. exists t. split; [by apply list_elem_of_In|done]. }
  assert (Hpan : ended s t = false → panicked s t = false).
  { unfold ended, panicked. by destruct (pr_tasks s !! t) as [[? [| |[]]]|]. }
  rewrite last_lookup in Hl. destruct m as [| |]; [| |done].
  - destruct (live_waits p pc Ht) as (Hlen & l' & Hw). rewrite last_lookup, <- Hlen in *. simpl in *.
    destruct Hw as [[Hc He]|[Hc He]], Hl as [Hl|Hl]; simplify_eq.
    + split; [by apply Hpan, Hex|]. intros _. by apply Hex.
    + split; [by apply Hex|]. intros (? & ? & _). congruence.
  - exfalso. destruct (pi_blocked _ Hi _ _ Ht) as (i & -> & a & Ha). rewrite <- (Hend _ _ Ht) in Hl.
    simpl in Hl. destruct Hl; congruence.
Qed.

Lemma rest_complete t : belongs t →
  is_Some (pr_tasks s !! t)
  ∧ (∀ i, action_at t i → (t, i) ∈ pr_log s)
  ∧ (∀ p k, belongs p → spawns p k t → waits_for p t →
       panicked s t = false ∧ ((∃ l, last (code p) = Some (Select l) ∧ t ∈ l) → ended s t = false)).
Proof.
  assert (Hb : ∀ t, belongs t → is_Some (pr_tasks s !! t) ∧ ((∃ k v, spawns t k v) → ended s t = false)
    ∧ (panicked s t = true → ∃ a, code t = [Do a])).
  { assert (Hmain : panicked s main = false).
    { revert Hrun. unfold ended, panicked. by destruct (pr_tasks s !! main) as [[? [| |[]]]|]. }
    unfold belongs. apply rtc_ind_r; [|intros p u _ [k Hk] IH].
    - split_and!; [apply (pi_main _ Hi)|done|]. rewrite Hmain. done.
    - destruct IH as (Hsome & Hne & _). specialize (Hne ltac:(eauto)).
      assert (Hpp : panicked s p = false).
      { revert Hne. unfold ended, panicked. by destruct (pr_tasks s !! p) as [[? [| |[]]]|]. }
      split_and!.
      + apply (pi_spawned _ Hi _ _ _ Hk). apply all_begun; eauto.
      + intros (k' & v & Hv). destruct (po_leaf Hprog _ _ _ Hk) as [(l & Hl & Hin)|Hleaf]; [|by destruct (Hleaf k' v)].
        apply (awaited p u); [done..| |eauto]. exists l. eauto.
      + intros Hpu. destruct (po_awaited Hprog _ _ _ Hk) as [Hw|Ha]; [|exact Ha].
        apply (awaited p u Hne Hsome) in Hw as [Hw _]. congruence. }
  intros Ht. destruct (Hb t Ht) as (Hsome & _ & Hsingle). split_and!; [done| |].
  - intros i Ha. apply (pi_log _ Hi). split; [done|]. fold (begun s t i).
    destruct (panicked s t) eqn:Hp; [|apply all_begun; auto].
    destruct (Hsingle eq_refl) as [a Hc]. destruct Hsome as [[pc m] Hs]. exists pc, m. split; [done|].
    unfold panicked in Hp. rewrite Hs in Hp. destruct m as [| |[]]; try done.
    pose proof (pi_panicked _ Hi _ _ Hs). destruct Ha as [b Hb']. rewrite Hc in Hb'.
    apply list_lookup_singleton_Some in Hb' as [-> _]. done.
  - intros p k Hbp Hk Hw. destruct (Hb p Hbp) as (Hsp & Hnep & _). apply (awaited p t); eauto.
Qed.
End rest.
End process.
