(* ===== verification/Script.v ===== *)
(** * Programs as scripts of calls

    A program of the monad, taken apart into the calls it makes one after the
    other: [run] puts a script back together, [stepwise] says that a program is
    one whose every call is of a given kind. Scripts are what interleaves: a
    [config] is a state with the scripts in progress, and a step is one call of
    one of them, a script that starts, one that is dropped half way, or
    something the environment does. *)

From S2P Require Import Prelude.

Section scripts.
Context {S E : Type}.

Inductive script (A : Type) : Type :=
| Done (o : outcome E A)
| Call {X : Type} (op : M S E X) (k : outcome E X → script A).
Arguments Done {A} o.
Arguments Call {A X} op k.

Fixpoint run {A} (p : script A) : M S E A := λ s,
  match p with
  | Done o => (o, s)
  | Call op k => let '(o, s') := op s in run (k o) s'
  end.

Fixpoint sbind {A B} (p : script A) (f : outcome E A → script B) : script B :=
  match p with
  | Done o => f o
  | Call op k => Call op (λ o, sbind (k o) f)
  end.

Lemma run_sbind {A B} (p : script A) (f : outcome E A → script B) s :
  run (sbind p f) s = let '(o, s') := run p s in run (f o) s'.
Proof.
  revert s. induction p as [o|X op k IH]; intros s; simpl; [done|].
  destruct (op s) as [o s']. apply IH.
Qed.

(** Every call of the script is of the kind [P]. *)
Fixpoint calls (P : ∀ X, M S E X → Prop) {A} (p : script A) : Prop :=
  match p with
  | Done _ => True
  | Call op k => P _ op ∧ ∀ o, calls P (k o)
  end.

Lemma calls_sbind P {A B} (p : script A) (f : outcome E A → script B) :
  calls P p → (∀ o, calls P (f o)) → calls P (sbind p f).
Proof.
  intros Hp Hf. induction p as [o|X op k IH]; simpl; [apply Hf|].
  destruct Hp as [Hop Hk]. split; [done|]. intros o. by apply IH.
Qed.

(** What every call keeps, the script keeps. *)
Lemma keeps_run (R : S → S → Prop) `{!PreOrder R} {A} (p : script A) :
  calls (λ X m, keeps R m) p → keeps R (run p).
Proof.
  induction p as [o|X op k IH]; simpl; [intros _ s; reflexivity|]. intros [Hop Hk] s.
  specialize (Hop s). destruct (op s) as [o s']. etrans; [exact Hop|]. by apply IH.
Qed.

Record stepwise (P : ∀ X, M S E X → Prop) {A} (m : M S E A) : Type := mkStepwise {
  sw_script : script A;
  sw_run s : run sw_script s = m s;
  sw_calls : calls P sw_script
}.
Arguments mkStepwise {P A m}.
Arguments sw_script {P A m}.
Arguments sw_run {P A m}.
Arguments sw_calls {P A m}.

(** ** Taking a program apart *)

Section parts.
Context {P : ∀ X, M S E X → Prop}.

Lemma stepwise_call {A} (m : M S E A) : P A m → stepwise P m.
Proof.
  intros H. exists (Call m Done).
  - intros s. simpl. by destruct (m s).
  - by split.
Defined.

Lemma stepwise_pure {A} (m : M S E A) o : (∀ s, m s = (o, s)) → stepwise P m.
Proof. intros H. exists (Done o); [intros s; by rewrite H|done]. Defined.

(** The rest of a program may look at how the first part ended. *)
Lemma stepwise_then {A B} (m : M S E A) (f : outcome E A → M S E B) (m' : M S E B) :
  stepwise P m → (∀ o, stepwise P (f o)) → (∀ s, m' s = let '(o, s') := m s in f o s') → stepwise P m'.
Proof.
  intros [p Hp Hc] Hf Hm. exists (sbind p (λ o, sw_script (Hf o))).
  - intros s. rewrite run_sbind, Hm, Hp. destruct (m s) as [o s']. apply sw_run.
  - apply calls_sbind; [done|]. intros o. apply sw_calls.
Defined.

Lemma stepwise_map {A B} (m : M S E A) (f : outcome E A → outcome E B) (m' : M S E B) :
  stepwise P m → (∀ s, m' s = let '(o, s') := m s in (f o, s')) → stepwise P m'.
Proof. intros Hm. apply (stepwise_then m (λ o s, (f o, s))); [done|]. intros o. by apply (stepwise_pure _ (f o)). Defined.

Lemma stepwise_ret {A} (a : A) : stepwise P (mret a : M S E A).
Proof. by apply (stepwise_pure _ (Ok a)). Defined.
Lemma stepwise_throw {A} (e : E) : stepwise P (throw e : M S E A).
Proof. by apply (stepwise_pure _ (Err e)). Defined.
Lemma stepwise_panic {A} : stepwise P (panic : M S E A).
Proof. by apply (stepwise_pure _ Panic). Defined.
Lemma stepwise_hang {A} : stepwise P (hang : M S E A).
Proof. by apply (stepwise_pure _ Hang). Defined.
Lemma stepwise_from_option {A} e (o : option A) : stepwise P (from_option e o : M S E A).
Proof. destruct o; [apply stepwise_ret|apply stepwise_throw]. Defined.

Lemma stepwise_bind {A B} (m : M S E A) (k : A → M S E B) :
  stepwise P m → (∀ a, stepwise P (k a)) → stepwise P (m ≫= k).
Proof.
  intros Hm Hk. apply (stepwise_then m (λ o, match o with
    | Ok a => k a | Err e => throw e | Panic => panic | Hang => hang end)); [done| |].
  - intros []; [apply Hk|apply stepwise_throw|apply stepwise_panic|apply stepwise_hang].
  - intros s. unfold mbind, M_bind. by destruct (m s) as [[] ?].
Defined.

Lemma stepwise_attempt {A} (m : M S E A) : stepwise P m → stepwise P (attempt m).
Proof.
  intros Hm. apply (stepwise_map m (λ o, match o with
    | Ok a => Ok (inr a) | Err e => Ok (inl e) | Panic => Panic | Hang => Hang end)); [done|].
  intros s. unfold attempt. by destruct (m s) as [[] ?].
Defined.
Lemma stepwise_log_err {A} (m : M S E A) : stepwise P m → stepwise P (log_err m).
Proof.
  intros Hm. apply (stepwise_map m (λ o, match o with Panic => Panic | Hang => Hang | _ => Ok tt end)); [done|].
  intros s. unfold log_err. by destruct (m s) as [[] ?].
Defined.
Lemma stepwise_spawn {A} (m : M S E A) : stepwise P m → stepwise P (spawn m).
Proof.
  intros Hm. apply (stepwise_map m (λ o, match o with Hang => Hang | _ => Ok o end)); [done|].
  intros s. unfold spawn. by destruct (m s) as [[] ?].
Defined.
Lemma stepwise_unwrap {A} (m : M S E A) : stepwise P m → stepwise P (unwrap m).
Proof.
  intros Hm. apply (stepwise_map m (λ o, match o with Err _ => Panic | _ => o end)); [done|].
  intros s. unfold unwrap. by destruct (m s) as [[] ?].
Defined.

Lemma stepwise_if {A} (b : bool) (m m' : M S E A) : stepwise P m → stepwise P m' → stepwise P (if b then m else m').
Proof. by destruct b. Defined.
Lemma stepwise_for_each {A} (l : list A) (f : A → M S E unit) :
  (∀ x, stepwise P (f x)) → stepwise P (for_each l f).
Proof.
  intros Hf. induction l as [|x l IH]; simpl; [apply stepwise_ret|].
  apply stepwise_bind; [apply Hf|]. intros _. apply IH.
Defined.
End parts.

(** ** Scripts side by side *)

Section sched.
Context {R : Type} (start : R → script unit) (env : S → S → Prop).

Definition config : Type := S * list (script unit).

Inductive sched_step : config → config → Prop :=
| StepStart r s ps : sched_step (s, ps) (s, ps ++ [start r])
| StepCall {X} i (op : M S E X) k s ps :
    ps !! i = Some (Call op k) → sched_step (s, ps) ((op s).2, <[i := k (op s).1]> ps)
| StepDrop i s ps : sched_step (s, ps) (s, delete i ps)
| StepEnv s s' ps : env s s' → sched_step (s, ps) (s', ps).

(** What every call and the environment keep, every interleaving keeps. *)
Lemma sched_keeps (P : ∀ X, M S E X → Prop) (I : S → Prop) c c' :
  (∀ r, calls P (start r)) → (∀ X (op : M S E X), P X op → keeps (preserving I) op) →
  (∀ s s', env s s' → I s → I s') →
  rtc sched_step c c' → I c.1 ∧ Forall (calls P) c.2 → I c'.1 ∧ Forall (calls P) c'.2.
Proof.
  intros Hstart Hop Henv. induction 1 as [c|c c1 c' Hstep _ IH]; [done|]. intros [HI Hps]. apply IH.
  destruct Hstep as [r s ps|X i op k s ps Hi|i s ps|s s' ps He]; simpl in *.
  - split; [done|]. apply Forall_app. split; [done|]. by apply Forall_singleton.
  - assert (Hc : calls P (Call op k)) by (rewrite Forall_lookup in Hps; by eapply Hps).
    destruct Hc as [H1 H2].
    split; [by apply (Hop _ op)|]. apply Forall_insert; [done|]. apply H2.
  - split; [done|]. rewrite delete_take_drop. apply Forall_app. split; [by apply Forall_take|by apply Forall_drop].
  - split; [by eapply Henv|done].
Qed.

(** A run of scripts is a run of another relation, with some record [T] beside
    the state, when every call and the environment are steps of it. *)
Lemma sched_lifts {T} (P : ∀ X, M S E X → Prop) (stepT : S * T → S * T → Prop) (t0 : T) s0 s ps :
  (∀ r, calls P (start r)) →
  (∀ X (op : M S E X) v t, P X op → ∃ t', stepT (v, t) ((op v).2, t')) →
  (∀ v v' t, env v v' → ∃ t', stepT (v, t) (v', t')) →
  rtc sched_step (s0, []) (s, ps) →
  Forall (calls P) ps ∧ ∃ t, rtc stepT (s0, t0) (s, t).
Proof.
  intros Hstart Hop Henv Hrun.
  apply (rtc_ind_r (R := sched_step) (λ c, Forall (calls P) c.2 ∧ ∃ t, rtc stepT (s0, t0) (c.1, t)) (s0, []))
    with (z := (s, ps)); [split; [constructor|by exists t0]| |done].
  intros c c' _ Hstep [Hps [t Ht]].
  destruct Hstep as [r v qs|X i op k v qs Hi|i v qs|v v' qs He]; simpl in *.
  - split; [|by exists t]. apply Forall_app. split; [done|]. by apply Forall_singleton.
  - assert (Hc : calls P (Call op k)) by (rewrite Forall_lookup in Hps; by eapply Hps). destruct Hc as [H1 H2].
    split; [apply Forall_insert; [done|apply H2]|].
    destruct (Hop X op v t H1) as [t' Ht']. exists t'. by eapply rtc_r.
  - split; [|by exists t]. rewrite delete_take_drop. apply Forall_app. split; [by apply Forall_take|by apply Forall_drop].
  - split; [done|]. destruct (Henv v v' t He) as [t' Ht']. exists t'. by eapply rtc_r.
Qed.

(** A script nobody interrupts ends as [run] says, and it ends. *)
Lemma run_alone (p : script unit) ps s :
  rtc sched_step (s, ps ++ [p]) ((run p s).2, ps ++ [Done (run p s).1]).
Proof.
  revert s. induction p as [o|X op k IH]; intros s; simpl; [done|].
  eapply rtc_l.
  - apply (StepCall (length ps) op k). by rewrite lookup_app_r, Nat.sub_diag by done.
  - rewrite insert_app_r_alt, Nat.sub_diag by done. simpl. destruct (op s) as [o s']. simpl. apply IH.
Qed.
End sched.
End scripts.

Arguments script {S E} A.
Arguments Done {S E A} o.
Arguments Call {S E A X} op k.
Arguments run {S E A} p.
Arguments calls {S E} P {A} p.
Arguments stepwise {S E} P {A} m.
Arguments sw_script {S E P A m}.
Arguments sw_run {S E P A m}.
Arguments sw_calls {S E P A m}.
Arguments sched_step {S E R} start env.
