(* ===== verification/Errors.v ===== *)
(** * The error type of the workspace ([abi/src/errors/mod.rs])

    [ErrorKind] and [Error] as declared, the smart constructors, the
    conversions from library errors, the conversion to and from a gRPC
    [Status], and the HTTP response. A boxed [source] error is represented by
    the text its [Display] prints, which is all the code ever reads of it. *)

From S2P Require Import Prelude.

Inductive ErrorKind : Type :=
| UnknownError | DbError | ConfigReadError | ConfigParseError | NotFound
| BroadCastError | InternalServer | BodyParsing | PathParsing | UnAuthorized
| ParseError | TonicError | MongoDbValueAccessError | MongoDbBsonSerError
| MongoDbOperateError | RedisError | IOError | ReqwestError | ServiceNotFound
| BadRequest | AccountOrPassword | OSSError | CodeIsExpired | CodeIsInvalid
| BinCode.

Global Instance ErrorKind_eq_dec : EqDecision ErrorKind.
Proof. solve_decision. Defined.

Record Error : Type := mkError {
  kind : ErrorKind;
  details : option string;
  source : option string
}.

Global Instance Error_eq_dec : EqDecision Error.
Proof. solve_decision. Defined.

(** ** Constructors of [impl Error] *)

Definition error_new (k : ErrorKind) (d src : string) : Error := mkError k (Some d) (Some src).
Definition with_kind (k : ErrorKind) : Error := mkError k None None.
Definition with_details (k : ErrorKind) (d : string) : Error := mkError k (Some d) None.
Definition internal_box (src : string) : Error := mkError InternalServer (Some src) (Some src).
Definition internal (src : string) : Error := mkError InternalServer (Some src) (Some src).
Definition broadcast (src : string) : Error := mkError BroadCastError (Some src) (Some src).
Definition internal_with_details (d : string) : Error := with_details InternalServer d.
Definition service_not_found (name : string) : Error := with_details ServiceNotFound name.
Definition unauthorized (src d : string) : Error := error_new UnAuthorized d src.
Definition unauthorized_with_details (d : string) : Error := with_details UnAuthorized d.
Definition bad_request (d : string) : Error := with_details BadRequest d.
Definition code_invalid (d : string) : Error := with_details CodeIsInvalid d.
Definition code_expired (d : string) : Error := with_details CodeIsExpired d.
Definition db_not_found (d : string) : Error := with_details DbError d.
Definition not_found : Error := with_kind NotFound.
Definition not_found_with_details (d : string) : Error := with_details NotFound d.
Definition account_or_pwd : Error := with_kind AccountOrPassword.
Definition body_parsing (d : string) : Error := with_details BodyParsing d.
Definition path_parsing (src : string) : Error := error_new PathParsing src src.

(** ** [#[derive(Debug)]] on the kind, and [Display] *)

Definition debug_kind (k : ErrorKind) : string :=
  match k with
  | UnknownError => "UnknownError" | DbError => "DbError"
  | ConfigReadError => "ConfigReadError" | ConfigParseError => "ConfigParseError"
  | NotFound => "NotFound" | BroadCastError => "BroadCastError"
  | InternalServer => "InternalServer" | BodyParsing => "BodyParsing"
  | PathParsing => "PathParsing" | UnAuthorized => "UnAuthorized"
  | ParseError => "ParseError" | TonicError => "TonicError"
  | MongoDbValueAccessError => "MongoDbValueAccessError"
  | MongoDbBsonSerError => "MongoDbBsonSerError"
  | MongoDbOperateError => "MongoDbOperateError"
  | RedisError => "RedisError" | IOError => "IOError" | ReqwestError => "ReqwestError"
  | ServiceNotFound => "ServiceNotFound" | BadRequest => "BadRequest"
  | AccountOrPassword => "AccountOrPassword" | OSSError => "OSSError"
  | CodeIsExpired => "CodeIsExpired" | CodeIsInvalid => "CodeIsInvalid"
  | BinCode => "BinCode"
  end%string.

Definition error_to_string (e : Error) : string :=
  match details e with
  | Some d => (debug_kind (kind e) +:+ ": " +:+ d)%string
  | None => debug_kind (kind e)
  end.

(** ** Conversions from library errors ([impl From<..> for Error]); the
    argument is the library error's [to_string()]. *)

Inductive ExternalError : Type :=
| StdIoError (s : string) | RedisRedisError (s : string) | SerdeYamlError (s : string)
| ReqwestLibError (s : string) | BsonValueAccessError (s : string)
| BsonSerError (s : string) | MongoError (s : string) | SqlxError (s : string)
| SerdeJsonError (s : string) | TonicTransportError (s : string)
| AwsSdkError (s : string) | BincodeDecodeError (s : string)
| BincodeEncodeError (s : string).

Definition from_external (x : ExternalError) : Error :=
  match x with
  | StdIoError s => error_new IOError s s
  | RedisRedisError s => error_new RedisError s s
  | SerdeYamlError s => error_new ConfigParseError s s
  | ReqwestLibError s => error_new ReqwestError s s
  | BsonValueAccessError s => error_new MongoDbValueAccessError s s
  | BsonSerError s => error_new MongoDbBsonSerError s s
  | MongoError s => error_new MongoDbOperateError s s
  | SqlxError s => error_new DbError s s
  | SerdeJsonError s => error_new ParseError s s
  | TonicTransportError s => error_new TonicError s s
  | AwsSdkError s => with_details OSSError s
  | BincodeDecodeError s => error_new BinCode s s
  | BincodeEncodeError s => error_new BinCode s s
  end.

(** ** gRPC status *)

Inductive Code : Type :=
| Code_Ok | Code_Cancelled | Code_Unknown | Code_InvalidArgument
| Code_DeadlineExceeded | Code_NotFound | Code_AlreadyExists
| Code_PermissionDenied | Code_ResourceExhausted | Code_FailedPrecondition
| Code_Aborted | Code_OutOfRange | Code_Unimplemented | Code_Internal
| Code_Unavailable | Code_DataLoss | Code_Unauthenticated.

Record Status : Type := mkStatus {
  status_code : Code;
  status_message : string;
  status_details : string  (* the raw bytes of the details *)
}.

(** [String::from_utf8]: the bytes are a well-formed UTF-8 sequence. *)
Definition is_cont (a : Ascii.ascii) : bool :=
  let n := Ascii.nat_of_ascii a in (128 <=? n)%nat && (n <=? 191)%nat.

Definition byte_in (a : Ascii.ascii) (lo hi : nat) : bool :=
  let n := Ascii.nat_of_ascii a in (lo <=? n)%nat && (n <=? hi)%nat.

Fixpoint utf8_valid (s : string) : bool :=
  match s with
  | EmptyString => true
  | String a s1 =>
      if byte_in a 0 127 then utf8_valid s1 else
      match s1 with
      | EmptyString => false
      | String b s2 =>
          if byte_in a 194 223 then is_cont b && utf8_valid s2 else
          match s2 with
          | EmptyString => false
          | String c s3 =>
              if byte_in a 224 224 then byte_in b 160 191 && is_cont c && utf8_valid s3
              else if byte_in a 225 236 || byte_in a 238 239
                then is_cont b && is_cont c && utf8_valid s3
              else if byte_in a 237 237
                then byte_in b 128 159 && is_cont c && utf8_valid s3
              else
              match s3 with
              | EmptyString => false
              | String d s4 =>
                  (byte_in a 240 240 && byte_in b 144 191
                   || byte_in a 241 243 && is_cont b
                   || byte_in a 244 244 && byte_in b 128 143)
                  && is_cont c && is_cont d && utf8_valid s4
              end
          end
      end
  end.

(** [impl From<Error> for Status] *)
Definition code_of_kind (k : ErrorKind) : Code :=
  match k with
  | UnknownError => Code_Unknown
  | NotFound => Code_NotFound
  | AccountOrPassword => Code_Unauthenticated
  | BodyParsing | PathParsing | UnAuthorized | BadRequest | CodeIsExpired
  | CodeIsInvalid => Code_InvalidArgument
  | OSSError | DbError | ConfigReadError | ConfigParseError | BroadCastError
  | InternalServer | ParseError | TonicError | MongoDbValueAccessError
  | MongoDbBsonSerError | MongoDbOperateError | RedisError | IOError
  | ReqwestError | BinCode | ServiceNotFound => Code_Internal
  end.

Definition status_of_error (e : Error) : Status :=
  mkStatus (code_of_kind (kind e)) (debug_kind (kind e)) (default ""%string (details e)).

(** [impl From<Status> for Error] *)
Definition kind_of_message (s : string) : ErrorKind :=
  if bool_decide (s = "UnknownError")%string then UnknownError
  else if bool_decide (s = "DbError")%string then DbError
  else if bool_decide (s = "ConfigReadError")%string then ConfigReadError
  else if bool_decide (s = "ConfigParseError")%string then ConfigParseError
  else if bool_decide (s = "NotFound")%string then NotFound
  else if bool_decide (s = "BroadCastError")%string then BroadCastError
  else if bool_decide (s = "InternalServer")%string then InternalServer
  else if bool_decide (s = "BodyParsing")%string then BodyParsing
  else if bool_decide (s = "PathParsing")%string then PathParsing
  else if bool_decide (s = "UnAuthorized")%string then UnAuthorized
  else if bool_decide (s = "ParseError")%string then ParseError
  else if bool_decide (s = "TonicError")%string then TonicError
  else if bool_decide (s = "MongoDbValueAccessError")%string then MongoDbValueAccessError
  else if bool_decide (s = "MongoDbOperateError")%string then MongoDbOperateError
  else if bool_decide (s = "MongoDbBsonSerError")%string then MongoDbBsonSerError
  else if bool_decide (s = "RedisError")%string then RedisError
  else if bool_decide (s = "IOError")%string then IOError
  else if bool_decide (s = "ReqwestError")%string then ReqwestError
  else if bool_decide (s = "ServiceNotFound")%string then ServiceNotFound
  else if bool_decide (s = "BadRequest")%string then BadRequest
  else if bool_decide (s = "AccountOrPassword")%string then AccountOrPassword
  else if bool_decide (s = "OSSError")%string then OSSError
  else if bool_decide (s = "CodeIsExpired")%string then CodeIsExpired
  else if bool_decide (s = "CodeIsInvalid")%string then CodeIsInvalid
  else if bool_decide (s = "BinCode")%string then BinCode
  else UnknownError.

Definition error_of_status (st : Status) : Error :=
  mkError (kind_of_message (status_message st))
    (if utf8_valid (status_details st) then Some (status_details st) else None) None.

(** ** HTTP ([impl IntoResponse for Error]): status code and JSON body, in
    which [source] is skipped. *)

Definition http_status_of_kind (k : ErrorKind) : Z :=
  match k with
  | BodyParsing | PathParsing | BadRequest | CodeIsExpired | CodeIsInvalid => 400
  | AccountOrPassword | UnAuthorized => 401
  | NotFound => 404
  | DbError | ParseError | ConfigReadError | ConfigParseError | TonicError
  | MongoDbValueAccessError | MongoDbOperateError | MongoDbBsonSerError | RedisError
  | ReqwestError | IOError | ServiceNotFound | BroadCastError | OSSError | BinCode
  | InternalServer | UnknownError => 500
  end.

Record HttpResponse : Type := mkResponse {
  resp_status : Z;
  resp_kind : string;
  resp_details : option string
}.

Definition into_response (e : Error) : HttpResponse :=
  mkResponse (http_status_of_kind (kind e)) (debug_kind (kind e)) (details e).

(** ** Properties *)

Lemma kind_of_message_debug k : kind_of_message (debug_kind k) = k.
Proof. by destruct k. Qed.

(** Forwarding an error over gRPC keeps its kind: converting an [Error]
    to a [Status] and back yields the same kind, the details as a present
    string ([None] becomes [Some ""]), and no source; so the HTTP status an
    API answers is the same whether the error was raised locally or by a
    remote service. The only premise is that the details are a Rust [String],
    i.e. valid UTF-8. *)
Theorem error_status_roundtrip (e : Error)
    (Hutf8 : utf8_valid (default ""%string (details e)) = true) :
  error_of_status (status_of_error e)
    = mkError (kind e) (Some (default ""%string (details e))) None
  ∧ resp_status (into_response (error_of_status (status_of_error e)))
    = resp_status (into_response e).
Proof.
  unfold error_of_status, status_of_error, into_response; simpl.
  by rewrite Hutf8, kind_of_message_debug.
Qed.

Lemma error_status_roundtrip_witness :
  error_of_status (status_of_error not_found) = mkError NotFound (Some ""%string) None
  ∧ resp_status (into_response (error_of_status (status_of_error not_found))) = 404%Z.
Proof. exact (error_status_roundtrip not_found eq_refl). Defined.

(** The two error surfaces agree on whose fault an error is: an HTTP 500
    is answered exactly for the kinds whose gRPC code is [Internal] or
    [Unknown], and every other kind is a 4xx with a caller-side gRPC code. *)
Theorem http_grpc_agree (k : ErrorKind) :
  (http_status_of_kind k = 500%Z
     ↔ code_of_kind k = Code_Internal ∨ code_of_kind k = Code_Unknown)
  ∧ ((400 ≤ http_status_of_kind k < 500)%Z
     ↔ code_of_kind k = Code_InvalidArgument ∨ code_of_kind k = Code_NotFound
       ∨ code_of_kind k = Code_Unauthenticated).
Proof. destruct k; cbn; intuition (discriminate || lia). Qed.
