(* ===== verification/Types.v ===== *)
(** * Wire types ([abi/src/pb/message.rs], [abi/src/types/msg.rs],
    [db/src/mongodb/utils.rs])

    The message enums and records that travel between the services, the
    request constructors and validators of [impl SendMsgRequest] and friends,
    and the conversion of a [Msg] to and from a BSON document. *)

From S2P Require Import Prelude Errors.

Abbreviation bytes := (list Byte.byte).

(** ** [enum MsgType], its discriminants, [try_from] and names *)

Inductive MsgType : Type :=
| SingleMsg | GroupMsg | GroupInvitation | GroupInviteNew | GroupMemberExit
| GroupRemoveMember | GroupDismiss | GroupDismissOrExitReceived
| GroupInvitationReceived | GroupUpdate | GroupFile | GroupPoll | GroupMute
| GroupAnnouncement | FriendApplyReq | FriendApplyResp | FriendBlack
| FriendDelete | SingleCallInvite | RejectSingleCall | AgreeSingleCall
| SingleCallInviteNotAnswer | SingleCallInviteCancel | SingleCallOffer | Hangup
| ConnectSingleCall | Candidate | Read | MsgRecResp | Notification | Service
| FriendshipReceived.

Global Instance MsgType_eq_dec : EqDecision MsgType.
Proof. solve_decision. Defined.

Definition all_msg_types : list MsgType :=
  [SingleMsg; GroupMsg; GroupInvitation; GroupInviteNew; GroupMemberExit;
   GroupRemoveMember; GroupDismiss; GroupDismissOrExitReceived;
   GroupInvitationReceived; GroupUpdate; GroupFile; GroupPoll; GroupMute;
   GroupAnnouncement; FriendApplyReq; FriendApplyResp; FriendBlack;
   FriendDelete; SingleCallInvite; RejectSingleCall; AgreeSingleCall;
   SingleCallInviteNotAnswer; SingleCallInviteCancel; SingleCallOffer; Hangup;
   ConnectSingleCall; Candidate; Read; MsgRecResp; Notification; Service;
   FriendshipReceived].

(** [mt as i32] *)
Definition msg_type_i32 (mt : MsgType) : Z :=
  match mt with
  | SingleMsg => 0 | GroupMsg => 1 | GroupInvitation => 2 | GroupInviteNew => 3
  | GroupMemberExit => 4 | GroupRemoveMember => 5 | GroupDismiss => 6
  | GroupDismissOrExitReceived => 7 | GroupInvitationReceived => 8
  | GroupUpdate => 9 | GroupFile => 10 | GroupPoll => 11 | GroupMute => 12
  | GroupAnnouncement => 13 | FriendApplyReq => 14 | FriendApplyResp => 15
  | FriendBlack => 16 | FriendDelete => 17 | SingleCallInvite => 18
  | RejectSingleCall => 19 | AgreeSingleCall => 20
  | SingleCallInviteNotAnswer => 21 | SingleCallInviteCancel => 22
  | SingleCallOffer => 23 | Hangup => 24 | ConnectSingleCall => 25
  | Candidate => 26 | Read => 27 | MsgRecResp => 28 | Notification => 29
  | Service => 30 | FriendshipReceived => 31
  end.

(** [MsgType::try_from(i32)]: the derived inverse of the discriminants. *)
Definition msg_type_try_from (z : Z) : option MsgType :=
  if bool_decide (0 ≤ z)%Z then all_msg_types !! Z.to_nat z else None.

Definition msg_type_as_str_name (mt : MsgType) : string :=
  match mt with
  | SingleMsg => "MsgTypeSingleMsg" | GroupMsg => "MsgTypeGroupMsg"
  | GroupInvitation => "MsgTypeGroupInvitation"
  | GroupInviteNew => "MsgTypeGroupInviteNew"
  | GroupMemberExit => "MsgTypeGroupMemberExit"
  | GroupRemoveMember => "MsgTypeGroupRemoveMember"
  | GroupDismiss => "MsgTypeGroupDismiss"
  | GroupDismissOrExitReceived => "MsgTypeGroupDismissOrExitReceived"
  | GroupInvitationReceived => "MsgTypeGroupInvitationReceived"
  | GroupUpdate => "MsgTypeGroupUpdate" | GroupFile => "MsgTypeGroupFile"
  | GroupPoll => "MsgTypeGroupPoll" | GroupMute => "MsgTypeGroupMute"
  | GroupAnnouncement => "MsgTypeGroupAnnouncement"
  | FriendApplyReq => "MsgTypeFriendApplyReq"
  | FriendApplyResp => "MsgTypeFriendApplyResp"
  | FriendBlack => "MsgTypeFriendBlack" | FriendDelete => "MsgTypeFriendDelete"
  | SingleCallInvite => "MsgTypeSingleCallInvite"
  | RejectSingleCall => "MsgTypeRejectSingleCall"
  | AgreeSingleCall => "MsgTypeAgreeSingleCall"
  | SingleCallInviteNotAnswer => "MsgTypeSingleCallInviteNotAnswer"
  | SingleCallInviteCancel => "MsgTypeSingleCallInviteCancel"
  | SingleCallOffer => "MsgTypeSingleCallOffer" | Hangup => "MsgTypeHangup"
  | ConnectSingleCall => "MsgTypeConnectSingleCall"
  | Candidate => "MsgTypeCandidate" | Read => "MsgTypeRead"
  | MsgRecResp => "MsgTypeMsgRecResp" | Notification => "MsgTypeNotification"
  | Service => "MsgTypeService"
  | FriendshipReceived => "MsgTypeFriendshipReceived"
  end%string.

(** [MsgType::from_str_name]: the same table read backwards. *)
Definition msg_type_from_str_name (s : string) : option MsgType :=
  snd <$> list_find (λ mt, msg_type_as_str_name mt = s) all_msg_types.

(** ** [enum PlatformType] and [enum ContentType] *)

Inductive PlatformType : Type := Desktop | Mobile.
Global Instance PlatformType_eq_dec : EqDecision PlatformType.
Proof. solve_decision. Defined.

Definition platform_i32 (p : PlatformType) : Z :=
  match p with Desktop => 0 | Mobile => 1 end.

(** [PlatformType::try_from(i).unwrap_or_default()] *)
Definition platform_or_default (z : Z) : PlatformType :=
  if bool_decide (z = 1)%Z then Mobile else Desktop.

Global Instance PlatformType_countable : Countable PlatformType.
Proof.
  refine (inj_countable' (λ p, match p with Desktop => false | Mobile => true end)
    (λ b, match b with false => Desktop | true => Mobile end) _).
  by intros [].
Defined.

Definition content_type_error : Z := 9.

(** ** [struct Msg] and the records of the message path *)

Record Msg : Type := mkMsg {
  client_id : string; server_id : string;
  create_time : Z; send_time : Z;
  sender_id : string; receiver_id : string;
  seq : Z; group_id : string;
  content : bytes; msg_type : Z; content_type : Z;
  is_read : bool; platform : Z;
  avatar : string; nickname : string;
  related_msg_id : option string; send_seq : Z
}.

(** [..Default::default()] *)
Definition default_msg : Msg :=
  mkMsg "" "" 0 0 "" "" 0 "" [] 0 0 false 0 "" "" None 0.

Definition set_seq_field (v : Z) (m : Msg) : Msg :=
  mkMsg (client_id m) (server_id m) (create_time m) (send_time m) (sender_id m)
    (receiver_id m) v (group_id m) (content m) (msg_type m) (content_type m)
    (is_read m) (platform m) (avatar m) (nickname m) (related_msg_id m) (send_seq m).
Definition set_send_seq_field (v : Z) (m : Msg) : Msg :=
  mkMsg (client_id m) (server_id m) (create_time m) (send_time m) (sender_id m)
    (receiver_id m) (seq m) (group_id m) (content m) (msg_type m) (content_type m)
    (is_read m) (platform m) (avatar m) (nickname m) (related_msg_id m) v.
Definition set_receiver (v : string) (m : Msg) : Msg :=
  mkMsg (client_id m) (server_id m) (create_time m) (send_time m) (sender_id m)
    v (seq m) (group_id m) (content m) (msg_type m) (content_type m)
    (is_read m) (platform m) (avatar m) (nickname m) (related_msg_id m) (send_seq m).
Definition set_server_id (v : string) (m : Msg) : Msg :=
  mkMsg (client_id m) v (create_time m) (send_time m) (sender_id m)
    (receiver_id m) (seq m) (group_id m) (content m) (msg_type m) (content_type m)
    (is_read m) (platform m) (avatar m) (nickname m) (related_msg_id m) (send_seq m).
Definition set_send_time (v : Z) (m : Msg) : Msg :=
  mkMsg (client_id m) (server_id m) (create_time m) v (sender_id m)
    (receiver_id m) (seq m) (group_id m) (content m) (msg_type m) (content_type m)
    (is_read m) (platform m) (avatar m) (nickname m) (related_msg_id m) (send_seq m).
Definition set_msg_type (v : Z) (m : Msg) : Msg :=
  mkMsg (client_id m) (server_id m) (create_time m) (send_time m) (sender_id m)
    (receiver_id m) (seq m) (group_id m) (content m) v (content_type m)
    (is_read m) (platform m) (avatar m) (nickname m) (related_msg_id m) (send_seq m).
Definition set_content (v : bytes) (m : Msg) : Msg :=
  mkMsg (client_id m) (server_id m) (create_time m) (send_time m) (sender_id m)
    (receiver_id m) (seq m) (group_id m) v (msg_type m) (content_type m)
    (is_read m) (platform m) (avatar m) (nickname m) (related_msg_id m) (send_seq m).
Definition set_content_type (v : Z) (m : Msg) : Msg :=
  mkMsg (client_id m) (server_id m) (create_time m) (send_time m) (sender_id m)
    (receiver_id m) (seq m) (group_id m) (content m) (msg_type m) v
    (is_read m) (platform m) (avatar m) (nickname m) (related_msg_id m) (send_seq m).
Definition set_is_read (v : bool) (m : Msg) : Msg :=
  mkMsg (client_id m) (server_id m) (create_time m) (send_time m) (sender_id m)
    (receiver_id m) (seq m) (group_id m) (content m) (msg_type m) (content_type m)
    v (platform m) (avatar m) (nickname m) (related_msg_id m) (send_seq m).

Record MsgRead : Type := mkMsgRead { mr_msg_seq : list Z; mr_user_id : string }.

Record MsgResponse : Type := mkMsgResponse {
  resp_client_id : string; resp_server_id : string; resp_send_time : Z; resp_err : string
}.

Record GroupMemSeq : Type := mkGroupMemSeq {
  mem_id : string; cur_seq : Z; max_seq : Z; need_update : bool
}.
Global Instance GroupMemSeq_eq_dec : EqDecision GroupMemSeq.
Proof. solve_decision. Defined.

(** [SendMsgRequest { message: Option<Msg> }] *)
Abbreviation SendMsgRequest := (option Msg).

(** [impl From<Status> for MsgResponse] *)
Definition msg_response_of_status (st : Status) : MsgResponse :=
  mkMsgResponse "" "" 0 (status_message st).

(** ** [impl SendMsgRequest]: [now] is [chrono::Utc::now().timestamp_millis()]. *)

Definition new_with_friend_del (now : Z) (sender receiver : string) : SendMsgRequest :=
  Some (mkMsg "" "" 0 now sender receiver 0 "" [] (msg_type_i32 FriendDelete)
          0 false 0 "" "" None 0).

Definition new_with_friend_ship_req (now : Z) (sender receiver : string) (fs : bytes)
    (sseq : Z) : SendMsgRequest :=
  Some (mkMsg "" "" 0 now sender receiver 0 "" fs (msg_type_i32 FriendApplyReq)
          0 false 0 "" "" None sseq).

Definition new_with_friend_ship_resp (now : Z) (receiver : string) (fs : bytes)
    (sseq : Z) : SendMsgRequest :=
  Some (mkMsg "" "" 0 now "" receiver 0 "" fs (msg_type_i32 FriendApplyResp)
          0 false 0 "" "" None sseq).

Definition new_with_group_operation (now : Z) (sender receiver : string) (mt : MsgType)
    (sseq : Z) : SendMsgRequest :=
  Some (mkMsg "" "" 0 now sender receiver 0 receiver [] (msg_type_i32 mt)
          0 false 0 "" "" None sseq).

Definition new_with_group_invitation (now : Z) (sender receiver : string) (sseq : Z)
    (invitation : bytes) : SendMsgRequest :=
  Some (mkMsg "" "" 0 now sender receiver 0 receiver invitation
          (msg_type_i32 GroupInvitation) 0 false 0 "" "" None sseq).

Definition new_with_group_invite_new (now : Z) (sender receiver : string) (sseq : Z)
    (invitation : bytes) : SendMsgRequest :=
  Some (mkMsg "" "" 0 now sender receiver 0 receiver invitation
          (msg_type_i32 GroupInviteNew) 0 false 0 "" "" None sseq).

Definition new_with_group_remove_mem (now : Z) (sender gid : string) (sseq : Z)
    (invitation : bytes) : SendMsgRequest :=
  Some (mkMsg "" "" 0 now sender gid 0 gid invitation
          (msg_type_i32 GroupRemoveMember) 0 false 0 "" "" None sseq).

Definition new_with_group_update (now : Z) (sender receiver : string) (sseq : Z)
    (m : bytes) : SendMsgRequest :=
  Some (mkMsg "" "" 0 now sender receiver 0 receiver m (msg_type_i32 GroupUpdate)
          0 false 0 "" "" None sseq).

(** The four newer constructors put the caller's sequence in [seq] and leave
    [receiver_id], [send_seq] and [send_time] at their defaults. *)
Definition new_with_group_file (sender gid : string) (sq : Z) (c : bytes) : SendMsgRequest :=
  Some (mkMsg "" "" 0 0 sender "" sq gid c (msg_type_i32 GroupFile)
          0 false 0 "" "" None 0).
Definition new_with_group_poll (sender gid : string) (sq : Z) (c : bytes) : SendMsgRequest :=
  Some (mkMsg "" "" 0 0 sender "" sq gid c (msg_type_i32 GroupPoll)
          0 false 0 "" "" None 0).
Definition new_with_group_mute (sender gid : string) (sq : Z) (c : bytes) : SendMsgRequest :=
  Some (mkMsg "" "" 0 0 sender "" sq gid c (msg_type_i32 GroupMute)
          0 false 0 "" "" None 0).
Definition new_with_group_announcement (sender gid : string) (sq : Z) (c : bytes)
    : SendMsgRequest :=
  Some (mkMsg "" "" 0 0 sender "" sq gid c (msg_type_i32 GroupAnnouncement)
          0 false 0 "" "" None 0).

(** ** Validators *)

Record GetDbMessagesRequest : Type := mkGetDbMessages {
  gdm_user_id : string; gdm_start : Z; gdm_end : Z; gdm_send_start : Z; gdm_send_end : Z
}.
Record GetDbMsgRequest : Type := mkGetDbMsg {
  gdr_user_id : string; gdr_start : Z; gdr_end : Z
}.

Definition validate_range (user_id : string) (start end_ : Z) : outcome Error unit :=
  if bool_decide (user_id = ""%string) then Err (bad_request "user_id is empty")
  else if bool_decide (start < 0)%Z then Err (bad_request "start is invalid")
  else if bool_decide (end_ < 0)%Z then Err (bad_request "end is invalid")
  else if bool_decide (end_ < start)%Z then Err (bad_request "start is greater than end")
  else Ok tt.

Definition validate_get_db_msg (r : GetDbMsgRequest) : outcome Error unit :=
  validate_range (gdr_user_id r) (gdr_start r) (gdr_end r).
Definition validate_get_db_messages (r : GetDbMessagesRequest) : outcome Error unit :=
  validate_range (gdm_user_id r) (gdm_start r) (gdm_end r).

(** ** BSON documents *)

Inductive Bson : Type :=
| BString (s : string)
| BInt64 (z : Z)
| BInt32 (z : Z)
| BBool (b : bool)
| BBinary (b : bytes).

Abbreviation Document := (gmap string Bson).

Definition to_doc (m : Msg) : Document :=
  list_to_map
    [ ("client_id"%string, BString (client_id m));
      ("server_id"%string, BString (server_id m));
      ("create_time"%string, BInt64 (create_time m));
      ("send_time"%string, BInt64 (send_time m));
      ("content_type"%string, BInt32 (content_type m));
      ("content"%string, BBinary (content m));
      ("sender_id"%string, BString (sender_id m));
      ("receiver_id"%string, BString (receiver_id m));
      ("seq"%string, BInt64 (seq m));
      ("send_seq"%string, BInt64 (send_seq m));
      ("msg_type"%string, BInt32 (msg_type m));
      ("is_read"%string, BBool (is_read m));
      ("group_id"%string, BString (group_id m)) ].

(** [value.get_str(k).unwrap_or_default()] and its siblings: a missing field
    and a field of another type both read as the default. *)
Definition get_str (d : Document) (k : string) : option string :=
  match d !! k with Some (BString s) => Some s | _ => None end.
Definition get_i64 (d : Document) (k : string) : option Z :=
  match d !! k with Some (BInt64 z) => Some z | _ => None end.
Definition get_i32 (d : Document) (k : string) : option Z :=
  match d !! k with Some (BInt32 z) => Some z | _ => None end.
Definition get_bool (d : Document) (k : string) : option bool :=
  match d !! k with Some (BBool b) => Some b | _ => None end.
Definition get_binary (d : Document) (k : string) : option bytes :=
  match d !! k with Some (BBinary b) => Some b | _ => None end.

(** [impl TryFrom<Document> for Msg]: it never fails. *)
Definition msg_of_doc (d : Document) : Msg :=
  mkMsg (default ""%string (get_str d "client_id")) (default ""%string (get_str d "server_id"))
    (default 0%Z (get_i64 d "create_time")) (default 0%Z (get_i64 d "send_time"))
    (default ""%string (get_str d "sender_id")) (default ""%string (get_str d "receiver_id"))
    (default 0%Z (get_i64 d "seq")) (default ""%string (get_str d "group_id"))
    (default [] (get_binary d "content")) (default 0%Z (get_i32 d "msg_type"))
    (default 0%Z (get_i32 d "content_type")) (default false (get_bool d "is_read"))
    (default 0%Z (get_i32 d "platform")) (default ""%string (get_str d "avatar"))
    (default ""%string (get_str d "nickname")) (get_str d "related_msg_id")
    (default 0%Z (get_i64 d "send_seq")).

(** The part of a message the receive box stores. *)
Definition stored_part (m : Msg) : Msg :=
  mkMsg (client_id m) (server_id m) (create_time m) (send_time m) (sender_id m)
    (receiver_id m) (seq m) (group_id m) (content m) (msg_type m) (content_type m)
    (is_read m) 0 "" "" None (send_seq m).

(** ** Properties *)

Lemma msg_type_try_from_i32 mt : msg_type_try_from (msg_type_i32 mt) = Some mt.
Proof. by destruct mt. Qed.

Lemma msg_type_i32_inj mt1 mt2 : msg_type_i32 mt1 = msg_type_i32 mt2 → mt1 = mt2.
Proof.
  intros H. apply (f_equal msg_type_try_from) in H.
  rewrite !msg_type_try_from_i32 in H. by simplify_eq.
Qed.

Lemma msg_type_try_from_Some z mt : msg_type_try_from z = Some mt → z = msg_type_i32 mt.
Proof.
  unfold msg_type_try_from. case_bool_decide as Hz; [|done]. intros H.
  assert (Hlt := lookup_lt_Some _ _ _ H). cbn in Hlt.
  rewrite <- (Z2Nat.id z) by done. revert H Hlt. generalize (Z.to_nat z). clear. intros n H Hlt.
  do 32 (destruct n as [|n]; [by simplify_eq/=|]). lia.
Qed.

(** The integer codes of [MsgType] are read back exactly: [try_from] accepts
    precisely the 32 discriminants and returns the type whose code it is, and
    the configuration names used by the cleaner round-trip as well. *)
Theorem msg_type_codes (z : Z) (mt : MsgType) :
  (msg_type_try_from z = Some mt ↔ z = msg_type_i32 mt)
  ∧ msg_type_from_str_name (msg_type_as_str_name mt) = Some mt.
Proof.
  split; [split; [apply msg_type_try_from_Some|intros ->; apply msg_type_try_from_i32]|].
  by destruct mt.
Qed.

Lemma msg_of_doc_to_doc m : msg_of_doc (to_doc m) = stored_part m.
Proof. by destruct m. Qed.

(** Storing a message in the receive box and reading it back returns the
    message with [platform], [avatar], [nickname] and [related_msg_id] reset:
    [to_doc] writes thirteen of the seventeen fields that [try_from] reads, so
    the round trip is the identity exactly on messages that never set those
    four. *)
Theorem msg_doc_roundtrip (m : Msg) :
  msg_of_doc (to_doc m) = stored_part m
  ∧ (msg_of_doc (to_doc m) = m
     ↔ platform m = 0%Z ∧ avatar m = ""%string ∧ nickname m = ""%string
       ∧ related_msg_id m = None).
Proof.
  split; [apply msg_of_doc_to_doc|]. rewrite msg_of_doc_to_doc.
  destruct m; unfold stored_part; simpl. split; [by intros [=]|].
  by intros (-> & -> & -> & ->).
Qed.
