(* ===== verification/Config.v ===== *)
(** * Configuration ([abi/src/config.rs])

    The configuration records and the URLs built from them; reading the file
    is in [Startup]. Ports are printed in decimal. *)

From stdpp Require Import pretty.
From S2P Require Import Prelude Errors.

Inductive Component : Type := CApi | CMessageServer | CMessageGateway | CAll.

Record LogConfig : Type := mkLogConfig { log_level : string; log_output : string }.
Inductive Level : Type := TRACE | DEBUG | INFO | WARN | ERROR.
Definition level (c : LogConfig) : Level :=
  if bool_decide (log_level c = "trace"%string) then TRACE
  else if bool_decide (log_level c = "debug"%string) then DEBUG
  else if bool_decide (log_level c = "info"%string) then INFO
  else if bool_decide (log_level c = "warn"%string) then WARN
  else if bool_decide (log_level c = "error"%string) then ERROR
  else INFO.

Record MailConfig : Type := mkMailConfig {
  mail_server : string; mail_account : string; mail_password : string;
  mail_temp_path : string; mail_temp_file : string
}.
Record OssConfig : Type := mkOssConfig {
  oss_endpoint : string; oss_access_key : string; oss_secret_key : string; oss_bucket : string;
  oss_avatar_bucket : string; oss_region : string
}.
Record ServiceCenterConfig : Type := mkServiceCenterConfig {
  sce_host : string; sce_port : Z; sce_protocol : string; sce_timeout : Z
}.
Record PostgresConfig : Type := mkPostgresConfig {
  pgc_host : string; pgc_port : Z; pgc_user : string; pgc_password : string; pgc_database : string;
  pgc_max_connections : Z
}.
Record CleanReceiveBox : Type := mkCleanReceiveBox { crb_period : Z; crb_except_types : list string }.
Record MongoDbConfig : Type := mkMongoDbConfig {
  mgc_host : string; mgc_port : Z; mgc_user : string; mgc_password : string; mgc_database : string;
  mgc_clean : CleanReceiveBox; mgc_use_sharding : option bool; mgc_user_shards : option Z
}.
Record DbConfig : Type := mkDbConfig {
  dbc_postgres : PostgresConfig; dbc_mongodb : MongoDbConfig; dbc_xdb : string
}.
Record GrpcHealthCheckConfig : Type := mkGrpcHealthCheckConfig { ghc_use_tls : bool; ghc_interval : Z }.
Record RpcServerConfig : Type := mkRpcServerConfig {
  rsc_protocol : string; rsc_host : string; rsc_port : Z; rsc_name : string; rsc_tags : list string;
  rsc_health : GrpcHealthCheckConfig
}.
Record RpcConfig : Type := mkRpcConfig {
  rpc_health_check : bool; rpc_ws : RpcServerConfig; rpc_chat : RpcServerConfig;
  rpc_db : RpcServerConfig; rpc_pusher : RpcServerConfig
}.
Record WsServerConfig : Type := mkWsServerConfig {
  wsc_protocol : string; wsc_host : string; wsc_port : Z; wsc_name : string; wsc_tags : list string
}.
(** [PusherRpcServerConfig] and [ChatRpcServerConfig] *)
Record HostPort : Type := mkHostPort { hp_host : string; hp_port : Z }.
Record RedisConfig : Type := mkRedisConfig { rdc_host : string; rdc_port : Z; rdc_seq_step : Z }.
Record KafkaProducer : Type := mkKafkaProducer {
  kpr_timeout : Z; kpr_acks : string; kpr_max_retry : Z; kpr_retry_interval : Z
}.
Record KafkaConsumer : Type := mkKafkaConsumer { kco_session_timeout : Z; kco_auto_offset_reset : string }.
Record KafkaConfig : Type := mkKafkaConfig {
  kfc_hosts : list string; kfc_topic : string; kfc_connect_timeout : Z; kfc_group : string;
  kfc_producer : KafkaProducer; kfc_consumer : KafkaConsumer
}.
Record OAuth2Item : Type := mkOAuth2Item {
  oa_client_id : string; oa_client_secret : string; oa_redirect_url : string; oa_auth_url : string;
  oa_token_url : string; oa_user_info_url : string; oa_email_url : string
}.
Record OAuth2 : Type := mkOAuth2 { oa_google : OAuth2Item; oa_github : OAuth2Item }.
Record ServerConfig : Type := mkServerConfig {
  svc_host : string; svc_cfg_port : Z; svc_jwt_secret : string; svc_ws_lb_strategy : string;
  svc_oauth2 : OAuth2
}.
Record Config : Type := mkConfig {
  cfg_component : Component; cfg_db : DbConfig; cfg_server : ServerConfig; cfg_kafka : KafkaConfig;
  cfg_redis : RedisConfig; cfg_rpc : RpcConfig; cfg_websocket : WsServerConfig;
  cfg_service_center : ServiceCenterConfig; cfg_oss : OssConfig; cfg_mail : MailConfig;
  cfg_log : LogConfig
}.

(** ** URLs *)

Local Open Scope string_scope.

Definition host_port (host : string) (port : Z) : string := host +:+ ":" +:+ pretty port.

Definition url (https : bool) (host : string) (port : Z) : string :=
  (if https then "https://" else "http://") +:+ host_port host port.

Definition ws_rpc_server_url (c : WsServerConfig) : string := host_port (wsc_host c) (wsc_port c).
Definition ws_server_url (c : WsServerConfig) (https : bool) : string := url https (wsc_host c) (wsc_port c).
Definition ws_url (c : WsServerConfig) (https : bool) : string :=
  (if https then "wss://" else "ws://") +:+ host_port (wsc_host c) (wsc_port c).

Definition hp_rpc_server_url (c : HostPort) : string := host_port (hp_host c) (hp_port c).
Definition hp_url (c : HostPort) (https : bool) : string := url https (hp_host c) (hp_port c).
Definition rpc_server_url (c : RpcServerConfig) : string := host_port (rsc_host c) (rsc_port c).
Definition rpc_url (c : RpcServerConfig) (https : bool) : string := url https (rsc_host c) (rsc_port c).

Definition redis_url (c : RedisConfig) : string := "redis://" +:+ host_port (rdc_host c) (rdc_port c).

Definition default_conn : Z := 5.

Definition pg_server_url (c : PostgresConfig) : string :=
  if bool_decide (pgc_password c = "")
  then "postgres://" +:+ pgc_user c +:+ "@" +:+ host_port (pgc_host c) (pgc_port c)
  else "postgres://" +:+ pgc_user c +:+ ":" +:+ pgc_password c +:+ "@" +:+ host_port (pgc_host c) (pgc_port c).
Definition pg_url (c : PostgresConfig) : string := pg_server_url c +:+ "/" +:+ pgc_database c.

Definition mongo_server_url (c : MongoDbConfig) : string :=
  match bool_decide (mgc_user c = ""), bool_decide (mgc_password c = "") with
  | true, _ => "mongodb://" +:+ host_port (mgc_host c) (mgc_port c)
  | false, true => "mongodb://" +:+ mgc_user c +:+ "@" +:+ host_port (mgc_host c) (mgc_port c)
  | false, false =>
      "mongodb://" +:+ mgc_user c +:+ ":" +:+ mgc_password c +:+ "@" +:+ host_port (mgc_host c) (mgc_port c)
  end.
Definition mongo_url (c : MongoDbConfig) : string := mongo_server_url c +:+ "/" +:+ mgc_database c.

Definition server_url_https (c : ServerConfig) (https : bool) : string := url https (svc_host c) (svc_cfg_port c).
Definition server_url (c : ServerConfig) : string := host_port (svc_host c) (svc_cfg_port c).
Definition with_port (c : ServerConfig) (port : Z) : ServerConfig :=
  mkServerConfig (svc_host c) port (svc_jwt_secret c) (svc_ws_lb_strategy c) (svc_oauth2 c).

(** ** The host and the port of a URL can be read back *)

(** The text before the first '@' or the whole, and what follows it, and the
    same for ':' (characters 64 and 58). *)
Fixpoint cut (c : nat) (s : string) : option (string * string) :=
  match s with
  | EmptyString => None
  | String a s' =>
      if (Ascii.nat_of_ascii a =? c)%nat then Some (EmptyString, s')
      else match cut c s' with Some (x, y) => Some (String a x, y) | None => None end
  end.

(** The reading of an authority: credentials up to the first '@', the user up
    to the first ':' of them. *)
Definition read_authority (s : string) : (string * string) * string :=
  match cut 64 s with
  | Some (cred, rest) =>
      (match cut 58 cred with Some (u, p) => (u, p) | None => (cred, "") end, rest)
  | None => (("", ""), s)
  end.

Lemma cut_app c x y a : lacks c x = true → Ascii.nat_of_ascii a = c → cut c (x +:+ String a y) = Some (x, y).
Proof.
  intros Hx Ha. induction x as [|b x IH]; simpl in *.
  - by rewrite Ha, Nat.eqb_refl.
  - apply andb_prop in Hx as [Hb Hx]. destruct (_ =? c)%nat; [done|]. by rewrite IH.
Qed.

Lemma cut_lacks c x : lacks c x = true → cut c x = None.
Proof.
  induction x as [|b x IH]; simpl; [done|]. intros [Hb Hx]%andb_prop.
  destruct (_ =? c)%nat; [done|]. by rewrite IH.
Qed.

Lemma string_app_assoc (x y z : string) : (x +:+ y) +:+ z = x +:+ (y +:+ z).
Proof. induction x as [|b x IH]; [done|]. change (String b ((x +:+ y) +:+ z) = String b (x +:+ y +:+ z)). by f_equal. Qed.

(** The authority of a Postgres or MongoDB URL. *)
Definition authority (user password hostport : string) : string :=
  if bool_decide (password = "") then user +:+ "@" +:+ hostport
  else user +:+ ":" +:+ password +:+ "@" +:+ hostport.

Lemma authority_reads user password hp :
  lacks 64 user = true → lacks 58 user = true → lacks 64 password = true →
  read_authority (authority user password hp) = ((user, password), hp).
Proof.
  intros Hu Hu' Hp. unfold authority, read_authority. case_bool_decide as E.
  - subst. change ("@" +:+ hp) with (String (Ascii.ascii_of_nat 64) hp).
    rewrite cut_app by done. by rewrite cut_lacks.
  - replace (user +:+ ":" +:+ password +:+ "@" +:+ hp)
      with ((user +:+ ":" +:+ password) +:+ String (Ascii.ascii_of_nat 64) hp)
      by (by rewrite !string_app_assoc).
    rewrite cut_app by (done || (rewrite !lacks_app; simpl; by rewrite Hu, Hp)).
    change (":" +:+ password) with (String (Ascii.ascii_of_nat 58) password). by rewrite cut_app.
Qed.

(** The database URLs can be read back: with no '@' or ':' in the user and no '@' in
    the password, reading the authority gives them back, for Postgres always
    and for MongoDB when there is a user (without one its password is dropped).
    Nothing is escaped, so outside of that two configurations can have one URL. *)
Theorem database_urls_roundtrip (p : PostgresConfig) (m : MongoDbConfig)
    (Hpu : lacks 64 (pgc_user p) && lacks 58 (pgc_user p) = true) (Hpp : lacks 64 (pgc_password p) = true)
    (Hmu : lacks 64 (mgc_user m) && lacks 58 (mgc_user m) = true) (Hmp : lacks 64 (mgc_password m) = true) :
  (∃ s, pg_url p = "postgres://" +:+ s +:+ "/" +:+ pgc_database p
     ∧ read_authority s = ((pgc_user p, pgc_password p), host_port (pgc_host p) (pgc_port p)))
  ∧ (mgc_user m ≠ "" → ∃ s, mongo_url m = "mongodb://" +:+ s +:+ "/" +:+ mgc_database m
     ∧ read_authority s = ((mgc_user m, mgc_password m), host_port (mgc_host m) (mgc_port m)))
  ∧ (mgc_user m = "" →
     mongo_url m = "mongodb://" +:+ host_port (mgc_host m) (mgc_port m) +:+ "/" +:+ mgc_database m).
Proof.
  apply andb_prop in Hpu as [? ?], Hmu as [? ?]. split_and!.
  - exists (authority (pgc_user p) (pgc_password p) (host_port (pgc_host p) (pgc_port p))).
    split; [|by apply authority_reads].
    unfold pg_url, pg_server_url, authority. case_bool_decide; by rewrite !string_app_assoc.
  - intros Hu. exists (authority (mgc_user m) (mgc_password m) (host_port (mgc_host m) (mgc_port m))).
    split; [|by apply authority_reads].
    unfold mongo_url, mongo_server_url, authority. rewrite (bool_decide_eq_false_2 _ Hu).
    case_bool_decide; by rewrite !string_app_assoc.
  - intros Hu. unfold mongo_url, mongo_server_url. rewrite bool_decide_eq_true_2 by done.
    by rewrite !string_app_assoc.
Qed.

Definition local_pg : PostgresConfig := mkPostgresConfig "localhost" 5432 "postgres" "secret" "im" default_conn.
Definition local_mongo : MongoDbConfig :=
  mkMongoDbConfig "localhost" 27017 "" "secret" "im" (mkCleanReceiveBox 1 []) None None.

Lemma database_urls_roundtrip_witness :
  (∃ s, pg_url local_pg = "postgres://" +:+ s +:+ "/im"
     ∧ read_authority s = (("postgres", "secret"), "localhost:5432"))
  ∧ mongo_url local_mongo = "mongodb://localhost:27017/im".
Proof.
  destruct (database_urls_roundtrip local_pg local_mongo eq_refl eq_refl eq_refl eq_refl)
    as ((s & H1 & H2) & _ & H3).
  split; [exists s; split; [exact H1|exact H2]|exact (H3 eq_refl)].
Defined.

Example one_url_two_users : authority "a:b" "c" "localhost:5432" = authority "a" "b:c" "localhost:5432".
Proof. reflexivity. Qed.

(** The configuration the repository ships ([config.yml]). *)
Definition dev_rpc (port : Z) (name : string) : RpcServerConfig :=
  mkRpcServerConfig "http" "127.0.0.1" port name [name; "grpc"] (mkGrpcHealthCheckConfig false 30000).
Definition dev_oauth (auth token : string) : OAuth2Item :=
  mkOAuth2Item "id" "secret" "http://localhost:8080/third_login_callback" auth token
    "https://api.github.com/user" "https://api.github.com/user/emails".
Definition dev_config : Config :=
  mkConfig CAll
    (mkDbConfig (mkPostgresConfig "127.0.0.1" 5432 "postgres" "postgres" "im" default_conn)
      (mkMongoDbConfig "127.0.0.1" 27017 "" "" "im"
        (mkCleanReceiveBox 3600 ["MsgTypeGroupInvitation"; "MsgTypeGroupInviteNew"; "MsgTypeGroupMemberExit";
           "MsgTypeGroupRemoveMember"; "MsgTypeGroupDismiss"; "MsgTypeGroupUpdate"; "MsgTypeFriendApplyReq";
           "MsgTypeFriendApplyResp"; "MsgTypeFriendBlack"; "MsgTypeFriendDelete"])
        (Some true) (Some 10%Z)) "./api/fixtures/xdb/ip2region.xdb")
    (mkServerConfig "127.0.0.1" 50001 "sandcat" "RoundRobin"
      (mkOAuth2 (dev_oauth "https://accounts.google.com/o/oauth2/v2/auth" "https://oauth2.googleapis.com/token")
        (dev_oauth "https://github.com/login/oauth/authorize" "https://github.com/login/oauth/access_token")))
    (mkKafkaConfig ["127.0.0.1:9092"] "sandcat-chat" 5000 "chat" (mkKafkaProducer 3000 "all" 3 1000)
      (mkKafkaConsumer 20000 "earliest"))
    (mkRedisConfig "127.0.0.1" 6379 10000)
    (mkRpcConfig false (dev_rpc 50002 "ws") (dev_rpc 50003 "chat") (dev_rpc 50004 "db") (dev_rpc 50005 "pusher"))
    (mkWsServerConfig "ws" "127.0.0.1" 50000 "websocket" ["websocket"; "grpc"])
    (mkServiceCenterConfig "127.0.0.1" 8500 "http" 5000)
    (mkOssConfig "http://127.0.0.1:9000" "minioadmin" "minioadmin" "sandcat" "sandcat-avatar" "us-east-1")
    (mkMailConfig "smtp.qq.com" "account" "password" "./api/fixtures/templates/*" "email_temp.html")
    (mkLogConfig "debug" "console").
