(* ===== verification/Tables.v ===== *)
(** * Rows of the PostgreSQL schema ([migrations/], [abi/src/pb/message.rs])

    One record per table the modelled statements read or write, keyed in
    [Pg] by the table's primary key. Columns no modelled statement mentions
    are left out of the rows. *)

From S2P Require Import Prelude Errors Types.

(** [group_role], an SQL enum; [role::text] is the text of the label. *)
Inductive GroupRole : Type := Owner | Admin | Member.
Global Instance GroupRole_eq_dec : EqDecision GroupRole.
Proof. solve_decision. Defined.

Definition role_text (r : GroupRole) : string :=
  match r with Owner => "Owner" | Admin => "Admin" | Member => "Member" end%string.

(** [$1::group_role]: a cast of a label that does not exist is an SQL error. *)
Definition role_of_text (s : string) : option GroupRole :=
  if bool_decide (s = "Owner"%string) then Some Owner
  else if bool_decide (s = "Admin"%string) then Some Admin
  else if bool_decide (s = "Member"%string) then Some Member
  else None.

(** Table [sequence] *)
Record SeqRow : Type := mkSeqRow { send_max_seq : Z; rec_max_seq : Z }.

(** Table [messages] (the columns [save_message] names) *)
Record MessageRow : Type := mkMessageRow {
  row_client_id : string; row_server_id : string; row_sender_id : string;
  row_receiver_id : string; row_msg_type : Z; row_content_type : Z;
  row_content : bytes; row_send_time : Z; row_platform : Z; row_group_id : string
}.

(** Table [groups]; the nullable columns are options. *)
Record GroupRow : Type := mkGroupRow {
  g_owner : string; g_name : string; g_avatar : string; g_description : string;
  g_announcement : string; g_create_time : Z; g_update_time : Z;
  g_max_members : Z; g_is_public : bool; g_join_approval_required : bool;
  g_category : option string; g_tags : option (list string); g_mute_all : bool;
  g_only_admin_post : bool; g_invite_permission : GroupRole;
  g_pinned_messages : option (list string)
}.

(** Table [group_members], primary key (group_id, user_id) *)
Record MemberRow : Type := mkMemberRow {
  m_group_name : string; m_role : GroupRole; m_joined_at : Z; m_is_muted : bool;
  m_notification_level : string; m_last_read_time : Z; m_display_order : Z;
  m_joined_by : string
}.

(** Table [users], and [struct User]: every statement that writes the table
    binds a text for [signature], the one column nullable only in the table. *)
Record User : Type := mkUser {
  u_id : string; u_name : string; u_account : string; u_password : string;
  u_avatar : string; u_gender : string; u_age : Z; u_phone : option string;
  u_email : option string; u_address : option string; u_region : option string;
  u_birthday : option Z; u_create_time : Z; u_update_time : Z; u_salt : string;
  u_signature : string; u_last_login_time : option Z; u_last_login_ip : option string;
  u_two_factor_enabled : bool; u_account_status : string; u_status : string;
  u_last_active_time : option Z; u_status_message : option string;
  u_privacy_settings : string; u_notification_settings : string; u_language : string;
  u_friend_requests_privacy : string; u_profile_visibility : string;
  u_theme : string; u_timezone : string; u_is_delete : bool
}.

(** [User::default()] *)
Definition user_default : User :=
  mkUser "" "" "" "" "" "" 0 None None None None None 0 0 "" "" None None false "" "" None None
    "" "" "" "" "" "" "" false.

(** Tables [group_categories], [group_files], [group_polls],
    [group_mute_records], [group_announcements] *)
Record CategoryRow : Type := mkCategory {
  c_name : string; c_description : option string; c_display_order : Z;
  c_create_time : Z; c_update_time : Z
}.
Record GroupFileRow : Type := mkGroupFile {
  f_group_id : string; f_uploader_id : string; f_file_name : string;
  f_file_url : string; f_file_size : Z; f_file_type : string; f_upload_time : Z;
  f_is_pinned : bool; f_download_count : Z; f_thumbnail_url : option string
}.

Record PollOption : Type := mkPollOption {
  po_id : string; po_text : string; po_vote_count : Z; po_voter_ids : list string
}.
Record GroupPollRow : Type := mkGroupPollRow {
  p_group_id : string; p_creator_id : string; p_title : string;
  p_options : list PollOption; p_is_multiple : bool; p_is_anonymous : bool;
  p_created_at : Z; p_expires_at : option Z; p_status : string
}.
Record MuteRow : Type := mkMute {
  mu_group_id : string; mu_user_id : string; mu_operator_id : string;
  mu_mute_until : Z; mu_reason : option string; mu_created_at : Z
}.
Record AnnouncementRow : Type := mkAnnouncement {
  a_group_id : string; a_creator_id : string; a_content : string;
  a_created_at : Z; a_is_pinned : bool
}.

(** [friend_request_status], an SQL enum, and [enum FriendshipStatus] *)
Inductive FriendshipStatus : Type :=
| FsPending | FsAccepted | FsRejected | FsBlacked | FsDeleted | FsMuted | FsHidden.
Global Instance FriendshipStatus_eq_dec : EqDecision FriendshipStatus.
Proof. solve_decision. Defined.

(** Table [friendships], primary key [id], unique (user_id, friend_id) *)
Record FriendshipRow : Type := mkFriendshipRow {
  fs_user_id : string; fs_friend_id : string; fs_status : FriendshipStatus;
  fs_apply_msg : option string; fs_req_remark : option string;
  fs_resp_msg : option string; fs_resp_remark : option string;
  fs_source : string; fs_create_time : Z; fs_update_time : Z;
  fs_operator_id : string; fs_last_operation : string
}.

(** Table [friends], keyed by its unique constraint (user_id, friend_id) *)
Record FriendRow : Type := mkFriendRow {
  fr_fs_id : string; fr_status : FriendshipStatus; fr_remark : option string;
  fr_source : string; fr_create_time : Z; fr_update_time : Z
}.

(** Table [friend_interactions]: the column the statements write. *)
Record InteractionRow : Type := mkInteraction { in_last_interact_time : Z }.

(** The database: every table a map from its key. *)
Record Pg : Type := mkPg {
  t_sequence : gmap string SeqRow;
  t_messages : list MessageRow;
  t_users : gmap string User;
  t_groups : gmap string GroupRow;
  t_members : gmap (string * string) MemberRow;
  t_categories : gmap string CategoryRow;
  t_files : gmap string GroupFileRow;
  t_polls : gmap string GroupPollRow;
  t_mutes : gmap string MuteRow;
  t_announcements : gmap string AnnouncementRow;
  t_friendships : gmap string FriendshipRow;
  t_friends : gmap (string * string) FriendRow;
  t_interactions : gmap (string * string) InteractionRow
}.

Definition pg_empty : Pg := mkPg ∅ [] ∅ ∅ ∅ ∅ ∅ ∅ ∅ ∅ ∅ ∅ ∅.

Definition upd_sequence (f : gmap string SeqRow → gmap string SeqRow) (p : Pg) : Pg :=
  mkPg (f (t_sequence p)) (t_messages p) (t_users p) (t_groups p) (t_members p)
    (t_categories p) (t_files p) (t_polls p) (t_mutes p) (t_announcements p)
    (t_friendships p) (t_friends p) (t_interactions p).
Definition upd_messages (f : list MessageRow → list MessageRow) (p : Pg) : Pg :=
  mkPg (t_sequence p) (f (t_messages p)) (t_users p) (t_groups p) (t_members p)
    (t_categories p) (t_files p) (t_polls p) (t_mutes p) (t_announcements p)
    (t_friendships p) (t_friends p) (t_interactions p).
Definition upd_users (f : gmap string User → gmap string User) (p : Pg) : Pg :=
  mkPg (t_sequence p) (t_messages p) (f (t_users p)) (t_groups p) (t_members p)
    (t_categories p) (t_files p) (t_polls p) (t_mutes p) (t_announcements p)
    (t_friendships p) (t_friends p) (t_interactions p).
Definition upd_groups (f : gmap string GroupRow → gmap string GroupRow) (p : Pg) : Pg :=
  mkPg (t_sequence p) (t_messages p) (t_users p) (f (t_groups p)) (t_members p)
    (t_categories p) (t_files p) (t_polls p) (t_mutes p) (t_announcements p)
    (t_friendships p) (t_friends p) (t_interactions p).
Definition upd_members (f : gmap (string * string) MemberRow → gmap (string * string) MemberRow) (p : Pg) : Pg :=
  mkPg (t_sequence p) (t_messages p) (t_users p) (t_groups p) (f (t_members p))
    (t_categories p) (t_files p) (t_polls p) (t_mutes p) (t_announcements p)
    (t_friendships p) (t_friends p) (t_interactions p).
Definition upd_categories (f : gmap string CategoryRow → gmap string CategoryRow) (p : Pg) : Pg :=
  mkPg (t_sequence p) (t_messages p) (t_users p) (t_groups p) (t_members p)
    (f (t_categories p)) (t_files p) (t_polls p) (t_mutes p) (t_announcements p)
    (t_friendships p) (t_friends p) (t_interactions p).
Definition upd_files (f : gmap string GroupFileRow → gmap string GroupFileRow) (p : Pg) : Pg :=
  mkPg (t_sequence p) (t_messages p) (t_users p) (t_groups p) (t_members p)
    (t_categories p) (f (t_files p)) (t_polls p) (t_mutes p) (t_announcements p)
    (t_friendships p) (t_friends p) (t_interactions p).
Definition upd_polls (f : gmap string GroupPollRow → gmap string GroupPollRow) (p : Pg) : Pg :=
  mkPg (t_sequence p) (t_messages p) (t_users p) (t_groups p) (t_members p)
    (t_categories p) (t_files p) (f (t_polls p)) (t_mutes p) (t_announcements p)
    (t_friendships p) (t_friends p) (t_interactions p).
Definition upd_mutes (f : gmap string MuteRow → gmap string MuteRow) (p : Pg) : Pg :=
  mkPg (t_sequence p) (t_messages p) (t_users p) (t_groups p) (t_members p)
    (t_categories p) (t_files p) (t_polls p) (f (t_mutes p)) (t_announcements p)
    (t_friendships p) (t_friends p) (t_interactions p).
Definition upd_announcements (f : gmap string AnnouncementRow → gmap string AnnouncementRow) (p : Pg) : Pg :=
  mkPg (t_sequence p) (t_messages p) (t_users p) (t_groups p) (t_members p)
    (t_categories p) (t_files p) (t_polls p) (t_mutes p) (f (t_announcements p))
    (t_friendships p) (t_friends p) (t_interactions p).
Definition upd_friendships (f : gmap string FriendshipRow → gmap string FriendshipRow) (p : Pg) : Pg :=
  mkPg (t_sequence p) (t_messages p) (t_users p) (t_groups p) (t_members p)
    (t_categories p) (t_files p) (t_polls p) (t_mutes p) (t_announcements p)
    (f (t_friendships p)) (t_friends p) (t_interactions p).
Definition upd_friends (f : gmap (string * string) FriendRow → gmap (string * string) FriendRow) (p : Pg) : Pg :=
  mkPg (t_sequence p) (t_messages p) (t_users p) (t_groups p) (t_members p)
    (t_categories p) (t_files p) (t_polls p) (t_mutes p) (t_announcements p)
    (t_friendships p) (f (t_friends p)) (t_interactions p).
Definition upd_interactions (f : gmap (string * string) InteractionRow → gmap (string * string) InteractionRow) (p : Pg) : Pg :=
  mkPg (t_sequence p) (t_messages p) (t_users p) (t_groups p) (t_members p)
    (t_categories p) (t_files p) (t_polls p) (t_mutes p) (t_announcements p)
    (t_friendships p) (t_friends p) (f (t_interactions p)).
