(* ===== verification/World.v ===== *)
(** * The services the programs talk to

    [Redis]: the key space with the commands the cache module issues.
    [World]: Redis, PostgreSQL, MongoDB, the Kafka topic, the pushes made to
    the gateways, the clock, the id generator, and a schedule of network
    faults that every remote call consults. *)

From S2P Require Import Prelude Errors Types Tables.

(** ** Redis *)

(** A hash field holds an integer or a text. *)
Inductive hval : Type := HInt (z : Z) | HText (s : string).

Inductive rval : Type :=
| RString (s : string)
| RHash (h : gmap string hval)
| RSet (s : gset string).

(** A key's value and its absolute expiry time in milliseconds, if it has one. *)
Abbreviation Redis := (gmap string (rval * option Z)).

Section redis.
Context (now : Z).

Definition live (e : rval * option Z) : bool :=
  match snd e with Some t => bool_decide (now < t)%Z | None => true end.

Definition rget (r : Redis) (k : string) : option rval :=
  match r !! k with Some e => if live e then Some (fst e) else None | None => None end.

Definition rttl (r : Redis) (k : string) : option Z :=
  match r !! k with Some e => if live e then snd e else None | None => None end.

(** Writing keeps the key's expiry; an emptied set or hash is deleted. *)
Definition rput (r : Redis) (k : string) (v : rval) : Redis :=
  match v with
  | RHash h => if bool_decide (h = ∅) then delete k r else <[k:=(v, rttl r k)]> r
  | RSet s => if bool_decide (s = ∅) then delete k r else <[k:=(v, rttl r k)]> r
  | RString _ => <[k:=(v, rttl r k)]> r
  end.

(** A command answers a value or an error reply (WRONGTYPE, not an integer,
    overflow); an error reply does not undo what a script did before it. *)
Abbreviation RM := (M Redis unit).

Definition GET (k : string) : RM (option string) := λ r,
  match rget r k with
  | None => (Ok None, r)
  | Some (RString s) => (Ok (Some s), r)
  | Some _ => (Err tt, r)
  end.

Definition SET (k s : string) : RM unit := modify (λ r, <[k:=(RString s, None)]> r).

Definition rhash (r : Redis) (k : string) : option (gmap string hval) :=
  match rget r k with
  | None => Some ∅
  | Some (RHash h) => Some h
  | Some _ => None
  end.

Definition HGET (k f : string) : RM (option hval) := λ r,
  match rhash r k with Some h => (Ok (h !! f), r) | None => (Err tt, r) end.

Definition HSET (k f : string) (v : hval) : RM unit := λ r,
  match rhash r k with
  | Some h => (Ok tt, rput r k (RHash (<[f:=v]> h)))
  | None => (Err tt, r)
  end.

Definition HDEL (k f : string) : RM unit := λ r,
  match rhash r k with
  | Some h => (Ok tt, rput r k (RHash (delete f h)))
  | None => (Err tt, r)
  end.

(** HINCRBY: the field must hold an integer, and the sum must fit 64 bits. *)
Definition HINCRBY (k f : string) (by_ : Z) : RM Z := λ r,
  match rhash r k with
  | None => (Err tt, r)
  | Some h =>
      match h !! f with
      | Some (HText _) => (Err tt, r)
      | o =>
          let v := match o with Some (HInt z) => z | _ => 0%Z end in
          if in_i64 (v + by_)
          then (Ok (v + by_)%Z, rput r k (RHash (<[f:=HInt (v + by_)]> h)))
          else (Err tt, r)
      end
  end.

Definition rset (r : Redis) (k : string) : option (gset string) :=
  match rget r k with
  | None => Some ∅
  | Some (RSet s) => Some s
  | Some _ => None
  end.

Definition SADD (k m : string) : RM unit := λ r,
  match rset r k with
  | Some s => (Ok tt, rput r k (RSet ({[m]} ∪ s)))
  | None => (Err tt, r)
  end.

(** SREM without a member is an arity error. *)
Definition SREM (k : string) (ms : list string) : RM unit := λ r,
  match ms with [] => (Err tt, r) | _ =>
  match rset r k with
  | Some s => (Ok tt, rput r k (RSet (s ∖ list_to_set ms)))
  | None => (Err tt, r)
  end end.

Definition SMEMBERS (k : string) : RM (list string) := λ r,
  match rset r k with Some s => (Ok (elements s), r) | None => (Err tt, r) end.

Definition SCARD (k : string) : RM Z := λ r,
  match rset r k with Some s => (Ok (Z.of_nat (size s)), r) | None => (Err tt, r) end.

Definition DEL (k : string) : RM unit := modify (delete k).

Definition EXPIRE (k : string) (seconds : Z) : RM unit := modify (λ r,
  match rget r k with
  | None => r
  | Some v => <[k:=(v, Some (now + seconds * 1000)%Z)]> r
  end).

(** A pipeline sends all its commands; each runs whatever became of the
    earlier ones, and the reply is an error if any command's was. *)
Fixpoint pipeline (cs : list (RM unit)) : RM unit :=
  match cs with
  | [] => mret tt
  | c :: cs' => λ r,
      match c r with
      | (Ok _, r') => pipeline cs' r'
      | (_, r') => (Err tt, (pipeline cs' r').2)
      end
  end.
End redis.

Abbreviation RM := (M Redis unit).
Global Arguments rput : simpl never.
Global Arguments rhash : simpl never.
Global Arguments rset : simpl never.

(** ** Network faults *)

(** A remote call passes, fails without effect, or takes effect while its
    reply is lost. *)
Inductive fault : Type := Pass | FailBefore | FailAfter.

(** ** Pushes to the gateways, as seen by the message server *)
Inductive Push : Type :=
| PushSingle (addr : string) (m : Msg)
| PushGroup (addr : string) (m : Msg) (members : list GroupMemSeq).

(** ** MongoDB

    A collection: its documents in insertion order, and whether it carries the
    unique index on (server_id, receiver_id). *)
Record Coll : Type := mkColl { c_docs : list Document; c_unique : bool }.
Definition coll_empty : Coll := mkColl [] false.

(** ** A service instance as the registry lists it *)
Record RegService : Type := mkService { svc_scheme : string; svc_address : string; svc_port : Z }.

(** ** The object store: buckets of named contents *)
Abbreviation Objects := (gmap string (gmap string bytes)).

(** ** The world *)

Record World : Type := mkWorld {
  w_redis : Redis;
  w_pg : Pg;
  w_mongo : gmap string Coll;
  w_kafka : list string;
  w_pushed : list Push;
  w_ws_list : list string;       (* PusherService::ws_rpc_list, by address *)
  w_registry : list RegService;     (* the gateways the service centre lists *)
  w_active : gset string;        (* HybridShardedMsgBox::active_collections *)
  w_cached : gset string;        (* HybridShardedMsgBox::collection_cache *)
  w_faults : list fault;
  w_clock : Z;                   (* milliseconds since the epoch *)
  w_ids : nat;                   (* ids drawn from the generator so far *)
  w_objects : Objects            (* the object store *)
}.

Definition upd_redis (f : Redis → Redis) (w : World) : World :=
  mkWorld (f (w_redis w)) (w_pg w) (w_mongo w) (w_kafka w) (w_pushed w) (w_ws_list w)
    (w_registry w) (w_active w) (w_cached w) (w_faults w) (w_clock w) (w_ids w) (w_objects w).
Definition upd_pg (f : Pg → Pg) (w : World) : World :=
  mkWorld (w_redis w) (f (w_pg w)) (w_mongo w) (w_kafka w) (w_pushed w) (w_ws_list w)
    (w_registry w) (w_active w) (w_cached w) (w_faults w) (w_clock w) (w_ids w) (w_objects w).
Definition upd_mongo (f : gmap string Coll → gmap string Coll) (w : World) : World :=
  mkWorld (w_redis w) (w_pg w) (f (w_mongo w)) (w_kafka w) (w_pushed w) (w_ws_list w)
    (w_registry w) (w_active w) (w_cached w) (w_faults w) (w_clock w) (w_ids w) (w_objects w).
Definition upd_kafka (f : list string → list string) (w : World) : World :=
  mkWorld (w_redis w) (w_pg w) (w_mongo w) (f (w_kafka w)) (w_pushed w) (w_ws_list w)
    (w_registry w) (w_active w) (w_cached w) (w_faults w) (w_clock w) (w_ids w) (w_objects w).
Definition upd_pushed (f : list Push → list Push) (w : World) : World :=
  mkWorld (w_redis w) (w_pg w) (w_mongo w) (w_kafka w) (f (w_pushed w)) (w_ws_list w)
    (w_registry w) (w_active w) (w_cached w) (w_faults w) (w_clock w) (w_ids w) (w_objects w).
Definition upd_ws_list (f : list string → list string) (w : World) : World :=
  mkWorld (w_redis w) (w_pg w) (w_mongo w) (w_kafka w) (w_pushed w) (f (w_ws_list w))
    (w_registry w) (w_active w) (w_cached w) (w_faults w) (w_clock w) (w_ids w) (w_objects w).
Definition upd_registry (f : list RegService → list RegService) (w : World) : World :=
  mkWorld (w_redis w) (w_pg w) (w_mongo w) (w_kafka w) (w_pushed w) (w_ws_list w) (f
    (w_registry w)) (w_active w) (w_cached w) (w_faults w) (w_clock w) (w_ids w) (w_objects w).
Definition upd_active (f : gset string → gset string) (w : World) : World :=
  mkWorld (w_redis w) (w_pg w) (w_mongo w) (w_kafka w) (w_pushed w) (w_ws_list w)
    (w_registry w) (f (w_active w)) (w_cached w) (w_faults w) (w_clock w) (w_ids w) (w_objects w).
Definition upd_cached (f : gset string → gset string) (w : World) : World :=
  mkWorld (w_redis w) (w_pg w) (w_mongo w) (w_kafka w) (w_pushed w) (w_ws_list w)
    (w_registry w) (w_active w) (f (w_cached w)) (w_faults w) (w_clock w) (w_ids w) (w_objects w).
Definition upd_faults (f : list fault → list fault) (w : World) : World :=
  mkWorld (w_redis w) (w_pg w) (w_mongo w) (w_kafka w) (w_pushed w) (w_ws_list w)
    (w_registry w) (w_active w) (w_cached w) (f (w_faults w)) (w_clock w) (w_ids w) (w_objects w).
Definition upd_ids (f : nat → nat) (w : World) : World :=
  mkWorld (w_redis w) (w_pg w) (w_mongo w) (w_kafka w) (w_pushed w) (w_ws_list w)
    (w_registry w) (w_active w) (w_cached w) (w_faults w) (w_clock w) (f (w_ids w)) (w_objects w).

Definition upd_objects (f : Objects → Objects) (w : World) : World :=
  mkWorld (w_redis w) (w_pg w) (w_mongo w) (w_kafka w) (w_pushed w) (w_ws_list w)
    (w_registry w) (w_active w) (w_cached w) (w_faults w) (w_clock w) (w_ids w) (f (w_objects w)).

(** The world at another time. *)
Definition at_time (t : Z) (w : World) : World :=
  mkWorld (w_redis w) (w_pg w) (w_mongo w) (w_kafka w) (w_pushed w) (w_ws_list w) (w_registry w) (w_active w) (w_cached w) 
    (w_faults w) t (w_ids w) (w_objects w).

Definition world_empty : World := mkWorld ∅ pg_empty ∅ [] [] [] [] ∅ ∅ [] 0 0 ∅.

(** The program monad. *)
Abbreviation IO := (M World Error).

(** The next fault of the schedule; an exhausted schedule is a healthy network. *)
Definition take_fault : IO fault := λ w,
  match w_faults w with
  | [] => (Ok Pass, w)
  | f :: fs => (Ok f, upd_faults (λ _, fs) w)
  end.

(** A remote call whose transport error is [e]. *)
Definition remote {A} (e : Error) (op : IO A) : IO A :=
  f ← take_fault;
  match f with
  | Pass => op
  | FailBefore => throw e
  | FailAfter => op ≫= λ _, throw e
  end.

Definition now_ms : IO Z := gets w_clock.

(** [nanoid!()]: the ids come from a stream. *)
Definition draw_nanoid (nanoid : nat → string) : IO string := λ w, (Ok (nanoid (w_ids w)), upd_ids S w).

Definition redis_error : Error := from_external (RedisRedisError "redis").
Definition pg_error : Error := from_external (SqlxError "sqlx").
Definition mongo_error : Error := from_external (MongoError "mongodb").

(** Awaiting a joined task: a panic in it is a [JoinError]. *)
Definition join_error : Error := internal "task panicked".
Definition join {A} (o : outcome Error A) : IO A :=
  match o with
  | Ok a => mret a
  | Err e => throw e
  | Panic => throw join_error
  | Hang => hang
  end.

(** [self.client.get_multiplexed_async_connection().await?] *)
Definition redis_conn : IO unit := remote redis_error (mret tt).

(** A command, script or pipeline, executed by the server as a unit. *)
Definition redis_run {A} (c : Z → RM A) : IO A :=
  remote redis_error (λ w,
    match c (w_clock w) (w_redis w) with
    | (Ok a, r) => (Ok a, upd_redis (λ _, r) w)
    | (_, r) => (Err redis_error, upd_redis (λ _, r) w)
    end).

(** A SQL statement: rows out, tables updated. *)
Definition pg_exec {A} (q : Pg → option (A * Pg)) : IO A :=
  remote pg_error (λ w,
    match q (w_pg w) with
    | Some (a, p) => (Ok a, upd_pg (λ _, p) w)
    | None => (Err pg_error, w)
    end).

Definition pg_query {A} (q : Pg → option A) : IO A :=
  pg_exec (λ p, a ← q p; Some (a, p)).

(** ** A healthy network *)

Definition healthy (w : World) : Prop := w_faults w = [].

Lemma remote_healthy {A} e (op : IO A) w : healthy w → remote e op w = op w.
Proof. unfold healthy, remote, take_fault. mstep. by intros ->. Qed.

Lemma redis_conn_healthy w : healthy w → redis_conn w = (Ok tt, w).
Proof. intros. unfold redis_conn. by rewrite remote_healthy. Qed.

Lemma redis_run_healthy {A} (c : Z → RM A) w a r :
  healthy w → c (w_clock w) (w_redis w) = (Ok a, r) →
  redis_run c w = (Ok a, upd_redis (λ _, r) w).
Proof. intros ? Hc. unfold redis_run. rewrite remote_healthy by done. by rewrite Hc. Qed.

Lemma upd_redis_id w : upd_redis (λ _, w_redis w) w = w.
Proof. by destruct w. Qed.

Lemma upd_pg_id w : upd_pg (λ _, w_pg w) w = w.
Proof. by destruct w. Qed.

Lemma redis_run_query {A} (c : Z → RM A) w a :
  healthy w → c (w_clock w) (w_redis w) = (Ok a, w_redis w) → redis_run c w = (Ok a, w).
Proof.
  intros ? Hc. erewrite redis_run_healthy by done. by rewrite upd_redis_id.
Qed.

Lemma pg_exec_healthy {A} (q : Pg → option (A * Pg)) w a p :
  healthy w → q (w_pg w) = Some (a, p) → pg_exec q w = (Ok a, upd_pg (λ _, p) w).
Proof. intros ? Hq. unfold pg_exec. rewrite remote_healthy by done. by rewrite Hq. Qed.

Lemma pg_exec_healthy_err {A} (q : Pg → option (A * Pg)) w :
  healthy w → q (w_pg w) = None → pg_exec q w = (Err pg_error, w).
Proof. intros ? Hq. unfold pg_exec. rewrite remote_healthy by done. by rewrite Hq. Qed.

(** ** Frames of the primitive calls *)


Lemma keeps_remote {A} (R : World → World → Prop) `{!PreOrder R} e (op : IO A) :
  (∀ w fs, R w (upd_faults (λ _, fs) w)) → keeps R op → keeps R (remote e op).
Proof.
  intros Hf Hop. unfold remote. apply keeps_bind; [done| |].
  - intros w. unfold take_fault. destruct (w_faults w); simpl; [reflexivity|apply Hf].
  - intros []; [exact Hop|by apply keeps_throw|].
    apply keeps_bind; [done|exact Hop|]. intros _. by apply keeps_throw.
Qed.

Lemma keeps_redis_run {A} (R : World → World → Prop) `{!PreOrder R} (c : Z → RM A) :
  (∀ w fs, R w (upd_faults (λ _, fs) w)) →
  (∀ w, R w (upd_redis (λ _, (c (w_clock w) (w_redis w)).2) w)) →
  keeps R (redis_run c).
Proof.
  intros Hf Hc. apply keeps_remote; [done..|]. intros w. specialize (Hc w).
  by destruct (c _ _) as [[] r].
Qed.

(** What a statement can do to the tables, whatever fails. *)
Lemma pg_exec_cases {A} (q : Pg → option (A * Pg)) w :
  w_pg (pg_exec q w).2 = w_pg w ∨ ∃ a p, q (w_pg w) = Some (a, p) ∧ w_pg (pg_exec q w).2 = p.
Proof.
  unfold pg_exec, remote, mbind, M_bind, take_fault.
  destruct w as [redis pg mongo kafka pushed ws reg act cach faults clock ids]. simpl.
  destruct faults as [|[] fs]; simpl; auto; destruct (q pg) as [[a p]|]; simpl; eauto.
Qed.

Lemma keeps_pg_exec {A} (R : World → World → Prop) `{!PreOrder R}
    (q : Pg → option (A * Pg)) :
  (∀ w fs, R w (upd_faults (λ _, fs) w)) →
  (∀ w a p, q (w_pg w) = Some (a, p) → R w (upd_pg (λ _, p) w)) →
  keeps R (pg_exec q).
Proof.
  intros Hf Hq. apply keeps_remote; [done..|]. intros w.
  destruct (q _) as [[a p]|] eqn:E; simpl; [eauto|reflexivity].
Qed.

(** ** Laws of the key space *)

Section redis_laws.
Context (now : Z).

Definition nonempty (v : rval) : bool :=
  match v with
  | RHash h => bool_decide (h ≠ ∅)
  | RSet s => bool_decide (s ≠ ∅)
  | RString _ => true
  end.

Lemma live_rttl r k v : live now (v, rttl now r k) = true.
Proof.
  unfold rttl, live; simpl. destruct (r !! k) as [[v' [t|]]|]; simpl; try done.
  case_bool_decide as Ht; simpl; [|done]. by rewrite bool_decide_eq_true.
Qed.

Lemma rget_rput r k v :
  rget now (rput now r k v) k = if nonempty v then Some v else None.
Proof.
  unfold rput, rget, nonempty. destruct v; repeat case_bool_decide; try done;
    rewrite ?lookup_delete_eq, ?lookup_insert_eq, ?live_rttl; done.
Qed.

Lemma lookup_rput_ne r k v k' : k ≠ k' → rput now r k v !! k' = r !! k'.
Proof.
  intros. unfold rput. destruct v; try case_bool_decide;
    by rewrite ?lookup_delete_ne, ?lookup_insert_ne by done.
Qed.

Lemma rhash_rput r k h : rhash now (rput now r k (RHash h)) k = Some h.
Proof.
  unfold rhash. rewrite rget_rput. simpl. case_bool_decide as Hh; [done|].
  destruct (decide (h = ∅)); [by subst|done].
Qed.

Lemma rset_rput r k s : rset now (rput now r k (RSet s)) k = Some s.
Proof.
  unfold rset. rewrite rget_rput. simpl. case_bool_decide as Hs; [done|].
  destruct (decide (s = ∅)); [by subst|done].
Qed.
End redis_laws.
