(* ===== verification/Oss.v ===== *)
(** * The object store ([oss/src/lib.rs], [client.rs]) and the file handlers
    ([api/src/handlers/files/file.rs])

    The SDK's calls have the meaning S3 documents: [head] answers 404 for what is
    missing and 403 for a bucket of somebody else; a put needs its bucket and
    replaces; a delete of a missing key succeeds. Reading a local file, the
    order of a [HashMap] and the fields of a multipart request are parameters. *)

From S2P Require Import Prelude Errors Types World.

(** ** The calls of the SDK *)

Definition oss_error : Error := from_external (AwsSdkError "s3").

Definition object (w : World) (bucket key : string) : option bytes := w_objects w !! bucket ≫= (.!! key).

Record S3Client : Type := mkS3Client { s3_bucket : string; s3_avatar_bucket : string }.

Section client.
Context (foreign : string → bool).          (* the bucket belongs to another account *)
Context (read_file : string → option bytes). (* [fs::read] *)
Context (avatar_order : list (string * string)). (* [default_avatars().into_iter()] *)

(** [Some status] is a service error. *)
Definition head_bucket (b : string) : IO (option Z) :=
  remote oss_error (gets (λ w,
    if foreign b then Some 403%Z
    else if bool_decide (is_Some (w_objects w !! b)) then None else Some 404%Z)).

Definition sdk_create_bucket (b : string) : IO unit :=
  remote oss_error (λ w,
    if foreign b || bool_decide (is_Some (w_objects w !! b)) then (Err oss_error, w)
    else (Ok tt, upd_objects (insert b ∅) w)).

Definition head_object (b k : string) : IO unit :=
  remote oss_error (λ w, if bool_decide (is_Some (object w b k)) then (Ok tt, w) else (Err oss_error, w)).

Definition put_object (b k : string) (content : bytes) : IO unit :=
  remote oss_error (λ w,
    match w_objects w !! b with
    | Some objs => (Ok tt, upd_objects (insert b (<[k := content]> objs)) w)
    | None => (Err oss_error, w)
    end).

Definition get_object (b k : string) : IO bytes :=
  remote oss_error (λ w, match object w b k with Some c => (Ok c, w) | None => (Err oss_error, w) end).

Definition delete_object (b k : string) : IO unit :=
  remote oss_error (λ w,
    match w_objects w !! b with
    | Some objs => (Ok tt, upd_objects (insert b (delete k objs)) w)
    | None => (Err oss_error, w)
    end).

(** ** [S3Client] *)

Section methods.
Context (self : S3Client).

Definition check_exists (bucket : string) : IO bool :=
  answer ← attempt (head_bucket bucket);
  match answer with
  | inr None => mret true
  | inr (Some status) =>
      if bool_decide (status = 404%Z) then mret false
      else throw (internal_with_details "check avatar_bucket exists error")
  | inl _ => throw (internal_with_details "s3")
  end.
Definition check_bucket_exists : IO bool := check_exists (s3_bucket self).
Definition check_avatar_bucket_exits : IO bool := check_exists (s3_avatar_bucket self).

Definition create_bucket : IO unit :=
  is_exist ← check_bucket_exists;
  (if negb is_exist then sdk_create_bucket (s3_bucket self) else mret tt) ;;
  avatar_exists ← check_avatar_bucket_exits;
  if negb avatar_exists then sdk_create_bucket (s3_avatar_bucket self) else mret tt.

Definition exists_by_name (bucket key : string) : IO bool :=
  answer ← attempt (head_object bucket key);
  mret (match answer with inr _ => true | inl _ => false end).

Definition upload (bucket key : string) (content : bytes) : IO unit := put_object bucket key content.
Definition download (bucket key : string) : IO bytes := get_object bucket key.

Definition file_exists (key local_md5 : string) : IO bool := exists_by_name (s3_bucket self) key.
Definition upload_file (key : string) (content : bytes) : IO unit := upload (s3_bucket self) key content.
Definition download_file (key : string) : IO bytes := download (s3_bucket self) key.
Definition delete_file (key : string) : IO unit := delete_object (s3_bucket self) key.
Definition upload_avatar (key : string) (content : bytes) : IO unit := upload (s3_avatar_bucket self) key content.
Definition download_avatar (key : string) : IO bytes := download (s3_avatar_bucket self) key.
Definition delete_avatar (key : string) : IO unit := delete_object (s3_avatar_bucket self) key.

(** An unreadable local file is passed over. *)
Definition check_default_avatar (x : string * string) : IO unit :=
  let '(path, name) := x in
  present ← exists_by_name (s3_avatar_bucket self) name;
  if (present : bool) then mret tt
  else match read_file path with Some data => upload_avatar name data | None => mret tt end.
Definition check_default_avatars : IO unit := for_each avatar_order check_default_avatar.

Definition s3_new : IO unit :=
  unwrap create_bucket ;; unwrap check_default_avatars.
End methods.
End client.

Definition default_avatars : list (string * string) :=
  [("./oss/default_avatar/avatar1.png", "avatar1.png");
   ("./oss/default_avatar/avatar2.png", "avatar2.png");
   ("./oss/default_avatar/avatar3.png", "avatar3.png")]%string.

(** ** [Path::new(name).extension()]: slash is character 47, dot 46 *)

Definition file_name (path : string) : option string :=
  match last (filter (λ c, c ≠ ""%string ∧ c ≠ "."%string) (split_on 47 path)) with
  | Some c => if bool_decide (c = ".."%string) then None else Some c
  | None => None
  end.

(** The text before and after the last dot. *)
Fixpoint rsplit_dot (s : string) : option (string * string) :=
  match s with
  | String.EmptyString => None
  | String.String a s' =>
      match rsplit_dot s' with
      | Some (before, after) => Some (String.String a before, after)
      | None => if (Ascii.nat_of_ascii a =? 46)%nat then Some (""%string, s') else None
      end
  end.

Definition extension (path : string) : option string :=
  file ← file_name path;
  match rsplit_dot file with
  | Some (before, after) => if bool_decide (before = ""%string) then None else Some after
  | None => None
  end.

Example extensions : extension <$> ["a/b.tar.gz"; ".bashrc"; "b."; "c.png/"; "dir.d/.."; "noext"]%string
  = [Some "gz"; None; Some ""; Some "png"; None; None]%string.
Proof. reflexivity. Qed.

(** ** The file handlers *)

(** What the body's first part is found to be: a multipart error, nothing, or a
    field whose bytes may fail to arrive. *)
Record Field : Type := mkField { fld_file_name : option string; fld_bytes : string + bytes }.

Section handlers.
Context (self : S3Client) (nanoid : nat → string).

Definition stored_name (id : string) (given : string) : string :=
  match extension given with None => id | Some e => (id +:+ "." +:+ e)%string end.

Definition store_first (put : string → bytes → IO unit) (first : string + option Field) : IO string :=
  match first with
  | inl e => throw (internal e)
  | inr None => mret ""%string
  | inr (Some field) =>
      id ← draw_nanoid nanoid;
      let filename := stored_name id (default ""%string (fld_file_name field)) in
      match fld_bytes field with
      | inl e => throw (internal e)
      | inr data => put filename data ;; mret filename
      end
  end.

Definition upload_handler (first : string + option Field) : IO string := store_first (upload_file self) first.
Definition upload_avatar_handler (first : string + option Field) : IO string :=
  store_first (upload_avatar self) first.

Definition cache_header : list (string * string) := [("Cache-Control", "private, max-age=31536000")]%string.

Definition get_file_by_name (filename : string) : IO (list (string * string) * bytes) :=
  content ← download_file self filename; mret (cache_header, content).
Definition get_avatar_by_name (filename : string) : IO (list (string * string) * bytes) :=
  content ← download_avatar self filename; mret (cache_header, content).
End handlers.

(** ** Lemmas *)

Definition same_objects (w w' : World) : Prop := ∀ b k, object w' b k = object w b k.
Definition has_bucket (w : World) (b : string) : Prop := is_Some (w_objects w !! b).

Lemma object_insert w b objs b' k :
  object (upd_objects (insert b objs) w) b' k = if decide (b' = b) then objs !! k else object w b' k.
Proof.
  unfold object. simpl. destruct (decide (b' = b)) as [->|]; [by rewrite lookup_insert_eq|].
  by rewrite lookup_insert_ne.
Qed.

Lemma put_object_run w b k c : healthy w → has_bucket w b →
  ∃ w', put_object b k c w = (Ok tt, w') ∧ healthy w' ∧ w_ids w' = w_ids w
    ∧ (∀ b', has_bucket w b' → has_bucket w' b')
    ∧ ∀ b' k', object w' b' k' = if decide (b' = b ∧ k' = k) then Some c else object w b' k'.
Proof.
  intros Hnet [objs Hb]. unfold put_object. rewrite remote_healthy, Hb by done.
  eexists. split_and!; [done|done|done| |].
  - intros b' Hb'. unfold has_bucket. simpl. rewrite lookup_insert. by case_decide.
  - intros b' k'. rewrite object_insert. unfold object at 2.
    destruct (decide (b' = b)) as [->|]; [|by rewrite decide_False by tauto].
    rewrite lookup_insert. case_decide as E; [by rewrite decide_True|].
    rewrite decide_False by naive_solver. unfold object. by rewrite Hb.
Qed.

Lemma exists_by_name_run w b k : healthy w →
  exists_by_name b k w = (Ok (bool_decide (is_Some (object w b k))), w).
Proof.
  intros Hnet. unfold exists_by_name, mbind, M_bind, attempt, head_object. rewrite remote_healthy by done.
  by case_bool_decide.
Qed.

Section start.
Context (foreign : string → bool) (self : S3Client).

(** One half of [create_bucket]: what is missing is created empty. *)
Lemma ensure_bucket_run b w : healthy w → foreign b = false →
  ∃ found w', check_exists foreign b w = (Ok found, w)
    ∧ (if negb found then sdk_create_bucket foreign b else mret tt) w = (Ok tt, w')
    ∧ healthy w' ∧ has_bucket w' b ∧ (∀ b', has_bucket w b' → has_bucket w' b')
    ∧ same_objects w w' ∧ (has_bucket w b → w' = w).
Proof.
  intros Hnet Hf. exists (bool_decide (has_bucket w b)).
  unfold check_exists, sdk_create_bucket, mbind, M_bind, attempt, head_bucket.
  rewrite !remote_healthy by done. unfold gets. rewrite Hf. unfold has_bucket at 1 2.
  destruct (decide (is_Some (w_objects w !! b))) as [Hb|Hb].
  - rewrite !bool_decide_eq_true_2 by done. exists w. by split_and!.
  - rewrite !bool_decide_eq_false_2 by done. exists (upd_objects (insert b ∅) w). split_and!; try done; simpl.
    + rewrite remote_healthy, bool_decide_eq_false_2 by done. reflexivity.
    + unfold has_bucket. simpl. by rewrite lookup_insert_eq.
    + intros b' Hb'. unfold has_bucket. simpl. rewrite lookup_insert. by case_decide.
    + intros b' k. rewrite object_insert. case_decide as E; [|done]. subst.
      unfold object. apply eq_None_not_Some in Hb. by rewrite Hb, lookup_empty.
Qed.

Lemma create_bucket_run w :
  healthy w → foreign (s3_bucket self) = false → foreign (s3_avatar_bucket self) = false →
  ∃ w', create_bucket foreign self w = (Ok tt, w') ∧ healthy w'
    ∧ has_bucket w' (s3_bucket self) ∧ has_bucket w' (s3_avatar_bucket self) ∧ same_objects w w'
    ∧ (has_bucket w (s3_bucket self) → has_bucket w (s3_avatar_bucket self) → w' = w).
Proof.
  intros Hnet Hdiff Hdiff'. destruct (ensure_bucket_run (s3_bucket self) w Hnet Hdiff) as (x & w1 & E1 & C1 & N1 & B1 & K1 & O1 & S1).
  destruct (ensure_bucket_run (s3_avatar_bucket self) w1 N1 Hdiff') as (y & w2 & E2 & C2 & N2 & B2 & K2 & O2 & S2).
  exists w2. split_and!; [|done|by apply K2|done| |].
  - unfold create_bucket. mrun E1. mrun C1. mrun E2. exact C2.
  - intros b k. by rewrite O2, O1.
  - intros Ha Hb. rewrite S2 by (by apply K1). by apply S1.
Qed.

End start.

Section avatars.
Context (read_file : string → option bytes) (self : S3Client).

(** What a default avatar is after start-up: what was there, or else the local
    file. *)
Definition avatar_or_file (w : World) (x : string * string) : option bytes :=
  match object w (s3_avatar_bucket self) x.2 with Some c => Some c | None => read_file x.1 end.

Lemma default_avatar_run x w : healthy w → has_bucket w (s3_avatar_bucket self) →
  ∃ w', check_default_avatar read_file self x w = (Ok tt, w') ∧ healthy w'
    ∧ (∀ b, has_bucket w b → has_bucket w' b)
    ∧ (∀ b k, object w' b k = if decide (b = s3_avatar_bucket self ∧ k = x.2)
                              then avatar_or_file w x else object w b k)
    ∧ (avatar_or_file w x = object w (s3_avatar_bucket self) x.2 → w' = w).
Proof.
  intros Hnet Hb. destruct x as [path name]. unfold check_default_avatar, avatar_or_file. simpl.
  mrun (exists_by_name_run w (s3_avatar_bucket self) name Hnet).
  destruct (object w (s3_avatar_bucket self) name) as [c|] eqn:E; simpl.
  { exists w. split_and!; try done. intros b k. case_decide as D; [by destruct D as [-> ->]|done]. }
  destruct (read_file path) as [data|] eqn:R.
  - destruct (put_object_run w (s3_avatar_bucket self) name data Hnet Hb) as (w' & H & N & _ & K & O).
    exists w'. by split_and!.
  - exists w. split_and!; try done. intros b k. case_decide as D; [by destruct D as [-> ->]|done].
Qed.

Lemma default_avatars_run l : ∀ w, healthy w → has_bucket w (s3_avatar_bucket self) → NoDup l.*2 →
  ∃ w', check_default_avatars read_file l self w = (Ok tt, w') ∧ healthy w'
    ∧ (∀ b, has_bucket w b → has_bucket w' b)
    ∧ (∀ x, x ∈ l → object w' (s3_avatar_bucket self) x.2 = avatar_or_file w x)
    ∧ (∀ b k, b ≠ s3_avatar_bucket self ∨ k ∉ l.*2 → object w' b k = object w b k)
    ∧ ((∀ x, x ∈ l → avatar_or_file w x = object w (s3_avatar_bucket self) x.2) → w' = w).
Proof.
  induction l as [|x l IH]; intros w Hnet Hb Hnd.
  { exists w. split_and!; try done. by intros x ?%not_elem_of_nil. }
  cbn in Hnd. apply NoDup_cons in Hnd as [Hx Hnd].
  destruct (default_avatar_run x w Hnet Hb) as (w1 & H1 & N1 & K1 & O1 & S1).
  destruct (IH w1 N1 (K1 _ Hb) Hnd) as (w2 & H2 & N2 & K2 & A2 & O2 & S2).
  exists w2. split_and!; [|done|auto| | |].
  - unfold check_default_avatars in *. cbn [for_each]. by mrun H1.
  - intros y [->|Hy]%elem_of_cons.
    + rewrite O2 by auto. rewrite O1. by rewrite decide_True.
    + rewrite A2 by done. unfold avatar_or_file. rewrite O1, decide_False; [done|].
      intros [_ E]. apply Hx. rewrite <- E. by apply list_elem_of_fmap_2.
  - intros b k Hk. cbn in Hk. rewrite O2, O1, decide_False; [done| |]; set_solver.
  - intros Hs. assert (w1 = w) as -> by (apply S1, Hs, elem_of_cons; by left).
    apply S2. intros y Hy. apply Hs, elem_of_cons. by right.
Qed.
End avatars.

(** ** Names keep their extension *)

Definition plain (id : string) : Prop := id ≠ ""%string ∧ lacks 46 id = true ∧ lacks 47 id = true.

Lemma split_on_pieces c s : Forall (λ x, lacks c x = true) (split_on c s).
Proof.
  induction s as [|a s IH]; simpl; [by repeat constructor|].
  destruct (Ascii.nat_of_ascii a =? c)%nat eqn:E; [by constructor|].
  destruct (split_on c s) as [|x xs]; [repeat constructor; simpl; by rewrite E|].
  apply Forall_cons in IH as [Hx Hxs]. constructor; [simpl; by rewrite E, Hx|done].
Qed.

Lemma file_name_lacks path f : file_name path = Some f → lacks 47 f = true.
Proof.
  unfold file_name. destruct (last _) as [c|] eqn:E; [|done]. case_bool_decide; [done|]. intros [= <-].
  apply last_Some_elem_of, list_elem_of_filter in E as [_ Hin].
  by apply (proj1 (Forall_forall _ _) (split_on_pieces 47 path)).
Qed.

Lemma rsplit_dot_after s : ∀ before after, rsplit_dot s = Some (before, after) →
  lacks 46 after = true ∧ (lacks 47 s = true → lacks 47 after = true).
Proof.
  induction s as [|a s IH]; [done|]. intros before after. simpl.
  destruct (rsplit_dot s) as [[b x]|] eqn:E.
  - intros [= <- <-]. destruct (IH b x eq_refl) as [H1 H2]. split; [done|].
    intros [_ ?]%andb_prop. auto.
  - destruct (_ =? 46)%nat; [|done]. intros [= <- <-]. split; [|by intros [_ ?]%andb_prop].
    clear IH. induction s as [|b s IH]; [done|]. simpl in *.
    destruct (rsplit_dot s) as [[]|]; [done|]. destruct (_ =? 46)%nat; [done|]. by apply IH.
Qed.

Lemma rsplit_dot_none s : lacks 46 s = true → rsplit_dot s = None.
Proof.
  induction s as [|a s IH]; simpl; [done|]. intros [Ha Hs]%andb_prop. rewrite IH by done.
  by destruct (_ =? 46)%nat.
Qed.

Lemma rsplit_dot_app id e : lacks 46 e = true → rsplit_dot (id +:+ "." +:+ e) = Some (id, e).
Proof.
  intros He. induction id as [|a id IH]; simpl.
  - by rewrite rsplit_dot_none.
  - simpl in IH. by rewrite IH.
Qed.

Lemma file_name_plain s : lacks 47 s = true → s ≠ ""%string → s ≠ "."%string → s ≠ ".."%string →
  file_name s = Some s.
Proof.
  intros Hs H0 H1 H2. unfold file_name. rewrite split_on_lacks by done.
  rewrite filter_cons_True by done. simpl. by rewrite bool_decide_eq_false_2.
Qed.

Lemma plain_not_dots id rest : plain id →
  (id +:+ rest ≠ "" ∧ id +:+ rest ≠ "." ∧ id +:+ rest ≠ "..")%string.
Proof.
  intros (Hne & Hd & _). destruct id as [|a id]; [done|]. simpl in *.
  apply andb_prop in Hd as [Ha _]. split_and!; [done| |]; intros [= -> _]; by vm_compute in Ha.
Qed.

Lemma extension_stored id given : plain id → extension (stored_name id given) = extension given.
Proof.
  intros Hp. pose proof Hp as (Hne & Hd & Hs). unfold stored_name.
  destruct (extension given) as [e|] eqn:E.
  - unfold extension in E. apply bind_Some in E as (f & Hf & E). apply file_name_lacks in Hf.
    destruct (rsplit_dot f) as [[b a]|] eqn:R; [|done]. case_bool_decide; [done|]. injection E as <-.
    apply rsplit_dot_after in R as [R1 R2]. specialize (R2 Hf).
    destruct (plain_not_dots id ("." +:+ a) Hp) as (H0 & H1 & H2).
    unfold extension. rewrite file_name_plain by (done || (rewrite !lacks_app; simpl; by rewrite Hs, R2)).
    cbn [mbind option_bind]. rewrite rsplit_dot_app by done. by rewrite bool_decide_eq_false_2.
  - destruct (plain_not_dots id "" Hp) as (H0 & H1 & H2).
    assert (Hid : (id +:+ "")%string = id) by (clear; induction id as [|a id IH]; [done|];
      change (String.String a (id +:+ "") = String.String a id)%string; by f_equal).
    rewrite Hid in H0, H1, H2. unfold extension. rewrite file_name_plain by done.
    cbn [mbind option_bind]. by rewrite rsplit_dot_none.
Qed.

(** ** Properties *)

(** Start-up: both buckets exist afterwards, every object is as it was, except
    that a missing default avatar is there if its local file can be read; and
    starting again changes nothing, whatever the order of the avatars. *)
Theorem start_idempotent (foreign : string → bool) (read_file : string → option bytes)
    (order : list (string * string)) (self : S3Client) (w : World)
    (Hnet : healthy w) (Horder : order ≡ₚ default_avatars)
    (Hmine : foreign (s3_bucket self) = false) (Hmine' : foreign (s3_avatar_bucket self) = false) :
  ∃ w', s3_new foreign read_file order self w = (Ok tt, w')
  ∧ has_bucket w' (s3_bucket self) ∧ has_bucket w' (s3_avatar_bucket self)
  ∧ (∀ x, x ∈ default_avatars → object w' (s3_avatar_bucket self) x.2 = avatar_or_file read_file self w x)
  ∧ (∀ b k, b ≠ s3_avatar_bucket self ∨ k ∉ default_avatars.*2 → object w' b k = object w b k)
  ∧ ∀ order', order' ≡ₚ default_avatars → s3_new foreign read_file order' self w' = (Ok tt, w').
Proof.
  assert (Hnd : NoDup default_avatars.*2) by (apply (bool_decide_unpack _); vm_compute; exact I).
  assert (Hs : ∀ order w w1 w2, create_bucket foreign self w = (Ok tt, w1) →
    check_default_avatars read_file order self w1 = (Ok tt, w2) →
    s3_new foreign read_file order self w = (Ok tt, w2)).
  { intros o v v1 v2 H1 H2. unfold s3_new, mbind, M_bind, unwrap. by rewrite H1, H2. }
  destruct (create_bucket_run foreign self w Hnet Hmine Hmine') as (w1 & H1 & N1 & B1 & B1' & O1 & _).
  destruct (default_avatars_run read_file self order w1 N1 B1') as (w2 & H2 & N2 & K2 & A2 & O2 & _);
    [by rewrite Horder|].
  assert (Ha : ∀ x, avatar_or_file read_file self w1 x = avatar_or_file read_file self w x).
  { intros x. unfold avatar_or_file. by rewrite O1. }
  exists w2. split_and!; [by eapply Hs|auto|auto| | |].
  - intros x Hx. rewrite A2 by by rewrite Horder. apply Ha.
  - intros b k Hk. rewrite O2; [apply O1|]. by rewrite Horder.
  - intros order' Horder'. apply (Hs order' w2 w2 w2).
    + destruct (create_bucket_run foreign self w2 N2 Hmine Hmine') as (w3 & H3 & _ & _ & _ & _ & S3).
      rewrite H3. by rewrite S3 by auto.
    + destruct (default_avatars_run read_file self order' w2 N2 (K2 _ B1')) as (w3 & H3 & _ & _ & _ & _ & S3);
        [by rewrite Horder'|].
      rewrite H3. f_equal. apply S3. intros x Hx. rewrite Horder', <- Horder in Hx.
      unfold avatar_or_file. rewrite A2 by done. unfold avatar_or_file.
      destruct (object w1 _ _); [done|]. by destruct (read_file _).
Qed.

(** An uploaded file is stored under a fresh name with the extension of the name
    it was given, is answered under that name byte for byte, and replaces
    nothing; a body without a part stores nothing and answers the empty name. *)
Theorem upload_then_get (self : S3Client) (nanoid : nat → string) (w : World) (f : Field) (data : bytes)
    (Hnet : healthy w) (Hb : has_bucket w (s3_bucket self)) (Hd : fld_bytes f = inr data)
    (Hplain : plain (nanoid (w_ids w)))
    (Hfresh : object w (s3_bucket self) (stored_name (nanoid (w_ids w)) (default ""%string (fld_file_name f))) = None) :
  (∃ name w', upload_handler self nanoid (inr (Some f)) w = (Ok name, w')
    ∧ extension name = extension (default ""%string (fld_file_name f))
    ∧ get_file_by_name self name w' = (Ok (cache_header, data), w')
    ∧ ∀ b k c, object w b k = Some c → object w' b k = Some c)
  ∧ upload_handler self nanoid (inr None) w = (Ok ""%string, w).
Proof.
  split; [|done]. set (id := nanoid (w_ids w)) in *.
  set (name := stored_name id (default ""%string (fld_file_name f))).
  destruct (put_object_run (upd_ids S w) (s3_bucket self) name data Hnet Hb) as (w' & H & N & _ & K & O).
  exists name, w'. split_and!.
  - unfold upload_handler, store_first. erewrite bind_ok by done. rewrite Hd. fold id. fold name.
    by mrun H.
  - by apply extension_stored.
  - unfold get_file_by_name, download_file, download, get_object, mbind, M_bind.
    rewrite remote_healthy by done. by rewrite O, decide_True.
  - intros b k c Hc. rewrite O. rewrite decide_False; [exact Hc|]. intros [-> ->].
    assert (None = Some c) as [=] by (rewrite <- Hc; symmetry; exact Hfresh).
Qed.

Definition minio : S3Client := mkS3Client "files" "avatars".
Definition minio_world : World := upd_objects (λ _, {["files"%string := ∅]}) world_empty.

Lemma start_idempotent_witness :
  ∃ w', s3_new (λ _, false) (λ _, Some []) default_avatars minio world_empty = (Ok tt, w')
    ∧ object w' "avatars" "avatar2.png" = Some []
    ∧ s3_new (λ _, false) (λ _, Some []) default_avatars minio w' = (Ok tt, w').
Proof.
  destruct (start_idempotent (λ _, false) (λ _, Some []) default_avatars minio world_empty
    eq_refl (reflexivity _) eq_refl eq_refl) as (w' & H & _ & _ & Ha & _ & Hi).
  exists w'. split; [exact H|split; [|exact (Hi default_avatars (reflexivity _))]].
  apply (Ha ("./oss/default_avatar/avatar2.png", "avatar2.png")%string).
  apply elem_of_cons. right. apply elem_of_cons. by left.
Defined.

Lemma upload_then_get_witness :
  ∃ name w', upload_handler minio (λ _, "x7"%string) (inr (Some (mkField (Some "cat.png"%string) (inr []))))
      minio_world = (Ok name, w')
    ∧ extension name = Some "png"%string.
Proof.
  destruct (upload_then_get minio (λ _, "x7"%string) minio_world (mkField (Some "cat.png"%string) (inr [])) [])
    as [(name & w' & H & He & _) _].
  - reflexivity.
  - by eexists.
  - reflexivity.
  - split; [discriminate|by split].
  - reflexivity.
  - exists name, w'. split; [exact H|rewrite He; reflexivity].
Defined.
