(* ===== verification/Discovery.v ===== *)
(** * Service discovery and load balancing ([utils], [api/src/api_utils/lb])

    The load balancer of the API, the discovery of gRPC endpoints by polling
    and by subscription, the channel over a service's instances, and the
    registration of a service. The service centre's client, [tonic]'s endpoint
    parser and the host name are parameters; what the channels carry is kept
    in the state. *)

From stdpp Require Import pretty.
From S2P Require Import Prelude Errors Types Tables World Config.

(** ** The strategies ([lb/strategy.rs]) *)

Inductive LoadBalanceStrategyType : Type := LbRoundRobin | LbRandom.
Definition lb_to_string (t : LoadBalanceStrategyType) : string :=
  match t with LbRoundRobin => "RoundRobin" | LbRandom => "Random" end.
Definition lb_from_string (s : string) : LoadBalanceStrategyType :=
  if bool_decide (s = "RoundRobin"%string) then LbRoundRobin
  else if bool_decide (s = "Random"%string) then LbRandom
  else LbRoundRobin.

(** A strategy with its state: the counter, or the random numbers drawn so far. *)
Inductive Strategy : Type :=
| RoundRobin (counter : Z)
| RandomStrategy (draws : nat → Z) (drawn : nat).
Definition get_strategy (draws : nat → Z) (t : LoadBalanceStrategyType) : Strategy :=
  match t with LbRoundRobin => RoundRobin 0 | LbRandom => RandomStrategy draws 0 end.

(** [index(service_count)]: [fetch_add] wraps at 64 bits; a draw is reduced to
    the range. The count is not 0. *)
Definition index (s : Strategy) (service_count : Z) : Z * Strategy :=
  match s with
  | RoundRobin counter => (counter mod service_count, RoundRobin (as_u64 (counter + 1)))%Z
  | RandomStrategy draws n => (draws n mod service_count, RandomStrategy draws (S n))%Z
  end.
Definition reset (s : Strategy) : Strategy :=
  match s with RoundRobin _ => RoundRobin 0 | s => s end.

(** ** The load balancer ([lb/mod.rs]) *)

(** [BTreeSet<String>]: the addresses in ascending order. *)
Record LoadBalancer : Type := mkLb { lb_set : list string; lb_strategy : Strategy }.

Fixpoint btree_insert (x : string) (l : list string) : list string :=
  match l with
  | [] => [x]
  | y :: l' => match String.compare x y with
               | Eq => l
               | Lt => x :: l
               | Gt => y :: btree_insert x l'
               end
  end.
Definition btree_remove (x : string) (l : list string) : list string := filter (.≠ x) l.

Definition get_service (lb : LoadBalancer) : option string * LoadBalancer :=
  let services_count := Z.of_nat (length (lb_set lb)) in
  if bool_decide (services_count = 0)%Z then (None, lb)
  else
    let '(counter, strategy) := index (lb_strategy lb) services_count in
    let index := (counter mod services_count)%Z in
    (lb_set lb !! Z.to_nat index, mkLb (lb_set lb) strategy).

(** ** A bounded channel ([tokio::sync::mpsc], [Channel::balance_channel(1024)])

    What was taken out of it, what waits in it, and whether its receiver is
    alive. *)
Record Chan (T : Type) : Type := mkChan { ch_taken : list T; ch_queue : list T; ch_open : bool }.
Arguments mkChan {T}.
Arguments ch_taken {T}.
Arguments ch_queue {T}.
Arguments ch_open {T}.
Definition CAPACITY : nat := 1024.
Definition chan_new {T} : Chan T := mkChan [] [] true.

(** Everything the channel was given. *)
Definition given {T} (ch : Chan T) : list T := ch_taken ch ++ ch_queue ch.

(** What the receiver does between two steps of a sender: it takes up to so
    many items, or it is dropped. *)
Inductive Turn : Type := Takes (n : nat) | Closes.
Definition take_turn {T} (ch : Chan T) (t : Turn) : Chan T :=
  match t with
  | Takes n => if ch_open ch
      then mkChan (ch_taken ch ++ take n (ch_queue ch)) (drop n (ch_queue ch)) true
      else ch
  | Closes => mkChan (ch_taken ch) (ch_queue ch) false
  end.

(** Without room the item is not taken. *)
Definition try_send {T} (x : T) (ch : Chan T) : option (outcome Error unit * Chan T) :=
  if negb (ch_open ch) then Some (Err (internal "channel closed"), ch)
  else if bool_decide (length (ch_queue ch) < CAPACITY)
       then Some (Ok tt, mkChan (ch_taken ch) (ch_queue ch ++ [x]) true)
       else None.

(** [sender.send(x).await], over the turns the receiver has before and while the
    sender waits: an error when the receiver is gone, otherwise the item goes
    in as soon as there is room; it waits for ever for a receiver that takes
    nothing more. The turns that are left come after. *)
Fixpoint send_over {T} (x : T) (turns : list Turn) (ch : Chan T) : outcome Error unit * (list Turn * Chan T) :=
  match turns with
  | [] => match try_send x ch with Some (o, ch') => (o, ([], ch')) | None => (Hang, ([], ch)) end
  | t :: rest =>
      match try_send x (take_turn ch t) with
      | Some (o, ch') => (o, (rest, ch'))
      | None => send_over x rest (take_turn ch t)
      end
  end.
Definition send {T} (x : T) : M (list Turn * Chan T) Error unit := λ s, send_over x s.1 s.2.

(** One instance as the subscription reports it ([synapse::ServiceInstance]). *)
Record Instance : Type := mkInstance {
  ins_address : string; ins_port : Z; ins_active : Z; ins_scheme : Z
}.

Section discovery.
(** [ServiceStatus::Up as i32] and [Scheme::from(u8)], [Display]. *)
Context (up : Z) (scheme_text : Z → string).
(** [SocketAddr]: parsing and printing; [Endpoint::from_shared(url).is_ok()]. *)
Context {Addr : Type} `{Countable Addr} (parse_addr : string → option Addr).
Context (ip_text : Addr → string) (addr_port : Addr → Z) (from_shared : string → bool).

Definition instance_addr (service : Instance) : string := host_port (ins_address service) (ins_port service).

Definition lb_event (lb : LoadBalancer) (service : Instance) : LoadBalancer :=
  let addr := instance_addr service in
  mkLb (if bool_decide (ins_active service = up) then btree_insert addr (lb_set lb)
        else btree_remove addr (lb_set lb)) (lb_strategy lb).
(** The subscription's task, over the instances it receives. *)
Definition lb_update (lb : LoadBalancer) (stream : list Instance) : LoadBalancer := foldl lb_event lb stream.

(** ** Discovery by polling ([tonic_service_discovery.rs]) *)

Inductive Change : Type := Insert (a : Addr) (url : string) | Remove (a : Addr).

Record DynamicServiceDiscovery : Type := mkDiscovery {
  dsd_services : gset Addr;
  dsd_sender : Chan Change;
  dsd_schema : string
}.
Definition discovery_new (schema : string) : DynamicServiceDiscovery := mkDiscovery ∅ chan_new schema.

Definition build_endpoint (schema : string) (address : Addr) : option string :=
  let url := (schema +:+ "://" +:+ ip_text address +:+ ":" +:+ pretty (addr_port address))%string in
  if from_shared url then Some url else None.

Definition change_set (d : DynamicServiceDiscovery) (endpoints : gset Addr) : list Change :=
  omap (λ s, Insert s <$> build_endpoint (dsd_schema d) s) (elements (endpoints ∖ dsd_services d))
  ++ (Remove <$> elements (dsd_services d ∖ endpoints)).

(** [for change in change_set { sender.send(change).await?; }] *)
Definition send_changes (changes : list Change) : M (list Turn * Chan Change) Error unit :=
  for_each changes send.

(** A round, with what its fetch answers and what the receiver does meanwhile. *)
Definition discovery (turns : list Turn) (fetched : outcome Error (gset Addr)) (d : DynamicServiceDiscovery)
    : outcome Error unit * DynamicServiceDiscovery :=
  match fetched with
  | Ok x =>
      let '(o, (turns', ch)) := send_changes (change_set d x) (turns, dsd_sender d) in
      (o, mkDiscovery (match o with Ok _ => x | _ => dsd_services d end) (foldl take_turn ch turns')
            (dsd_schema d))
  | Err e => (Err e, d)
  | Panic => (Panic, d)
  | Hang => (Hang, d)
  end.

(** [run]: one round per interval; an error is logged, and a round that does
    not end is the last. *)
Fixpoint run (rounds : list (outcome Error (gset Addr) * list Turn)) (d : DynamicServiceDiscovery)
    : outcome Error unit * DynamicServiceDiscovery :=
  match rounds with
  | [] => (Ok tt, d)
  | (fetched, turns) :: rest =>
      match discovery turns fetched d with
      | (Ok _, d') | (Err _, d') => run rest d'
      | r => r
      end
  end.

(** [ServiceResolver::fetch]: the addresses that parse. *)
Definition resolve (services : list RegService) : gset Addr :=
  list_to_set (omap (λ v, parse_addr (host_port (svc_address v) (svc_port v))) services).

(** ** Discovery by subscription ([get_chan_]) *)

Definition chan_change (service : Instance) : option Change :=
  let addr := instance_addr service in
  socket_addr ← parse_addr addr;
  if bool_decide (ins_active service = up) then
    let addr := (scheme_text (as_u8 (ins_scheme service)) +:+ "://" +:+ addr)%string in
    if from_shared addr then Some (Insert socket_addr addr) else None
  else Some (Remove socket_addr).

(** The task: unusable instances are skipped, and it ends when the channel is
    closed. *)
Fixpoint chan_task (stream : list Instance) : M (list Turn * Chan Change) Error unit :=
  match stream with
  | [] => mret tt
  | service :: rest =>
      match chan_change service with
      | None => chan_task rest
      | Some c =>
          sent ← attempt (send c);
          match sent with inr _ => chan_task rest | inl _ => mret tt end
      end
  end.

(** ** A channel over the instances of a service ([get_rpc_channel_by_name]) *)

(** The answers of [filter_by_name], one per call; the result with the number
    of calls made. [n] rounds of the loop are left. *)
Fixpoint retry (name : string) (answers : nat → outcome Error (list RegService)) (calls : nat) (n : nat)
    (i : Z) : outcome Error (list RegService) * nat :=
  match n with
  | O => (Ok [], calls)
  | S n' =>
      match answers calls with
      | Ok [] => if bool_decide (i = 5)%Z then (Err (service_not_found name), S calls)
                 else retry name answers (S calls) n' (i + 1)
      | r => (r, S calls)
      end
  end.

Definition endpoints_of (protocol : string) (services : list RegService) : option (list string) :=
  mapM (λ v, let u := (protocol +:+ "://" +:+ host_port (svc_address v) (svc_port v))%string in
             if from_shared u then Some u else None) services.

(** The endpoints of the channel; one that does not parse is unwrapped. *)
Definition get_rpc_channel_by_name (name protocol : string)
    (answers : nat → outcome Error (list RegService)) : outcome Error (list string) * nat :=
  let '(r, calls) := match answers 0%nat with
                     | Ok [] => retry name answers 1 5 0
                     | r => (r, 1%nat)
                     end in
  match r with
  | Ok l => match endpoints_of protocol l with Some us => (Ok us, calls) | None => (Panic, calls) end
  | Err e => (Err e, calls)
  | Panic => (Panic, calls)
  | Hang => (Hang, calls)
  end.
End discovery.

(** ** Registration ([register_service]) *)

Record HealthCheck : Type := mkHealthCheck {
  hc_endpoint : string; hc_interval : Z; hc_timeout : Z; hc_retries : Z; hc_scheme : Z
}.
Record ServiceInstance : Type := mkServiceInstance {
  si_id : string; si_name : string; si_address : string; si_port : Z; si_tags : list string;
  si_health_check : option HealthCheck; si_scheme : Z
}.

(** [Scheme::from(&str) as i32], the host name, and the service centre's two
    calls: connecting may fail, a failed registration is unwrapped. *)
Definition register_service (scheme_i32 : string → Z) (host_name : outcome Error string)
    (from_shared : string → bool) (connect : outcome Error unit) (register : outcome Error unit)
    (config : Config) (com : Component) : outcome Error ServiceInstance :=
  let sc := cfg_service_center config in
  if negb (from_shared (sce_protocol sc +:+ "://" +:+ host_port (sce_host sc) (sce_port sc))%string)
  then Err (from_external (TonicTransportError "uri")) else
  match connect with
  | Ok _ =>
      let server (r : RpcServerConfig) :=
        match host_name with
        | Ok h =>
            let scheme := scheme_i32 (rsc_protocol r) in
            let check := if rpc_health_check (cfg_rpc config)
                         then Some (mkHealthCheck "" 10 10 10 scheme) else None in
            let service := mkServiceInstance (h +:+ "-" +:+ rsc_name r)%string (rsc_name r) (rsc_host r)
                             (rsc_port r) (rsc_tags r) check scheme in
            match register with Ok _ => Ok service | _ => Panic end
        | Err e => Err e | Panic => Panic | Hang => Hang
        end in
      match com with
      | CMessageServer => server (rpc_chat (cfg_rpc config))
      | CMessageGateway => server (rpc_ws (cfg_rpc config))
      | CApi | CAll => Panic (* todo! *)
      end
  | Err e => Err e
  | Panic => Panic
  | Hang => Hang
  end.

(** ** The order of addresses *)

Definition addr_lt (a b : string) : Prop := String.compare a b = Lt.

Lemma ascii_compare_eq a b : Ascii.compare a b = Eq → a = b.
Proof.
  unfold Ascii.compare. intros E%N.compare_eq. rewrite <- (Ascii.ascii_N_embedding a), E.
  apply Ascii.ascii_N_embedding.
Qed.

Lemma string_compare_cons a b s t :
  String.compare (String a s) (String b t)
  = match Ascii.compare a b with Eq => String.compare s t | c => c end.
Proof. done. Qed.

Lemma addr_lt_trans a b c : addr_lt a b → addr_lt b c → addr_lt a c.
Proof.
  unfold addr_lt. revert b c. induction a as [|x a IH]; intros [|y b] [|z c]; try done.
  rewrite !string_compare_cons.
  destruct (Ascii.compare x y) eqn:E1; try done.
  - apply ascii_compare_eq in E1 as ->. intros H. destruct (Ascii.compare y z); try done. by apply IH.
  - intros _. destruct (Ascii.compare y z) eqn:E2; try done.
    + apply ascii_compare_eq in E2 as ->. by rewrite E1.
    + intros _. unfold Ascii.compare in *. rewrite N.compare_lt_iff in E1, E2.
      rewrite (proj2 (N.compare_lt_iff _ _)); [done|]. lia.
Qed.

Lemma addr_lt_irrefl a : ¬ addr_lt a a.
Proof.
  unfold addr_lt. intros H. pose proof (String.compare_antisym a a) as E. rewrite H in E. discriminate.
Qed.

Lemma addr_gt a b : String.compare a b = Gt → addr_lt b a.
Proof. intros H. unfold addr_lt. rewrite String.compare_antisym, H. done. Qed.

(** [BTreeSet]: strictly ascending. *)
Abbreviation btree l := (StronglySorted addr_lt l).

Lemma elem_of_btree_insert x y l : y ∈ btree_insert x l ↔ y = x ∨ y ∈ l.
Proof.
  induction l as [|z l IH]; simpl; [set_solver|].
  destruct (String.compare x z) eqn:E; [apply String.compare_eq_iff in E as ->|..]; set_solver.
Qed.

Lemma elem_of_btree_remove x y l : y ∈ btree_remove x l ↔ y ≠ x ∧ y ∈ l.
Proof. unfold btree_remove. by rewrite list_elem_of_filter. Qed.

Lemma btree_insert_sorted x l : btree l → btree (btree_insert x l).
Proof.
  induction 1 as [|z l Hl IH Hz]; simpl; [by repeat constructor|].
  destruct (String.compare x z) eqn:E.
  - by constructor.
  - repeat constructor; try done. eapply Forall_impl; [exact Hz|]. intros y. by apply addr_lt_trans.
  - constructor; [done|]. apply Forall_forall. intros y [->|Hy]%elem_of_btree_insert; [by apply addr_gt|].
    rewrite Forall_forall in Hz. by apply Hz.
Qed.

Lemma btree_remove_sorted x l : btree l → btree (btree_remove x l).
Proof.
  unfold btree_remove. induction 1 as [|z l Hl IH Hz]; [constructor|]. rewrite filter_cons.
  case_decide; [|done]. constructor; [done|]. apply Forall_forall. intros y [_ Hy]%list_elem_of_filter.
  rewrite Forall_forall in Hz. by apply Hz.
Qed.

Lemma btree_nodup l : btree l → NoDup l.
Proof.
  induction 1 as [|z l Hl IH Hz]; constructor; [|done]. intros Hin. rewrite Forall_forall in Hz.
  by apply (addr_lt_irrefl z), Hz.
Qed.

(** ** The load balancer *)

Section balancer.
Context (up : Z).

(** What an address was last said to be. *)
Definition last_status (addr : string) (stream : list Instance) : option Z :=
  ins_active <$> last (filter (λ s, instance_addr s = addr) stream).

Lemma last_status_snoc addr stream s :
  last_status addr (stream ++ [s])
  = if bool_decide (instance_addr s = addr) then Some (ins_active s) else last_status addr stream.
Proof.
  unfold last_status. rewrite filter_app, filter_cons. case_bool_decide.
  - rewrite decide_True by done. by rewrite filter_nil, last_snoc.
  - rewrite decide_False by done. by rewrite filter_nil, app_nil_r.
Qed.

Lemma lb_update_lookup lb stream addr :
  addr ∈ lb_set (lb_update up lb stream)
  ↔ match last_status addr stream with Some a => a = up | None => addr ∈ lb_set lb end.
Proof.
  induction stream as [|s stream IH] using rev_ind; [done|].
  unfold lb_update in *. rewrite foldl_app. cbn [foldl]. rewrite last_status_snoc.
  unfold lb_event. simpl. case_bool_decide as Ha; case_bool_decide as Hb;
    rewrite ?elem_of_btree_insert, ?elem_of_btree_remove, ?IH; naive_solver.
Qed.

(** The balancer's set follows the subscription: after any stream of
    reports, an address is in it exactly if the last report on it says it is
    up (or it was there and is not reported); the set stays strictly ascending
    and the strategy is not touched. *)
Theorem lb_update_tracks (lb : LoadBalancer) (stream : list Instance) (Hlb : btree (lb_set lb)) :
  (∀ addr, addr ∈ lb_set (lb_update up lb stream)
     ↔ match last_status addr stream with Some a => a = up | None => addr ∈ lb_set lb end)
  ∧ btree (lb_set (lb_update up lb stream)) ∧ lb_strategy (lb_update up lb stream) = lb_strategy lb.
Proof.
  split; [intros addr; apply lb_update_lookup|]. unfold lb_update. revert lb Hlb.
  induction stream as [|s stream IH]; intros lb Hlb; [done|]. cbn [foldl]. apply (IH (lb_event up lb s)).
  unfold lb_event. simpl. case_bool_decide; [by apply btree_insert_sorted|by apply btree_remove_sorted].
Qed.
End balancer.

(** [n] calls in a row. *)
Fixpoint calls (n : nat) (lb : LoadBalancer) : list (option string) * LoadBalancer :=
  match n with
  | O => ([], lb)
  | S n' => let '(r, lb1) := get_service lb in let '(rs, lb2) := calls n' lb1 in (r :: rs, lb2)
  end.

(** The place of the [i]-th call from counter [c]. *)
Definition place (c : Z) (len : nat) (i : nat) : nat := Z.to_nat ((c + Z.of_nat i) mod Z.of_nat len).

Lemma place_S c len i : place (c + 1) len i = place c len (S i).
Proof. unfold place. do 2 f_equal. lia. Qed.

Lemma get_service_rr l c : l ≠ [] →
  get_service (mkLb l (RoundRobin c))
  = (l !! place c (length l) 0, mkLb l (RoundRobin (as_u64 (c + 1)))).
Proof.
  intros Hl. unfold get_service. simpl lb_set. simpl lb_strategy.
  rewrite bool_decide_eq_false_2 by (destruct l; simpl in *; [done|lia]).
  cbn [index]. rewrite Zmod_mod. unfold place. by rewrite Z.add_0_r.
Qed.

Lemma calls_places l n : ∀ c, l ≠ [] → (0 ≤ c)%Z → (c + Z.of_nat n ≤ u64_modulus)%Z →
  (calls n (mkLb l (RoundRobin c))).1 = (λ i, l !! place c (length l) i) <$> List.seq 0 n.
Proof.
  induction n as [|n IH]; intros c Hl Hc Hn; [done|].
  cbn [calls]. rewrite get_service_rr by done.
  assert (Hrest : (calls n (mkLb l (RoundRobin (as_u64 (c + 1))))).1
    = (λ i, l !! place c (length l) (S i)) <$> List.seq 0 n).
  { destruct n as [|n]; [done|]. unfold as_u64. rewrite Z.mod_small by (unfold u64_modulus in *; lia).
    rewrite IH by (done || lia). apply list_fmap_ext. intros i x _. by rewrite place_S. }
  destruct (calls n _) as [rs lb2]. simpl in *. rewrite Hrest. f_equal.
  rewrite <- fmap_S_seq. by rewrite <- list_fmap_compose.
Qed.

(** Starting from [k], the places go round the list. *)
Lemma places_rotate (l : list string) c : l ≠ [] → (0 ≤ c)%Z →
  (λ i, l !! place c (length l) i) <$> List.seq 0 (length l)
  = Some <$> (drop (Z.to_nat (c mod Z.of_nat (length l))) l ++ take (Z.to_nat (c mod Z.of_nat (length l))) l).
Proof.
  intros Hl Hc. set (len := length l). set (k := Z.to_nat (c mod Z.of_nat len)).
  assert (Hlen : (0 < len)%nat) by (unfold len; destruct l; simpl; [done|lia]).
  assert (Hk : (k < len)%nat) by (unfold k; pose proof (Z.mod_pos_bound c (Z.of_nat len)); lia).
  apply list_eq. intros i. rewrite list_lookup_fmap.
  destruct (decide (i < len)%nat) as [Hi|Hi].
  - rewrite lookup_seq_lt by done. simpl. rewrite list_lookup_fmap.
    assert (Hp : place c len i = if decide (k + i < len)%nat then (k + i)%nat else (k + i - len)%nat).
    { unfold place. assert (Hz : ((c + Z.of_nat i) mod Z.of_nat len
        = (Z.of_nat k + Z.of_nat i) mod Z.of_nat len)%Z).
      { unfold k. rewrite Z2Nat.id by (pose proof (Z.mod_pos_bound c (Z.of_nat len)); lia).
        by rewrite Zplus_mod_idemp_l. }
      rewrite Hz. case_decide.
      - rewrite Z.mod_small by lia. lia.
      - replace (Z.of_nat k + Z.of_nat i)%Z with (Z.of_nat (k + i - len) + 1 * Z.of_nat len)%Z by lia.
        rewrite Z_mod_plus_full, Z.mod_small by lia. lia. }
    rewrite Hp. case_decide as Hd.
    + rewrite lookup_app_l by (rewrite length_drop; fold len; lia). rewrite lookup_drop.
      destruct (lookup_lt_is_Some_2 l (k + i)) as [x ->]; [fold len; lia|done].
    + rewrite lookup_app_r by (rewrite length_drop; fold len; lia). rewrite length_drop. fold len.
      replace (i - (len - k))%nat with (k + i - len)%nat by lia. rewrite lookup_take_lt by lia.
      destruct (lookup_lt_is_Some_2 l (k + i - len)) as [x ->]; [fold len; lia|done].
  - rewrite (lookup_seq_ge 0) by lia. simpl. symmetry. rewrite list_lookup_fmap.
    rewrite (proj2 (lookup_ge_None _ _)); [done|].
    rewrite length_app, length_drop, length_take. fold len. lia.
Qed.

(** C36. Round robin is fair: while the counter does not wrap, as many calls in a
    row as there are services answer each of them exactly once. Where it wraps
    the turn of a number of services that does not divide 2^64 is broken: of
    three services the first is answered twice. *)
Theorem round_robin_fair (l : list string) (c : Z) (Hl : l ≠ []) (Hc : (0 ≤ c)%Z)
    (Hroom : (c + Z.of_nat (length l) ≤ u64_modulus)%Z) :
  (calls (length l) (mkLb l (RoundRobin c))).1 ≡ₚ Some <$> l
  ∧ (calls 2 (mkLb ["a"; "b"; "c"] (RoundRobin (u64_modulus - 1)))).1 = [Some "a"; Some "a"]%string.
Proof.
  split; [|vm_compute; reflexivity].
  rewrite calls_places, places_rotate by done. apply fmap_Permutation.
  rewrite Permutation_app_comm. by rewrite take_drop.
Qed.

Lemma get_service_some l s : l ≠ [] → ∃ x, (get_service (mkLb l s)).1 = Some x ∧ x ∈ l.
Proof.
  intros Hl. unfold get_service. simpl. rewrite bool_decide_eq_false_2 by (destruct l; simpl in *; [done|lia]).
  destruct (index s _) as [i s']. simpl.
  destruct (lookup_lt_is_Some_2 l (Z.to_nat (i mod Z.of_nat (length l)))) as [x Hx].
  { assert (0 < length l)%nat by (destruct l; simpl; [done|lia]).
    pose proof (Z.mod_pos_bound i (Z.of_nat (length l))). lia. }
  exists x. split; [done|]. by eapply list_elem_of_lookup_2.
Qed.

(** ** The bounded channel *)

Section channel.
Context {T : Type}.

Lemma turn_facts (ch : Chan T) t :
  given (take_turn ch t) = given ch ∧ length (ch_queue (take_turn ch t)) ≤ length (ch_queue ch)
  ∧ (ch_open (take_turn ch t) = true → ch_open ch = true)
  ∧ (ch_open (take_turn ch t) = false → ch_open ch = false ∨ t = Closes).
Proof.
  unfold given. destruct t as [n|]; simpl; [|split_and!; auto; discriminate].
  destruct (ch_open ch) eqn:E; simpl; [|rewrite ?E; by split_and!; auto].
  rewrite <- app_assoc, take_drop, length_drop. split_and!; auto; lia.
Qed.

Lemma turns_given ts : ∀ ch : Chan T, given (foldl take_turn ch ts) = given ch.
Proof. induction ts as [|t ts IH]; intros ch; [done|]. simpl. rewrite IH. apply turn_facts. Qed.
Lemma turns_queue ts : ∀ ch : Chan T, length (ch_queue (foldl take_turn ch ts)) ≤ length (ch_queue ch).
Proof. induction ts as [|t ts IH]; intros ch; [done|]. simpl. etrans; [apply IH|apply turn_facts]. Qed.
Lemma turns_open ts : ∀ ch : Chan T, ch_open (foldl take_turn ch ts) = true → ch_open ch = true.
Proof. induction ts as [|t ts IH]; intros ch; [done|]. simpl. intros H%IH. by eapply turn_facts. Qed.
Lemma turns_closed ts (ch : Chan T) : ch_open ch = false → ch_open (foldl take_turn ch ts) = false.
Proof. intros H. apply not_true_is_false. intros Ho%turns_open. congruence. Qed.

(** One send goes in at the end, or finds the receiver gone, or waits for ever
    with the channel full. *)
Lemma send_cases (x : T) ts : ∀ ch o ts' ch', send_over x ts ch = (o, (ts', ch')) →
  (∃ pre, ts = pre ++ ts')
  ∧ ((o = Ok tt ∧ given ch' = given ch ++ [x] ∧ ch_open ch' = true ∧ ch_open ch = true
        ∧ length (ch_queue ch') ≤ S (length (ch_queue ch)) ∧ length (ch_queue ch') ≤ CAPACITY)
     ∨ ((∃ e, o = Err e) ∧ ch_open ch' = false ∧ length (ch_queue ch') ≤ length (ch_queue ch)
        ∧ (ch_open ch = false ∨ Closes ∈ ts))
     ∨ (o = Hang ∧ CAPACITY ≤ length (ch_queue ch) ∧ length (ch_queue ch') ≤ length (ch_queue ch))).
Proof.
  assert (Htry : ∀ ch o ch', try_send x ch = Some (o, ch') →
    (o = Ok tt ∧ given ch' = given ch ++ [x] ∧ ch_open ch' = true ∧ ch_open ch = true
       ∧ length (ch_queue ch') ≤ S (length (ch_queue ch)) ∧ length (ch_queue ch') ≤ CAPACITY)
    ∨ ((∃ e, o = Err e) ∧ ch_open ch' = false ∧ ch' = ch)).
  { intros ch o ch'. unfold try_send, given. destruct (ch_open ch) eqn:E; simpl.
    - case_bool_decide as Hl; [|done]. intros [= <- <-]. left. simpl. rewrite length_app, app_assoc. simpl.
      split_and!; done || lia.
    - intros [= <- <-]. right. split_and!; [by eexists|done..]. }
  induction ts as [|t ts IH]; intros ch o ts' ch'; simpl.
  - destruct (try_send x ch) as [[o1 ch1]|] eqn:E; intros [= <- <- <-]; (split; [by exists []|]).
    + destruct (Htry _ _ _ E) as [?|(? & Hc & ->)]; [by left|right; left]. split_and!; auto.
    + right. right. split_and!; [done| |done]. unfold try_send in E. destruct (ch_open ch); [|done].
      simpl in E. case_bool_decide; [done|lia].
  - destruct (turn_facts ch t) as (Hg & Hq & Ho & Hc).
    destruct (try_send x (take_turn ch t)) as [[o1 ch1]|] eqn:E.
    + intros [= <- <- <-]. split; [by exists [t]|].
      destruct (Htry _ _ _ E) as [(-> & Hg1 & Ho1 & Ho2 & Hq1 & Hq2)|(He & Hc1 & ->)]; [left|right; left].
      * rewrite Hg1, Hg. split_and!; try done; [by apply Ho|lia].
      * split_and!; [done..|]. destruct (Hc Hc1) as [?| ->]; [by left|right; by left].
    + intros Hs. destruct (IH _ _ _ _ Hs) as [[pre ->] Hcase]. split; [by exists (t :: pre)|].
      destruct Hcase as [(-> & Hg1 & Ho1 & Ho2 & Hq1 & Hq2)|[(He & Hc1 & Hq1 & Hcl)|(-> & Hq1 & Hq2)]].
      * left. rewrite Hg1, Hg. split_and!; try done; [by apply Ho|lia].
      * right. left. split_and!; [done..|lia|]. destruct Hcl as [Hcl|?]; [|right; by right].
        destruct (Hc Hcl) as [?| ->]; [by left|right; by left].
      * right. right. split_and!; done || lia.
Qed.

(** Several sends in a row. *)
Lemma send_each (l : list T) : ∀ ts ch o ts' ch', for_each l send (ts, ch) = (o, (ts', ch')) →
  (length (ch_queue ch) ≤ CAPACITY → length (ch_queue ch') ≤ CAPACITY)
  ∧ ((o = Ok tt ∧ given ch' = given ch ++ l ∧ (ch_open ch' = true → ch_open ch = true))
     ∨ ((∃ e, o = Err e) ∧ ch_open ch' = false ∧ (ch_open ch = false ∨ Closes ∈ ts))
     ∨ (o = Hang ∧ CAPACITY < length (ch_queue ch) + length l)).
Proof.
  induction l as [|x l IH]; intros ts ch o ts' ch'; simpl.
  { intros [= <- <- <-]. split; [done|]. left. by rewrite app_nil_r. }
  unfold mbind, M_bind, send at 1. simpl. destruct (send_over x ts ch) as [o1 [ts1 ch1]] eqn:Es.
  destruct (send_cases _ _ _ _ _ _ Es) as [[pre ->]
    [(-> & Hg & Ho1 & Ho & Hq & Hq2)|[((e & ->) & Hc & Hq & Hcl)|(-> & Hq & Hq2)]]].
  - intros Hrest. destruct (IH _ _ _ _ _ Hrest) as [Hq' Hcase]. split; [auto|].
    destruct Hcase as [(-> & Hg' & _)|[(He & Hc' & Hcl)|(-> & Hlt)]].
    + left. by rewrite Hg', Hg, <- app_assoc.
    + right. left. split_and!; [done..|]. destruct Hcl as [?|?]; [congruence|].
      right. apply elem_of_app. by right.
    + right. right. split; [done|lia].
  - intros [= <- <- <-]. split; [lia|]. right. left. split_and!; [by eexists|done..].
  - intros [= <- <- <-]. split; [lia|]. right. right. split; [done|lia].
Qed.

(** Nobody takes anything: more than there is room for waits for ever. *)
Lemma send_each_idle (l : list T) : ∀ ch, ch_open ch = true → length (ch_queue ch) ≤ CAPACITY →
  CAPACITY < length (ch_queue ch) + length l → (for_each l send ([], ch)).1 = Hang.
Proof.
  induction l as [|x l IH]; intros ch Ho Hq Hlt; simpl in *; [lia|].
  unfold mbind, M_bind, send at 1. simpl. unfold try_send. rewrite Ho. simpl.
  case_bool_decide; [|done]. apply IH; simpl; rewrite ?length_app; simpl; done || lia.
Qed.
End channel.

(** ** The polled endpoints *)

Section polling.
Context {Addr : Type} `{Countable Addr}.
Context (ip_text : Addr → string) (addr_port : Addr → Z) (from_shared : string → bool).

Abbreviation Disc := (DynamicServiceDiscovery (Addr := Addr)).
Abbreviation disc := (discovery ip_text addr_port from_shared).
Abbreviation buildable schema a := (is_Some (build_endpoint ip_text addr_port from_shared schema a)).
Abbreviation changes := (change_set ip_text addr_port from_shared).

(** The endpoints the channel balances over, after the changes it was given. *)
Definition apply_change (s : gset Addr) (c : Change) : gset Addr :=
  match c with Insert a _ => {[a]} ∪ s | Remove a => s ∖ {[a]} end.
Definition balanced (d : Disc) : gset Addr := foldl apply_change ∅ (given (dsd_sender d)).

(** While it is open, the channel balances over the known services that have
    an endpoint; and it never holds more than it can. *)
Definition in_step (d : Disc) : Prop :=
  length (ch_queue (dsd_sender d)) ≤ CAPACITY
  ∧ (ch_open (dsd_sender d) = true →
     ∀ a, a ∈ balanced d ↔ a ∈ dsd_services d ∧ buildable (dsd_schema d) a).

Lemma apply_inserts schema l s : ∀ a,
  a ∈ foldl apply_change s (omap (λ s, Insert s <$> build_endpoint ip_text addr_port from_shared schema s) l)
  ↔ a ∈ s ∨ (a ∈ l ∧ buildable schema a).
Proof.
  revert s. induction l as [|x l IH]; intros s a; [set_solver|]. cbn [omap list_omap].
  destruct (build_endpoint _ _ _ schema x) as [u|] eqn:E; simpl; rewrite IH; simpl;
    rewrite elem_of_cons, ?elem_of_union, ?elem_of_singleton; [naive_solver|].
  split; [naive_solver|]. intros [?|[[->|?] Hb]]; [by left| |by right].
  rewrite E in Hb. by destruct Hb.
Qed.

Lemma apply_removes l : ∀ s a, a ∈ foldl apply_change s (Remove <$> l) ↔ a ∈ s ∧ a ∉ l.
Proof.
  induction l as [|x l IH]; intros s a; simpl; [set_solver|].
  rewrite IH, elem_of_cons, elem_of_difference, elem_of_singleton. naive_solver.
Qed.

(** The changes make what is balanced what is listed and has an endpoint. *)
Lemma balanced_after d x :
  (∀ a, a ∈ balanced d ↔ a ∈ dsd_services d ∧ buildable (dsd_schema d) a) → ∀ a,
  a ∈ foldl apply_change (balanced d) (changes d x) ↔ a ∈ x ∧ buildable (dsd_schema d) a.
Proof.
  intros Hd a. unfold change_set. rewrite foldl_app, apply_removes, apply_inserts, (Hd a).
  rewrite !elem_of_elements, !elem_of_difference. destruct (decide (a ∈ x)), (decide (a ∈ dsd_services d)); tauto.
Qed.

(** A round whose fetch answered. *)
Lemma discovery_cases turns x d o d' :
  disc turns (Ok x) d = (o, d') →
  dsd_schema d' = dsd_schema d
  ∧ (length (ch_queue (dsd_sender d)) ≤ CAPACITY → length (ch_queue (dsd_sender d')) ≤ CAPACITY)
  ∧ ((o = Ok tt ∧ dsd_services d' = x ∧ given (dsd_sender d') = given (dsd_sender d) ++ changes d x
        ∧ (ch_open (dsd_sender d') = true → ch_open (dsd_sender d) = true))
     ∨ ((∃ e, o = Err e) ∧ dsd_services d' = dsd_services d ∧ ch_open (dsd_sender d') = false
        ∧ (ch_open (dsd_sender d) = false ∨ Closes ∈ turns))
     ∨ (o = Hang ∧ dsd_services d' = dsd_services d
        ∧ CAPACITY < length (ch_queue (dsd_sender d)) + length (changes d x))).
Proof.
  unfold discovery. intros Hrun.
  destruct (send_changes (changes d x) (turns, dsd_sender d)) as [o' [turns' ch]] eqn:Es.
  injection Hrun as <- <-. cbn [dsd_services dsd_sender dsd_schema].
  destruct (send_each _ _ _ _ _ _ Es) as [Hq Hcases]. rewrite turns_given. split; [done|]. split.
  { intros Hle. etrans; [apply turns_queue|auto]. }
  destruct Hcases as [(-> & Hg & Ho)|[((e & ->) & Ho & Hc)|(-> & Hc)]].
  - left. split_and!; [done..|]. intros Hop%turns_open. by apply Ho.
  - right. left. split_and!; [by eexists|done| |done]. by apply turns_closed.
  - right. right. done.
Qed.

Lemma discovery_in_step turns fetched d o d' :
  disc turns fetched d = (o, d') → o ≠ Hang → in_step d → in_step d'.
Proof.
  intros Hrun Hne [Hq Hd]. destruct fetched as [x|e| |]; try by (injection Hrun as <- <-; split).
  destruct (discovery_cases _ _ _ _ _ Hrun) as (Hs & Hq' & [(-> & Hsv & Hg & Ho)|[(_ & _ & Hc & _)|(-> & _)]]); [| |done].
  - split; [auto|]. intros Hop a. unfold balanced. rewrite Hg, Hs, Hsv, foldl_app. by apply balanced_after, Hd, Ho.
  - split; [auto|]. by rewrite Hc.
Qed.

Lemma run_in_step rounds : ∀ d d', run ip_text addr_port from_shared rounds d = (Ok tt, d') → in_step d → in_step d'.
Proof.
  induction rounds as [|[fetched turns] rounds IH]; intros d d' Hrun Hd; [by injection Hrun as <-|].
  simpl in Hrun. destruct (disc turns fetched d) as [[[]|e| |] d1] eqn:E; try done;
    by apply (IH d1); [|apply (discovery_in_step _ _ _ _ _ E)].
Qed.

(** What a change is about. *)
Definition change_addr (c : Change (Addr := Addr)) : Addr := match c with Insert a _ | Remove a => a end.

Lemma change_set_moves d x c : c ∈ changes d x →
  (change_addr c ∈ x ∧ change_addr c ∉ dsd_services d) ∨ (change_addr c ∈ dsd_services d ∧ change_addr c ∉ x).
Proof.
  unfold change_set. rewrite elem_of_app, list_elem_of_omap, list_elem_of_fmap.
  intros [(a & Ha & Hc)|(a & -> & Ha)].
  - destruct (build_endpoint _ _ _ _ a); simplify_eq/=. left. apply elem_of_elements in Ha. set_solver.
  - right. simpl. apply elem_of_elements in Ha. set_solver.
Qed.

(** A channel that is closed stays closed. *)
Lemma run_closed rounds : ∀ d d', run ip_text addr_port from_shared rounds d = (Ok tt, d') →
  ch_open (dsd_sender d) = false → ch_open (dsd_sender d') = false.
Proof.
  induction rounds as [|[fetched turns] rounds IH]; intros d d' Hrun Hd; [by injection Hrun as <-|].
  simpl in Hrun. destruct fetched as [x|e| |]; [|by apply (IH d)|done..].
  destruct (disc turns (Ok x) d) as [o d1] eqn:E.
  destruct (discovery_cases _ _ _ _ _ E) as (_ & _ & [(-> & _ & _ & Ho)|[((e & ->) & _ & Hc & _)|(-> & _)]]); [| |done].
  - apply (IH d1); [done|]. apply not_true_is_false. intros ?%Ho. congruence.
  - by apply (IH d1).
Qed.

(** Rounds that all list a known address say nothing about it. *)
Lemma run_settled a rounds : ∀ d d',
  Forall (λ r, match r.1 with Ok x => a ∈ x | _ => True end) rounds →
  a ∈ dsd_services d → run ip_text addr_port from_shared rounds d = (Ok tt, d') →
  a ∈ dsd_services d'
  ∧ (ch_open (dsd_sender d') = true →
     ∃ l, given (dsd_sender d') = given (dsd_sender d) ++ l ∧ Forall (λ c, change_addr c ≠ a) l).
Proof.
  induction rounds as [|[fetched turns] rounds IH]; intros d d' Hl Ha Hrun.
  { injection Hrun as <-. split; [done|]. intros _. exists []. by rewrite app_nil_r. }
  apply Forall_cons in Hl as [Hx Hl]. simpl in Hrun, Hx.
  destruct fetched as [x|e| |]; [| |done|done]; [|by apply IH].
  destruct (disc turns (Ok x) d) as [o d1] eqn:E.
  destruct (discovery_cases _ _ _ _ _ E) as (_ & _ & [(-> & Hsv & Hg & _)|[((e & ->) & Hsv & Hc & _)|(-> & _)]]); [| |done].
  - destruct (IH d1 d' Hl) as [Ha' Hrest]; [by rewrite Hsv|done|]. split; [done|]. intros Hop.
    destruct (Hrest Hop) as (l & -> & Hno). exists (changes d x ++ l). split; [by rewrite Hg, app_assoc|].
    apply Forall_app. split; [|done]. apply Forall_forall. intros c Hin Hca.
    apply change_set_moves in Hin. rewrite Hca in Hin. tauto.
  - destruct (IH d1 d' Hl) as [Ha' _]; [by rewrite Hsv|done|]. split; [done|]. intros Hop.
    pose proof (run_closed rounds d1 d' Hrun Hc). congruence.
Qed.
(** C17. Discovery refines its specification, "the channel balances over the
    listed services": that holds at the start, and again after every round that
    ends, whatever its fetch answered and however the receiver took part, and
    after any number of such rounds, as long as the channel is open. A round
    that succeeds makes the known services the fetched ones and gives the
    channel exactly the changes. An address that is known gets no change from
    rounds that list it, so one whose endpoint did not build is not offered
    again until some round does not list it. The channel is bounded: a round
    whose changes fit into it succeeds while the receiver stays, a round does
    not end only if they do not fit, and with a receiver that takes nothing such
    a round does wait for ever, the known services unchanged. *)
Theorem discovery_refines (d : Disc) (Hd : in_step d) :
  (∀ schema, in_step (discovery_new schema))
  ∧ (∀ turns fetched o d', disc turns fetched d = (o, d') → o ≠ Hang → in_step d')
  ∧ (∀ rounds d', run ip_text addr_port from_shared rounds d = (Ok tt, d') → in_step d')
  ∧ (∀ turns x d', disc turns (Ok x) d = (Ok tt, d') →
       dsd_services d' = x ∧ given (dsd_sender d') = given (dsd_sender d) ++ changes d x
       ∧ (ch_open (dsd_sender d) = true → ∀ a, a ∈ balanced d' ↔ a ∈ x ∧ buildable (dsd_schema d) a))
  ∧ (∀ a rounds d', Forall (λ r, match r.1 with Ok x => a ∈ x | _ => True end) rounds →
       a ∈ dsd_services d → run ip_text addr_port from_shared rounds d = (Ok tt, d') →
       ch_open (dsd_sender d') = true →
       ∃ l, given (dsd_sender d') = given (dsd_sender d) ++ l ∧ Forall (λ c, change_addr c ≠ a) l)
  ∧ (∀ turns x, length (ch_queue (dsd_sender d)) + length (changes d x) ≤ CAPACITY →
       (disc turns (Ok x) d).1 ≠ Hang
       ∧ (ch_open (dsd_sender d) = true → Closes ∉ turns → (disc turns (Ok x) d).1 = Ok tt))
  ∧ (∀ x, ch_open (dsd_sender d) = true →
       CAPACITY < length (ch_queue (dsd_sender d)) + length (changes d x) →
       (disc [] (Ok x) d).1 = Hang ∧ dsd_services (disc [] (Ok x) d).2 = dsd_services d).
Proof.
  split_and!.
  - intros schema. split; [simpl; unfold CAPACITY; lia|]. intros _ a. unfold balanced, given. simpl. set_solver.
  - intros turns fetched o d' Hrun Hne. by apply (discovery_in_step _ _ _ _ _ Hrun).
  - intros rounds d' Hrun. by apply (run_in_step _ _ _ Hrun).
  - intros turns x d' Hrun.
    destruct (discovery_cases _ _ _ _ _ Hrun) as (_ & _ & [(_ & Hs & Hg & _)|[((? & ?) & _)|(? & _)]]); [|done..].
    split_and!; [done..|]. intros Ho a. unfold balanced. rewrite Hg, foldl_app. by apply balanced_after, Hd.
  - intros a rounds d' Hl Ha Hrun Ho. by apply (run_settled a rounds d d').
  - intros turns x Hfit. destruct (disc turns (Ok x) d) as [o d'] eqn:E.
    destruct (discovery_cases _ _ _ _ _ E) as (_ & _ & [(-> & _)|[((? & ->) & _ & _ & Hc)|(_ & _ & ?)]]); [done| |lia].
    split; [done|]. intros Ho Hno. destruct Hc; [congruence|done].
  - intros x Ho Hlt. destruct Hd as [Hq _].
    pose proof (send_each_idle (changes d x) (dsd_sender d) Ho Hq Hlt) as Hh. unfold discovery, send_changes.
    destruct (for_each _ _ _) as [o [ts ch]]. simpl in *. by subst.
Qed.
End polling.

(** ** Waiting for a service *)

Lemma retry_run name answers n : ∀ calls i,
  (i + Z.of_nat n ≤ 5)%Z →
  ∃ k, (k ≤ n)%nat
  ∧ (∀ j, (j < k)%nat → answers (calls + j)%nat = Ok [])
  ∧ ((k = n ∧ retry name answers calls n i = (Ok [], (calls + n)%nat))
     ∨ ((k < n)%nat ∧ answers (calls + k)%nat ≠ Ok []
        ∧ retry name answers calls n i = (answers (calls + k)%nat, (calls + S k)%nat))).
Proof.
  induction n as [|n IH]; intros calls0 i Hi.
  { exists 0%nat. split_and!; [lia|lia|]. left. split; [done|]. simpl. do 2 f_equal. lia. }
  assert (answers calls0 = Ok [] ∨ answers calls0 ≠ Ok []) as [E|E]
    by (destruct (answers calls0) as [[|]| | |]; [by left|by right..]).
  - destruct (IH (S calls0) (i + 1)%Z ltac:(lia)) as (k & Hk & Hempty & Hcase). exists (S k).
    split_and!; [lia| |].
    + intros [|j] Hj; [by rewrite Nat.add_0_r|]. rewrite Nat.add_succ_r. apply (Hempty j). lia.
    + assert (Hstep : retry name answers calls0 (S n) i = retry name answers (S calls0) n (i + 1)).
      { cbn [retry]. rewrite E. by rewrite bool_decide_eq_false_2 by lia. }
      rewrite Hstep. destruct Hcase as [[-> ->]|(Hlt & Hne & ->)]; [left|right].
      * split; [done|]. f_equal. lia.
      * rewrite !Nat.add_succ_r. simpl. split_and!; [lia|done|]. f_equal; lia.
  - exists 0%nat. split_and!; [lia|lia|]. right. rewrite Nat.add_0_r. split_and!; [lia|done|].
    cbn [retry]. rewrite Nat.add_1_r. by destruct (answers calls0) as [[|]| | |].
Qed.

(** Asking for a channel ends after at most six questions, whatever the
    service centre answers: the first answer that is not an empty list decides
    it. When all six are empty the call does not report a missing service (its
    check for that can never fire) but succeeds with a channel over nothing. *)
Theorem channel_retry_ends (from_shared : string → bool) (name protocol : string)
    (answers : nat → outcome Error (list RegService)) :
  ∃ k, (k ≤ 6)%nat ∧ (∀ j, (j < k)%nat → answers j = Ok [])
  ∧ (k = 6%nat → get_rpc_channel_by_name from_shared name protocol answers = (Ok [], 6%nat))
  ∧ ((k < 6)%nat → answers k ≠ Ok []
      ∧ (get_rpc_channel_by_name from_shared name protocol answers).2 = S k
      ∧ (get_rpc_channel_by_name from_shared name protocol answers).1
        = match answers k with
          | Ok l => match endpoints_of from_shared protocol l with Some us => Ok us | None => Panic end
          | Err e => Err e | Panic => Panic | Hang => Hang
          end).
Proof.
  assert (answers 0%nat = Ok [] ∨ answers 0%nat ≠ Ok []) as [E|E]
    by (destruct (answers 0%nat) as [[|]| | |]; [by left|by right..]).
  - destruct (retry_run name answers 5 1 0%Z ltac:(lia)) as (k & Hk & Hempty & Hcase). exists (S k).
    unfold get_rpc_channel_by_name. rewrite E. split_and!.
    + lia.
    + intros [|j] Hj; [done|]. apply (Hempty j). lia.
    + intros [= ->]. by destruct Hcase as [[_ ->]|(? & _)]; [|lia].
    + intros Hlt. destruct Hcase as [[-> _]|(_ & Hne & ->)]; [lia|]. split; [exact Hne|]. simpl.
      destruct (answers (S k)) as [l| | |]; try done. by destruct (endpoints_of _ _ l).
  - exists 0%nat. split_and!; [lia|lia|lia|]. intros _. split; [done|].
    unfold get_rpc_channel_by_name. destruct (answers 0%nat) as [[|x l]| | |]; try done.
    by destruct (endpoints_of _ _ _).
Qed.

(** ** Witnesses *)

Lemma lb_update_tracks_witness :
  "h:2"%string ∈ lb_set (lb_update 0 (mkLb [] (RoundRobin 0))
     [mkInstance "h" 1 0 0; mkInstance "h" 2 0 0; mkInstance "h" 1 1 0]).
Proof.
  apply (lb_update_tracks 0 (mkLb [] (RoundRobin 0)) _ ltac:(constructor)). reflexivity.
Defined.

Lemma round_robin_fair_witness :
  (calls 2 (mkLb ["a"; "b"]%string (RoundRobin 5))).1 ≡ₚ [Some "a"; Some "b"]%string.
Proof.
  apply (proj1 (round_robin_fair ["a"; "b"]%string 5 ltac:(discriminate) ltac:(lia)
    ltac:(vm_compute; discriminate))).
Defined.

Definition no_services : DynamicServiceDiscovery (Addr := string) := discovery_new "http".

(** A crowd that does not fit, as text addresses. *)
Definition crowd : gset string := list_to_set ((λ n, pretty n) <$> List.seq 0 1100).

Lemma discovery_refines_witness :
  dsd_services (discovery (λ a, a) (λ _, 80%Z) (λ _, true) [] (Ok {["h"%string]}) no_services).2 = {["h"%string]}
  ∧ (discovery (λ a, a) (λ _, 80%Z) (λ _, true) [] (Ok crowd) no_services).1 = Hang.
Proof.
  assert (Hd : in_step (λ a, a) (λ _, 80%Z) (λ _, true) no_services).
  { split; [vm_compute; lia|]. intros _ a. unfold balanced, given. simpl. rewrite elem_of_empty. tauto. }
  destruct (discovery_refines (λ a : string, a) (λ _, 80%Z) (λ _, true) no_services Hd)
    as (_ & _ & _ & H & _ & H' & H'').
  split.
  - destruct (H' [] {["h"%string]}) as [_ Hok]; [apply Nat.leb_le; vm_compute; reflexivity|].
    specialize (Hok eq_refl ltac:(apply not_elem_of_nil)).
    refine (proj1 (H [] {["h"%string]} _ _)). rewrite <- Hok. apply surjective_pairing.
  - refine (proj1 (H'' crowd eq_refl _)). apply Nat.ltb_lt. vm_compute. reflexivity.
Defined.

Lemma channel_retry_ends_witness :
  get_rpc_channel_by_name (λ _, true) "ws" "http" (λ _, Ok []) = (Ok [], 6%nat).
Proof.
  destruct (channel_retry_ends (λ _, true) "ws" "http" (λ _, Ok [])) as (k & Hk & _ & H1 & H2).
  apply H1. apply Nat.le_antisymm; [exact Hk|]. apply Nat.nlt_ge. intros Hlt.
  destruct (H2 Hlt) as [H3 _]. apply H3. reflexivity.
Defined.
