(* ===== verification/Consul.v ===== *)
(** * The Consul client and the channels over it ([utils])

    The service register of [utils/src/service_register_center]: registrations
    and services with their JSON forms, the requests of the Consul client, the
    resolver and the polled channels of [utils/src/lib.rs]. The agent is
    reached through [reqwest]: its answers are a function of its state, and what
    the client relies on is Consul's documented HTTP interface, the class
    [ConsulLaws], which does not mention the client's own requests. *)

From stdpp Require Import pretty.
From S2P Require Import Prelude Errors Types Tables World Config Discovery.

Local Open Scope string_scope.

(** ** JSON ([serde_json]'s values) *)

Inductive Json : Type :=
| JNull | JBool (b : bool) | JNum (n : Z) | JStr (s : string)
| JArr (l : list Json) | JObj (l : list (string * Json)).

(** What a derived [Deserialize] does with the field [k]: a missing or a
    repeated one is an error, unknown ones are skipped. *)
Fixpoint values (k : string) (l : list (string * Json)) : list Json :=
  match l with
  | [] => []
  | (k', v) :: l' => if String.eqb k k' then v :: values k l' else values k l'
  end.
Definition field {A} (dec : Json → option A) (k : string) (l : list (string * Json)) : option A :=
  match values k l with [v] => dec v | _ => None end.

Definition str_of_json (j : Json) : option string := match j with JStr s => Some s | _ => None end.
Definition bool_of_json (j : Json) : option bool := match j with JBool b => Some b | _ => None end.
Definition u16_ok (n : Z) : bool := bool_decide (0 ≤ n)%Z && bool_decide (n < 65536)%Z.
Definition u16_of_json (j : Json) : option Z :=
  match j with JNum n => if u16_ok n then Some n else None | _ => None end.
Definition strs_of_json (j : Json) : option (list string) :=
  match j with JArr l => mapM str_of_json l | _ => None end.

(** An [Option] field: [null] and a missing field are [None]. *)
Definition opt_field {A} (dec : Json → option A) (k : string) (l : list (string * Json)) : option (option A) :=
  match values k l with
  | [] | [JNull] => Some None
  | [v] => Some <$> dec v
  | _ => None
  end.

(** ** The register's data ([typos.rs]) *)

Record GrpcHealthCheck : Type := mkGrpcHealthCheck {
  gh_name : string; gh_grpc : string; gh_grpc_use_tls : bool; gh_interval : string
}.
Record Registration : Type := mkRegistration {
  rg_id : string; rg_name : string; rg_address : string; rg_port : Z; rg_tags : list string;
  rg_check : option GrpcHealthCheck
}.
Record Service : Type := mkConsulService {
  sv_id : string; sv_service : string; sv_address : string; sv_port : Z; sv_tags : list string;
  sv_datacenter : string
}.
Abbreviation Services := (gmap string Service).

Global Instance GrpcHealthCheck_eq_dec : EqDecision GrpcHealthCheck.
Proof. solve_decision. Defined.
Global Instance Registration_eq_dec : EqDecision Registration.
Proof. solve_decision. Defined.
Global Instance Service_eq_dec : EqDecision Service.
Proof. solve_decision. Defined.

Definition check_json (c : GrpcHealthCheck) : Json :=
  JObj [("name", JStr (gh_name c)); ("grpc", JStr (gh_grpc c)); ("grpc_use_tls", JBool (gh_grpc_use_tls c));
        ("interval", JStr (gh_interval c))].
Definition registration_json (r : Registration) : Json :=
  JObj [("id", JStr (rg_id r)); ("name", JStr (rg_name r)); ("address", JStr (rg_address r));
        ("port", JNum (rg_port r)); ("tags", JArr (JStr <$> rg_tags r));
        ("check", match rg_check r with Some c => check_json c | None => JNull end)].
Definition service_json (s : Service) : Json :=
  JObj [("ID", JStr (sv_id s)); ("Service", JStr (sv_service s)); ("Address", JStr (sv_address s));
        ("Port", JNum (sv_port s)); ("Tags", JArr (JStr <$> sv_tags s)); ("Datacenter", JStr (sv_datacenter s))].

(** A derived struct is read from an object, or from an array of its fields in order. *)
Definition check_of_json (j : Json) : option GrpcHealthCheck :=
  match j with
  | JObj l => n ← field str_of_json "name" l; g ← field str_of_json "grpc" l;
      t ← field bool_of_json "grpc_use_tls" l; i ← field str_of_json "interval" l;
      Some (mkGrpcHealthCheck n g t i)
  | JArr [n; g; t; i] => n ← str_of_json n; g ← str_of_json g; t ← bool_of_json t; i ← str_of_json i;
      Some (mkGrpcHealthCheck n g t i)
  | _ => None
  end.
Definition registration_of_json (j : Json) : option Registration :=
  match j with
  | JObj l => i ← field str_of_json "id" l; n ← field str_of_json "name" l; a ← field str_of_json "address" l;
      p ← field u16_of_json "port" l; t ← field strs_of_json "tags" l; c ← opt_field check_of_json "check" l;
      Some (mkRegistration i n a p t c)
  | JArr [i; n; a; p; t; c] => i ← str_of_json i; n ← str_of_json n; a ← str_of_json a; p ← u16_of_json p;
      t ← strs_of_json t; c ← match c with JNull => Some None | c => Some <$> check_of_json c end;
      Some (mkRegistration i n a p t c)
  | _ => None
  end.
Definition service_of_json (j : Json) : option Service :=
  match j with
  | JObj l => i ← field str_of_json "ID" l; s ← field str_of_json "Service" l; a ← field str_of_json "Address" l;
      p ← field u16_of_json "Port" l; t ← field strs_of_json "Tags" l; d ← field str_of_json "Datacenter" l;
      Some (mkConsulService i s a p t d)
  | JArr [i; s; a; p; t; d] => i ← str_of_json i; s ← str_of_json s; a ← str_of_json a; p ← u16_of_json p;
      t ← strs_of_json t; d ← str_of_json d; Some (mkConsulService i s a p t d)
  | _ => None
  end.

(** [HashMap<String, Service>]: of a repeated key the last value stays. *)
Definition services_json (m : Services) : Json := JObj (prod_map id service_json <$> map_to_list m).
Definition add_service (m : option Services) (x : string * Json) : option Services :=
  m ← m; s ← service_of_json x.2; Some (<[x.1 := s]> m).
Definition services_of_json (j : Json) : option Services :=
  match j with
  | JObj l => foldl add_service (Some ∅) l
  | _ => None
  end.

(** ** Requests ([consul/mod.rs]) *)

Inductive Method : Type := PUT | GET.
Record Request : Type := mkRequest {
  rq_method : Method; rq_url : string; rq_query : list (string * string); rq_json : option Json
}.
(** A response: [text()] may fail, and so may the parse of the body as JSON. *)
Record Response : Type := mkResponse { rs_status : Z; rs_text : option string; rs_json : option Json }.
Definition is_success (r : Response) : bool := bool_decide (200 ≤ rs_status r)%Z && bool_decide (rs_status r < 300)%Z.

Record ConsulOptions : Type := mkConsulOptions {
  co_host : string; co_port : Z; co_protocol : string; co_timeout : Z
}.
Definition options_from_config (config : Config) : ConsulOptions :=
  let sc := cfg_service_center config in
  mkConsulOptions (sce_host sc) (sce_port sc) (sce_protocol sc) (sce_timeout sc).

Definition consul_url (o : ConsulOptions) (type_ name : string) : string :=
  co_protocol o +:+ "://" +:+ host_port (co_host o) (co_port o) +:+ "/v1/" +:+ type_ +:+ "/" +:+ name.
Definition api_url (o : ConsulOptions) (name : string) : string := consul_url o "agent" name.

(** The trait [ServiceRegister], over the state the register keeps. *)
Record ServiceRegister (A : Type) : Type := mkRegister {
  sr_register : Registration → M A Error unit;
  sr_discovery : M A Error Services;
  sr_deregister : string → M A Error unit;
  sr_filter_by_name : string → M A Error Services
}.
Arguments mkRegister {A}.
Arguments sr_register {A}.
Arguments sr_discovery {A}.
Arguments sr_deregister {A}.
Arguments sr_filter_by_name {A}.

Definition register_request (o : ConsulOptions) (r : Registration) : Request :=
  mkRequest PUT (api_url o "service/register") [] (Some (registration_json r)).
Definition deregister_request (o : ConsulOptions) (service_id : string) : Request :=
  mkRequest PUT (api_url o ("service/deregister/" +:+ service_id)) [] None.
Definition services_request (o : ConsulOptions) : Request := mkRequest GET (api_url o "services") [] None.
Definition filter_request (o : ConsulOptions) (name : string) : Request :=
  mkRequest GET (api_url o "services") [("filter", "Service == " +:+ name)] None.

Section client.
Context {A : Type} (send : Request → A → (string + Response) * A).

(** [self.client.put(..).send().await?] *)
Definition sent (rq : Request) : M A Error Response := λ a,
  match send rq a with
  | (inr r, a') => (Ok r, a')
  | (inl e, a') => (Err (from_external (ReqwestLibError e)), a')
  end.
(** [response.json::<Services>().await?]; the status is not looked at. *)
Definition json_services (r : Response) : M A Error Services :=
  from_option (from_external (ReqwestLibError "error decoding response body")) (j ← rs_json r; services_of_json j).
Definition checked (r : Response) : M A Error unit :=
  if is_success r then mret tt else throw (internal_with_details (default "" (rs_text r))).

Definition Consul_register (o : ConsulOptions) (registration : Registration) : M A Error unit :=
  sent (register_request o registration) ≫= checked.
Definition Consul_discovery (o : ConsulOptions) : M A Error Services :=
  sent (services_request o) ≫= json_services.
Definition Consul_deregister (o : ConsulOptions) (service_id : string) : M A Error unit :=
  sent (deregister_request o service_id) ≫= checked.
Definition Consul_filter_by_name (o : ConsulOptions) (name : string) : M A Error Services :=
  sent (filter_request o name) ≫= json_services.

Definition Consul (o : ConsulOptions) : ServiceRegister A :=
  mkRegister (Consul_register o) (Consul_discovery o) (Consul_deregister o) (Consul_filter_by_name o).
Definition service_register_center (config : Config) : ServiceRegister A := Consul (options_from_config config).
End client.

(** ** The resolver and the channels ([utils/src/lib.rs]) *)

Record ServiceResolver (A : Type) : Type := mkResolver { re_name : string; re_center : ServiceRegister A }.
Arguments mkResolver {A}.
Arguments re_name {A}.
Arguments re_center {A}.
Definition resolver_new {A} (service_center : ServiceRegister A) (service_name : string) : ServiceResolver A :=
  mkResolver service_name service_center.

Section channels.
Context {A : Type} {Addr : Type} `{Countable Addr}.
Context (parse_addr : string → option Addr) (ip_text : Addr → string) (addr_port : Addr → Z)
        (from_shared : string → bool).
Abbreviation Disc := (DynamicServiceDiscovery (Addr := Addr)).

(** The instances of the register as discovery reads them. *)
Definition reg_services (m : Services) : list RegService :=
  (λ x, mkService "" (sv_address x.2) (sv_port x.2)) <$> map_to_list m.

Definition fetch (r : ServiceResolver A) : M A Error (gset Addr) :=
  m ← sr_filter_by_name (re_center r) (re_name r);
  mret (resolve parse_addr (reg_services m)).

(** A round of discovery asks the register and changes the channel. *)
Definition poll (turns : list Turn) (r : ServiceResolver A) (s : A * Disc) : outcome Error unit * (A * Disc) :=
  let '(fetched, a) := fetch r s.1 in
  let '(o, d) := discovery ip_text addr_port from_shared turns fetched s.2 in (o, (a, d)).

(** [get_channel]: the first round must succeed; the task then goes on with it.
    [turns] is what the receiver does before the channel is handed out. *)
Definition get_channel (turns : list Turn) (r : ServiceResolver A) (protocol : string) : M A Error Disc := λ a,
  match poll turns r (a, discovery_new protocol) with
  | (Ok _, (a', d)) => (Ok d, a')
  | (Err e, (a', _)) => (Err e, a')
  | (Panic, (a', _)) => (Panic, a')
  | (Hang, (a', _)) => (Hang, a')
  end.

Definition get_channel_with_register (turns : list Turn) (register : ServiceRegister A)
    (service_name protocol : string) : M A Error Disc :=
  get_channel turns (resolver_new register service_name) protocol.
Definition get_channel_with_config (turns : list Turn) (send : Request → A → (string + Response) * A)
    (config : Config) (service_name protocol : string) : M A Error Disc :=
  get_channel turns (resolver_new (service_register_center send config) service_name) protocol.
End channels.

(** ** Channels by subscription *)

Section subscribed.
Context (up : Z) (scheme_text : Z → string) {Addr : Type} `{Countable Addr} (parse_addr : string → option Addr)
        (from_shared : string → bool).

(** [get_chan]: the client must connect; the task then feeds the channel from
    the subscription, if there is one. [build] is the client's builder, given
    host, port and the timeout of five seconds; [turns] what the receiver does. *)
Definition get_chan (build : string → Z → Z → string + (string → option (list Instance))) (turns : list Turn)
    (config : Config) (name : string) : outcome Error (Chan (Change (Addr := Addr))) :=
  match build (sce_host (cfg_service_center config)) (sce_port (cfg_service_center config)) 5000%Z with
  | inl e => Err (internal_with_details e)
  | inr subscribe =>
      Ok match subscribe name with
         | Some stream => (chan_task up scheme_text parse_addr from_shared stream (turns, chan_new)).2.2
         | None => chan_new
         end
  end.

(** [get_rpc_client]: any client is made from the channel ([ClientFactory::n]). *)
Definition get_rpc_client {T} (n : Chan (Change (Addr := Addr)) → T)
    (build : string → Z → Z → string + (string → option (list Instance))) (turns : list Turn)
    (config : Config) (service_name : string) : outcome Error T :=
  match get_chan build turns config service_name with
  | Ok channel => Ok (n channel)
  | Err e => Err e
  | Panic => Panic
  | Hang => Hang
  end.
End subscribed.

(** [get_host_name]: the system's name, which must be text. *)
Definition get_host_name (os_name : string + option string) : outcome Error string :=
  match os_name with
  | inl e => Err (from_external (StdIoError e))
  | inr None => Err (internal_with_details "get host name failed")
  | inr (Some h) => Ok h
  end.

(** [start_register_center]: the address is unwrapped, and so is the end of the
    server, which [serve] answers; without an error it never ends. *)
Definition start_register_center {Addr} (parse_addr : string → option Addr) (serve : Addr → outcome Error unit)
    (config : Config) : outcome Error unit :=
  let sc := cfg_service_center config in
  match parse_addr (host_port (sce_host sc) (sce_port sc)) with
  | None => Panic
  | Some addr => match serve addr with Err _ => Panic | o => o end
  end.

(** ** The JSON forms can be read back *)

Lemma strs_roundtrip l : strs_of_json (JArr (JStr <$> l)) = Some l.
Proof. unfold strs_of_json. by apply mapM_fmap_Some. Qed.
#[local] Arguments strs_of_json : simpl never.

Lemma service_roundtrip s : u16_ok (sv_port s) = true → service_of_json (service_json s) = Some s.
Proof. intros Hp. destruct s as [i n a p t d]. cbn -[fmap u16_ok]. simpl in Hp. rewrite Hp. cbn -[fmap]. by rewrite strs_roundtrip. Qed.

Lemma registration_roundtrip r : u16_ok (rg_port r) = true → registration_of_json (registration_json r) = Some r.
Proof.
  intros Hp. destruct r as [i n a p t c]. cbn -[fmap u16_ok]. simpl in Hp. rewrite Hp. cbn -[fmap]. rewrite strs_roundtrip.
  by destruct c as [[]|].
Qed.

Definition all_u16 (m : Services) : Prop := map_Forall (λ _ s, u16_ok (sv_port s) = true) m.

(** ** What the client relies on: the agent's HTTP interface

    As Consul documents it, in terms of the requests it receives and not of how
    the client builds them. *)

(** Keys of a request's body are read whatever their case. *)
Definition lower (a : Ascii.ascii) : Ascii.ascii :=
  let n := Ascii.nat_of_ascii a in
  if bool_decide (65 ≤ n ∧ n ≤ 90)%nat then Ascii.ascii_of_nat (n + 32) else a.
Fixpoint lower_case (s : string) : string :=
  match s with EmptyString => EmptyString | String a s' => String (lower a) (lower_case s') end.
Fixpoint any_case (k : string) (l : list (string * Json)) : list Json :=
  match l with
  | [] => []
  | (k', v) :: l' => if String.eqb (lower_case k') k then v :: any_case k l' else any_case k l'
  end.
Definition body_field {A} (dec : Json → option A) (k : string) (l : list (string * Json)) : option A :=
  match any_case k l with [v] => dec v | _ => None end.

(** The service a body asks to register: [ID], [Name], [Address], [Port], [Tags].
    The agent adds its datacenter. *)
Definition asked_service (dc : string) (j : Json) : option Service :=
  match j with
  | JObj l =>
      i ← body_field str_of_json "id" l; n ← body_field str_of_json "name" l;
      a ← body_field str_of_json "address" l; p ← body_field u16_of_json "port" l;
      t ← body_field strs_of_json "tags" l; Some (mkConsulService i n a p t dc)
  | _ => None
  end.
(** Its health check: [null], or an object the agent accepts. *)
Definition asked_check (check_ok : Json → bool) (j : Json) : bool :=
  match j with
  | JObj l => match any_case "check" l with
              | [] | [JNull] => true
              | [c] => check_ok c
              | _ => false
              end
  | _ => false
  end.

(** A listing: an object with one member per service, under its id, which has
    these members among others. *)
Definition lists_service (s : Service) (j : Json) : Prop := ∃ l, j = JObj l
  ∧ values "ID" l = [JStr (sv_id s)] ∧ values "Service" l = [JStr (sv_service s)]
  ∧ values "Address" l = [JStr (sv_address s)] ∧ values "Port" l = [JNum (sv_port s)]
  ∧ values "Tags" l = [JArr (JStr <$> sv_tags s)] ∧ values "Datacenter" l = [JStr (sv_datacenter s)].
Definition lists (m : Services) (j : Json) : Prop := ∃ l, j = JObj l ∧ NoDup l.*1
  ∧ (∀ id e, (id, e) ∈ l → ∃ s, m !! id = Some s ∧ lists_service s e)
  ∧ (∀ id, is_Some (m !! id) → id ∈ l.*1).

Definition named (name : string) (m : Services) : Services := filter (λ x, sv_service x.2 = name) m.

(** The agent at [base] lists its services by id. A registration replaces the
    service of its id, an unanswered request may have taken effect, and a
    request that is not answered with success changes nothing and its answer's
    body is no JSON. [plain] names can stand in a path as they are and [word]s
    in a filter expression. An agent that is [alive] answers with success. *)
Class ConsulLaws {A} (send : Request → A → (string + Response) * A) (base : string) (listed : A → Services)
    (dc : string) (check_ok : Json → bool) (alive : A → Prop) (plain word : string → bool) : Prop := {
  consul_registers a body s :
    asked_service dc body = Some s → sv_id s ≠ "" →
    match send (mkRequest PUT (base +:+ "/v1/agent/service/register") [] (Some body)) a with
    | (inr rs, a') => listed a' = if is_success rs then <[sv_id s := s]> (listed a) else listed a
    | (inl _, a') => listed a' = listed a ∨ listed a' = <[sv_id s := s]> (listed a)
    end;
  consul_deregisters a id : plain id = true →
    match send (mkRequest PUT (base +:+ "/v1/agent/service/deregister/" +:+ id) [] None) a with
    | (inr rs, a') => listed a' = if is_success rs then delete id (listed a) else listed a
    | (inl _, a') => listed a' = listed a ∨ listed a' = delete id (listed a)
    end;
  consul_lists a :
    match send (mkRequest GET (base +:+ "/v1/agent/services") [] None) a with
    | (inr rs, a') => listed a' = listed a
        ∧ if is_success rs then ∃ j, rs_json rs = Some j ∧ lists (listed a) j else rs_json rs = None
    | (inl _, a') => listed a' = listed a
    end;
  consul_filters a name : word name = true →
    match send (mkRequest GET (base +:+ "/v1/agent/services") [("filter", "Service == " +:+ name)] None) a with
    | (inr rs, a') => listed a' = listed a
        ∧ if is_success rs then ∃ j, rs_json rs = Some j ∧ lists (named name (listed a)) j else rs_json rs = None
    | (inl _, a') => listed a' = listed a
    end;
  consul_answers a : alive a → ∀ rq,
    (∃ body s, rq = mkRequest PUT (base +:+ "/v1/agent/service/register") [] (Some body)
       ∧ asked_service dc body = Some s ∧ sv_id s ≠ "" ∧ sv_service s ≠ "" ∧ asked_check check_ok body = true)
    ∨ (∃ id, rq = mkRequest PUT (base +:+ "/v1/agent/service/deregister/" +:+ id) [] None
         ∧ plain id = true ∧ is_Some (listed a !! id))
    ∨ rq = mkRequest GET (base +:+ "/v1/agent/services") [] None
    ∨ (∃ name, rq = mkRequest GET (base +:+ "/v1/agent/services") [("filter", "Service == " +:+ name)] None
         ∧ word name = true) →
    ∃ rs a', send rq a = (inr rs, a') ∧ is_success rs = true ∧ alive a'
}.

(** ** The client speaks that interface *)

(** What a registration asks for. *)
Definition service_of (dc : string) (r : Registration) : Service :=
  mkConsulService (rg_id r) (rg_name r) (rg_address r) (rg_port r) (rg_tags r) dc.
(** The agent the client is pointed at. *)
Definition origin (o : ConsulOptions) : string := co_protocol o +:+ "://" +:+ host_port (co_host o) (co_port o).

Lemma app_string_assoc (a b c : string) : (a +:+ b) +:+ c = a +:+ b +:+ c.
Proof.
  induction a as [|x a IH]; [done|]. change (String x ((a +:+ b) +:+ c) = String x (a +:+ b +:+ c)). by rewrite IH.
Qed.
Lemma api_url_origin o name : api_url o name = origin o +:+ "/v1/agent/" +:+ name.
Proof. unfold origin. rewrite !app_string_assoc. reflexivity. Qed.

Lemma registers_at o r :
  register_request o r = mkRequest PUT (origin o +:+ "/v1/agent/service/register") [] (Some (registration_json r)).
Proof. unfold register_request. by rewrite api_url_origin. Qed.
Lemma deregisters_at o id :
  deregister_request o id = mkRequest PUT (origin o +:+ "/v1/agent/service/deregister/" +:+ id) [] None.
Proof. unfold deregister_request. by rewrite api_url_origin. Qed.
Lemma lists_at o : services_request o = mkRequest GET (origin o +:+ "/v1/agent/services") [] None.
Proof. unfold services_request. by rewrite api_url_origin. Qed.
Lemma filters_at o name : filter_request o name
  = mkRequest GET (origin o +:+ "/v1/agent/services") [("filter", "Service == " +:+ name)] None.
Proof. unfold filter_request. by rewrite api_url_origin. Qed.

Lemma asks_for dc r : u16_ok (rg_port r) = true →
  asked_service dc (registration_json r) = Some (service_of dc r).
Proof.
  intros Hp. destruct r as [i n a p t c]. simpl in Hp. unfold asked_service, registration_json, body_field.
  change (any_case "id" _) with [JStr i]. change (any_case "name" _) with [JStr n].
  change (any_case "address" _) with [JStr a]. change (any_case "port" _) with [JNum p].
  change (any_case "tags" _) with [JArr (JStr <$> t)].
  cbn -[fmap u16_ok]. rewrite Hp. cbn -[fmap]. by rewrite strs_roundtrip.
Qed.

Lemma asks_check ok r : (∀ c, rg_check r = Some c → ok (check_json c) = true) →
  asked_check ok (registration_json r) = true.
Proof.
  intros Hc. destruct r as [i n a p t c]. simpl in Hc. unfold asked_check, registration_json.
  change (any_case "check" _) with [match c with Some c => check_json c | None => JNull end].
  destruct c as [c|]; [|done]. by apply Hc.
Qed.

Lemma service_read s j : lists_service s j → u16_ok (sv_port s) = true → service_of_json j = Some s.
Proof.
  intros (l & -> & H1 & H2 & H3 & H4 & H5 & H6) Hp. unfold service_of_json, field.
  rewrite H1, H2, H3, H4, H5, H6. cbn -[fmap u16_ok]. rewrite Hp. cbn -[fmap]. rewrite strs_roundtrip. by destruct s.
Qed.

Lemma services_fold (m : Services) l : ∀ m0,
  Forall (λ x, ∃ s, m !! x.1 = Some s ∧ service_of_json x.2 = Some s) l →
  ∃ m', foldl add_service (Some m0) l = Some m'
    ∧ ∀ id, m' !! id = if decide (id ∈ l.*1) then m !! id else m0 !! id.
Proof.
  induction l as [|[k e] l IH]; intros m0 Hl.
  - exists m0. split; [done|]. intros id. by rewrite decide_False by apply not_elem_of_nil.
  - apply Forall_cons in Hl as [(s & Hs & He) Hl]. simpl in Hs, He.
    destruct (IH (<[k := s]> m0) Hl) as (m' & Hf & Hm'). exists m'. split.
    { cbn [foldl]. unfold add_service at 2. cbn [mbind option_bind fst snd]. by rewrite He. }
    intros id. rewrite Hm', lookup_insert. cbn [fmap list_fmap fst].
    destruct (decide (id ∈ l.*1)); [by rewrite decide_True by (by right)|].
    case_decide as Hk; [subst; by rewrite decide_True by left|].
    rewrite decide_False; [done|]. intros [|]%elem_of_cons; congruence.
Qed.

Lemma services_read m j : lists m j → all_u16 m → services_of_json j = Some m.
Proof.
  intros (l & -> & _ & Hin & Hall) Hm. unfold services_of_json.
  destruct (services_fold m l ∅) as (m' & -> & Hm').
  - apply Forall_forall. intros [k e] He. destruct (Hin _ _ He) as (s & Hs & Hl). exists s. split; [done|].
    by apply service_read, (Hm k).
  - f_equal. apply map_eq. intros id. rewrite Hm', lookup_empty. case_decide as Hid; [done|].
    symmetry. apply eq_None_not_Some. by intros ?%Hall.
Qed.

#[local] Arguments services_of_json : simpl never.

Section laws.
Context {A : Type} (send : Request → A → (string + Response) * A) (o : ConsulOptions) (listed : A → Services)
        (dc : string) (check_ok : Json → bool) (alive : A → Prop) (plain word : string → bool).
Context `{!ConsulLaws send (origin o) listed dc check_ok alive plain word}.

Lemma named_lookup name m id s : named name m !! id = Some s ↔ m !! id = Some s ∧ sv_service s = name.
Proof. unfold named. by rewrite map_lookup_filter_Some. Qed.

Lemma all_u16_named name m : all_u16 m → all_u16 (named name m).
Proof. intros Hm id s [? _]%named_lookup. by apply (Hm id). Qed.

Lemma registration_run r a : u16_ok (rg_port r) = true → rg_id r ≠ "" →
  let '(res, a') := Consul_register send o r a in
  (listed a' = listed a ∨ listed a' = <[rg_id r := service_of dc r]> (listed a))
  ∧ (res = Ok tt → listed a' = <[rg_id r := service_of dc r]> (listed a))
  ∧ (alive a → rg_name r ≠ "" → (∀ c, rg_check r = Some c → check_ok (check_json c) = true) → res = Ok tt ∧ alive a').
Proof.
  intros Hp Hid. unfold Consul_register, sent, mbind, M_bind. rewrite registers_at.
  pose proof (consul_registers a _ _ (asks_for dc r Hp) Hid) as Hr. cbn [sv_id service_of] in Hr.
  assert (Halive : alive a → rg_name r ≠ "" → (∀ c, rg_check r = Some c → check_ok (check_json c) = true) →
    ∃ rs a', send (mkRequest PUT (origin o +:+ "/v1/agent/service/register") [] (Some (registration_json r))) a
      = (inr rs, a') ∧ is_success rs = true ∧ alive a').
  { intros Ha Hname Hc. apply (consul_answers a Ha). left. exists (registration_json r), (service_of dc r).
    split_and!; [done|by apply asks_for|done|done|by apply asks_check]. }
  destruct (send _ a) as [[e|rs] a'].
  - split_and!; [done..|]. intros Ha Hn Hc. by destruct (Halive Ha Hn Hc) as (? & ? & ? & _).
  - unfold checked. destruct (is_success rs) eqn:Es; simpl in *.
    + split_and!; [by right|done|]. intros Ha Hn Hc. destruct (Halive Ha Hn Hc) as (? & ? & [= <- <-] & _ & ?). done.
    + split_and!; [by left|done|]. intros Ha Hn Hc. destruct (Halive Ha Hn Hc) as (? & ? & [= <- <-] & ? & _). congruence.
Qed.

Lemma deregistration_run id a : plain id = true →
  let '(res, a') := Consul_deregister send o id a in
  (listed a' = listed a ∨ listed a' = delete id (listed a))
  ∧ (res = Ok tt → listed a' = delete id (listed a))
  ∧ (alive a → is_Some (listed a !! id) → res = Ok tt ∧ alive a').
Proof.
  intros Hp. unfold Consul_deregister, sent, mbind, M_bind. rewrite deregisters_at.
  pose proof (consul_deregisters a id Hp) as Hr.
  assert (Halive : alive a → is_Some (listed a !! id) →
    ∃ rs a', send (mkRequest PUT (origin o +:+ "/v1/agent/service/deregister/" +:+ id) [] None) a = (inr rs, a')
      ∧ is_success rs = true ∧ alive a').
  { intros Ha Hi. apply (consul_answers a Ha). right. left. eauto. }
  destruct (send _ a) as [[e|rs] a'].
  - split_and!; [done..|]. intros Ha Hi. by destruct (Halive Ha Hi) as (? & ? & ? & _).
  - unfold checked. destruct (is_success rs) eqn:Es; simpl in *.
    + split_and!; [by right|done|]. intros Ha Hi. destruct (Halive Ha Hi) as (? & ? & [= <- <-] & _ & ?). done.
    + split_and!; [by left|done|]. intros Ha Hi. destruct (Halive Ha Hi) as (? & ? & [= <- <-] & ? & _). congruence.
Qed.

Lemma register_keeps_u16 r a : u16_ok (rg_port r) = true → rg_id r ≠ "" → all_u16 (listed a) → all_u16 (listed (Consul_register send o r a).2).
Proof.
  intros Hp Hid Hm. pose proof (registration_run r a Hp Hid) as H. destruct (Consul_register send o r a) as [res a'].
  destruct H as ([H|H] & _); simpl; rewrite H; [done|]. by apply map_Forall_insert_2.
Qed.
Lemma deregister_keeps_u16 id a : plain id = true → all_u16 (listed a) →
  all_u16 (listed (Consul_deregister send o id a).2).
Proof.
  intros Hp Hm. pose proof (deregistration_run id a Hp) as H. destruct (Consul_deregister send o id a) as [res a'].
  destruct H as ([H|H] & _); simpl; rewrite H; [done|]. by apply map_Forall_delete.
Qed.

(** A lookup changes no listing and answers the named services or an error. *)
Lemma filter_run name a : word name = true → all_u16 (listed a) →
  listed (Consul_filter_by_name send o name a).2 = listed a
  ∧ (∀ m, (Consul_filter_by_name send o name a).1 = Ok m → m = named name (listed a))
  ∧ (alive a → (Consul_filter_by_name send o name a).1 = Ok (named name (listed a))
       ∧ alive (Consul_filter_by_name send o name a).2).
Proof.
  intros Hw Hm. unfold Consul_filter_by_name, sent, json_services, mbind, M_bind. rewrite filters_at.
  pose proof (consul_filters a name Hw) as Hf.
  assert (Halive : alive a → ∃ rs a', send (mkRequest GET (origin o +:+ "/v1/agent/services")
    [("filter", "Service == " +:+ name)] None) a = (inr rs, a') ∧ is_success rs = true ∧ alive a').
  { intros Ha. apply (consul_answers a Ha). do 3 right. eauto. }
  destruct (send _ a) as [[e|rs] a']; simpl in *.
  - split_and!; [done..|]. intros (? & ? & ? & _)%Halive. done.
  - destruct Hf as [Hl Hj]. destruct (is_success rs) eqn:Es; simpl.
    + destruct Hj as (j & -> & Hj). unfold mbind, option_bind.
      rewrite (services_read _ _ Hj) by (by apply all_u16_named). simpl.
      split_and!; [done|congruence|]. intros (? & ? & [= -> ->] & _ & ?)%Halive. done.
    + rewrite Hj. split_and!; [done..|]. intros (? & ? & [= -> ->] & ? & _)%Halive. congruence.
Qed.

Lemma discovery_run_alive a : alive a → all_u16 (listed a) →
  (Consul_discovery send o a).1 = Ok (listed a) ∧ listed (Consul_discovery send o a).2 = listed a
  ∧ alive (Consul_discovery send o a).2.
Proof.
  intros Ha Hm. unfold Consul_discovery, sent, json_services, mbind, M_bind. rewrite lists_at.
  destruct (consul_answers a Ha (mkRequest GET (origin o +:+ "/v1/agent/services") [] None))
    as (rs & a' & Hs & Hok & Ha'); [by right; right; left|].
  pose proof (consul_lists a) as Hl. rewrite Hs in *. rewrite Hok in Hl. destruct Hl as [Hl (j & -> & Hj)].
  unfold mbind, option_bind. by rewrite (services_read _ _ Hj) by done.
Qed.

(** C31. What is registered is found: with an agent that answers and follows
    Consul's documented interface, a registration under a new or a used id is
    listed with all its data, the filter by its name answers exactly the
    services of that name, among them this one, and taking it off by its id
    leaves the other services as they were. *)
Theorem register_then_found (r : Registration) (a : A) (Halive : alive a) (Hports : all_u16 (listed a))
    (Hport : u16_ok (rg_port r) = true) (Hid : rg_id r ≠ "") (Hname : rg_name r ≠ "")
    (Hcheck : ∀ c, rg_check r = Some c → check_ok (check_json c) = true)
    (Hplain : plain (rg_id r) = true) (Hword : word (rg_name r) = true) :
  ∃ a1 a2 a3 a4 f, let m := <[rg_id r := service_of dc r]> (listed a) in
    Consul_register send o r a = (Ok tt, a1)
    ∧ Consul_discovery send o a1 = (Ok m, a2)
    ∧ Consul_filter_by_name send o (rg_name r) a2 = (Ok f, a3)
    ∧ (∀ id s, f !! id = Some s ↔ m !! id = Some s ∧ sv_service s = rg_name r)
    ∧ f !! rg_id r = Some (service_of dc r)
    ∧ Consul_deregister send o (rg_id r) a3 = (Ok tt, a4)
    ∧ listed a4 = delete (rg_id r) (listed a).
Proof.
  pose proof (register_keeps_u16 r a Hport Hid Hports) as Hm1.
  pose proof (registration_run r a Hport Hid) as H1. destruct (Consul_register send o r a) as [res1 a1].
  destruct H1 as (_ & Hl1 & Ha1). destruct (Ha1 Halive Hname Hcheck) as [-> Ha1']. specialize (Hl1 eq_refl). simpl in Hm1.
  destruct (discovery_run_alive a1 Ha1' Hm1) as (Hd & Hl2 & Ha2).
  destruct (Consul_discovery send o a1) as [res2 a2] eqn:E2. simpl in *. subst res2.
  destruct (filter_run (rg_name r) a2 Hword ltac:(by rewrite Hl2)) as (Hl3 & _ & Hf).
  destruct (Hf Ha2) as [Hf1 Ha3]. destruct (Consul_filter_by_name send o _ a2) as [res3 a3] eqn:E3. simpl in *. subst res3.
  rewrite Hl2, Hl1 in *.
  pose proof (deregistration_run (rg_id r) a3 Hplain) as H4. destruct (Consul_deregister send o (rg_id r) a3) as [res4 a4] eqn:E4.
  destruct H4 as (_ & Hl4 & Ha4). destruct (Ha4 Ha3) as [-> _]; [by rewrite Hl3, lookup_insert_eq|].
  specialize (Hl4 eq_refl). rewrite Hl3, delete_insert_eq in Hl4.
  exists a1, a2, a3, a4, (named (rg_name r) (<[rg_id r := service_of dc r]> (listed a))).
  split_and!; [done..| | |done|done].
  - intros id s. apply named_lookup.
  - apply named_lookup. by rewrite lookup_insert_eq.
Qed.

(** ** A channel over a register that changes *)

Context {Addr : Type} `{Countable Addr}.
Context (parse_addr : string → option Addr) (ip_text : Addr → string) (addr_port : Addr → Z)
        (from_shared : string → bool) (name : string).
Abbreviation resolver := (resolver_new (Consul send o) name).
Abbreviation Disc := (DynamicServiceDiscovery (Addr := Addr)).
Abbreviation round turns := (poll parse_addr ip_text addr_port from_shared turns resolver).
Abbreviation in_step := (in_step ip_text addr_port from_shared).

(** What happens around a channel: services come and go, and it polls while its
    receiver acts. A poll that does not end leaves no next state. *)
Inductive Act : Type := Register (r : Registration) | Deregister (id : string) | Poll (turns : list Turn).
Definition act (s : A * Disc) (x : Act) : option (A * Disc) :=
  match x with
  | Register r => Some ((Consul_register send o r s.1).2, s.2)
  | Deregister id => Some ((Consul_deregister send o id s.1).2, s.2)
  | Poll turns => match round turns s with (Hang, _) | (Panic, _) => None | (_, s') => Some s' end
  end.
Fixpoint act_all (acts : list Act) (s : A * Disc) : option (A * Disc) :=
  match acts with [] => Some s | x :: rest => s' ← act s x; act_all rest s' end.
Definition act_ok (x : Act) : Prop :=
  match x with
  | Register r => u16_ok (rg_port r) = true ∧ rg_id r ≠ ""
  | Deregister id => plain id = true
  | Poll _ => True
  end.

(** The addresses of a service: those of its instances that parse and build. *)
Definition addresses (protocol : string) (m : Services) (x : Addr) : Prop :=
  (∃ id s, m !! id = Some s ∧ sv_service s = name
     ∧ parse_addr (host_port (sv_address s) (sv_port s)) = Some x)
  ∧ is_Some (build_endpoint ip_text addr_port from_shared protocol x).

Lemma resolve_named m x : x ∈ resolve parse_addr (reg_services (named name m)) ↔
  ∃ id s, m !! id = Some s ∧ sv_service s = name ∧ parse_addr (host_port (sv_address s) (sv_port s)) = Some x.
Proof.
  unfold resolve, reg_services. rewrite elem_of_list_to_set, list_elem_of_omap. split.
  - intros (v & ([id s] & -> & Hv)%list_elem_of_fmap & Hp). apply elem_of_map_to_list, named_lookup in Hv as [??].
    by exists id, s.
  - intros (id & s & Hm & Hs & Hp). exists (mkService "" (sv_address s) (sv_port s)). split; [|exact Hp]. apply list_elem_of_fmap.
    exists (id, s). split; [done|]. by apply elem_of_map_to_list, named_lookup.
Qed.

(** The changes the next poll would send. *)
Definition pending (s : A * Disc) : list (Change (Addr := Addr)) :=
  change_set ip_text addr_port from_shared s.2 (resolve parse_addr (reg_services (named name (listed s.1)))).

#[local] Arguments discovery : simpl never.

Lemma poll_run turns s : word name = true → all_u16 (listed s.1) → in_step s.2 →
  listed (round turns s).2.1 = listed s.1 ∧ dsd_schema (round turns s).2.2 = dsd_schema s.2
  ∧ ((round turns s).1 ≠ Hang → in_step (round turns s).2.2)
  ∧ ((round turns s).1 = Ok tt → ch_open (dsd_sender s.2) = true →
       ∀ x, x ∈ balanced (round turns s).2.2 ↔ addresses (dsd_schema s.2) (listed s.1) x)
  ∧ (alive s.1 → ch_open (dsd_sender s.2) = true → Closes ∉ turns →
     (length (ch_queue (dsd_sender s.2)) + length (pending s) ≤ CAPACITY)%nat → (round turns s).1 = Ok tt).
Proof.
  intros Hw Hm Hd. destruct s as [a d]. cbn [fst snd] in *. unfold poll, fetch, pending. cbn [fst snd re_center re_name resolver_new sr_filter_by_name Consul].
  destruct (filter_run name a Hw Hm) as (Hl & Hok & Hal).
  unfold mbind, M_bind. destruct (Consul_filter_by_name send o name a) as [[m|e| |] a']; cbn [fst snd] in *;
    [|unfold discovery; split_and!; try done; by intros [? _]%Hal..].
  rewrite (Hok m eq_refl). set (x := resolve _ _).
  cbn [mret M_ret]. destruct (discovery ip_text addr_port from_shared turns (Ok x) d) as [o' d'] eqn:E. cbn [fst snd].
  pose proof (discovery_cases ip_text addr_port from_shared _ _ _ _ _ E) as (Hs & _ & Hcases).
  split_and!; [done|done| | |].
  - intros Hne. by apply (discovery_in_step ip_text addr_port from_shared turns (Ok x) d o').
  - intros -> Ho. destruct Hcases as [(_ & _ & Hg & _)|[((? & ?) & _)|(? & _)]]; [|done..].
    intros y. unfold addresses. rewrite <- resolve_named. unfold balanced. rewrite Hg, foldl_app.
    apply balanced_after. by apply Hd.
  - intros _ Ho Hno Hfit. destruct Hcases as [(-> & _)|[(_ & _ & _ & Hc)|(_ & _ & ?)]]; [done| |lia].
    destruct Hc; [congruence|done].
Qed.

Lemma act_run s x s' : word name = true → act_ok x → act s x = Some s' → all_u16 (listed s.1) → in_step s.2 →
  all_u16 (listed s'.1) ∧ in_step s'.2 ∧ dsd_schema s'.2 = dsd_schema s.2.
Proof.
  intros Hw Hx Hact Hm Hd. destruct x as [r|id|turns]; simpl in Hact.
  - injection Hact as <-. destruct Hx. split; [by apply register_keeps_u16|done].
  - injection Hact as <-. split; [by apply deregister_keeps_u16|done].
  - destruct (poll_run turns s Hw Hm Hd) as (Hl & Hs & Hi & _).
    destruct (round turns s) as [[]]; simplify_eq/=; rewrite Hl; split_and!; auto.
Qed.

(** C23. A polled channel follows the register: through any sequence of
    registrations, removals and polls, answered, refused or lost, as long as
    the polls end, what the open channel balances over stays in step with what
    is known; a poll of an open channel that succeeds makes it exactly the
    addresses of the services then registered under the name, with the ports
    they were registered with; and while the agent answers, the receiver stays
    and the changes fit into the bounded channel, a poll succeeds. *)
Theorem channel_follows_registry (acts : list Act) (s s' : A * Disc) (turns : list Turn)
    (Hword : word name = true) (Hports : all_u16 (listed s.1)) (Hd : in_step s.2) (Hacts : Forall act_ok acts)
    (Hrun : act_all acts s = Some s') :
  in_step s'.2
  ∧ listed (round turns s').2.1 = listed s'.1
  ∧ ((round turns s').1 = Ok tt → ch_open (dsd_sender s'.2) = true →
     ∀ x, x ∈ balanced (round turns s').2.2 ↔ addresses (dsd_schema s.2) (listed s'.1) x)
  ∧ (alive s'.1 → ch_open (dsd_sender s'.2) = true → Closes ∉ turns →
     (length (ch_queue (dsd_sender s'.2)) + length (pending s') ≤ CAPACITY)%nat → (round turns s').1 = Ok tt).
Proof.
  assert (Hs : all_u16 (listed s'.1) ∧ in_step s'.2 ∧ dsd_schema s'.2 = dsd_schema s.2).
  { clear -Hword Hports Hd Hacts Hrun ConsulLaws0. revert s Hports Hd Hrun.
    induction Hacts as [|x l Hx _ IH]; intros s Hports Hd Hrun; [by injection Hrun as <-|].
    cbn [act_all] in Hrun. destruct (act s x) as [s1|] eqn:E; [|done].
    destruct (act_run s x s1 Hword Hx E Hports Hd) as (Hp' & Hd' & <-). by apply IH. }
  destruct Hs as (Hp & Hd' & <-). destruct (poll_run turns _ Hword Hp Hd') as (? & ? & ? & ? & ?). done.
Qed.
End laws.

(** ** Witnesses: an agent that follows the laws *)

Fixpoint strip (p s : string) : option string :=
  match p, s with
  | EmptyString, s => Some s
  | String a p', String b s' => if Ascii.eqb a b then strip p' s' else None
  | _, _ => None
  end.

Lemma strip_app p s : strip p (p +:+ s) = Some s.
Proof. induction p as [|a p IH]; [done|]. simpl. by rewrite Ascii.eqb_refl. Qed.

Definition agent_options : ConsulOptions := mkConsulOptions "127.0.0.1" 8500 "http" 5000.
Definition ok_json (j : Json) : string + Response := inr (mkResponse 200 (Some "") (Some j)).
Definition refused : string + Response := inr (mkResponse 400 (Some "refused") None).

(** It reads requests as documented, and lists more members than the client
    looks at. *)
Definition listing (m : Services) : Json :=
  JObj ((λ x : string * Service, (x.1, JObj [("ID", JStr (sv_id x.2)); ("Service", JStr (sv_service x.2));
    ("Tags", JArr (JStr <$> sv_tags x.2)); ("Meta", JObj []); ("Port", JNum (sv_port x.2));
    ("Address", JStr (sv_address x.2)); ("EnableTagOverride", JBool false);
    ("Datacenter", JStr (sv_datacenter x.2))])) <$> map_to_list m).

Definition agent (rq : Request) (a : Services) : (string + Response) * Services :=
  match rq_method rq, strip "http://127.0.0.1:8500/v1/agent/" (rq_url rq) with
  | PUT, Some path =>
      if String.eqb path "service/register"
      then match rq_json rq ≫= asked_service "dc1" with
           | Some s => (ok_json (JObj []), <[sv_id s := s]> a)
           | None => (refused, a)
           end
      else match strip "service/deregister/" path with
           | Some id => (ok_json (JObj []), delete id a)
           | None => (refused, a)
           end
  | GET, Some path =>
      if String.eqb path "services"
      then match rq_query rq with
           | [] => (ok_json (listing a), a)
           | (_, f) :: _ => match strip "Service == " f with
                            | Some name => (ok_json (listing (named name a)), a)
                            | None => (refused, a)
                            end
           end
      else (refused, a)
  | _, _ => (refused, a)
  end.

Lemma listing_lists m : lists m (listing m).
Proof.
  unfold listing. eexists. split; [reflexivity|]. split_and!.
  - rewrite <- list_fmap_compose. apply NoDup_fst_map_to_list.
  - intros id e ([k s] & [= -> ->] & Hk)%list_elem_of_fmap. apply elem_of_map_to_list in Hk.
    exists s. split; [done|]. eexists. split; [reflexivity|]. done.
  - intros id [s Hs]. rewrite <- list_fmap_compose. apply list_elem_of_fmap. exists (id, s).
    split; [done|]. by apply elem_of_map_to_list.
Qed.

Global Instance agent_laws :
  ConsulLaws agent "http://127.0.0.1:8500" id "dc1" (λ _, true) (λ _, True) (λ _, true) (λ _, true).
Proof.
  assert (Hre : ∀ body s a, asked_service "dc1" body = Some s →
    agent (mkRequest PUT ("http://127.0.0.1:8500" +:+ "/v1/agent/service/register") [] (Some body)) a
    = (ok_json (JObj []), <[sv_id s := s]> a)).
  { intros body s a Hs. unfold agent. cbn [rq_method rq_url rq_json mbind option_bind].
    change (strip "http://127.0.0.1:8500/v1/agent/" _) with (Some "service/register").
    cbn iota beta. by rewrite String.eqb_refl, Hs. }
  assert (Hde : ∀ i a, agent (mkRequest PUT ("http://127.0.0.1:8500" +:+ "/v1/agent/service/deregister/" +:+ i) [] None) a
    = (ok_json (JObj []), delete i a)).
  { intros i a. unfold agent. cbn [rq_method rq_url]. change (strip "http://127.0.0.1:8500/v1/agent/" _) with (Some ("service/deregister/" +:+ i)).
    cbn iota beta.
    change (String.eqb ("service/deregister/" +:+ i) "service/register") with false. by rewrite strip_app. }
  assert (Hl : ∀ a, agent (mkRequest GET ("http://127.0.0.1:8500" +:+ "/v1/agent/services") [] None) a
    = (ok_json (listing a), a)).
  { intros a. unfold agent. cbn [rq_method rq_url rq_query]. change (strip "http://127.0.0.1:8500/v1/agent/" _) with (Some "services").
    cbn iota beta. by rewrite String.eqb_refl. }
  assert (Hf : ∀ n a, agent (mkRequest GET ("http://127.0.0.1:8500" +:+ "/v1/agent/services")
      [("filter", "Service == " +:+ n)] None) a = (ok_json (listing (named n a)), a)).
  { intros n a. unfold agent. cbn [rq_method rq_url rq_query]. change (strip "http://127.0.0.1:8500/v1/agent/" _) with (Some "services").
    cbn iota beta. rewrite String.eqb_refl. by rewrite strip_app. }
  split.
  - intros a body s Hs _. by rewrite (Hre _ _ _ Hs).
  - intros a i _. by rewrite Hde.
  - intros a. rewrite Hl. split; [done|]. simpl. eexists. split; [done|apply listing_lists].
  - intros a n _. rewrite Hf. split; [done|]. simpl. eexists. split; [done|apply listing_lists].
  - intros a _ rq [(body & s & -> & Hs & _)|[(i & -> & _)|[->|(n & -> & _)]]];
      do 2 eexists; (split; [first [by apply Hre|apply Hde|apply Hl|apply Hf]|done]).
Qed.

Definition chat_registration : Registration :=
  mkRegistration "host-chat" "chat" "10.0.0.2" 50003 ["grpc"] None.

Lemma register_then_found_witness :
  ∃ a1 a2 f a3, Consul_register agent agent_options chat_registration ∅ = (Ok tt, a1)
    ∧ Consul_filter_by_name agent agent_options "chat" a2 = (Ok f, a3)
    ∧ f !! "host-chat" = Some (service_of "dc1" chat_registration).
Proof.
  destruct (register_then_found agent agent_options id "dc1" (λ _, true) (λ _, True) (λ _, true) (λ _, true)
    chat_registration ∅ I (map_Forall_empty _) eq_refl ltac:(discriminate) ltac:(discriminate)
    ltac:(discriminate) eq_refl eq_refl)
    as (a1 & a2 & a3 & a4 & f & H1 & _ & H2 & _ & H3 & _).
  exists a1, a2, f, a3. split; [exact H1|]. split; [exact H2|exact H3].
Defined.

(** The address is its text; ports and endpoints always build. *)
Definition text_disc : DynamicServiceDiscovery (Addr := string) := discovery_new "http".

Lemma text_disc_in_step : in_step id (λ _, 0%Z) (λ _, true) text_disc.
Proof. split; [apply Nat.leb_le; reflexivity|]. intros _ x. unfold balanced, given. simpl. set_solver. Qed.

Definition chat_acts : list Act := [Register chat_registration; Poll []; Deregister "host-chat"; Register chat_registration].

Lemma chat_acts_ok : Forall (act_ok (λ _, true)) chat_acts.
Proof. repeat constructor; discriminate. Qed.

Definition chat_after : option (Services * DynamicServiceDiscovery (Addr := string)) :=
  act_all agent agent_options Some id (λ _, 0%Z) (λ _, true) "chat" chat_acts (∅, text_disc).
Definition chat_channel : Services * DynamicServiceDiscovery (Addr := string) := default (∅, text_disc) chat_after.

Lemma chat_channel_run : chat_after = Some chat_channel.
Proof.
  assert (H : is_Some chat_after) by (apply (bool_decide_unpack _); vm_compute; exact I).
  unfold chat_channel. by destruct H as [x ->].
Qed.

Lemma channel_follows_registry_witness :
  (poll Some id (λ _, 0%Z) (λ _, true) [Takes 5] (resolver_new (Consul agent agent_options) "chat") chat_channel).1 = Ok tt
  ∧ in_step id (λ _, 0%Z) (λ _, true) chat_channel.2.
Proof.
  destruct (channel_follows_registry agent agent_options id "dc1" (λ _, true) (λ _, True) (λ _, true) (λ _, true)
    Some id (λ _, 0%Z) (λ _, true) "chat" chat_acts (∅, text_disc) chat_channel [Takes 5]
    eq_refl (map_Forall_empty _) text_disc_in_step chat_acts_ok chat_channel_run) as (H1 & _ & _ & H4).
  split; [apply H4|exact H1].
  - exact I.
  - vm_compute. reflexivity.
  - intros H%list_elem_of_singleton. discriminate H.
  - apply Nat.leb_le. vm_compute. reflexivity.
Defined.
