(* ===== verification/Sql.v ===== *)
(** * Rows and statements as [sqlx] and PostgreSQL see them

    What decides whether a statement of the stores can run at all and whether
    its rows can be read: the column types of the migrations ([schema]), the
    items of a statement the server checks when it prepares it ([prepares]),
    the values of a row with [Row::try_get] on them, the [fetch_*] calls and
    transactions. A bound Rust value has the declared type of its parameter
    ([String] is TEXT, [i32] is INT4, [i64] is INT8, [f32] is FLOAT4). *)

From stdpp Require Import sorting.
From S2P Require Import Prelude Errors Types Tables World.

(** ** Values and rows *)

Inductive SqlVal : Type :=
| VText (s : string) | VInt4 (z : Z) | VInt8 (z : Z) | VBool (b : bool)
| VRole (r : GroupRole) | VFsStatus (s : FriendshipStatus)
| VTextArray (l : list string) | VJson (l : list PollOption)
| VFloat4 (bits : Z).

(** A row: column names with their values; [None] is NULL. *)
Abbreviation Row := (list (string * option SqlVal)).

Fixpoint assoc {A} (k : string) (l : list (string * A)) : option A :=
  match l with
  | [] => None
  | (k', a) :: l' => if String.eqb k' k then Some a else assoc k l'
  end.
Definition column (row : Row) (name : string) : option (option SqlVal) := assoc name row.

(** [T::decode] with the check [T::compatible] on the column's type: a value of
    another type does not decode, and NULL decodes as an [Option] only. *)
Abbreviation decoder A := (option SqlVal → option A).
Definition as_string : decoder string :=
  λ v, match v with Some (VText s) => Some s | _ => None end.
Definition as_int4 : decoder Z := λ v, match v with Some (VInt4 z) => Some z | _ => None end.
Definition as_int8 : decoder Z := λ v, match v with Some (VInt8 z) => Some z | _ => None end.
Definition as_bool : decoder bool := λ v, match v with Some (VBool b) => Some b | _ => None end.
Definition as_strings : decoder (list string) :=
  λ v, match v with Some (VTextArray l) => Some l | _ => None end.
Definition as_role : decoder GroupRole := λ v, match v with Some (VRole r) => Some r | _ => None end.
Definition as_option {A} (d : decoder A) : decoder (option A) :=
  λ v, match v with None => Some None | Some _ => Some <$> d v end.

(** [row.try_get(name)?] and [row.try_get(name).unwrap_or_default()] *)
Definition try_get {A} (d : decoder A) (row : Row) (name : string) : option A :=
  column row name ≫= d.
Definition get_or {A} (dflt : A) (d : decoder A) (row : Row) (name : string) : A :=
  default dflt (try_get d row name).

(** ** Fetching: a row that does not decode is an error, and so is the absence
    of a row for [fetch_one]. *)

Definition fetch_one {T} (from_row : Row → option T) (rows : list Row) : option T :=
  match rows with r :: _ => from_row r | [] => None end.
Definition fetch_optional {T} (from_row : Row → option T) (rows : list Row) : option (option T) :=
  match rows with r :: _ => Some <$> from_row r | [] => Some None end.
Definition fetch_all {T} (from_row : Row → option T) (rows : list Row) : option (list T) :=
  mapM from_row rows.

(** The rows come back, and the statement's effect stands, before they are
    decoded: a decoding error does not undo the statement. *)
Definition decoded {A} (o : option A) : IO A := from_option pg_error o.

(** [query_as(..).fetch_one(..).await?] and its siblings, for a query and for a
    statement that also writes. *)
Definition query_one {T} (from_row : Row → option T) (q : Pg → list Row) : IO T :=
  rows ← pg_query (λ p, Some (q p)); decoded (fetch_one from_row rows).
Definition query_optional {T} (from_row : Row → option T) (q : Pg → list Row) : IO (option T) :=
  rows ← pg_query (λ p, Some (q p)); decoded (fetch_optional from_row rows).
Definition query_all {T} (from_row : Row → option T) (q : Pg → list Row) : IO (list T) :=
  rows ← pg_query (λ p, Some (q p)); decoded (fetch_all from_row rows).
Definition exec_one {T} (from_row : Row → option T) (q : Pg → option (list Row * Pg)) : IO T :=
  rows ← pg_exec q; decoded (fetch_one from_row rows).
Definition exec_all {T} (from_row : Row → option T) (q : Pg → option (list Row * Pg)) : IO (list T) :=
  rows ← pg_exec q; decoded (fetch_all from_row rows).

(** [UPDATE t SET f WHERE key RETURNING *] on a table given by its lookup:
    no row, or the updated one. *)
Definition update_returning {K R} `{Countable K} (tbl : Pg → gmap K R)
    (upd : (gmap K R → gmap K R) → Pg → Pg) (k : K) (f : R → R) (cells : R → Row)
    (p : Pg) : option (list Row * Pg) :=
  match tbl p !! k with
  | Some r => Some ([cells (f r)], upd (insert k (f r)) p)
  | None => Some ([], p)
  end.

(** [ORDER BY key] and [ORDER BY key DESC]; ties in storage order. *)
Definition key_le {A} (key : A → Z) (x y : A) : Prop := (key x ≤ key y)%Z.
Global Instance key_le_dec {A} (key : A → Z) : RelDecision (key_le key).
Proof. unfold key_le. intros x y. apply _. Defined.
Definition order_by {A} (key : A → Z) : list A → list A := merge_sort (key_le key).
Definition order_by_desc {A} (key : A → Z) : list A → list A := order_by (λ x, - key x)%Z.

(** ** Types of columns and parameters *)

Inductive SqlType : Type :=
| TText | TVarchar | TInt4 | TInt8 | TBool | TFloat4 | TFloat8 | TNumeric | TJsonb
| TTextArray | TTextList | TEnum (name : string).
Global Instance SqlType_eq_dec : EqDecision SqlType.
Proof. solve_decision. Defined.

Definition textual (t : SqlType) : bool := match t with TText | TVarchar => true | _ => false end.
Definition numeric (t : SqlType) : bool :=
  match t with TInt4 | TInt8 | TFloat4 | TFloat8 | TNumeric => true | _ => false end.

(** Assignment casts, operators and explicit casts PostgreSQL has between them. *)
Definition assignable (from to : SqlType) : bool :=
  bool_decide (from = to) || (textual from && textual to) || (numeric from && numeric to).
Definition comparable (a b : SqlType) : bool :=
  bool_decide (a = b) || (textual a && textual b) || (numeric a && numeric b).
Definition castable (from to : SqlType) : bool :=
  match from, to with
  | (TText | TVarchar), _ => true
  | TEnum _, (TText | TVarchar) => true
  | _, _ => assignable from to
  end.

(** ** Statements as the server checks them *)

Inductive SqlItem : Type :=
| ICol (t c : string)                 (* the column is mentioned *)
| ISet (t c : string) (ty : SqlType)  (* it is assigned an expression of this type *)
| ICmp (t c : string) (ty : SqlType)  (* it is compared with one *)
| ICast (from to : SqlType).          (* [expr::type] *)

Abbreviation Stmt := (list SqlItem).

Definition cols (t : string) (cs : list string) : Stmt := ICol t <$> cs.
Definition sets (t : string) (cs : list (string * SqlType)) : Stmt := (λ x, ISet t x.1 x.2) <$> cs.
Definition cmps (t : string) (cs : list (string * SqlType)) : Stmt := (λ x, ICmp t x.1 x.2) <$> cs.

(** The tables of the migrations the checked statements name. *)
Definition role_type : SqlType := TEnum "group_role".
Definition fs_type : SqlType := TEnum "friend_request_status".

Definition schema : list (string * list (string * SqlType)) :=
  [ ("users", [("id", TText); ("name", TText); ("account", TText); ("password", TText);
      ("salt", TText); ("signature", TText); ("avatar", TText); ("gender", TText); ("age", TInt4);
      ("phone", TText); ("email", TText); ("address", TText); ("region", TText);
      ("birthday", TInt8); ("create_time", TInt8); ("update_time", TInt8);
      ("last_login_time", TInt8); ("last_login_ip", TText); ("two_factor_enabled", TBool);
      ("account_status", TText); ("status", TText); ("last_active_time", TInt8);
      ("status_message", TText); ("privacy_settings", TText); ("notification_settings", TText);
      ("language", TText); ("friend_requests_privacy", TText); ("profile_visibility", TText);
      ("theme", TText); ("timezone", TText); ("is_delete", TBool)]);
    ("groups", [("id", TVarchar); ("owner", TVarchar); ("name", TVarchar); ("avatar", TText);
      ("description", TText); ("announcement", TText); ("create_time", TInt8);
      ("update_time", TInt8); ("max_members", TInt4); ("is_public", TBool);
      ("join_approval_required", TBool); ("category", TVarchar); ("tags", TTextArray);
      ("mute_all", TBool); ("only_admin_post", TBool); ("invite_permission", role_type);
      ("pinned_messages", TTextArray)]);
    ("group_polls", [("id", TVarchar); ("group_id", TVarchar); ("creator_id", TVarchar);
      ("title", TVarchar); ("options", TJsonb); ("results", TJsonb); ("is_multiple", TBool);
      ("is_anonymous", TBool); ("created_at", TInt8); ("expires_at", TInt8); ("status", TVarchar)]);
    ("friendships", [("id", TVarchar); ("user_id", TVarchar); ("friend_id", TVarchar);
      ("status", fs_type); ("apply_msg", TVarchar); ("req_remark", TVarchar);
      ("resp_msg", TVarchar); ("resp_remark", TVarchar); ("source", TVarchar);
      ("create_time", TInt8); ("update_time", TInt8); ("operator_id", TVarchar);
      ("last_operation", TVarchar); ("deleted_time", TInt8)]);
    ("friend_groups", [("id", TInt8); ("user_id", TVarchar); ("name", TVarchar);
      ("create_time", TInt8); ("update_time", TInt8); ("sort_order", TInt4); ("icon", TVarchar)]);
    ("friends", [("id", TInt8); ("fs_id", TVarchar); ("user_id", TVarchar);
      ("friend_id", TVarchar); ("status", fs_type); ("remark", TVarchar); ("source", TVarchar);
      ("create_time", TInt8); ("update_time", TInt8); ("deleted_time", TInt8);
      ("is_starred", TBool); ("group_id", TInt8); ("priority", TInt4)]);
    ("friend_tags", [("id", TInt8); ("user_id", TVarchar); ("name", TVarchar);
      ("color", TVarchar); ("create_time", TInt8); ("icon", TVarchar); ("sort_order", TInt4)]);
    ("friend_tag_relations", [("user_id", TVarchar); ("friend_id", TVarchar); ("tag_id", TInt8);
      ("create_time", TInt8)]);
    ("friend_interactions", [("user_id", TVarchar); ("friend_id", TVarchar);
      ("message_count", TInt4); ("last_interact_time", TInt8); ("total_duration", TInt4);
      ("call_count", TInt4); ("interaction_score", TFloat8); ("last_week_count", TInt4);
      ("last_month_count", TInt4)]);
    ("friend_privacy_settings", [("user_id", TVarchar); ("friend_id", TVarchar);
      ("can_see_moments", TBool); ("can_see_online_status", TBool); ("can_see_location", TBool);
      ("can_see_mutual_friends", TBool); ("permission_level", TVarchar);
      ("custom_settings", TJsonb)]) ]%string.

Definition column_type (t c : string) : option SqlType := assoc t schema ≫= assoc c.

Definition item_ok (i : SqlItem) : bool :=
  match i with
  | ICol t c => bool_decide (is_Some (column_type t c))
  | ISet t c ty => match column_type t c with Some ty' => assignable ty ty' | None => false end
  | ICmp t c ty => match column_type t c with Some ty' => comparable ty ty' | None => false end
  | ICast from to => castable from to
  end.
Definition prepares (s : Stmt) : bool := forallb item_ok s.

(** A statement: one that does not prepare is an error of the server. *)
Definition pg_stmt {A} (s : Stmt) (q : Pg → option (A * Pg)) : IO A :=
  pg_exec (λ p, if prepares s then q p else None).

(** A bound parameter. *)
Inductive Bind : Type :=
| BText (s : string) | BInt4 (z : Z) | BInt8 (z : Z) | BBool (b : bool) | BFloat4 (bits : Z)
| BTextArray (l : list string).

(** Of some statements the tables modelled here cannot tell what they would do:
    what the server makes of one with its parameters, when it prepares it, is
    left open. *)
Class PgServer : Type := server_does : Stmt → list Bind → Pg → option (list Row * Pg).

(** One that refuses them all. *)
Definition no_server : PgServer := λ _ _ _, None.

(** [.fetch_*(&pool)] and [.execute(&pool)] of such a statement. *)
Definition stmt_rows `{!PgServer} (s : Stmt) (binds : list Bind) : IO (list Row) := pg_stmt s (server_does s binds).
Definition stmt_execute `{!PgServer} (s : Stmt) (binds : list Bind) : IO unit :=
  pg_stmt s (λ p, (λ x : list Row * Pg, (tt, x.2)) <$> server_does s binds p).

(** ** Transactions

    [BEGIN] and [COMMIT] are calls like any other; a body that does not reach
    its commit is rolled back, and so is one whose commit never arrives. *)
Definition rollback (w0 w : World) : World := upd_pg (λ _, w_pg w0) w.

Definition until_commit {A} (body : IO A) : IO A := λ w0,
  match body w0 with
  | (Ok a, w) =>
      match take_fault w with
      | (Ok Pass, w') => (Ok a, w')
      | (Ok FailAfter, w') => (Err pg_error, w')
      | (_, w') => (Err pg_error, rollback w0 w')
      end
  | (o, w) => (o, rollback w0 w)
  end.

Definition transaction {A} (body : IO A) : IO A :=
  remote pg_error (mret tt) ;; until_commit body.

(** ** Laws *)

Lemma decoded_some {A} (a : A) w : decoded (Some a) w = (Ok a, w).
Proof. done. Qed.

Lemma pg_stmt_rejected {A} s (q : Pg → option (A * Pg)) w :
  prepares s = false → ∃ fs, pg_stmt s q w = (Err pg_error, upd_faults (λ _, fs) w).
Proof.
  intros Hs. unfold pg_stmt, pg_exec, remote, take_fault. rewrite Hs. mstep.
  exists (tail (w_faults w)). destruct w as [????????? [|[] fs] ??]; done.
Qed.

Lemma pg_stmt_healthy {A} s (q : Pg → option (A * Pg)) w a p :
  healthy w → prepares s = true → q (w_pg w) = Some (a, p) →
  pg_stmt s q w = (Ok a, upd_pg (λ _, p) w).
Proof. intros ? Hs Hq. unfold pg_stmt. apply pg_exec_healthy; [done|]. by rewrite Hs. Qed.

Lemma pg_stmt_healthy_err {A} s (q : Pg → option (A * Pg)) w :
  healthy w → q (w_pg w) = None → pg_stmt s q w = (Err pg_error, w).
Proof.
  intros ? Hq. unfold pg_stmt. apply pg_exec_healthy_err; [done|]. rewrite Hq. by destruct (prepares s).
Qed.

Lemma pg_query_run {A} (q : Pg → option A) w a :
  healthy w → q (w_pg w) = Some a → pg_query q w = (Ok a, w).
Proof.
  intros Hnet Hq. unfold pg_query. erewrite pg_exec_healthy; [|done|by rewrite Hq].
  by rewrite upd_pg_id.
Qed.

Lemma pg_query_err {A} (q : Pg → option A) w :
  healthy w → q (w_pg w) = None → pg_query q w = (Err pg_error, w).
Proof. intros Hnet Hq. unfold pg_query. apply pg_exec_healthy_err; [done|]. by rewrite Hq. Qed.

Lemma transaction_ok {A} (body : IO A) w a w' :
  healthy w → body w = (Ok a, w') → healthy w' → transaction body w = (Ok a, w').
Proof.
  intros Hw Hb Hw'. unfold transaction, until_commit.
  erewrite bind_ok by (by rewrite remote_healthy). rewrite Hb.
  unfold take_fault. by rewrite Hw'.
Qed.

Lemma transaction_err {A} (body : IO A) w e w' :
  healthy w → body w = (Err e, w') → transaction body w = (Err e, rollback w w').
Proof.
  intros Hw Hb. unfold transaction, until_commit. erewrite bind_ok by (by rewrite remote_healthy). by rewrite Hb.
Qed.

(** A transaction is all or nothing: whatever fails, either it answers the
    body's value and the tables are the body's, or the tables are the body's
    with the answer lost at the commit, or nothing has changed. *)
Lemma transaction_atomic {A} (body : IO A) w :
  let r := transaction body w in
  w_pg r.2 = w_pg w
  ∨ ∃ v a, w_pg v = w_pg w ∧ (body v).1 = Ok a ∧ w_pg r.2 = w_pg (body v).2
      ∧ (r.1 = Ok a ∨ r.1 = Err pg_error).
Proof.
  unfold transaction, until_commit, remote.
  assert (Hstart : ∀ f w1, take_fault w = (Ok f, w1) → w_pg w1 = w_pg w).
  { intros f w1. unfold take_fault. destruct w as [????????? [|f' fs] ??]; simpl; by intros [= <- <-]. }
  unfold mbind, M_bind. destruct (take_fault w) as [[f| | |] w1] eqn:E;
    [|unfold take_fault in E; by destruct (w_faults w)..].
  specialize (Hstart f w1 eq_refl).
  destruct f; simpl; [|by left|by left].
  destruct (body w1) as [[a|e| |] w2] eqn:Eb; simpl; [|by left..].
  assert (Hend : ∀ o w3, take_fault w2 = (o, w3) → w_pg w3 = w_pg w2).
  { intros o w3. unfold take_fault. destruct w2 as [????????? [|f' fs] ??]; simpl; by intros [= <- <-]. }
  destruct (take_fault w2) as [[[]| | |] w3] eqn:E3; simpl; try (by left);
    right; exists w1, a; rewrite Eb; simpl; (split_and!; [done|done|by eapply Hend|]); tauto.
Qed.

(** ** Calls that cannot succeed *)

Definition never_ok {S E A} (m : M S E A) : Prop := ∀ s, is_ok (m s).1 = false.

Lemma never_ok_bind_l {S E A B} (m : M S E A) (k : A → M S E B) : never_ok m → never_ok (m ≫= k).
Proof. intros H s. specialize (H s). unfold mbind, M_bind. by destruct (m s) as [[] ?]. Qed.

Lemma never_ok_bind_r {S E A B} (m : M S E A) (k : A → M S E B) :
  (∀ a, never_ok (k a)) → never_ok (m ≫= k).
Proof. intros H s. unfold mbind, M_bind. destruct (m s) as [[] ?]; [apply H|done..]. Qed.

Lemma never_ok_remote {A} e (op : IO A) : never_ok op → never_ok (remote e op).
Proof.
  intros H. apply never_ok_bind_r. intros []; [done|done|]. by apply never_ok_bind_l.
Qed.

Lemma never_ok_transaction {A} (body : IO A) : never_ok body → never_ok (transaction body).
Proof.
  intros H. apply never_ok_bind_r. intros _ w. specialize (H w). unfold until_commit.
  by destruct (body w) as [[] ?].
Qed.

(** A transaction whose body cannot succeed changes no table. *)
Lemma never_ok_rolls_back {A} (body : IO A) w :
  never_ok body → w_pg (transaction body w).2 = w_pg w.
Proof.
  intros H. destruct (transaction_atomic body w) as [?|(v & a & _ & Ha & _)]; [done|].
  specialize (H v). by rewrite Ha in H.
Qed.

(** Reading undecodable rows. *)
Lemma fetch_one_undecodable {T} (from_row : Row → option T) rows :
  (∀ r, r ∈ rows → from_row r = None) → fetch_one from_row rows = None.
Proof. intros H. destruct rows as [|r rs]; [done|]. apply H. apply list_elem_of_here. Qed.

Lemma never_ok_pg_then {A B} (q : Pg → option (A * Pg)) (k : A → IO B) :
  (∀ p a p', q p = Some (a, p') → never_ok (k a)) → never_ok (pg_exec q ≫= k).
Proof.
  intros H w. unfold pg_exec, remote, mbind, M_bind.
  destruct (take_fault w) as [[[]| | |] w1]; simpl; try done.
  - destruct (q (w_pg w1)) as [[a p]|] eqn:E; simpl; [by eapply H|done].
  - by destruct (q (w_pg w1)) as [[a p]|].
Qed.

Lemma never_ok_decoded {T} : never_ok (@decoded T None).
Proof. done. Qed.

Lemma never_ok_exec_one {T} (from_row : Row → option T) q :
  (∀ p rows p' r, q p = Some (rows, p') → r ∈ rows → from_row r = None) →
  never_ok (exec_one from_row q).
Proof.
  intros H. apply never_ok_pg_then. intros p rows p' Hq.
  rewrite fetch_one_undecodable by eauto. apply never_ok_decoded.
Qed.

Lemma never_ok_query_one {T} (from_row : Row → option T) (q : Pg → list Row) :
  (∀ p r, r ∈ q p → from_row r = None) → never_ok (query_one from_row q).
Proof.
  intros H. apply never_ok_pg_then. intros p rows p' Hq.
  simpl in Hq. simplify_eq. rewrite fetch_one_undecodable by eauto. apply never_ok_decoded.
Qed.

Lemma fetch_all_pure {T} (g : Row → T) rows : fetch_all (λ r, Some (g r)) rows = Some (g <$> rows).
Proof. unfold fetch_all. induction rows as [|r rows IH]; [done|]. cbn. by rewrite IH. Qed.

Lemma fetch_all_total {A T} (from_row : Row → option T) (cells : A → Row) (f : A → T) l :
  (∀ a, from_row (cells a) = Some (f a)) → fetch_all from_row (cells <$> l) = Some (f <$> l).
Proof.
  intros H. unfold fetch_all. induction l as [|a l IH]; [done|].
  cbn [fmap list_fmap mapM]. rewrite H. cbn. by rewrite IH.
Qed.

Lemma query_one_run {T} (from_row : Row → option T) q w t :
  healthy w → fetch_one from_row (q (w_pg w)) = Some t → query_one from_row q w = (Ok t, w).
Proof.
  intros Hw Hq. unfold query_one. erewrite bind_ok by (by apply pg_query_run). by rewrite Hq.
Qed.

Lemma query_all_run {T} (from_row : Row → option T) q w l :
  healthy w → fetch_all from_row (q (w_pg w)) = Some l → query_all from_row q w = (Ok l, w).
Proof.
  intros Hw Hq. unfold query_all. erewrite bind_ok by (by apply pg_query_run). by rewrite Hq.
Qed.

Lemma query_optional_run {T} (from_row : Row → option T) q w o :
  healthy w → fetch_optional from_row (q (w_pg w)) = Some o →
  query_optional from_row q w = (Ok o, w).
Proof.
  intros Hw Hq. unfold query_optional. erewrite bind_ok by (by apply pg_query_run). by rewrite Hq.
Qed.

Lemma exec_one_run {T} (from_row : Row → option T) q w rows p :
  healthy w → q (w_pg w) = Some (rows, p) →
  exec_one from_row q w
  = (match fetch_one from_row rows with Some t => Ok t | None => Err pg_error end, upd_pg (λ _, p) w).
Proof.
  intros Hw Hq. unfold exec_one. erewrite bind_ok by (by apply pg_exec_healthy).
  by destruct (fetch_one from_row rows).
Qed.

(** ** Frames on the tables

    What every statement of a program keeps, the program keeps, whatever fails:
    [R] relates the tables before and after. *)

Definition void {A} (m : IO A) : IO unit := _ ← m; mret tt.
Definition pg_frame (R : Pg → Pg → Prop) (w w' : World) : Prop := R (w_pg w) (w_pg w').

Section table_frames.
Context (R : Pg → Pg → Prop) `{!PreOrder R}.

#[export] Instance pg_frame_preorder : PreOrder (pg_frame R).
Proof. split; [intros w; apply (reflexivity (R := R))|]. intros w1 w2 w3. apply (transitivity (R := R)). Qed.

Lemma frame_pg {A} (q : Pg → option (A * Pg)) :
  (∀ p a p', q p = Some (a, p') → R p p') → keeps (pg_frame R) (pg_exec q).
Proof.
  intros H. apply keeps_pg_exec; [apply _|intros w fs; apply (reflexivity (R := R))|].
  intros w a p Hq. exact (H _ _ _ Hq).
Qed.

Lemma frame_query {A} (q : Pg → option A) : keeps (pg_frame R) (pg_query q).
Proof. apply frame_pg. intros p a p'. destruct (q p); simpl; intros; by simplify_eq. Qed.

Lemma frame_write (f : Pg → Pg) : (∀ p, R p (f p)) → keeps (pg_frame R) (pg_exec (λ p, Some (tt, f p))).
Proof. intros H. apply frame_pg. intros p a p' [= <- <-]. apply H. Qed.

Lemma frame_decoded {A} (o : option A) : keeps (pg_frame R) (decoded o).
Proof. apply keeps_from_option. apply _. Qed.

Lemma frame_exec_one {T} (from_row : Row → option T) q :
  (∀ p rows p', q p = Some (rows, p') → R p p') → keeps (pg_frame R) (exec_one from_row q).
Proof. intros H. apply keeps_bind; [apply _|by apply frame_pg|]. intros rows. apply frame_decoded. Qed.

Lemma frame_query_one {T} (from_row : Row → option T) q : keeps (pg_frame R) (query_one from_row q).
Proof. apply keeps_bind; [apply _|apply frame_query|]. intros rows. apply frame_decoded. Qed.

Lemma frame_query_all {T} (from_row : Row → option T) q : keeps (pg_frame R) (query_all from_row q).
Proof. apply keeps_bind; [apply _|apply frame_query|]. intros rows. apply frame_decoded. Qed.

Lemma frame_now : keeps (pg_frame R) now_ms.
Proof. apply keeps_gets. apply _. Qed.

Lemma frame_nanoid nanoid : keeps (pg_frame R) (draw_nanoid nanoid).
Proof. intros w. apply (reflexivity (R := R)). Qed.

Lemma frame_stmt {A} s (q : Pg → option (A * Pg)) :
  (∀ p a p', q p = Some (a, p') → R p p') → keeps (pg_frame R) (pg_stmt s q).
Proof. intros H. apply frame_pg. intros p a p'. destruct (prepares s); [apply H|done]. Qed.

Lemma frame_refused `{!PgServer} s binds : prepares s = false → keeps (pg_frame R) (stmt_rows s binds).
Proof. intros Hs w. unfold stmt_rows. destruct (pg_stmt_rejected s (server_does s binds) w Hs) as [fs ->]. apply (reflexivity (R := R)). Qed.

Lemma frame_take_fault : keeps (pg_frame R) take_fault.
Proof. intros w. unfold take_fault. by destruct (w_faults w); apply (reflexivity (R := R)). Qed.

Lemma frame_rollback w w1 : pg_frame R w (rollback w w1).
Proof. apply (reflexivity (R := R)). Qed.

Lemma frame_transaction {A} (body : IO A) : keeps (pg_frame R) body → keeps (pg_frame R) (transaction body).
Proof.
  intros H. apply keeps_bind; [apply _| |].
  - apply keeps_remote; [apply _|intros w fs; apply (reflexivity (R := R))|]. apply keeps_ret. apply _.
  - intros _ w. specialize (H w). unfold until_commit. destruct (body w) as [[a|e| |] w1]; try apply frame_rollback.
    pose proof (frame_take_fault w1) as Hf. simpl in H.
    destruct (take_fault w1) as [[[]| | |] w2]; try apply frame_rollback; simpl in *; by trans w1.
Qed.

Lemma frame_same {A} (m : IO A) : (∀ w, w_pg (m w).2 = w_pg w) → keeps (pg_frame R) m.
Proof. intros H w. unfold pg_frame. rewrite H. reflexivity. Qed.

Lemma frame_void {A} (m : IO A) : keeps (pg_frame R) m → keeps (pg_frame R) (void m).
Proof. intros H. apply keeps_bind; [apply _|done|]. intros _. apply keeps_ret. apply _. Qed.

Lemma frame_update {K X} `{Countable K} (tbl : Pg → gmap K X) upd k f cells p rows p' :
  (∀ r, tbl p !! k = Some r → R p (upd (insert k (f r)) p)) →
  update_returning tbl upd k f cells p = Some (rows, p') → R p p'.
Proof.
  intros Hp. unfold update_returning. destruct (tbl p !! k) as [r|] eqn:E; intros; simplify_eq; [by apply Hp|reflexivity].
Qed.
End table_frames.

(** A database call touches neither the cache nor the queue nor the pushes. *)
Definition quiet (w w' : World) : Prop :=
  w_redis w' = w_redis w ∧ w_kafka w' = w_kafka w ∧ w_pushed w' = w_pushed w.
#[export] Instance quiet_preorder : PreOrder quiet.
Proof. split; unfold quiet; [done|]. intros w1 w2 w3 (?&?&?) (?&?&?). split_and!; congruence. Qed.

Lemma quiet_pg_exec {A} (q : Pg → option (A * Pg)) : keeps quiet (pg_exec q).
Proof. by apply keeps_pg_exec; [apply _|..]. Qed.

Lemma quiet_exec_one {T} (from_row : Row → option T) q : keeps quiet (exec_one from_row q).
Proof. apply keeps_bind; [apply _|apply quiet_pg_exec|]. intros rows. apply keeps_from_option. apply _. Qed.

Lemma quiet_exec_all {T} (from_row : Row → option T) q : keeps quiet (exec_all from_row q).
Proof. apply keeps_bind; [apply _|apply quiet_pg_exec|]. intros rows. apply keeps_from_option. apply _. Qed.

Lemma quiet_transaction {A} (body : IO A) : keeps quiet body → keeps quiet (transaction body).
Proof.
  intros H. apply keeps_bind; [apply _| |].
  - by apply keeps_remote; [apply _|intros w fs|apply keeps_ret; apply _].
  - intros _ w. specialize (H w). unfold until_commit. destruct (body w) as [[a|e| |] w1]; try exact H.
    simpl in H. unfold take_fault. by destruct (w_faults w1) as [|[] fs].
Qed.

(** Split a program into its calls. *)
Ltac frame_split :=
  repeat lazymatch goal with
  | |- keeps _ (void _) => apply frame_void; [apply _|]
  | |- keeps _ (mbind _ _) => apply keeps_bind; [apply _| |intros ?]
  | |- keeps _ (if _ then _ else _) => apply keeps_if
  | |- keeps _ (throw _) => apply keeps_throw; apply _
  | |- keeps _ (mret _) => apply keeps_ret; apply _
  | |- keeps _ (pg_query _) => apply frame_query; apply _
  | |- keeps _ (decoded _) => apply frame_decoded; apply _
  | |- keeps _ (query_one _ _) => apply frame_query_one; apply _
  | |- keeps _ now_ms => apply frame_now; apply _
  | |- keeps _ (draw_nanoid _) => apply frame_nanoid; apply _
  | |- keeps _ (transaction _) => apply frame_transaction; [apply _|]
  | |- keeps _ (query_all _ _) => apply frame_query_all; apply _
  | |- keeps _ (let '(_, _) := ?x in _) => destruct x
  | |- keeps _ (pg_exec (λ _, Some (tt, _))) => apply frame_write; [apply _|let p := fresh "p" in intros p]
  | |- keeps _ (pg_exec _) => apply frame_pg; [apply _|]
  | |- keeps _ (exec_one _ _) => apply frame_exec_one; [apply _|]
  | |- keeps _ (pg_stmt _ _) => apply frame_stmt; [apply _|]
  | |- keeps _ (stmt_rows _ _) => apply frame_refused; [apply _|vm_compute; reflexivity]
  end.

