(* ===== verification/Records.v ===== *)
(** * Records read from rows ([abi/src/types/group.rs], [user.rs], [friend.rs])

    The structs the stores return with their [FromRow] implementations, the
    rows the tables of the migrations give them, and what decoding makes of
    those rows: exact for users and members, with defaults for several others,
    impossible for groups and for rows of [friends]. *)

From S2P Require Import Prelude Errors Types Tables World Sql.

(** ** Groups *)

Record GroupInfo : Type := mkGroupInfo {
  gi_id : string; gi_owner : string; gi_name : string; gi_avatar : string;
  gi_description : string; gi_announcement : string; gi_create_time : Z; gi_update_time : Z;
  gi_max_members : Z; gi_is_public : bool; gi_join_approval_required : bool;
  gi_category : string; gi_tags : list string; gi_mute_all : bool; gi_only_admin_post : bool;
  gi_invite_permission : Z; gi_pinned_messages : list string
}.

Definition group_cells (id : string) (g : GroupRow) : Row :=
  [ ("id", Some (VText id)); ("owner", Some (VText (g_owner g))); ("name", Some (VText (g_name g)));
    ("avatar", Some (VText (g_avatar g))); ("description", Some (VText (g_description g)));
    ("announcement", Some (VText (g_announcement g)));
    ("create_time", Some (VInt8 (g_create_time g))); ("update_time", Some (VInt8 (g_update_time g)));
    ("max_members", Some (VInt4 (g_max_members g))); ("is_public", Some (VBool (g_is_public g)));
    ("join_approval_required", Some (VBool (g_join_approval_required g)));
    ("category", VText <$> g_category g); ("tags", VTextArray <$> g_tags g);
    ("mute_all", Some (VBool (g_mute_all g))); ("only_admin_post", Some (VBool (g_only_admin_post g)));
    ("invite_permission", Some (VRole (g_invite_permission g)));
    ("pinned_messages", VTextArray <$> g_pinned_messages g) ]%string.

(** [impl FromRow for GroupInfo] *)
Definition group_from_row (row : Row) : option GroupInfo :=
  id ← try_get as_string row "id";
  name ← try_get as_string row "name";
  owner ← try_get as_string row "owner";
  avatar ← try_get as_string row "avatar";
  description ← try_get as_string row "description";
  announcement ← try_get as_string row "announcement";
  create_time ← try_get as_int8 row "create_time";
  update_time ← try_get as_int8 row "update_time";
  max_members ← try_get as_int4 row "max_members";
  is_public ← try_get as_bool row "is_public";
  join_approval_required ← try_get as_bool row "join_approval_required";
  category ← try_get as_string row "category";
  tags ← try_get as_strings row "tags";
  mute_all ← try_get as_bool row "mute_all";
  only_admin_post ← try_get as_bool row "only_admin_post";
  invite_permission ← try_get as_int4 row "invite_permission";
  pinned_messages ← try_get as_strings row "pinned_messages";
  Some (mkGroupInfo id owner name avatar description announcement create_time update_time
          max_members is_public join_approval_required category tags mute_all only_admin_post
          invite_permission pinned_messages).

(** [GroupMemberRole::from(role) as i32] *)
Definition role_i32 (r : GroupRole) : Z :=
  match r with Owner => 0 | Admin => 1 | Member => 2 end.

Record GroupMember : Type := mkGroupMember {
  gm_age : Z; gm_group_id : string; gm_user_id : string; gm_group_name : string;
  gm_avatar : string; gm_joined_at : Z; gm_region : option string; gm_gender : string;
  gm_remark : option string; gm_signature : string; gm_role : Z; gm_is_muted : bool;
  gm_notification_level : string; gm_last_read_time : Z; gm_display_order : Z;
  gm_joined_by : string
}.

(** [impl FromRow for GroupMember] *)
Definition member_from_row (row : Row) : option GroupMember :=
  role ← try_get as_role row "role";
  user_id ← try_get as_string row "user_id";
  group_id ← try_get as_string row "group_id";
  avatar ← try_get as_string row "avatar";
  gender ← try_get as_string row "gender";
  age ← try_get as_int4 row "age";
  region ← try_get (as_option as_string) row "region";
  group_name ← try_get as_string row "group_name";
  joined_at ← try_get as_int8 row "joined_at";
  signature ← try_get as_string row "signature";
  is_muted ← try_get as_bool row "is_muted";
  notification_level ← try_get as_string row "notification_level";
  last_read_time ← try_get as_int8 row "last_read_time";
  display_order ← try_get as_int4 row "display_order";
  joined_by ← try_get as_string row "joined_by";
  Some (mkGroupMember age group_id user_id group_name avatar joined_at region gender None signature
          (role_i32 role) is_muted notification_level last_read_time display_order joined_by).

(** [RETURNING *] of [group_members] *)
Definition member_cells (gid uid : string) (m : MemberRow) : Row :=
  [ ("group_id", Some (VText gid)); ("user_id", Some (VText uid));
    ("group_name", Some (VText (m_group_name m))); ("group_remark", None);
    ("role", Some (VRole (m_role m))); ("joined_at", Some (VInt8 (m_joined_at m)));
    ("is_muted", Some (VBool (m_is_muted m)));
    ("notification_level", Some (VText (m_notification_level m)));
    ("last_read_time", Some (VInt8 (m_last_read_time m)));
    ("display_order", Some (VInt4 (m_display_order m)));
    ("joined_by", Some (VText (m_joined_by m))) ]%string.

(** The join with [users]; [name] is what the query selects as [group_name]:
    the user's own name, or the name stored in the member row. *)
Definition member_user_cells (gid uid name : string) (m : MemberRow) (u : User) : Row :=
  [ ("group_id", Some (VText gid)); ("role", Some (VRole (m_role m)));
    ("joined_at", Some (VInt8 (m_joined_at m))); ("user_id", Some (VText uid));
    ("group_name", Some (VText name)); ("avatar", Some (VText (u_avatar u)));
    ("age", Some (VInt4 (u_age u))); ("region", VText <$> u_region u);
    ("gender", Some (VText (u_gender u))); ("signature", Some (VText (u_signature u)));
    ("is_muted", Some (VBool (m_is_muted m)));
    ("notification_level", Some (VText (m_notification_level m)));
    ("last_read_time", Some (VInt8 (m_last_read_time m)));
    ("display_order", Some (VInt4 (m_display_order m)));
    ("joined_by", Some (VText (m_joined_by m))) ]%string.

Record GroupCategory : Type := mkGroupCategory {
  gc_id : string; gc_name : string; gc_description : string; gc_display_order : Z;
  gc_create_time : Z; gc_update_time : Z
}.

Definition category_cells (id : string) (c : CategoryRow) : Row :=
  [ ("id", Some (VText id)); ("name", Some (VText (c_name c)));
    ("description", VText <$> c_description c);
    ("display_order", Some (VInt4 (c_display_order c)));
    ("create_time", Some (VInt8 (c_create_time c)));
    ("update_time", Some (VInt8 (c_update_time c))) ]%string.

(** [impl FromRow for GroupCategory] *)
Definition category_from_row (row : Row) : option GroupCategory :=
  Some (mkGroupCategory (get_or "" as_string row "id") (get_or "" as_string row "name")
    (get_or "" as_string row "description") (get_or 0 as_int4 row "display_order")
    (get_or 0 as_int8 row "create_time") (get_or 0 as_int8 row "update_time"))%Z.

Record GroupFileInfo : Type := mkGroupFileInfo {
  gf_id : string; gf_group_id : string; gf_uploader_id : string; gf_file_name : string;
  gf_file_url : string; gf_file_size : Z; gf_file_type : string; gf_upload_time : Z;
  gf_is_pinned : bool; gf_download_count : Z; gf_thumbnail_url : string
}.

Definition file_cells (id : string) (f : GroupFileRow) : Row :=
  [ ("id", Some (VText id)); ("group_id", Some (VText (f_group_id f)));
    ("uploader_id", Some (VText (f_uploader_id f))); ("file_name", Some (VText (f_file_name f)));
    ("file_url", Some (VText (f_file_url f))); ("file_size", Some (VInt8 (f_file_size f)));
    ("file_type", Some (VText (f_file_type f))); ("upload_time", Some (VInt8 (f_upload_time f)));
    ("is_pinned", Some (VBool (f_is_pinned f)));
    ("download_count", Some (VInt4 (f_download_count f)));
    ("thumbnail_url", VText <$> f_thumbnail_url f) ]%string.

(** [impl FromRow for GroupFile] *)
Definition file_from_row (row : Row) : option GroupFileInfo :=
  Some (mkGroupFileInfo (get_or "" as_string row "id") (get_or "" as_string row "group_id")
    (get_or "" as_string row "uploader_id") (get_or "" as_string row "file_name")
    (get_or "" as_string row "file_url") (get_or 0 as_int8 row "file_size")
    (get_or "" as_string row "file_type") (get_or 0 as_int8 row "upload_time")
    (get_or false as_bool row "is_pinned") (get_or 0 as_int4 row "download_count")
    (get_or "" as_string row "thumbnail_url"))%Z.

Record GroupPoll : Type := mkGroupPoll {
  gp_id : string; gp_group_id : string; gp_creator_id : string; gp_title : string;
  gp_options : list PollOption; gp_is_multiple : bool; gp_is_anonymous : bool;
  gp_created_at : Z; gp_expires_at : Z; gp_status : string
}.

Definition poll_cells (id : string) (p : GroupPollRow) : Row :=
  [ ("id", Some (VText id)); ("group_id", Some (VText (p_group_id p)));
    ("creator_id", Some (VText (p_creator_id p))); ("title", Some (VText (p_title p)));
    ("options", Some (VJson (p_options p))); ("is_multiple", Some (VBool (p_is_multiple p)));
    ("is_anonymous", Some (VBool (p_is_anonymous p)));
    ("created_at", Some (VInt8 (p_created_at p))); ("expires_at", VInt8 <$> p_expires_at p);
    ("status", Some (VText (p_status p))) ]%string.

(** [impl FromRow for GroupPoll]; [options_of_json] is [serde_json::from_str]. *)
Definition poll_from_row (options_of_json : string → option (list PollOption)) (row : Row)
    : option GroupPoll :=
  let options_json := get_or ""%string as_string row "options" in
  Some (mkGroupPoll (get_or "" as_string row "id") (get_or "" as_string row "group_id")
    (get_or "" as_string row "creator_id") (get_or "" as_string row "title")
    (default [] (options_of_json options_json)) (get_or false as_bool row "is_multiple")
    (get_or false as_bool row "is_anonymous") (get_or 0 as_int8 row "created_at")
    (get_or 0 as_int8 row "expires_at") (get_or "" as_string row "status"))%Z.

Record GroupMuteRecord : Type := mkGroupMuteRecord {
  gr_id : string; gr_group_id : string; gr_user_id : string; gr_operator_id : string;
  gr_mute_until : Z; gr_reason : string; gr_created_at : Z
}.

Definition mute_cells (id : string) (m : MuteRow) : Row :=
  [ ("id", Some (VText id)); ("group_id", Some (VText (mu_group_id m)));
    ("user_id", Some (VText (mu_user_id m))); ("operator_id", Some (VText (mu_operator_id m)));
    ("mute_until", Some (VInt8 (mu_mute_until m))); ("reason", VText <$> mu_reason m);
    ("created_at", Some (VInt8 (mu_created_at m))) ]%string.

(** [impl FromRow for GroupMuteRecord] *)
Definition mute_from_row (row : Row) : option GroupMuteRecord :=
  Some (mkGroupMuteRecord (get_or "" as_string row "id") (get_or "" as_string row "group_id")
    (get_or "" as_string row "user_id") (get_or "" as_string row "operator_id")
    (get_or 0 as_int8 row "mute_until") (get_or "" as_string row "reason")
    (get_or 0 as_int8 row "created_at"))%Z.

Record GroupAnnouncementInfo : Type := mkGroupAnnouncementInfo {
  ga_id : string; ga_group_id : string; ga_creator_id : string; ga_content : string;
  ga_created_at : Z; ga_is_pinned : bool
}.

Definition announcement_cells (id : string) (a : AnnouncementRow) : Row :=
  [ ("id", Some (VText id)); ("group_id", Some (VText (a_group_id a)));
    ("creator_id", Some (VText (a_creator_id a))); ("content", Some (VText (a_content a)));
    ("created_at", Some (VInt8 (a_created_at a)));
    ("is_pinned", Some (VBool (a_is_pinned a))) ]%string.

(** [impl FromRow for GroupAnnouncement] *)
Definition announcement_from_row (row : Row) : option GroupAnnouncementInfo :=
  Some (mkGroupAnnouncementInfo (get_or "" as_string row "id") (get_or "" as_string row "group_id")
    (get_or "" as_string row "creator_id") (get_or "" as_string row "content")
    (get_or 0 as_int8 row "created_at") (get_or false as_bool row "is_pinned"))%Z.

(** ** Users *)

Definition user_cells (u : User) : Row :=
  [ ("id", Some (VText (u_id u))); ("name", Some (VText (u_name u)));
    ("account", Some (VText (u_account u))); ("password", Some (VText (u_password u)));
    ("salt", Some (VText (u_salt u))); ("signature", Some (VText (u_signature u)));
    ("avatar", Some (VText (u_avatar u))); ("gender", Some (VText (u_gender u)));
    ("age", Some (VInt4 (u_age u))); ("phone", VText <$> u_phone u);
    ("email", VText <$> u_email u); ("address", VText <$> u_address u);
    ("region", VText <$> u_region u); ("birthday", VInt8 <$> u_birthday u);
    ("create_time", Some (VInt8 (u_create_time u))); ("update_time", Some (VInt8 (u_update_time u)));
    ("last_login_time", VInt8 <$> u_last_login_time u);
    ("last_login_ip", VText <$> u_last_login_ip u);
    ("two_factor_enabled", Some (VBool (u_two_factor_enabled u)));
    ("account_status", Some (VText (u_account_status u))); ("status", Some (VText (u_status u)));
    ("last_active_time", VInt8 <$> u_last_active_time u);
    ("status_message", VText <$> u_status_message u);
    ("privacy_settings", Some (VText (u_privacy_settings u)));
    ("notification_settings", Some (VText (u_notification_settings u)));
    ("language", Some (VText (u_language u)));
    ("friend_requests_privacy", Some (VText (u_friend_requests_privacy u)));
    ("profile_visibility", Some (VText (u_profile_visibility u)));
    ("theme", Some (VText (u_theme u))); ("timezone", Some (VText (u_timezone u)));
    ("is_delete", Some (VBool (u_is_delete u))) ]%string.

(** [impl FromRow for User] *)
Definition user_from_row (row : Row) : option User :=
  id ← try_get as_string row "id";
  name ← try_get as_string row "name";
  account ← try_get as_string row "account";
  password ← try_get as_string row "password";
  avatar ← try_get as_string row "avatar";
  gender ← try_get as_string row "gender";
  age ← try_get as_int4 row "age";
  phone ← try_get (as_option as_string) row "phone";
  email ← try_get (as_option as_string) row "email";
  address ← try_get (as_option as_string) row "address";
  region ← try_get (as_option as_string) row "region";
  birthday ← try_get (as_option as_int8) row "birthday";
  create_time ← try_get as_int8 row "create_time";
  update_time ← try_get as_int8 row "update_time";
  salt ← try_get as_string row "salt";
  signature ← try_get as_string row "signature";
  last_login_time ← try_get (as_option as_int8) row "last_login_time";
  last_login_ip ← try_get (as_option as_string) row "last_login_ip";
  two_factor_enabled ← try_get as_bool row "two_factor_enabled";
  account_status ← try_get as_string row "account_status";
  status ← try_get as_string row "status";
  last_active_time ← try_get (as_option as_int8) row "last_active_time";
  status_message ← try_get (as_option as_string) row "status_message";
  privacy_settings ← try_get as_string row "privacy_settings";
  notification_settings ← try_get as_string row "notification_settings";
  language ← try_get as_string row "language";
  friend_requests_privacy ← try_get as_string row "friend_requests_privacy";
  profile_visibility ← try_get as_string row "profile_visibility";
  theme ← try_get as_string row "theme";
  timezone ← try_get as_string row "timezone";
  is_delete ← try_get as_bool row "is_delete";
  Some (mkUser id name account password avatar gender age phone email address region birthday
          create_time update_time salt signature last_login_time last_login_ip two_factor_enabled
          account_status status last_active_time status_message privacy_settings
          notification_settings language friend_requests_privacy profile_visibility theme timezone
          is_delete).

Record UserWithMatchType : Type := mkUserWithMatchType {
  um_id : string; um_name : string; um_account : string; um_avatar : string; um_gender : string;
  um_age : Z; um_email : option string; um_region : option string; um_birthday : option Z;
  um_match_type : option string; um_signature : string; um_is_friend : bool
}.

(** [impl FromRow for UserWithMatchType] *)
Definition user_match_from_row (row : Row) : option UserWithMatchType :=
  id ← try_get as_string row "id";
  name ← try_get as_string row "name";
  account ← try_get as_string row "account";
  avatar ← try_get as_string row "avatar";
  gender ← try_get as_string row "gender";
  age ← try_get as_int4 row "age";
  email ← try_get (as_option as_string) row "email";
  region ← try_get (as_option as_string) row "region";
  birthday ← try_get (as_option as_int8) row "birthday";
  match_type ← try_get (as_option as_string) row "match_type";
  signature ← try_get as_string row "signature";
  Some (mkUserWithMatchType id name account avatar gender age email region birthday match_type
          signature false).

(** ** Friends *)

(** [enum FsStatus]: the labels the crate decodes; the SQL type has two more. *)
Inductive FsStatus : Type := Pending | Accepted | Rejected | Blacked | Deleted.

Definition as_fs_status : decoder FsStatus := λ v,
  match v with
  | Some (VFsStatus FsPending) => Some Pending
  | Some (VFsStatus FsAccepted) => Some Accepted
  | Some (VFsStatus FsRejected) => Some Rejected
  | Some (VFsStatus FsBlacked) => Some Blacked
  | Some (VFsStatus FsDeleted) => Some Deleted
  | _ => None
  end.

(** [impl From<FsStatus> for FriendshipStatus] *)
Definition status_of_fs (s : FsStatus) : FriendshipStatus :=
  match s with
  | Pending => FsPending | Accepted => FsAccepted | Rejected => FsRejected
  | Blacked => FsBlacked | Deleted => FsDeleted
  end.

(** [enum FriendshipStatus]: discriminants, [Display], and the names prost gives *)
Definition status_i32 (s : FriendshipStatus) : Z :=
  match s with
  | FsPending => 0 | FsAccepted => 1 | FsRejected => 2 | FsBlacked => 3
  | FsDeleted => 4 | FsMuted => 5 | FsHidden => 6
  end.
Definition status_to_string (s : FriendshipStatus) : string :=
  match s with
  | FsPending => "Pending" | FsAccepted => "Accepted" | FsRejected => "Rejected"
  | FsBlacked => "Blacked" | FsDeleted => "Deleted" | FsMuted => "Muted" | FsHidden => "Hidden"
  end%string.
Definition status_as_str_name (s : FriendshipStatus) : string :=
  match s with
  | FsPending => "Pending" | FsAccepted => "Accepted" | FsRejected => "Rejected"
  | FsBlacked => "Blacked" | FsDeleted => "Deleted" | FsMuted => "Muted" | FsHidden => "Hidden"
  end%string.
Definition status_from_str_name (s : string) : option FriendshipStatus :=
  if bool_decide (s = "Pending"%string) then Some FsPending
  else if bool_decide (s = "Accepted"%string) then Some FsAccepted
  else if bool_decide (s = "Rejected"%string) then Some FsRejected
  else if bool_decide (s = "Blacked"%string) then Some FsBlacked
  else if bool_decide (s = "Deleted"%string) then Some FsDeleted
  else if bool_decide (s = "Muted"%string) then Some FsMuted
  else if bool_decide (s = "Hidden"%string) then Some FsHidden
  else None.

Record Friendship : Type := mkFriendship {
  sh_id : string; sh_user_id : string; sh_friend_id : string; sh_status : Z;
  sh_apply_msg : option string; sh_req_remark : option string; sh_resp_msg : option string;
  sh_resp_remark : option string; sh_source : string; sh_create_time : Z; sh_update_time : Z
}.

Definition friendship_cells (id : string) (f : FriendshipRow) : Row :=
  [ ("id", Some (VText id)); ("user_id", Some (VText (fs_user_id f)));
    ("friend_id", Some (VText (fs_friend_id f))); ("status", Some (VFsStatus (fs_status f)));
    ("apply_msg", VText <$> fs_apply_msg f); ("req_remark", VText <$> fs_req_remark f);
    ("resp_msg", VText <$> fs_resp_msg f); ("resp_remark", VText <$> fs_resp_remark f);
    ("source", Some (VText (fs_source f))); ("create_time", Some (VInt8 (fs_create_time f)));
    ("update_time", Some (VInt8 (fs_update_time f)));
    ("operator_id", Some (VText (fs_operator_id f)));
    ("last_operation", Some (VText (fs_last_operation f))); ("deleted_time", None) ]%string.

(** [impl FromRow for Friendship] *)
Definition friendship_from_row (row : Row) : option Friendship :=
  status ← try_get as_fs_status row "status";
  let status := status_of_fs status in
  id ← try_get as_string row "id";
  user_id ← try_get as_string row "user_id";
  friend_id ← try_get as_string row "friend_id";
  apply_msg ← try_get (as_option as_string) row "apply_msg";
  req_remark ← try_get (as_option as_string) row "req_remark";
  resp_msg ← try_get (as_option as_string) row "resp_msg";
  resp_remark ← try_get (as_option as_string) row "resp_remark";
  source ← try_get as_string row "source";
  create_time ← try_get as_int8 row "create_time";
  update_time ← try_get as_int8 row "update_time";
  Some (mkFriendship id user_id friend_id (status_i32 status) apply_msg req_remark resp_msg
          resp_remark source create_time update_time).

(** [f32] by its bits: the code never computes with one. *)
Record f32 : Type := mkF32 { f32_bits : Z }.
Definition f32_zero : f32 := mkF32 0.
Definition as_f32 : decoder f32 := λ v, match v with Some (VFloat4 b) => Some (mkF32 b) | _ => None end.

Record FriendDb : Type := mkFriendDb {
  fd_id : Z; fd_fs_id : string; fd_user_id : string; fd_friend_id : string; fd_status : Z;
  fd_remark : option string; fd_source : string; fd_create_time : Z; fd_update_time : Z;
  fd_deleted_time : Z; fd_is_starred : bool; fd_group_id : string; fd_interaction_score : f32;
  fd_interaction_count : Z; fd_last_interaction : Z; fd_tags : list string;
  fd_privacy_level : string; fd_notifications_enabled : bool
}.

(** [RETURNING *] of [friends]; [serial] is the row's BIGSERIAL id. *)
Definition friend_cells (serial : Z) (uid fid : string) (f : FriendRow) : Row :=
  [ ("id", Some (VInt8 serial)); ("fs_id", Some (VText (fr_fs_id f)));
    ("user_id", Some (VText uid)); ("friend_id", Some (VText fid));
    ("status", Some (VFsStatus (fr_status f))); ("remark", VText <$> fr_remark f);
    ("source", Some (VText (fr_source f))); ("create_time", Some (VInt8 (fr_create_time f)));
    ("update_time", Some (VInt8 (fr_update_time f))); ("deleted_time", None);
    ("is_starred", Some (VBool false)); ("group_id", None); ("priority", Some (VInt4 0)) ]%string.

(** [impl FromRow for FriendDb] *)
Definition friend_db_from_row (row : Row) : option FriendDb :=
  status ← try_get as_fs_status row "status";
  let status := status_of_fs status in
  id ← try_get as_int8 row "id";
  fs_id ← try_get as_string row "fs_id";
  user_id ← try_get as_string row "user_id";
  friend_id ← try_get as_string row "friend_id";
  remark ← try_get (as_option as_string) row "remark";
  source ← try_get as_string row "source";
  create_time ← try_get as_int8 row "create_time";
  update_time ← try_get as_int8 row "update_time";
  deleted_time ← try_get as_int8 row "deleted_time";
  is_starred ← try_get as_bool row "is_starred";
  group_id ← try_get as_string row "group_id";
  interaction_score ← try_get as_f32 row "interaction_score";
  interaction_count ← try_get as_int4 row "interaction_count";
  last_interaction ← try_get as_int8 row "last_interaction";
  tags ← try_get as_strings row "tags";
  privacy_level ← try_get as_string row "privacy_level";
  notifications_enabled ← try_get as_bool row "notifications_enabled";
  Some (mkFriendDb id fs_id user_id friend_id (status_i32 status) remark source create_time
          update_time deleted_time is_starred group_id interaction_score interaction_count
          last_interaction tags privacy_level notifications_enabled).

Record Friend : Type := mkFriend {
  fi_fs_id : string; fi_friend_id : string; fi_account : string; fi_name : string;
  fi_avatar : string; fi_gender : string; fi_age : Z; fi_region : option string; fi_status : Z;
  fi_remark : option string; fi_email : option string; fi_source : string; fi_signature : string;
  fi_create_time : Z; fi_update_time : Z; fi_interaction_score : f32; fi_tags : list string;
  fi_group_name : string; fi_privacy_level : string; fi_notifications_enabled : bool;
  fi_last_interaction : Z
}.

(** The row [get_friend_list] selects. *)
Definition friend_user_cells (f : FriendRow) (u : User) : Row :=
  [ ("friend_id", Some (VText (u_id u))); ("name", Some (VText (u_name u)));
    ("account", Some (VText (u_account u))); ("email", VText <$> u_email u);
    ("avatar", Some (VText (u_avatar u))); ("gender", Some (VText (u_gender u)));
    ("age", Some (VInt4 (u_age u))); ("region", VText <$> u_region u);
    ("signature", Some (VText (u_signature u))); ("fs_id", Some (VText (fr_fs_id f)));
    ("status", Some (VFsStatus (fr_status f))); ("source", Some (VText (fr_source f)));
    ("create_time", Some (VInt8 (fr_create_time f)));
    ("update_time", Some (VInt8 (fr_update_time f))); ("remark", VText <$> fr_remark f) ]%string.

(** [impl FromRow for Friend] *)
Definition friend_from_row (row : Row) : option Friend :=
  let status := status_of_fs (get_or Pending as_fs_status row "status") in
  Some (mkFriend (get_or "" as_string row "fs_id") (get_or "" as_string row "friend_id")
    (get_or "" as_string row "account") (get_or "" as_string row "name")
    (get_or "" as_string row "avatar") (get_or "" as_string row "gender")
    (get_or 0 as_int4 row "age") (get_or None (as_option as_string) row "region")
    (status_i32 status) (get_or None (as_option as_string) row "remark")
    (get_or None (as_option as_string) row "email") (get_or "" as_string row "source")
    (get_or "" as_string row "signature") (get_or 0 as_int8 row "create_time")
    (get_or 0 as_int8 row "update_time") (get_or f32_zero as_f32 row "interaction_score")
    (get_or [] as_strings row "tags") (get_or "" as_string row "group_name")
    (get_or "" as_string row "privacy_level") (get_or false as_bool row "notifications_enabled")
    (get_or 0 as_int8 row "last_interaction"))%Z.

Record FriendshipWithUser : Type := mkFriendshipWithUser {
  fw_fs_id : string; fw_user_id : string; fw_name : string; fw_avatar : string;
  fw_gender : string; fw_age : Z; fw_region : option string; fw_status : Z;
  fw_apply_msg : option string; fw_source : string; fw_create_time : Z; fw_account : string;
  fw_remark : option string; fw_email : option string
}.

(** The row [get_fs_list] selects: [status], [account] and [email] are not in it. *)
Definition fs_user_cells (id : string) (f : FriendshipRow) (u : User) : Row :=
  [ ("fs_id", Some (VText id)); ("user_id", Some (VText (fs_user_id f)));
    ("apply_msg", VText <$> fs_apply_msg f); ("source", Some (VText (fs_source f)));
    ("create_time", Some (VInt8 (fs_create_time f))); ("name", Some (VText (u_name u)));
    ("avatar", Some (VText (u_avatar u))); ("gender", Some (VText (u_gender u)));
    ("age", Some (VInt4 (u_age u))); ("region", VText <$> u_region u) ]%string.

(** [impl FromRow for FriendshipWithUser] *)
Definition fs_user_from_row (row : Row) : option FriendshipWithUser :=
  Some (mkFriendshipWithUser (get_or "" as_string row "fs_id") (get_or "" as_string row "user_id")
    (get_or "" as_string row "name") (get_or "" as_string row "avatar")
    (get_or "" as_string row "gender") (get_or 0 as_int4 row "age")
    (get_or None (as_option as_string) row "region") (get_or 0 as_int4 row "status")
    (get_or None (as_option as_string) row "apply_msg") (get_or "" as_string row "source")
    (get_or 0 as_int8 row "create_time") (get_or "" as_string row "account") None
    (get_or None (as_option as_string) row "email"))%Z.

(** [impl From<User> for FriendshipWithUser] *)
Definition fs_user_of_user (u : User) : FriendshipWithUser :=
  mkFriendshipWithUser "" (u_id u) (u_name u) (u_avatar u) (u_gender u) (u_age u) (u_region u) 0
    None "" 0 (u_account u) None None.

(** [impl From<User> for Friend] *)
Definition friend_of_user (u : User) : Friend :=
  mkFriend "" (u_id u) (u_account u) (u_name u) (u_avatar u) (u_gender u) (u_age u) (u_region u) 0
    None (u_email u) "" (u_signature u) 0 0 f32_zero [] "" "" false 0.

Record FriendGroup : Type := mkFriendGroup {
  fg_id : string; fg_user_id : string; fg_name : string; fg_display_order : Z;
  fg_create_time : Z; fg_update_time : Z
}.
Record FriendTag : Type := mkFriendTag {
  ft_id : string; ft_user_id : string; ft_tag_name : string; ft_tag_color : string;
  ft_create_time : Z
}.
Record FriendPrivacySettings : Type := mkFriendPrivacySettings {
  fp_user_id : string; fp_friend_id : string; fp_privacy_level : string;
  fp_share_timeline : bool; fp_share_location : bool; fp_share_status : bool
}.

(** [impl FromRow] for them *)
Definition friend_group_from_row (row : Row) : option FriendGroup :=
  Some (mkFriendGroup (get_or "" as_string row "id") (get_or "" as_string row "user_id")
    (get_or "" as_string row "name") (get_or 0 as_int4 row "display_order")
    (get_or 0 as_int8 row "create_time") (get_or 0 as_int8 row "update_time"))%Z.
Definition friend_tag_from_row (row : Row) : option FriendTag :=
  Some (mkFriendTag (get_or "" as_string row "id") (get_or "" as_string row "user_id")
    (get_or "" as_string row "tag_name") (get_or "" as_string row "tag_color")
    (get_or 0 as_int8 row "create_time"))%Z.
Definition friend_privacy_from_row (row : Row) : option FriendPrivacySettings :=
  Some (mkFriendPrivacySettings (get_or "" as_string row "user_id")
    (get_or "" as_string row "friend_id") (get_or "" as_string row "privacy_level")
    (get_or false as_bool row "share_timeline") (get_or false as_bool row "share_location")
    (get_or false as_bool row "share_status")).

(** [DeleteFriendRequest::validate] *)
Record DeleteFriendRequest : Type := mkDeleteFriendRequest {
  df_user_id : string; df_friend_id : string; df_fs_id : string
}.
Definition validate_delete_friend (r : DeleteFriendRequest) : outcome Error unit :=
  if bool_decide (df_user_id r = ""%string) then Err (bad_request "user id is none")
  else if bool_decide (df_friend_id r = ""%string) then Err (bad_request "friend id is none")
  else if bool_decide (df_fs_id r = ""%string) then Err (bad_request "friendship id is none")
  else Ok tt.

(** [Validator for GetMemberReq] and [RemoveMemberRequest] *)
Record GetMemberReq : Type := mkGetMemberReq {
  gmr_user_id : string; gmr_group_id : string; gmr_mem_ids : list string
}.
Record RemoveMemberRequest : Type := mkRemoveMemberRequest {
  rm_user_id : string; rm_group_id : string; rm_mem_id : list string
}.
Definition validate_members (gid uid : string) (mem_ids : list string) : outcome Error unit :=
  if bool_decide (gid = ""%string) then Err (bad_request "group_id is empty")
  else if bool_decide (uid = ""%string) then Err (bad_request "user_id is empty")
  else if bool_decide (mem_ids = []) then Err (bad_request "mem_ids is empty")
  else Ok tt.
Definition validate_get_member (r : GetMemberReq) : outcome Error unit :=
  validate_members (gmr_group_id r) (gmr_user_id r) (gmr_mem_ids r).
Definition validate_remove_member (r : RemoveMemberRequest) : outcome Error unit :=
  validate_members (rm_group_id r) (rm_user_id r) (rm_mem_id r).

(** ** Properties *)

Lemma as_option_cell {A} (d : decoder A) (c : A → SqlVal) (o : option A) :
  (∀ a, d (Some (c a)) = Some a) → as_option d (c <$> o) = Some o.
Proof. intros H. destruct o as [a|]; simpl; [by rewrite H|done]. Qed.

(** No row of [groups] decodes: the role column [invite_permission] is read as
    an integer. *)
Lemma group_undecodable id g : group_from_row (group_cells id g) = None.
Proof. unfold group_from_row. cbn. destruct (g_category g), (g_tags g); reflexivity. Qed.

Lemma user_decodes u : user_from_row (user_cells u) = Some u.
Proof.
  unfold user_from_row. cbn. rewrite !as_option_cell by done. cbn. by destruct u.
Qed.

Lemma users_decode us : fetch_all user_from_row (user_cells <$> us) = Some us.
Proof. rewrite (fetch_all_total _ _ id us user_decodes). by rewrite list_fmap_id. Qed.

Lemma member_returning_undecodable gid uid m : member_from_row (member_cells gid uid m) = None.
Proof. reflexivity. Qed.

(** The member a join row gives. *)
Definition member_of (gid uid name : string) (m : MemberRow) (u : User) : GroupMember :=
  mkGroupMember (u_age u) gid uid name (u_avatar u) (m_joined_at m) (u_region u) (u_gender u) None
    (u_signature u) (role_i32 (m_role m)) (m_is_muted m) (m_notification_level m)
    (m_last_read_time m) (m_display_order m) (m_joined_by m).

Lemma member_decodes gid uid name m u :
  member_from_row (member_user_cells gid uid name m u) = Some (member_of gid uid name m u).
Proof. unfold member_from_row. cbn. rewrite as_option_cell by done. reflexivity. Qed.

Lemma friend_db_undecodable n uid fid f : friend_db_from_row (friend_cells n uid fid f) = None.
Proof. unfold friend_db_from_row. cbn. destruct (fr_status f), (fr_remark f); reflexivity. Qed.

(** A stored friendship decodes unless it is muted or hidden. *)
Definition friendship_of (id : string) (f : FriendshipRow) : Friendship :=
  mkFriendship id (fs_user_id f) (fs_friend_id f) (status_i32 (fs_status f)) (fs_apply_msg f)
    (fs_req_remark f) (fs_resp_msg f) (fs_resp_remark f) (fs_source f) (fs_create_time f)
    (fs_update_time f).

Lemma friendship_decodes id f :
  friendship_from_row (friendship_cells id f)
  = if bool_decide (fs_status f = FsMuted ∨ fs_status f = FsHidden) then None
    else Some (friendship_of id f).
Proof.
  unfold friendship_from_row, friendship_of, try_get.
  destruct (fs_status f) eqn:E; cbn; rewrite E; cbn; rewrite ?as_option_cell by done; done.
Qed.
