(* ===== verification/Enums.v ===== *)
(** * The enumerations of the protocol ([abi/src/pb/message.rs])

    Every protobuf enumeration with its numbers and its names, as instances of
    one class: a finite type whose numbers and names tell its values apart.
    [from_str_name] and [try_from] are written as the generated code has them;
    the class's laws make both exact inverses. *)

From S2P Require Import Prelude Types Tables Records.

(** ** The class *)

Class ProtoEnum (A : Type) := {
  enum_all : list A;
  enum_number : A → Z;
  enum_name : A → string;
  enum_of_name : string → option A
}.

(** The derived [TryFrom<i32>]. *)
Definition enum_of_number {A} `{!ProtoEnum A} (z : Z) : option A :=
  snd <$> list_find (λ a, enum_number a = z) enum_all.

Class ProtoEnumLaws (A : Type) `{!ProtoEnum A} : Prop := {
  enum_complete (a : A) : a ∈ enum_all (A := A);
  enum_number_inj (a b : A) : enum_number a = enum_number b → a = b;
  enum_named (a : A) : enum_of_name (enum_name a) = Some a;
  enum_only_named (s : string) (a : A) : enum_of_name s = Some a → s = enum_name a
}.

Section laws.
Context {A : Type} `{!ProtoEnum A} `{!ProtoEnumLaws A}.

Lemma enum_of_number_iff (z : Z) (a : A) : enum_of_number z = Some a ↔ z = enum_number a.
Proof.
  unfold enum_of_number. split.
  - destruct (list_find _ _) as [[i b]|] eqn:E; [|done]. intros [= ->].
    apply list_find_Some in E as (_ & E & _). done.
  - intros ->. destruct (list_find_elem_of (λ b, enum_number b = enum_number a) enum_all a (enum_complete a))
      as [[i b] E]; [done|].
    rewrite E. apply list_find_Some in E as (_ & E & _). simpl. f_equal. by apply enum_number_inj.
Qed.

Lemma enum_of_name_iff (s : string) (a : A) : enum_of_name s = Some a ↔ s = enum_name a.
Proof. split; [apply enum_only_named|intros ->; apply enum_named]. Qed.
End laws.

(** ** The enumerations *)

Definition platform_as_str_name (p : PlatformType) : string :=
  match p with Desktop => "Desktop" | Mobile => "Mobile" end.
Definition platform_from_str_name (s : string) : option PlatformType :=
  if String.eqb s "Desktop" then Some Desktop else if String.eqb s "Mobile" then Some Mobile else None.

Inductive ContentType : Type :=
| CtDefault | CtText | CtImage | CtVideo | CtAudio | CtFile | CtEmoji | CtVideoCall | CtAudioCall | CtError.
Definition content_type_i32 (c : ContentType) : Z :=
  match c with
  | CtDefault => 0 | CtText => 1 | CtImage => 2 | CtVideo => 3 | CtAudio => 4 | CtFile => 5 | CtEmoji => 6
  | CtVideoCall => 7 | CtAudioCall => 8 | CtError => 9
  end.
Definition content_type_as_str_name (c : ContentType) : string :=
  match c with
  | CtDefault => "Default" | CtText => "Text" | CtImage => "Image" | CtVideo => "Video" | CtAudio => "Audio"
  | CtFile => "File" | CtEmoji => "Emoji" | CtVideoCall => "VideoCall" | CtAudioCall => "AudioCall"
  | CtError => "Error"
  end.
Definition content_type_from_str_name (s : string) : option ContentType :=
  if String.eqb s "Default" then Some CtDefault else if String.eqb s "Text" then Some CtText
  else if String.eqb s "Image" then Some CtImage else if String.eqb s "Video" then Some CtVideo
  else if String.eqb s "Audio" then Some CtAudio else if String.eqb s "File" then Some CtFile
  else if String.eqb s "Emoji" then Some CtEmoji else if String.eqb s "VideoCall" then Some CtVideoCall
  else if String.eqb s "AudioCall" then Some CtAudioCall else if String.eqb s "Error" then Some CtError
  else None.

Inductive SingleCallInviteType : Type := SingleAudio | SingleVideo.
Definition invite_type_i32 (i : SingleCallInviteType) : Z := match i with SingleAudio => 0 | SingleVideo => 1 end.
Definition invite_type_as_str_name (i : SingleCallInviteType) : string :=
  match i with SingleAudio => "SingleAudio" | SingleVideo => "SingleVideo" end.
Definition invite_type_from_str_name (s : string) : option SingleCallInviteType :=
  if String.eqb s "SingleAudio" then Some SingleAudio
  else if String.eqb s "SingleVideo" then Some SingleVideo else None.

Inductive GroupMemberRole : Type := RoleOwner | RoleAdmin | RoleMember.
Definition member_role_i32 (r : GroupMemberRole) : Z :=
  match r with RoleOwner => 0 | RoleAdmin => 1 | RoleMember => 2 end.
Definition member_role_as_str_name (r : GroupMemberRole) : string :=
  match r with
  | RoleOwner => "GroupMemberRoleOwner" | RoleAdmin => "GroupMemberRoleAdmin"
  | RoleMember => "GroupMemberRoleMember"
  end.
Definition member_role_from_str_name (s : string) : option GroupMemberRole :=
  if String.eqb s "GroupMemberRoleOwner" then Some RoleOwner
  else if String.eqb s "GroupMemberRoleAdmin" then Some RoleAdmin
  else if String.eqb s "GroupMemberRoleMember" then Some RoleMember else None.

#[export] Instance msg_type_enum : ProtoEnum MsgType :=
  {| enum_all := all_msg_types; enum_number := msg_type_i32;
     enum_name := msg_type_as_str_name; enum_of_name := msg_type_from_str_name |}.
#[export] Instance platform_enum : ProtoEnum PlatformType :=
  {| enum_all := [Desktop; Mobile]; enum_number := platform_i32;
     enum_name := platform_as_str_name; enum_of_name := platform_from_str_name |}.
#[export] Instance content_type_enum : ProtoEnum ContentType :=
  {| enum_all := [CtDefault; CtText; CtImage; CtVideo; CtAudio; CtFile; CtEmoji; CtVideoCall; CtAudioCall; CtError];
     enum_number := content_type_i32;
     enum_name := content_type_as_str_name; enum_of_name := content_type_from_str_name |}.
#[export] Instance status_enum : ProtoEnum FriendshipStatus :=
  {| enum_all := [FsPending; FsAccepted; FsRejected; FsBlacked; FsDeleted; FsMuted; FsHidden];
     enum_number := status_i32; enum_name := status_as_str_name; enum_of_name := status_from_str_name |}.
#[export] Instance invite_type_enum : ProtoEnum SingleCallInviteType :=
  {| enum_all := [SingleAudio; SingleVideo]; enum_number := invite_type_i32;
     enum_name := invite_type_as_str_name; enum_of_name := invite_type_from_str_name |}.
#[export] Instance member_role_enum : ProtoEnum GroupMemberRole :=
  {| enum_all := [RoleOwner; RoleAdmin; RoleMember]; enum_number := member_role_i32;
     enum_name := member_role_as_str_name; enum_of_name := member_role_from_str_name |}.

(** ** Their laws *)

(** Each branch of a name table gives back the text it tests. *)
Ltac name_table :=
  repeat match goal with
  | |- context [if String.eqb ?s ?t then _ else _] => destruct (String.eqb_spec s t)
  | |- context [bool_decide (?s = ?t)] => destruct (bool_decide_reflect (s = t))
  end; intros; simplify_eq; reflexivity.

Ltac enum_laws :=
  split;
    [ by intros []; apply (bool_decide_unpack _); vm_compute
    | by intros [] []
    | by intros []
    | intros s a; cbn -[String.eqb bool_decide]; unfold platform_from_str_name, content_type_from_str_name,
        invite_type_from_str_name, member_role_from_str_name, status_from_str_name; name_table ].

Global Instance ContentType_eq_dec : EqDecision ContentType.
Proof. solve_decision. Defined.
Global Instance SingleCallInviteType_eq_dec : EqDecision SingleCallInviteType.
Proof. solve_decision. Defined.
Global Instance GroupMemberRole_eq_dec : EqDecision GroupMemberRole.
Proof. solve_decision. Defined.

#[export] Instance platform_enum_laws : ProtoEnumLaws PlatformType.
Proof. enum_laws. Qed.
#[export] Instance content_type_enum_laws : ProtoEnumLaws ContentType.
Proof. enum_laws. Qed.
#[export] Instance status_enum_laws : ProtoEnumLaws FriendshipStatus.
Proof. enum_laws. Qed.
#[export] Instance invite_type_enum_laws : ProtoEnumLaws SingleCallInviteType.
Proof. enum_laws. Qed.
#[export] Instance member_role_enum_laws : ProtoEnumLaws GroupMemberRole.
Proof. enum_laws. Qed.
#[export] Instance msg_type_enum_laws : ProtoEnumLaws MsgType.
Proof.
  split.
  - intros []; apply (bool_decide_unpack _); vm_compute; exact I.
  - apply msg_type_i32_inj.
  - by intros [].
  - intros s a. simpl. unfold msg_type_from_str_name. destruct (list_find _ _) as [[i b]|] eqn:E; [|done].
    intros [= ->]. by apply list_find_Some in E as (_ & E & _).
Qed.

(** The numbers and the names of every enumeration are exact: a number is read
    back as a value exactly if it is that value's, and so is a name. *)
Theorem enumerations_exact {A} `{ProtoEnumLaws A} (z : Z) (s : string) (a : A) :
  (enum_of_number z = Some a ↔ z = enum_number a) ∧ (enum_of_name s = Some a ↔ s = enum_name a).
Proof. split; [apply enum_of_number_iff|apply enum_of_name_iff]. Qed.

(** The message types' own [try_from] is the class's. *)
Lemma msg_type_try_from_enum z : msg_type_try_from z = enum_of_number z.
Proof.
  destruct (msg_type_try_from z) as [mt|] eqn:E.
  - apply msg_type_try_from_Some in E as ->. symmetry. by apply enum_of_number_iff.
  - destruct (enum_of_number z) as [mt|] eqn:E'; [|done].
    apply enum_of_number_iff in E' as ->. simpl in E. by rewrite msg_type_try_from_i32 in E.
Qed.

(** [GroupMemberRole::from]: a role of the table, in the protocol. *)
Definition member_role_of (r : GroupRole) : GroupMemberRole :=
  match r with Owner => RoleOwner | Admin => RoleAdmin | Member => RoleMember end.
Lemma role_i32_enum r : role_i32 r = enum_number (member_role_of r).
Proof. by destruct r. Qed.
