(* ===== verification/Schema.v ===== *)
(** * The generated message types ([abi/src/pb/message.rs])

    Every type the file declares, as data: the traits it derives, its serde
    attributes, and its fields with their wire types, labels, tags and serde
    attributes, or its numbered variants. A text inside an attribute is written
    with single quotes. What the generator was told is in
    [Build]. *)

From S2P Require Import Prelude.
Open Scope string_scope.
Open Scope Z_scope.

(** ** Fields and types *)

(** The wire type in [#[prost(..)]]; a message or an enumeration is named. *)
Inductive FieldType : Type :=
| TBool | TInt32 | TInt64 | TFloat | TString | TBytes
| TMessage (name : string)
| TEnum (name : string).

Inductive Label : Type := Plain | Optional | Repeated.

Record Field : Type := mkField {
  f_name : string;
  f_label : Label;
  f_type : FieldType;
  f_tag : Z;
  f_serde : list string
}.

Inductive Shape : Type :=
| Struct (fields : list Field)
| Enumeration (variants : list (string * Z)).

(** A type, with the arguments of its [derive] and [serde] attributes. *)
Record Item : Type := mkItem {
  it_name : string;
  it_derives : list string;
  it_serde : list string;
  it_shape : Shape
}.

Definition fields_of (i : Item) : list Field :=
  match it_shape i with Struct fs => fs | Enumeration _ => [] end.

(** Fields without a serde attribute, and fields that are not serialised. *)
Definition field (name : string) (l : Label) (t : FieldType) (tag : Z) : Field := mkField name l t tag [].
Definition secret (name : string) (l : Label) (t : FieldType) (tag : Z) : Field :=
  mkField name l t tag ["skip_serializing"].

(** What prost itself derives, and what the build script asks for. *)
Definition message_derives : list string := ["Clone"; "PartialEq"; "::prost::Message"].
Definition enum_derives : list string :=
  ["Clone"; "Copy"; "Debug"; "PartialEq"; "Eq"; "Hash"; "PartialOrd"; "Ord"; "::prost::Enumeration"].
Definition serde_derives : list string :=
  ["serde::Serialize"; "serde::Deserialize"; "bincode::Encode"; "bincode::Decode"].
Definition sqlx_derives : list string := ["sqlx::Type"].
Definition camel_case : string := "rename_all = 'camelCase'".

(** ** The declarations *)

Definition Msg_item : Item :=
  mkItem "Msg" (serde_derives ++ message_derives) [camel_case] (Struct [
    field "sender_id" Plain TString 1; field "receiver_id" Plain TString 2; field "client_id" Plain TString 3;
    field "server_id" Plain TString 4; field "create_time" Plain TInt64 5; field "send_time" Plain TInt64 6;
    field "seq" Plain TInt64 7; field "msg_type" Plain (TEnum "MsgType") 8;
    field "content_type" Plain (TEnum "ContentType") 9; field "content" Plain TBytes 10;
    field "is_read" Plain TBool 11; field "group_id" Plain TString 12;
    field "platform" Plain (TEnum "PlatformType") 13; field "avatar" Plain TString 14;
    field "nickname" Plain TString 15; field "related_msg_id" Optional TString 16; field "send_seq" Plain TInt64 17]).
Definition MsgContent_item : Item :=
  mkItem "MsgContent" (serde_derives ++ message_derives) [camel_case] (Struct [
    field "content" Plain TString 1; field "mention" Optional (TMessage "Mention") 2]).
Definition Mention_item : Item :=
  mkItem "Mention" (serde_derives ++ message_derives) [camel_case] (Struct [
    field "all" Plain TBool 1; field "user_ids" Repeated TString 2]).
Definition MsgRead_item : Item :=
  mkItem "MsgRead" (serde_derives ++ message_derives) [camel_case] (Struct [
    field "msg_seq" Repeated TInt64 1; field "user_id" Plain TString 2]).
Definition Candidate_item : Item :=
  mkItem "Candidate" (serde_derives ++ message_derives) [camel_case] (Struct [
    field "candidate" Plain TString 1; field "sdp_mid" Optional TString 2; field "sdp_m_index" Optional TInt32 3]).
Definition AgreeSingleCall_item : Item :=
  mkItem "AgreeSingleCall" (serde_derives ++ message_derives) [camel_case] (Struct [
    field "sdp" Plain TString 1]).
Definition SingleCallInvite_item : Item :=
  mkItem "SingleCallInvite" (serde_derives ++ message_derives) [camel_case] (Struct [
    field "invite_type" Plain (TEnum "SingleCallInviteType") 1]).
Definition SingleCallInviteAnswer_item : Item :=
  mkItem "SingleCallInviteAnswer" (serde_derives ++ message_derives) [camel_case] (Struct [
    field "agree" Plain TBool 1; field "invite_type" Plain (TEnum "SingleCallInviteType") 2]).
Definition SingleCallInviteNotAnswer_item : Item :=
  mkItem "SingleCallInviteNotAnswer" (serde_derives ++ message_derives) [camel_case] (Struct [
    field "invite_type" Plain (TEnum "SingleCallInviteType") 1]).
Definition SingleCallInviteCancel_item : Item :=
  mkItem "SingleCallInviteCancel" (serde_derives ++ message_derives) [camel_case] (Struct [
    field "invite_type" Plain (TEnum "SingleCallInviteType") 2]).
Definition SingleCallOffer_item : Item :=
  mkItem "SingleCallOffer" (serde_derives ++ message_derives) [camel_case] (Struct [
    field "sdp" Plain TString 1]).
Definition Hangup_item : Item :=
  mkItem "Hangup" (serde_derives ++ message_derives) [camel_case] (Struct [
    field "invite_type" Plain (TEnum "SingleCallInviteType") 1; field "sustain" Plain TInt64 2]).
Definition Single_item : Item :=
  mkItem "Single" (serde_derives ++ message_derives) [camel_case] (Struct [
    field "content" Plain TString 2; field "content_type" Plain (TEnum "ContentType") 3]).
Definition MsgResponse_item : Item :=
  mkItem "MsgResponse" (serde_derives ++ message_derives) [camel_case] (Struct [
    field "client_id" Plain TString 1; field "server_id" Plain TString 2; field "send_time" Plain TInt64 3;
    field "err" Plain TString 4]).
Definition PlatformType_item : Item :=
  mkItem "PlatformType" (serde_derives ++ enum_derives) [camel_case] (Enumeration [
    ("Desktop", 0); ("Mobile", 1)]).
Definition ContentType_item : Item :=
  mkItem "ContentType" (serde_derives ++ enum_derives) [camel_case] (Enumeration [
    ("Default", 0); ("Text", 1); ("Image", 2); ("Video", 3); ("Audio", 4); ("File", 5); ("Emoji", 6);
    ("VideoCall", 7); ("AudioCall", 8); ("Error", 9)]).
Definition FriendshipStatus_item : Item :=
  mkItem "FriendshipStatus" (serde_derives ++ sqlx_derives ++ enum_derives) [camel_case] (Enumeration [
    ("Pending", 0); ("Accepted", 1); ("Rejected", 2); ("Blacked", 3); ("Deleted", 4); ("Muted", 5); ("Hidden", 6)]).
Definition MsgType_item : Item :=
  mkItem "MsgType" (serde_derives ++ enum_derives) [camel_case] (Enumeration [
    ("SingleMsg", 0); ("GroupMsg", 1); ("GroupInvitation", 2); ("GroupInviteNew", 3); ("GroupMemberExit", 4);
    ("GroupRemoveMember", 5); ("GroupDismiss", 6); ("GroupDismissOrExitReceived", 7); ("GroupInvitationReceived", 8);
    ("GroupUpdate", 9); ("GroupFile", 10); ("GroupPoll", 11); ("GroupMute", 12); ("GroupAnnouncement", 13);
    ("FriendApplyReq", 14); ("FriendApplyResp", 15); ("FriendBlack", 16); ("FriendDelete", 17);
    ("SingleCallInvite", 18); ("RejectSingleCall", 19); ("AgreeSingleCall", 20); ("SingleCallInviteNotAnswer", 21);
    ("SingleCallInviteCancel", 22); ("SingleCallOffer", 23); ("Hangup", 24); ("ConnectSingleCall", 25);
    ("Candidate", 26); ("Read", 27); ("MsgRecResp", 28); ("Notification", 29); ("Service", 30);
    ("FriendshipReceived", 31)]).
Definition SingleCallInviteType_item : Item :=
  mkItem "SingleCallInviteType" (serde_derives ++ enum_derives) [camel_case] (Enumeration [
    ("SingleAudio", 0); ("SingleVideo", 1)]).
Definition GroupMemberRole_item : Item :=
  mkItem "GroupMemberRole" (serde_derives ++ sqlx_derives ++ enum_derives) [camel_case] (Enumeration [
    ("Owner", 0); ("Admin", 1); ("Member", 2)]).
Definition GroupInfo_item : Item :=
  mkItem "GroupInfo" (serde_derives ++ message_derives) [camel_case] (Struct [
    field "id" Plain TString 1; field "owner" Plain TString 2; field "name" Plain TString 3;
    field "avatar" Plain TString 4; field "description" Plain TString 5; field "announcement" Plain TString 6;
    field "create_time" Plain TInt64 7; field "update_time" Plain TInt64 8; field "max_members" Plain TInt32 9;
    field "is_public" Plain TBool 10; field "join_approval_required" Plain TBool 11;
    field "category" Plain TString 12; field "tags" Repeated TString 13; field "mute_all" Plain TBool 14;
    field "only_admin_post" Plain TBool 15; field "invite_permission" Plain (TEnum "GroupMemberRole") 16;
    field "pinned_messages" Repeated TString 17]).
Definition GroupMember_item : Item :=
  mkItem "GroupMember" (serde_derives ++ message_derives) [camel_case] (Struct [
    field "age" Plain TInt32 1; field "group_id" Plain TString 2; field "user_id" Plain TString 3;
    field "group_name" Plain TString 4; field "avatar" Plain TString 5; field "joined_at" Plain TInt64 6;
    field "region" Optional TString 7; field "gender" Plain TString 8; field "remark" Optional TString 9;
    field "signature" Plain TString 10; field "role" Plain (TEnum "GroupMemberRole") 11;
    field "is_muted" Plain TBool 12; field "notification_level" Plain TString 13;
    field "last_read_time" Plain TInt64 14; field "display_order" Plain TInt32 15; field "joined_by" Plain TString 16]).
Definition GroupInvitation_item : Item :=
  mkItem "GroupInvitation" (serde_derives ++ message_derives) [camel_case] (Struct [
    field "info" Optional (TMessage "GroupInfo") 1; field "members" Repeated (TMessage "GroupMember") 2]).
Definition GroupInviteNew_item : Item :=
  mkItem "GroupInviteNew" (serde_derives ++ message_derives) [camel_case] (Struct [
    field "user_id" Plain TString 1; field "group_id" Plain TString 2; field "members" Repeated TString 3]).
Definition GroupUpdate_item : Item :=
  mkItem "GroupUpdate" (serde_derives ++ message_derives) [camel_case] (Struct [
    field "id" Plain TString 1; field "name" Plain TString 2; field "avatar" Plain TString 3;
    field "description" Plain TString 4; field "announcement" Plain TString 5; field "update_time" Plain TInt64 6]).
Definition User_item : Item :=
  mkItem "User" (serde_derives ++ message_derives) [camel_case] (Struct [
    field "id" Plain TString 1; field "name" Plain TString 2; field "account" Plain TString 3;
    secret "password" Plain TString 4; field "avatar" Plain TString 5; field "gender" Plain TString 6;
    field "age" Plain TInt32 7; field "phone" Optional TString 8; field "email" Optional TString 9;
    field "address" Optional TString 10; field "region" Optional TString 11; field "birthday" Optional TInt64 12;
    field "create_time" Plain TInt64 13; field "update_time" Plain TInt64 14; secret "salt" Plain TString 15;
    field "signature" Plain TString 16; field "last_login_time" Optional TInt64 17;
    field "last_login_ip" Optional TString 18; field "two_factor_enabled" Plain TBool 19;
    field "account_status" Plain TString 20; field "status" Plain TString 21;
    field "last_active_time" Optional TInt64 22; field "status_message" Optional TString 23;
    field "privacy_settings" Plain TString 24; field "notification_settings" Plain TString 25;
    field "language" Plain TString 26; field "friend_requests_privacy" Plain TString 27;
    field "profile_visibility" Plain TString 28; field "theme" Plain TString 29; field "timezone" Plain TString 30;
    field "is_delete" Plain TBool 31]).
Definition UserWithMatchType_item : Item :=
  mkItem "UserWithMatchType" (serde_derives ++ message_derives) [camel_case] (Struct [
    field "id" Plain TString 1; field "name" Plain TString 2; field "account" Plain TString 3;
    field "avatar" Plain TString 4; field "gender" Plain TString 5; field "age" Plain TInt32 6;
    field "email" Optional TString 7; field "region" Optional TString 8; field "birthday" Optional TInt64 9;
    field "match_type" Optional TString 10; field "signature" Plain TString 11; field "is_friend" Plain TBool 12]).
Definition Friendship_item : Item :=
  mkItem "Friendship" (serde_derives ++ message_derives) [camel_case] (Struct [
    field "id" Plain TString 1; field "user_id" Plain TString 2; field "friend_id" Plain TString 3;
    field "status" Plain (TEnum "FriendshipStatus") 4; field "apply_msg" Optional TString 5;
    field "req_remark" Optional TString 6; field "resp_msg" Optional TString 7;
    field "resp_remark" Optional TString 8; field "source" Plain TString 9; field "create_time" Plain TInt64 10;
    field "update_time" Plain TInt64 11]).
Definition FriendshipWithUser_item : Item :=
  mkItem "FriendshipWithUser" (serde_derives ++ message_derives) [camel_case] (Struct [
    field "fs_id" Plain TString 1; field "user_id" Plain TString 2; field "name" Plain TString 3;
    field "avatar" Plain TString 4; field "gender" Plain TString 5; field "age" Plain TInt32 6;
    field "region" Optional TString 7; field "status" Plain (TEnum "FriendshipStatus") 8;
    field "apply_msg" Optional TString 9; field "source" Plain TString 10; field "create_time" Plain TInt64 11;
    field "account" Plain TString 12; field "remark" Optional TString 13; field "email" Optional TString 14]).
Definition Friend_item : Item :=
  mkItem "Friend" (serde_derives ++ message_derives) [camel_case] (Struct [
    field "fs_id" Plain TString 1; field "friend_id" Plain TString 2; field "account" Plain TString 3;
    field "name" Plain TString 4; field "avatar" Plain TString 5; field "gender" Plain TString 6;
    field "age" Plain TInt32 7; field "region" Optional TString 8; field "status" Plain (TEnum "FriendshipStatus") 9;
    field "remark" Optional TString 10; field "email" Optional TString 11; field "source" Plain TString 12;
    field "signature" Plain TString 13; field "create_time" Plain TInt64 14; field "update_time" Plain TInt64 15;
    field "interaction_score" Plain TFloat 16; field "tags" Repeated TString 17; field "group_name" Plain TString 18;
    field "privacy_level" Plain TString 19; field "notifications_enabled" Plain TBool 20;
    field "last_interaction" Plain TInt64 21]).
Definition FriendInfo_item : Item :=
  mkItem "FriendInfo" (serde_derives ++ message_derives) [camel_case] (Struct [
    field "id" Plain TString 1; field "name" Plain TString 2; field "avatar" Plain TString 3;
    field "gender" Plain TString 4; field "age" Plain TInt32 5; field "region" Optional TString 6;
    field "account" Plain TString 7; field "signature" Plain TString 8; field "email" Optional TString 9]).
Definition FsCreate_item : Item :=
  mkItem "FsCreate" (serde_derives ++ message_derives) [camel_case] (Struct [
    field "user_id" Plain TString 1; field "friend_id" Plain TString 2; field "apply_msg" Optional TString 3;
    field "req_remark" Optional TString 4; field "source" Plain TString 5]).
Definition AgreeReply_item : Item :=
  mkItem "AgreeReply" (serde_derives ++ message_derives) [camel_case] (Struct [
    field "fs_id" Plain TString 1; field "resp_msg" Optional TString 2; field "resp_remark" Optional TString 3]).
Definition FsUpdate_item : Item :=
  mkItem "FsUpdate" (serde_derives ++ message_derives) [camel_case] (Struct [
    field "id" Plain TString 1; field "apply_msg" Plain TString 2; field "req_remark" Plain TString 3]).
Definition GetGroupAndMembersResp_item : Item :=
  mkItem "GetGroupAndMembersResp" (serde_derives ++ message_derives) [camel_case] (Struct [
    field "group" Optional (TMessage "GroupInfo") 1; field "members" Repeated (TMessage "GroupMember") 2]).
Definition PullOfflineRequest_item : Item :=
  mkItem "PullOfflineRequest" (serde_derives ++ message_derives) [camel_case] (Struct [
    field "user_id" Plain TString 1; field "send_start" Plain TInt64 2; field "send_end" Plain TInt64 3;
    field "rec_start" Plain TInt64 4; field "rec_end" Plain TInt64 5]).
Definition PullOfflineResponse_item : Item :=
  mkItem "PullOfflineResponse" (serde_derives ++ message_derives) [camel_case] (Struct [
    field "messages" Repeated (TMessage "Msg") 1]).
Definition FriendDb_item : Item :=
  mkItem "FriendDb" (message_derives) [] (Struct [
    field "id" Plain TInt64 1; field "fs_id" Plain TString 2; field "user_id" Plain TString 3;
    field "friend_id" Plain TString 4; field "status" Plain (TEnum "FriendshipStatus") 5;
    field "remark" Optional TString 6; field "source" Plain TString 7; field "create_time" Plain TInt64 8;
    field "update_time" Plain TInt64 9; field "deleted_time" Plain TInt64 10; field "is_starred" Plain TBool 11;
    field "group_id" Plain TString 12; field "interaction_score" Plain TFloat 13;
    field "interaction_count" Plain TInt32 14; field "last_interaction" Plain TInt64 15;
    field "tags" Repeated TString 16; field "privacy_level" Plain TString 17;
    field "notifications_enabled" Plain TBool 18]).
Definition MsgReadReq_item : Item :=
  mkItem "MsgReadReq" (serde_derives ++ message_derives) [camel_case] (Struct [
    field "msg_read" Optional (TMessage "MsgRead") 1]).
Definition MsgReadResp_item : Item :=
  mkItem "MsgReadResp" (serde_derives ++ message_derives) [camel_case] (Struct []).
Definition UserAndGroupId_item : Item :=
  mkItem "UserAndGroupId" (serde_derives ++ message_derives) [camel_case] (Struct [
    field "user_id" Plain TString 1; field "group_id" Plain TString 2]).
Definition GroupCategory_item : Item :=
  mkItem "GroupCategory" (serde_derives ++ message_derives) [camel_case] (Struct [
    field "id" Plain TString 1; field "name" Plain TString 2; field "description" Plain TString 3;
    field "display_order" Plain TInt32 4; field "create_time" Plain TInt64 5; field "update_time" Plain TInt64 6]).
Definition GroupFile_item : Item :=
  mkItem "GroupFile" (serde_derives ++ message_derives) [camel_case] (Struct [
    field "id" Plain TString 1; field "group_id" Plain TString 2; field "uploader_id" Plain TString 3;
    field "file_name" Plain TString 4; field "file_url" Plain TString 5; field "file_size" Plain TInt64 6;
    field "file_type" Plain TString 7; field "upload_time" Plain TInt64 8; field "is_pinned" Plain TBool 9;
    field "download_count" Plain TInt32 10; field "thumbnail_url" Plain TString 11]).
Definition PollOption_item : Item :=
  mkItem "PollOption" (serde_derives ++ message_derives) [camel_case] (Struct [
    field "id" Plain TString 1; field "text" Plain TString 2; field "voter_ids" Repeated TString 3;
    field "vote_count" Plain TInt32 4]).
Definition GroupPoll_item : Item :=
  mkItem "GroupPoll" (serde_derives ++ message_derives) [camel_case] (Struct [
    field "id" Plain TString 1; field "group_id" Plain TString 2; field "creator_id" Plain TString 3;
    field "title" Plain TString 4; field "options" Repeated (TMessage "PollOption") 5;
    field "is_multiple" Plain TBool 6; field "is_anonymous" Plain TBool 7; field "created_at" Plain TInt64 8;
    field "expires_at" Plain TInt64 9; field "status" Plain TString 10]).
Definition GroupMuteRecord_item : Item :=
  mkItem "GroupMuteRecord" (serde_derives ++ message_derives) [camel_case] (Struct [
    field "id" Plain TString 1; field "group_id" Plain TString 2; field "user_id" Plain TString 3;
    field "operator_id" Plain TString 4; field "mute_until" Plain TInt64 5; field "reason" Plain TString 6;
    field "created_at" Plain TInt64 7]).
Definition GroupAnnouncement_item : Item :=
  mkItem "GroupAnnouncement" (serde_derives ++ message_derives) [camel_case] (Struct [
    field "id" Plain TString 1; field "group_id" Plain TString 2; field "creator_id" Plain TString 3;
    field "content" Plain TString 4; field "created_at" Plain TInt64 5; field "is_pinned" Plain TBool 6]).
Definition CreateGroupCategoryRequest_item : Item :=
  mkItem "CreateGroupCategoryRequest" (serde_derives ++ message_derives) [camel_case] (Struct [
    field "name" Plain TString 1; field "description" Plain TString 2; field "display_order" Plain TInt32 3]).
Definition UpdateGroupRequest_item : Item :=
  mkItem "UpdateGroupRequest" (serde_derives ++ message_derives) [camel_case] (Struct [
    field "group_id" Plain TString 1; field "user_id" Plain TString 2; field "name" Plain TString 3;
    field "avatar" Plain TString 4; field "description" Plain TString 5; field "announcement" Plain TString 6;
    field "join_approval_required" Plain TBool 7; field "mute_all" Plain TBool 8;
    field "only_admin_post" Plain TBool 9; field "invite_permission" Plain (TEnum "GroupMemberRole") 10;
    field "category" Plain TString 11; field "tags" Repeated TString 12]).
Definition GroupFileUploadRequest_item : Item :=
  mkItem "GroupFileUploadRequest" (serde_derives ++ message_derives) [camel_case] (Struct [
    field "group_id" Plain TString 1; field "uploader_id" Plain TString 2; field "file_name" Plain TString 3;
    field "file_data" Plain TBytes 4; field "file_type" Plain TString 5; field "file_size" Plain TInt64 6;
    field "file_url" Plain TString 7]).
Definition CreatePollRequest_item : Item :=
  mkItem "CreatePollRequest" (serde_derives ++ message_derives) [camel_case] (Struct [
    field "group_id" Plain TString 1; field "creator_id" Plain TString 2; field "title" Plain TString 3;
    field "options" Repeated TString 4; field "is_multiple" Plain TBool 5; field "is_anonymous" Plain TBool 6;
    field "expires_at" Plain TInt64 7]).
Definition VotePollRequest_item : Item :=
  mkItem "VotePollRequest" (serde_derives ++ message_derives) [camel_case] (Struct [
    field "poll_id" Plain TString 1; field "user_id" Plain TString 2; field "option_ids" Repeated TString 3]).
Definition MuteGroupMemberRequest_item : Item :=
  mkItem "MuteGroupMemberRequest" (serde_derives ++ message_derives) [camel_case] (Struct [
    field "group_id" Plain TString 1; field "user_id" Plain TString 2; field "operator_id" Plain TString 3;
    field "mute_until" Plain TInt64 4; field "reason" Plain TString 5]).
Definition CreateAnnouncementRequest_item : Item :=
  mkItem "CreateAnnouncementRequest" (serde_derives ++ message_derives) [camel_case] (Struct [
    field "group_id" Plain TString 1; field "creator_id" Plain TString 2; field "content" Plain TString 3;
    field "is_pinned" Plain TBool 4]).
Definition GroupCreate_item : Item :=
  mkItem "GroupCreate" (serde_derives ++ message_derives) [camel_case] (Struct [
    field "id" Plain TString 1; field "owner" Plain TString 2; field "avatar" Plain TString 3;
    field "group_name" Plain TString 4; field "members_id" Repeated TString 5]).
Definition FriendGroup_item : Item :=
  mkItem "FriendGroup" (serde_derives ++ message_derives) [camel_case] (Struct [
    field "id" Plain TString 1; field "user_id" Plain TString 2; field "name" Plain TString 3;
    field "display_order" Plain TInt32 4; field "create_time" Plain TInt64 5; field "update_time" Plain TInt64 6]).
Definition UpdateFriendGroupRequest_item : Item :=
  mkItem "UpdateFriendGroupRequest" (serde_derives ++ message_derives) [camel_case] (Struct [
    field "user_id" Plain TString 1; field "friend_id" Plain TString 2; field "group_id" Plain TString 3]).
Definition FriendTag_item : Item :=
  mkItem "FriendTag" (serde_derives ++ message_derives) [camel_case] (Struct [
    field "id" Plain TString 1; field "user_id" Plain TString 2; field "tag_name" Plain TString 3;
    field "tag_color" Plain TString 4; field "create_time" Plain TInt64 5]).
Definition ManageFriendTagRequest_item : Item :=
  mkItem "ManageFriendTagRequest" (serde_derives ++ message_derives) [camel_case] (Struct [
    field "user_id" Plain TString 1; field "friend_id" Plain TString 2; field "tag_ids" Repeated TString 3;
    field "is_add" Plain TBool 4]).
Definition FriendPrivacySettings_item : Item :=
  mkItem "FriendPrivacySettings" (serde_derives ++ message_derives) [camel_case] (Struct [
    field "user_id" Plain TString 1; field "friend_id" Plain TString 2; field "privacy_level" Plain TString 3;
    field "share_timeline" Plain TBool 4; field "share_location" Plain TBool 5; field "share_status" Plain TBool 6]).
Definition UpdateFriendPrivacyRequest_item : Item :=
  mkItem "UpdateFriendPrivacyRequest" (serde_derives ++ message_derives) [camel_case] (Struct [
    field "settings" Optional (TMessage "FriendPrivacySettings") 1]).
Definition UpdateRemarkRequest_item : Item :=
  mkItem "UpdateRemarkRequest" (serde_derives ++ message_derives) [camel_case] (Struct [
    field "user_id" Plain TString 1; field "friend_id" Plain TString 2; field "remark" Plain TString 3]).
Definition DeleteFriendRequest_item : Item :=
  mkItem "DeleteFriendRequest" (serde_derives ++ message_derives) [camel_case] (Struct [
    field "user_id" Plain TString 1; field "friend_id" Plain TString 2; field "fs_id" Plain TString 3]).
Definition RemoveMemberRequest_item : Item :=
  mkItem "RemoveMemberRequest" (serde_derives ++ message_derives) [camel_case] (Struct [
    field "user_id" Plain TString 1; field "group_id" Plain TString 2; field "mem_id" Repeated TString 3]).
Definition GroupMembersIdRequest_item : Item :=
  mkItem "GroupMembersIdRequest" (serde_derives ++ message_derives) [camel_case] (Struct [
    field "group_id" Plain TString 1]).
Definition SendMsgRequest_item : Item :=
  mkItem "SendMsgRequest" (serde_derives ++ message_derives) [camel_case] (Struct [
    field "message" Optional (TMessage "Msg") 1]).
Definition SendGroupMsgRequest_item : Item :=
  mkItem "SendGroupMsgRequest" (serde_derives ++ message_derives) [camel_case] (Struct [
    field "message" Optional (TMessage "Msg") 1; field "members" Repeated (TMessage "GroupMemSeq") 2]).
Definition SendMsgResponse_item : Item :=
  mkItem "SendMsgResponse" (serde_derives ++ message_derives) [camel_case] (Struct []).
Definition SaveMessageRequest_item : Item :=
  mkItem "SaveMessageRequest" (serde_derives ++ message_derives) [camel_case] (Struct [
    field "message" Optional (TMessage "Msg") 1; field "need_to_history" Plain TBool 2]).
Definition SaveGroupMsgRequest_item : Item :=
  mkItem "SaveGroupMsgRequest" (serde_derives ++ message_derives) [camel_case] (Struct [
    field "message" Optional (TMessage "Msg") 1; field "need_to_history" Plain TBool 2;
    field "members" Repeated (TMessage "GroupMemSeq") 3]).
Definition GroupMemSeq_item : Item :=
  mkItem "GroupMemSeq" (serde_derives ++ message_derives) [camel_case] (Struct [
    field "mem_id" Plain TString 1; field "cur_seq" Plain TInt64 2; field "max_seq" Plain TInt64 3;
    field "need_update" Plain TBool 4]).
Definition GetDbMsgRequest_item : Item :=
  mkItem "GetDbMsgRequest" (serde_derives ++ message_derives) [camel_case] (Struct [
    field "user_id" Plain TString 1; field "start" Plain TInt64 2; field "end" Plain TInt64 3]).
Definition GetDbMessagesRequest_item : Item :=
  mkItem "GetDbMessagesRequest" (serde_derives ++ message_derives) [camel_case] (Struct [
    field "user_id" Plain TString 1; field "send_start" Plain TInt64 2; field "send_end" Plain TInt64 3;
    field "start" Plain TInt64 4; field "end" Plain TInt64 5]).
Definition DelMsgRequest_item : Item :=
  mkItem "DelMsgRequest" (serde_derives ++ message_derives) [camel_case] (Struct [
    field "user_id" Plain TString 1; field "msg_id" Repeated TInt64 2]).
Definition GetMemberReq_item : Item :=
  mkItem "GetMemberReq" (serde_derives ++ message_derives) [camel_case] (Struct [
    field "user_id" Plain TString 1; field "group_id" Plain TString 2; field "mem_ids" Repeated TString 3]).
Definition GroupInviteNewRequest_item : Item :=
  mkItem "GroupInviteNewRequest" (serde_derives ++ message_derives) [camel_case] (Struct [
    field "group_invite" Optional (TMessage "GroupInviteNew") 1]).
Definition RemoveMemberResp_item : Item :=
  mkItem "RemoveMemberResp" (serde_derives ++ message_derives) [camel_case] (Struct []).
Definition GroupInviteNewResp_item : Item :=
  mkItem "GroupInviteNewResp" (serde_derives ++ message_derives) [camel_case] (Struct [
    field "members" Repeated (TMessage "GroupMember") 1]).
Definition GroupUpdateRequest_item : Item :=
  mkItem "GroupUpdateRequest" (serde_derives ++ message_derives) [camel_case] (Struct [
    field "group" Optional (TMessage "GroupUpdate") 1]).
Definition GroupUpdateResponse_item : Item :=
  mkItem "GroupUpdateResponse" (serde_derives ++ message_derives) [camel_case] (Struct [
    field "group" Optional (TMessage "GroupInfo") 1]).
Definition GroupDeleteRequest_item : Item :=
  mkItem "GroupDeleteRequest" (serde_derives ++ message_derives) [camel_case] (Struct [
    field "group_id" Plain TString 1; field "user_id" Plain TString 2]).
Definition GroupDeleteResponse_item : Item :=
  mkItem "GroupDeleteResponse" (serde_derives ++ message_derives) [camel_case] (Struct [
    field "group" Optional (TMessage "GroupInfo") 1]).
Definition GroupMemberExitResponse_item : Item :=
  mkItem "GroupMemberExitResponse" (serde_derives ++ message_derives) [camel_case] (Struct []).
Definition GroupMembersIdResponse_item : Item :=
  mkItem "GroupMembersIdResponse" (serde_derives ++ message_derives) [camel_case] (Struct [
    field "members_id" Repeated TString 1]).
Definition CreateUserRequest_item : Item :=
  mkItem "CreateUserRequest" (serde_derives ++ message_derives) [camel_case] (Struct [
    field "user" Optional (TMessage "User") 1]).
Definition CreateUserResponse_item : Item :=
  mkItem "CreateUserResponse" (serde_derives ++ message_derives) [camel_case] (Struct [
    field "user" Optional (TMessage "User") 1]).
Definition GetUserRequest_item : Item :=
  mkItem "GetUserRequest" (serde_derives ++ message_derives) [camel_case] (Struct [
    field "user_id" Plain TString 1]).
Definition GetUserByEmailRequest_item : Item :=
  mkItem "GetUserByEmailRequest" (serde_derives ++ message_derives) [camel_case] (Struct [
    field "email" Plain TString 1]).
Definition GetUserResponse_item : Item :=
  mkItem "GetUserResponse" (serde_derives ++ message_derives) [camel_case] (Struct [
    field "user" Optional (TMessage "User") 1]).
Definition UpdateUserRequest_item : Item :=
  mkItem "UpdateUserRequest" (serde_derives ++ message_derives) [camel_case] (Struct [
    field "user" Optional (TMessage "UserUpdate") 1]).
Definition UpdateUserResponse_item : Item :=
  mkItem "UpdateUserResponse" (serde_derives ++ message_derives) [camel_case] (Struct [
    field "user" Optional (TMessage "User") 1]).
Definition UpdateRegionRequest_item : Item :=
  mkItem "UpdateRegionRequest" (serde_derives ++ message_derives) [camel_case] (Struct [
    field "user_id" Plain TString 1; field "region" Plain TString 2]).
Definition UpdateRegionResponse_item : Item :=
  mkItem "UpdateRegionResponse" (serde_derives ++ message_derives) [camel_case] (Struct []).
Definition SearchUserRequest_item : Item :=
  mkItem "SearchUserRequest" (serde_derives ++ message_derives) [camel_case] (Struct [
    field "user_id" Plain TString 1; field "pattern" Plain TString 2]).
Definition SearchUserResponse_item : Item :=
  mkItem "SearchUserResponse" (serde_derives ++ message_derives) [camel_case] (Struct [
    field "user" Optional (TMessage "UserWithMatchType") 1]).
Definition FsCreateRequest_item : Item :=
  mkItem "FsCreateRequest" (serde_derives ++ message_derives) [camel_case] (Struct [
    field "fs_create" Optional (TMessage "FsCreate") 1]).
Definition FsCreateResponse_item : Item :=
  mkItem "FsCreateResponse" (serde_derives ++ message_derives) [camel_case] (Struct [
    field "fs_req" Optional (TMessage "FriendshipWithUser") 1;
    field "fs_send" Optional (TMessage "FriendshipWithUser") 2]).
Definition FsAgreeRequest_item : Item :=
  mkItem "FsAgreeRequest" (serde_derives ++ message_derives) [camel_case] (Struct [
    field "fs_reply" Optional (TMessage "AgreeReply") 1]).
Definition FsAgreeResponse_item : Item :=
  mkItem "FsAgreeResponse" (serde_derives ++ message_derives) [camel_case] (Struct [
    field "req" Optional (TMessage "Friend") 1; field "send" Optional (TMessage "Friend") 2]).
Definition UpdateRemarkResponse_item : Item :=
  mkItem "UpdateRemarkResponse" (serde_derives ++ message_derives) [camel_case] (Struct []).
Definition DeleteFriendResponse_item : Item :=
  mkItem "DeleteFriendResponse" (serde_derives ++ message_derives) [camel_case] (Struct []).
Definition FsUpdateRequest_item : Item :=
  mkItem "FsUpdateRequest" (serde_derives ++ message_derives) [camel_case] (Struct [
    field "fs_update" Optional (TMessage "FsUpdate") 1]).
Definition FriendListRequest_item : Item :=
  mkItem "FriendListRequest" (serde_derives ++ message_derives) [camel_case] (Struct [
    field "user_id" Plain TString 1; field "offline_time" Plain TInt64 2]).
Definition FsListResponse_item : Item :=
  mkItem "FsListResponse" (serde_derives ++ message_derives) [camel_case] (Struct [
    field "friendships" Repeated (TMessage "FriendshipWithUser") 1]).
Definition FriendListResponse_item : Item :=
  mkItem "FriendListResponse" (serde_derives ++ message_derives) [camel_case] (Struct [
    field "friends" Repeated (TMessage "Friend") 1]).
Definition ClosePollRequest_item : Item :=
  mkItem "ClosePollRequest" (serde_derives ++ message_derives) [camel_case] (Struct [
    field "poll_id" Plain TString 1; field "user_id" Plain TString 2]).
Definition UpdateFilePinRequest_item : Item :=
  mkItem "UpdateFilePinRequest" (serde_derives ++ message_derives) [camel_case] (Struct [
    field "file_id" Plain TString 1; field "user_id" Plain TString 2; field "is_pinned" Plain TBool 3]).
Definition UnmuteRequest_item : Item :=
  mkItem "UnmuteRequest" (serde_derives ++ message_derives) [camel_case] (Struct [
    field "group_id" Plain TString 1; field "user_id" Plain TString 2; field "operator_id" Plain TString 3]).
Definition UserUpdate_item : Item :=
  mkItem "UserUpdate" (serde_derives ++ message_derives) [camel_case] (Struct [
    field "id" Plain TString 1; field "name" Plain TString 2; field "avatar" Plain TString 3;
    field "gender" Plain TString 4; field "phone" Plain TString 5; field "email" Plain TString 6;
    field "address" Plain TString 7; field "region" Plain TString 8; field "birthday" Plain TInt64 9;
    field "signature" Plain TString 10; field "status" Plain TString 11; field "status_message" Plain TString 12;
    field "privacy_settings" Plain TString 13; field "notification_settings" Plain TString 14;
    field "language" Plain TString 15; field "friend_requests_privacy" Plain TString 16;
    field "profile_visibility" Plain TString 17; field "theme" Plain TString 18; field "timezone" Plain TString 19]).

(** Everything the file declares, in its order. *)
Definition generated : list Item :=
  [Msg_item; MsgContent_item; Mention_item; MsgRead_item; Candidate_item; AgreeSingleCall_item;
   SingleCallInvite_item; SingleCallInviteAnswer_item; SingleCallInviteNotAnswer_item; SingleCallInviteCancel_item;
   SingleCallOffer_item; Hangup_item; Single_item; MsgResponse_item; PlatformType_item; ContentType_item;
   FriendshipStatus_item; MsgType_item; SingleCallInviteType_item; GroupMemberRole_item; GroupInfo_item;
   GroupMember_item; GroupInvitation_item; GroupInviteNew_item; GroupUpdate_item; User_item;
   UserWithMatchType_item; Friendship_item; FriendshipWithUser_item; Friend_item; FriendInfo_item; FsCreate_item;
   AgreeReply_item; FsUpdate_item; GetGroupAndMembersResp_item; PullOfflineRequest_item; PullOfflineResponse_item;
   FriendDb_item; MsgReadReq_item; MsgReadResp_item; UserAndGroupId_item; GroupCategory_item; GroupFile_item;
   PollOption_item; GroupPoll_item; GroupMuteRecord_item; GroupAnnouncement_item; CreateGroupCategoryRequest_item;
   UpdateGroupRequest_item; GroupFileUploadRequest_item; CreatePollRequest_item; VotePollRequest_item;
   MuteGroupMemberRequest_item; CreateAnnouncementRequest_item; GroupCreate_item; FriendGroup_item;
   UpdateFriendGroupRequest_item; FriendTag_item; ManageFriendTagRequest_item; FriendPrivacySettings_item;
   UpdateFriendPrivacyRequest_item; UpdateRemarkRequest_item; DeleteFriendRequest_item; RemoveMemberRequest_item;
   GroupMembersIdRequest_item; SendMsgRequest_item; SendGroupMsgRequest_item; SendMsgResponse_item;
   SaveMessageRequest_item; SaveGroupMsgRequest_item; GroupMemSeq_item; GetDbMsgRequest_item;
   GetDbMessagesRequest_item; DelMsgRequest_item; GetMemberReq_item; GroupInviteNewRequest_item;
   RemoveMemberResp_item; GroupInviteNewResp_item; GroupUpdateRequest_item; GroupUpdateResponse_item;
   GroupDeleteRequest_item; GroupDeleteResponse_item; GroupMemberExitResponse_item; GroupMembersIdResponse_item;
   CreateUserRequest_item; CreateUserResponse_item; GetUserRequest_item; GetUserByEmailRequest_item;
   GetUserResponse_item; UpdateUserRequest_item; UpdateUserResponse_item; UpdateRegionRequest_item;
   UpdateRegionResponse_item; SearchUserRequest_item; SearchUserResponse_item; FsCreateRequest_item;
   FsCreateResponse_item; FsAgreeRequest_item; FsAgreeResponse_item; UpdateRemarkResponse_item;
   DeleteFriendResponse_item; FsUpdateRequest_item; FriendListRequest_item; FsListResponse_item;
   FriendListResponse_item; ClosePollRequest_item; UpdateFilePinRequest_item; UnmuteRequest_item; UserUpdate_item].
