(* ===== verification/Build.v ===== *)
(** * The build script ([abi/build.rs])

    The script tells [tonic_build] which attributes the generated types get and
    has them formatted. The types checked in under [abi/src/pb] ([Schema]) are
    held against it. *)

From S2P Require Import Prelude Schema.
Open Scope string_scope.
Open Scope list_scope.

(** ** Settings

    An attribute, by what it says; the settings of a [tonic_build::Builder] in
    the order they were made. *)

Inductive Attr : Type :=
| Derive (traits : list string)
| Serde (arg : string)
| BuilderAttr (arg : string).
#[export] Instance Attr_eq_dec : EqDecision Attr.
Proof. solve_decision. Defined.

Record Builder : Type := mkBuilder {
  b_out_dir : string;
  b_type_attributes : list (string * Attr);
  b_field_attributes : list (string * Attr)
}.

Definition configure : Builder := mkBuilder "" [] [].
Definition out_dir (d : string) (b : Builder) : Builder :=
  mkBuilder d (b_type_attributes b) (b_field_attributes b).
Definition type_attribute (path : string) (a : Attr) (b : Builder) : Builder :=
  mkBuilder (b_out_dir b) (b_type_attributes b ++ [(path, a)]) (b_field_attributes b).
Definition field_attribute (path : string) (a : Attr) (b : Builder) : Builder :=
  mkBuilder (b_out_dir b) (b_type_attributes b) (b_field_attributes b ++ [(path, a)]).

(** ** [impl BuilderExt for tonic_build::Builder] *)

Definition with_sqlx_type (path : list string) (b : Builder) : Builder :=
  fold_left (λ acc p, type_attribute p (Derive ["sqlx::Type"]) acc) path b.
Definition with_derive_builder (path : list string) (b : Builder) : Builder :=
  fold_left (λ acc p, type_attribute p (Derive ["derive_builder::Builder"]) acc) path b.
Definition with_derive_builder_into (path : string) (fields : list string) (b : Builder) : Builder :=
  fold_left (λ acc f, field_attribute (path +:+ "." +:+ f) (BuilderAttr "setter(into), default") acc) fields b.
Definition with_derive_builder_option (path : string) (fields : list string) (b : Builder) : Builder :=
  fold_left (λ acc f, field_attribute (path +:+ "." +:+ f) (BuilderAttr "setter(strip_option, into), default") acc)
    fields b.
Definition with_serde (path : list string) (b : Builder) : Builder :=
  fold_left (λ acc p,
    type_attribute p (Serde "rename_all = 'camelCase'")
      (type_attribute p (Derive ["serde::Serialize"; "serde::Deserialize"; "bincode::Encode"; "bincode::Decode"]) acc))
    path b.

(** ** [main] *)

Definition serde_types : list string :=
  ["PlatformType"; "ContentType"; "FriendshipStatus"; "MsgType"; "SingleCallInviteType"; "GroupMemberRole"; "Msg";
   "MsgContent"; "Mention"; "MsgRead"; "Candidate"; "AgreeSingleCall"; "SingleCallInvite";
   "SingleCallInviteAnswer"; "SingleCallInviteNotAnswer"; "SingleCallInviteCancel"; "SingleCallOffer"; "Hangup";
   "Single"; "MsgResponse"; "GroupInfo"; "GroupMember"; "GroupInvitation"; "GroupInviteNew"; "GroupUpdate"; "User";
   "UserWithMatchType"; "Friendship"; "FriendshipWithUser"; "Friend"; "FriendInfo"; "FsCreate"; "AgreeReply";
   "FsUpdate"; "GetGroupAndMembersResp"; "PullOfflineRequest"; "PullOfflineResponse"; "UserAndGroupId";
   "GroupCategory"; "GroupFile"; "PollOption"; "GroupPoll"; "GroupMuteRecord"; "GroupAnnouncement";
   "CreateGroupCategoryRequest"; "UpdateGroupRequest"; "GroupFileUploadRequest"; "CreatePollRequest";
   "VotePollRequest"; "MuteGroupMemberRequest"; "CreateAnnouncementRequest"; "GroupCreate"; "FriendGroup";
   "UpdateFriendGroupRequest"; "FriendTag"; "ManageFriendTagRequest"; "FriendPrivacySettings";
   "UpdateFriendPrivacyRequest"; "UpdateRemarkRequest"; "DeleteFriendRequest"; "RemoveMemberRequest";
   "GroupMembersIdRequest"; "SendMsgRequest"; "SendGroupMsgRequest"; "SaveMessageRequest"; "SaveGroupMsgRequest";
   "GroupMemSeq"; "GetDbMsgRequest"; "GetDbMessagesRequest"; "DelMsgRequest"; "GetMemberReq"; "MsgReadReq";
   "MsgReadResp"; "GroupInviteNewRequest"; "RemoveMemberResp"; "GroupInviteNewResp"; "GroupUpdateRequest";
   "GroupUpdateResponse"; "GroupDeleteRequest"; "GroupDeleteResponse"; "GroupMemberExitResponse";
   "GroupMembersIdResponse"; "CreateUserRequest"; "CreateUserResponse"; "GetUserRequest"; "GetUserByEmailRequest";
   "GetUserResponse"; "UpdateUserRequest"; "UpdateUserResponse"; "UpdateRegionRequest"; "UpdateRegionResponse";
   "SearchUserRequest"; "SearchUserResponse"; "FsCreateRequest"; "FsCreateResponse"; "FsAgreeRequest";
   "FsAgreeResponse"; "UpdateRemarkResponse"; "DeleteFriendResponse"; "FsUpdateRequest"; "FriendListRequest";
   "FsListResponse"; "FriendListResponse"; "ClosePollRequest"; "UpdateFilePinRequest"; "UnmuteRequest";
   "UserUpdate"; "SendMsgResponse"].

Definition sqlx_types : list string := ["FriendshipStatus"; "GroupMemberRole"].

Definition settings : Builder :=
  with_sqlx_type sqlx_types (with_serde serde_types
    (field_attribute "User.salt" (Serde "skip_serializing")
      (field_attribute "User.password" (Serde "skip_serializing")
        (out_dir "src/pb" configure)))).

Definition protos : list string :=
  ["protos/common.proto"; "protos/client_messages.proto"; "protos/server_messages.proto"].

(** Compiling and formatting are the generator's and cargo's; what they report
    ends the build. *)
Definition main {W E} (compile : Builder → list string → list string → M W E unit) (fmt : M W E unit)
    : M W E (list string) :=
  unwrap (compile settings protos ["protos"]) ;;
  unwrap fmt ;;
  mret ["cargo: rerun-if-changed=abi/protos/common.proto";
        "cargo: rerun-if-changed=abi/protos/client_messages.proto";
        "cargo: rerun-if-changed=abi/protos/server_messages.proto"].

(** ** What the settings ask of a type *)

(** Whether a path names a type or a field (written Type.field) is the
    generator's to say. *)
Section requested.
Context (names : string → string → bool).

Definition asked (l : list (string * Attr)) (x : string) : list Attr :=
  snd <$> filter (λ pa : string * Attr, names pa.1 x = true) l.
Definition traits (l : list Attr) : list string :=
  flat_map (λ a, match a with Derive ts => ts | _ => [] end) l.
Definition serdes (l : list Attr) : list string :=
  flat_map (λ a, match a with Serde s => [s] | _ => [] end) l.

(** A type has the attributes asked for it and the traits of its kind, and its
    fields have theirs. *)
Definition as_asked (b : Builder) (i : Item) : Prop :=
  it_derives i = traits (asked (b_type_attributes b) (it_name i))
                 ++ match it_shape i with Struct _ => message_derives | Enumeration _ => enum_derives end
  ∧ it_serde i = serdes (asked (b_type_attributes b) (it_name i))
  ∧ Forall (λ f, f_serde f = serdes (asked (b_field_attributes b) (it_name i +:+ "." +:+ f_name f))) (fields_of i).
#[global] Instance as_asked_dec b i : Decision (as_asked b i).
Proof. apply _. Defined.

Definition item_names : list string := it_name <$> generated.
Definition field_names : list string :=
  flat_map (λ i, (λ f, it_name i +:+ "." +:+ f_name f) <$> fields_of i) generated.
End requested.

Lemma asked_ext names names' l x :
  (∀ p, p ∈ fst <$> l → names p x = names' p x) → asked names l x = asked names' l x.
Proof.
  intros H. unfold asked. f_equal. induction l as [|[p a] l IH]; [done|].
  assert (E : names p x = names' p x) by (apply H; left).
  rewrite !filter_cons. cbn [fst]. rewrite E, IH by (intros q Hq; apply H; by right). done.
Qed.

(** ** References between types *)

Definition named_by (t : FieldType) : option string :=
  match t with TMessage n => Some n | _ => None end.
Definition holds (i : Item) (n : string) : Prop := Some n ∈ (λ f, named_by (f_type f)) <$> fields_of i.

Definition find_item (n : string) : option Item :=
  snd <$> list_find (λ i, it_name i = n) generated.

(** How deep the messages in a message can be nested. *)
Fixpoint depth (fuel : nat) (i : Item) : nat :=
  match fuel with
  | O => 0
  | S fuel' =>
      S (max_list ((λ n, match find_item n with Some j => depth fuel' j | None => 0%nat end)
                     <$> omap (λ f, named_by (f_type f)) (fields_of i)))
  end.

Definition nested (i : Item) (t : FieldType) : Prop :=
  match named_by t with
  | Some n => match find_item n with Some j => (depth 2 j < depth 2 i ≤ 2)%nat | None => False end
  | None => True
  end.
#[global] Instance nested_dec i t : Decision (nested i t).
Proof. unfold nested. repeat case_match; apply _. Defined.

(** What decoding by tags needs of a type. *)
Definition valid_tag (t : Z) : Prop := (1 ≤ t < 2 ^ 29)%Z ∧ ¬ (19000 ≤ t < 20000)%Z.
Definition resolved (t : FieldType) : Prop :=
  match t with
  | TMessage n => match it_shape <$> find_item n with Some (Struct _) => True | _ => False end
  | TEnum n => match it_shape <$> find_item n with Some (Enumeration _) => True | _ => False end
  | _ => True
  end.
Definition well_formed (i : Item) : Prop :=
  match it_shape i with
  | Struct fs =>
      NoDup (f_tag <$> fs) ∧ Forall valid_tag (f_tag <$> fs) ∧ NoDup (f_name <$> fs)
      ∧ Forall (λ f, resolved (f_type f)) fs
  | Enumeration vs => NoDup vs.*1 ∧ NoDup vs.*2 ∧ 0%Z ∈ vs.*2
  end.

#[global] Instance resolved_dec t : Decision (resolved t).
Proof. unfold resolved. repeat case_match; apply _. Defined.
#[global] Instance well_formed_dec i : Decision (well_formed i).
Proof. unfold well_formed, valid_tag. case_match; apply _. Defined.

(** ** What must stay inside *)

Definition is_secret (f : Field) : Prop := f_name f = "password" ∨ f_name f = "salt".
#[global] Instance is_secret_dec f : Decision (is_secret f).
Proof. unfold is_secret. apply _. Defined.

(** The types that handlers and gateways encode with bincode, which does not
    look at serde's attributes. *)
Definition contents : list string :=
  ["FriendshipWithUser"; "Friend"; "GroupInvitation"; "GroupMember"; "GroupInfo"; "GroupFile"; "GroupPoll";
   "GroupMuteRecord"; "GroupAnnouncement"; "Msg"].

(** Message [b] is held, at some depth, by message [a]. *)
Definition within (a b : string) : Prop :=
  rtc (λ x y, ∃ i, find_item x = Some i ∧ holds i y) a b.

(** All they hold. *)
Definition shared : list string := contents ++ ["PollOption"].


Definition closed (n : string) : Prop :=
  match find_item n with
  | Some i => Forall (λ m, m ∈ shared) (omap (λ f, named_by (f_type f)) (fields_of i))
              ∧ Forall (λ f, ¬ is_secret f) (fields_of i)
  | None => False
  end.
#[global] Instance closed_dec n : Decision (closed n).
Proof. unfold closed. case_match; apply _. Defined.

(** ** Theorems *)

(** C33. The checked-in types are those the build script asks for. Every type
    the file declares derives exactly the traits the script asks for its name,
    and those of its kind; it and its fields have exactly the serde attributes
    asked for; and every path the script names belongs to a type or a field of
    the file. *)
Theorem generated_as_configured (names : string → string → bool)
    (Hnames : ∀ p x, p ∈ (b_type_attributes settings).*1 ++ (b_field_attributes settings).*1 →
       names p x = bool_decide (p = x)) :
  Forall (as_asked names settings) generated
  ∧ (∀ p, p ∈ (b_type_attributes settings).*1 → p ∈ item_names)
  ∧ (∀ p, p ∈ (b_field_attributes settings).*1 → p ∈ field_names).
Proof.
  pose (same_text := λ p x : string, bool_decide (p = x)).
  assert (Ht : ∀ x, asked names (b_type_attributes settings) x = asked same_text (b_type_attributes settings) x)
    by (intros x; apply asked_ext; intros p Hp; apply Hnames, elem_of_app; by left).
  assert (Hf : ∀ x, asked names (b_field_attributes settings) x = asked same_text (b_field_attributes settings) x)
    by (intros x; apply asked_ext; intros p Hp; apply Hnames, elem_of_app; by right).
  assert (Hall : Forall (as_asked same_text settings) generated)
    by (apply (bool_decide_unpack _); vm_compute; exact I).
  split_and!.
  - eapply Forall_impl; [exact Hall|]. unfold as_asked. intros i (H1 & H2 & H3). rewrite Ht. split_and!; [done|done|].
    eapply Forall_impl; [exact H3|]. intros f. by rewrite Hf.
  - apply Forall_forall. apply (bool_decide_unpack _). vm_compute. exact I.
  - apply Forall_forall. apply (bool_decide_unpack _). vm_compute. exact I.
Qed.

(** Every message can be decoded by its tags: they are distinct and in range,
    the types they name are declared as they are used, an enumeration has the
    default zero, and no message holds itself, so that two levels are all there
    is. *)
Theorem messages_well_formed :
  NoDup item_names ∧ Forall well_formed generated
  ∧ Forall (λ i, ∀ n, holds i n → ∃ j, find_item n = Some j ∧ (depth 2 j < depth 2 i ≤ 2)%nat) generated.
Proof.
  split_and!; [apply (bool_decide_unpack _); vm_compute; exact I|apply (bool_decide_unpack _); vm_compute; exact I|].
  assert (H : Forall (λ i, Forall (nested i) (f_type <$> fields_of i)) generated)
    by (apply (bool_decide_unpack _); vm_compute; exact I).
  eapply Forall_impl; [exact H|]. intros i Hi n (f & E & Hf)%list_elem_of_fmap.
  rewrite Forall_forall in Hi. specialize (Hi (f_type f) (list_elem_of_fmap_2 _ _ _ Hf)). unfold nested in Hi. rewrite <- E in Hi.
  destruct (find_item n) as [j|]; [by exists j|done].
Qed.

(** Passwords stay inside. Only a user has a password or a salt, and
    neither is part of its JSON; and nothing that is encoded as the content of
    a message, which serde's attributes would not protect, holds either, at any
    depth. *)
Theorem secrets_stay_inside :
  Forall (λ i, Forall (λ f, is_secret f → it_name i = "User" ∧ f_serde f = ["skip_serializing"]) (fields_of i)) generated
  ∧ Forall (λ c, ∀ n i, within c n → find_item n = Some i → Forall (λ f, ¬ is_secret f) (fields_of i)) contents.
Proof.
  split; [apply (bool_decide_unpack _); vm_compute; exact I|].
  assert (Hclosed : Forall closed shared) by (apply (bool_decide_unpack _); vm_compute; exact I).
  rewrite Forall_forall in Hclosed.
  assert (Hin : ∀ a b, within a b → a ∈ shared → b ∈ shared).
  { intros a b Hab. induction Hab as [|x y z (i & Hi & Hy) _ IH]; [done|]. intros Hx. apply IH.
    specialize (Hclosed x Hx). unfold closed in Hclosed. rewrite Hi, !Forall_forall in Hclosed. apply Hclosed.
    apply list_elem_of_fmap in Hy as (f & E & Hf). apply list_elem_of_omap. by exists f. }
  apply Forall_forall. intros c Hc n i Hcn Hi. specialize (Hclosed n).
  unfold closed in Hclosed. rewrite Hi in Hclosed. apply Hclosed, (Hin c n Hcn), elem_of_app. by left.
Qed.

Lemma generated_as_configured_witness : Forall (as_asked String.eqb settings) generated.
Proof.
  apply (generated_as_configured String.eqb). intros p x _.
  destruct (String.eqb_spec p x); by case_bool_decide.
Defined.
