(* ===== verification/Cache.v ===== *)
(** * The Redis cache ([cache/src/redis/mod.rs], trait [cache/src/lib.rs])

    [RedisCache] with every method of the [Cache] trait. The two Lua scripts
    are translated statement by statement over the Redis commands; Lua numbers
    are exact integers here, which they are below 2^53. A method's two remote
    calls (the connection and the command) each consult the fault schedule. *)

From S2P Require Import Prelude Errors Types Tables World.

(** ** Constants and keys *)

Definition DEFAULT_SEQ_STEP : Z := 5000.
Definition CUR_SEQ_KEY : string := "cur_seq".
Definition MAX_SEQ_KEY : string := "max_seq".
Definition IS_LOADED : string := "seq_need_load".
Definition SEQ_NO_NEED_LOAD : string := "false".
Definition REGISTER_CODE_KEY : string := "register_code".
Definition REGISTER_CODE_EXPIRE : Z := 300.
Definition USER_ONLINE_SET : string := "user_online_set".
Definition GROUP_MEMBERS_ID_PREFIX : string := "group_members_id".

Definition seq_key (user_id : string) : string := ("seq:" +:+ user_id)%string.
Definition send_seq_key (user_id : string) : string := ("send_seq:" +:+ user_id)%string.
Definition members_key (gid : string) : string :=
  (GROUP_MEMBERS_ID_PREFIX +:+ ":" +:+ gid)%string.

(** [struct RedisCache]: the client and the script digests are the server's. *)
Record RedisCache : Type := mkRedisCache { rc_seq_step : Z }.

(** [RedisCache::new] and [RedisCache::from_config] *)
Definition redis_cache_new : RedisCache := mkRedisCache DEFAULT_SEQ_STEP.
Definition redis_cache_from_config (config_seq_step : Z) : RedisCache :=
  mkRedisCache (if bool_decide (config_seq_step ≠ 0)%Z then config_seq_step
                else DEFAULT_SEQ_STEP).

(** ** The Lua scripts *)

(** [tonumber(v)] of a hash field; a text makes the comparison fail. *)
Definition tonumber (v : hval) : RM Z :=
  match v with HInt z => mret z | HText _ => throw tt end.

Definition single_script (key : string) (step : Z) (now : Z) : RM (Z * Z * bool) :=
  cur ← HINCRBY now key CUR_SEQ_KEY 1;
  stored ← HGET now key MAX_SEQ_KEY;
  mx ← match stored with
       | None => HSET now key MAX_SEQ_KEY (HInt step) ;; mret step
       | Some v => tonumber v
       end;
  if (mx <? cur)%Z
  then HSET now key MAX_SEQ_KEY (HInt (mx + step)) ;; mret (cur, (mx + step)%Z, true)
  else mret (cur, mx, false).

(** A reply value of [EVALSHA]. *)
#[warnings="-register-all"]
Inductive rvalue : Type :=
| VNil | VInt (z : Z) | VData (s : string) | VBulk (vs : list rvalue).

Fixpoint group_script (step : Z) (members : list string) (now : Z) : RM (list rvalue) :=
  match members with
  | [] => mret []
  | member :: rest =>
      let key := seq_key member in
      cur ← HINCRBY now key CUR_SEQ_KEY 1;
      stored ← HGET now key MAX_SEQ_KEY;
      mx ← match stored with
           | None => HSET now key MAX_SEQ_KEY (HInt step) ;; mret step
           | Some v => tonumber v
           end;
      row ← (if (mx <? cur)%Z
             then HSET now key MAX_SEQ_KEY (HInt (mx + step)) ;;
                  mret (VBulk [VInt cur; VInt (mx + step); VInt 1])
             else mret (VBulk [VInt cur; VInt mx; VInt 0]));
      rows ← group_script step rest now;
      mret (row :: rows)
  end.

(** ** The trait methods *)

Section cache.
Context (c : RedisCache).

Definition check_seq_loaded : IO bool :=
  redis_conn ;;
  need_load ← attempt (redis_run (λ now, GET now IS_LOADED));
  match need_load with
  | inr (Some value) => mret (negb (bool_decide (value = SEQ_NO_NEED_LOAD)))
  | _ => mret true
  end.

Definition set_seq_loaded : IO unit :=
  redis_conn ;; redis_run (λ _, SET IS_LOADED SEQ_NO_NEED_LOAD).

Definition set_seq_cmds (now : Z) (max_seqs : list (string * Z * Z)) : list (RM unit) :=
  flat_map (λ '(user_id, send_max, rec_max),
    [ HSET now (send_seq_key user_id) CUR_SEQ_KEY (HInt send_max);
      HSET now (send_seq_key user_id) MAX_SEQ_KEY (HInt send_max);
      HSET now (seq_key user_id) CUR_SEQ_KEY (HInt rec_max);
      HSET now (seq_key user_id) MAX_SEQ_KEY (HInt rec_max) ]) max_seqs.

Definition set_seq (max_seqs : list (string * Z * Z)) : IO unit :=
  redis_conn ;; redis_run (λ now, pipeline (set_seq_cmds now max_seqs)).

Definition set_send_seq (max_seqs : list (string * Z)) : IO unit :=
  redis_conn ;;
  redis_run (λ now, pipeline (flat_map (λ '(user_id, mx),
    [ HSET now (send_seq_key user_id) CUR_SEQ_KEY (HInt mx);
      HSET now (send_seq_key user_id) MAX_SEQ_KEY (HInt mx) ]) max_seqs)).

(** A reply read as [i64]: nil is a type error. *)
Definition as_i64 (v : option hval) : RM Z :=
  match v with Some (HInt z) => mret z | _ => throw tt end.
(** A reply read as [Option<i64>]. *)
Definition as_opt_i64 (v : option hval) : RM (option Z) :=
  match v with
  | None => mret None
  | Some (HInt z) => mret (Some z)
  | Some (HText _) => throw tt
  end.

(** [hget(..).await.unwrap_or_default()]: a failed read is sequence 0. *)
Definition get_seq (user_id : string) : IO Z :=
  redis_conn ;;
  r ← attempt (redis_run (λ now,
        v ← HGET now (seq_key user_id) CUR_SEQ_KEY; as_i64 v));
  mret (match r with inr z => z | inl _ => 0%Z end).

Definition get_cur_seq (user_id : string) : IO (Z * Z) :=
  redis_conn ;;
  redis_run (λ now,
    v1 ← HGET now (seq_key user_id) CUR_SEQ_KEY;
    v2 ← HGET now (send_seq_key user_id) CUR_SEQ_KEY;
    s1 ← as_i64 v1; s2 ← as_i64 v2; mret (s1, s2)).

Definition get_send_seq (user_id : string) : IO (Z * Z) :=
  redis_conn ;;
  redis_run (λ now,
    v1 ← HGET now (send_seq_key user_id) CUR_SEQ_KEY;
    v2 ← HGET now (send_seq_key user_id) MAX_SEQ_KEY;
    s1 ← as_opt_i64 v1; s2 ← as_opt_i64 v2;
    mret (default 0%Z s1, default 0%Z s2)).

Definition increase_seq (user_id : string) : IO (Z * Z * bool) :=
  redis_conn ;; redis_run (single_script (seq_key user_id) (rc_seq_step c)).

Definition incr_send_seq (user_id : string) : IO (Z * Z * bool) :=
  redis_conn ;; redis_run (single_script (send_seq_key user_id) (rc_seq_step c)).

(** The loop over the reply: items that are not three integers are skipped,
    every other one takes the next member off the front ([members.remove(0)],
    which panics on an empty vector). *)
Fixpoint collect_members (response : list rvalue) (members : list string)
    : IO (list GroupMemSeq) :=
  match response with
  | [] => mret []
  | VBulk [VInt cur; VInt mx; VInt updated] :: rest =>
      match members with
      | [] => panic
      | m :: ms =>
          l ← collect_members rest ms;
          mret (mkGroupMemSeq m cur mx (bool_decide (updated ≠ 0)%Z) :: l)
      end
  | _ :: rest => collect_members rest members
  end.

Definition incr_group_seq (members : list string) : IO (list GroupMemSeq) :=
  redis_conn ;;
  response ← redis_run (group_script (rc_seq_step c) members);
  collect_members response members.

Definition query_group_members_id (gid : string) : IO (list string) :=
  redis_conn ;; redis_run (λ now, SMEMBERS now (members_key gid)).

Definition save_group_members_id (gid : string) (members_id : list string) : IO unit :=
  redis_conn ;;
  redis_run (λ now, pipeline (map (λ m, SADD now (members_key gid) m) members_id)).

Definition add_group_member_id (member_id gid : string) : IO unit :=
  redis_conn ;; redis_run (λ now, SADD now (members_key gid) member_id).

Definition remove_group_member_id (gid member_id : string) : IO unit :=
  redis_conn ;; redis_run (λ now, SREM now (members_key gid) [member_id]).

Definition remove_group_member_batch (gid : string) (member_ids : list string) : IO unit :=
  redis_conn ;; redis_run (λ now, SREM now (members_key gid) member_ids).

Definition del_group_members (gid : string) : IO unit :=
  redis_conn ;; redis_run (λ _, DEL (members_key gid)).

Definition save_register_code (email code : string) : IO unit :=
  redis_conn ;;
  redis_run (λ now, pipeline
    [ HSET now REGISTER_CODE_KEY email (HText code);
      EXPIRE now REGISTER_CODE_KEY REGISTER_CODE_EXPIRE ]).

Definition get_register_code (email : string) : IO (option string) :=
  redis_conn ;;
  redis_run (λ now,
    v ← HGET now REGISTER_CODE_KEY email;
    match v with
    | None => mret None
    | Some (HText s) => mret (Some s)
    | Some (HInt _) => throw tt
    end).

Definition del_register_code (email : string) : IO unit :=
  redis_conn ;; redis_run (λ now, HDEL now REGISTER_CODE_KEY email).

Definition user_login (user_id : string) : IO unit :=
  redis_conn ;; redis_run (λ now, SADD now USER_ONLINE_SET user_id).

Definition user_logout (user_id : string) : IO unit :=
  redis_conn ;; redis_run (λ now, SREM now USER_ONLINE_SET [user_id]).

Definition online_count : IO Z :=
  redis_conn ;; redis_run (λ now, SCARD now USER_ONLINE_SET).
End cache.

(** ** Sequence counters as the rest of the system sees them *)

(** The hash at a key that never expires. *)
Definition hash_at (r : Redis) (k : string) : option (gmap string hval) :=
  match r !! k with
  | None => Some ∅
  | Some (RHash h, None) => Some h
  | Some _ => None
  end.

Definition hint (v : option hval) : option (option Z) :=
  match v with
  | None => Some None
  | Some (HInt z) => Some (Some z)
  | Some (HText _) => None
  end.

(** The pair (cur_seq, max_seq) stored at a key. *)
Definition pseq (r : Redis) (k : string) : option (option Z * option Z) :=
  h ← hash_at r k; cu ← hint (h !! CUR_SEQ_KEY); mx ← hint (h !! MAX_SEQ_KEY); Some (cu, mx).

(** What one increment does to the pair: the reply of the script. *)
Definition bump (step : Z) (p : option Z * option Z) : Z * Z * bool :=
  let cur := (default 0 p.1 + 1)%Z in
  let mx := default step p.2 in
  if (mx <? cur)%Z then (cur, (mx + step)%Z, true) else (cur, mx, false).

(** The invariant of a counter: never used, or the current value lies in the
    last block of [step] numbers reserved up to [max_seq]. *)
Definition seq_ok (step : Z) (p : option (option Z * option Z)) : Prop :=
  match p with
  | Some (None, None) => True
  | Some (Some cu, Some mx) => (mx - step < cu ≤ mx)%Z
  | _ => False
  end.

(** The keys that hold sequence counters. *)
Definition is_seq_key (k : string) : Prop := ∃ u, k = seq_key u ∨ k = send_seq_key u.

Definition rseq_inv (step : Z) (r : Redis) : Prop := ∀ k, is_seq_key k → seq_ok step (pseq r k).
Definition seq_inv (step : Z) (w : World) : Prop := rseq_inv step (w_redis w).

(** The operations of the trait, as data. *)
Inductive CacheOp : Type :=
| OpCheckSeqLoaded | OpSetSeqLoaded | OpSetSeq (l : list (string * Z * Z))
| OpSetSendSeq (l : list (string * Z)) | OpGetSeq (u : string) | OpGetCurSeq (u : string)
| OpGetSendSeq (u : string) | OpIncreaseSeq (u : string) | OpIncrSendSeq (u : string)
| OpIncrGroupSeq (l : list string) | OpQueryMembers (g : string)
| OpSaveMembers (g : string) (l : list string) | OpAddMember (m g : string)
| OpRemoveMember (g m : string) | OpRemoveBatch (g : string) (l : list string)
| OpDelMembers (g : string) | OpSaveCode (e c : string) | OpGetCode (e : string)
| OpDelCode (e : string) | OpLogin (u : string) | OpLogout (u : string) | OpOnlineCount.

Definition run_op (c : RedisCache) (op : CacheOp) : IO unit :=
  match op with
  | OpCheckSeqLoaded => check_seq_loaded ≫= λ _, mret tt
  | OpSetSeqLoaded => set_seq_loaded
  | OpSetSeq l => set_seq l
  | OpSetSendSeq l => set_send_seq l
  | OpGetSeq u => get_seq u ≫= λ _, mret tt
  | OpGetCurSeq u => get_cur_seq u ≫= λ _, mret tt
  | OpGetSendSeq u => get_send_seq u ≫= λ _, mret tt
  | OpIncreaseSeq u => increase_seq c u ≫= λ _, mret tt
  | OpIncrSendSeq u => incr_send_seq c u ≫= λ _, mret tt
  | OpIncrGroupSeq l => incr_group_seq c l ≫= λ _, mret tt
  | OpQueryMembers g => query_group_members_id g ≫= λ _, mret tt
  | OpSaveMembers g l => save_group_members_id g l
  | OpAddMember m g => add_group_member_id m g
  | OpRemoveMember g m => remove_group_member_id g m
  | OpRemoveBatch g l => remove_group_member_batch g l
  | OpDelMembers g => del_group_members g
  | OpSaveCode e x => save_register_code e x
  | OpGetCode e => get_register_code e ≫= λ _, mret tt
  | OpDelCode e => del_register_code e
  | OpLogin u => user_login u
  | OpLogout u => user_logout u
  | OpOnlineCount => online_count ≫= λ _, mret tt
  end.

(** The members script as the single script run once per member. *)
Fixpoint iterate_single (step : Z) (members : list string) (now : Z) : RM (list rvalue) :=
  match members with
  | [] => mret []
  | m :: rest =>
      '(cur, mx, updated) ← single_script (seq_key m) step now;
      rows ← iterate_single step rest now;
      mret (VBulk [VInt cur; VInt mx; VInt (if updated : bool then 1 else 0)] :: rows)
  end.

(** ** Keys do not collide *)

Lemma seq_key_inj u v : seq_key u = seq_key v → u = v.
Proof. unfold seq_key. by intros [=]. Qed.
Lemma send_seq_key_inj u v : send_seq_key u = send_seq_key v → u = v.
Proof. unfold send_seq_key. by intros [=]. Qed.
Lemma members_key_inj g h : members_key g = members_key h → g = h.
Proof. unfold members_key. by intros [=]. Qed.

Lemma seq_send_key_ne u v : seq_key u ≠ send_seq_key v.
Proof. done. Qed.
Lemma members_key_not_seq g : ¬ is_seq_key (members_key g).
Proof. intros [u [?|?]]; done. Qed.
Lemma register_key_not_seq : ¬ is_seq_key REGISTER_CODE_KEY.
Proof. intros [u [?|?]]; done. Qed.
Lemma online_key_not_seq : ¬ is_seq_key USER_ONLINE_SET.
Proof. intros [u [?|?]]; done. Qed.
Lemma loaded_key_not_seq : ¬ is_seq_key IS_LOADED.
Proof. intros [u [?|?]]; done. Qed.
Create HintDb keys.
#[export] Hint Resolve seq_send_key_ne members_key_not_seq register_key_not_seq
  online_key_not_seq loaded_key_not_seq : keys.

(** ** Commands on one key leave the others alone *)

Definition only_key (k : string) (r r' : Redis) : Prop := ∀ k', k' ≠ k → r' !! k' = r !! k'.
Global Instance only_key_preorder k : PreOrder (only_key k).
Proof. split; unfold only_key; [done|]. intros r1 r2 r3 H1 H2 k' Hk. by rewrite H2, H1. Qed.

Section only_key.
Context (now : Z) (k : string).
Lemma only_key_rput r v : only_key k r (rput now r k v).
Proof. intros k' Hk. by apply lookup_rput_ne. Qed.

Lemma only_key_HGET f : keeps (only_key k) (HGET now k f).
Proof. intros r. unfold HGET. by case_match. Qed.
Lemma only_key_HSET f v : keeps (only_key k) (HSET now k f v).
Proof. intros r. unfold HSET. case_match; simpl; [apply only_key_rput|done]. Qed.
Lemma only_key_HDEL f : keeps (only_key k) (HDEL now k f).
Proof. intros r. unfold HDEL. case_match; simpl; [apply only_key_rput|done]. Qed.
Lemma only_key_HINCRBY f z : keeps (only_key k) (HINCRBY now k f z).
Proof. intros r. unfold HINCRBY. repeat case_match; simpl; (apply only_key_rput || done). Qed.
Lemma only_key_SADD m : keeps (only_key k) (SADD now k m).
Proof. intros r. unfold SADD. case_match; simpl; [apply only_key_rput|done]. Qed.
Lemma only_key_SREM l : keeps (only_key k) (SREM now k l).
Proof. intros r. unfold SREM. destruct l; [done|]. case_match; simpl; [apply only_key_rput|done]. Qed.
Lemma only_key_SMEMBERS : keeps (only_key k) (SMEMBERS now k).
Proof. intros r. unfold SMEMBERS. by case_match. Qed.
Lemma only_key_SCARD : keeps (only_key k) (SCARD now k).
Proof. intros r. unfold SCARD. by case_match. Qed.
Lemma only_key_GET : keeps (only_key k) (GET now k).
Proof. intros r. unfold GET. repeat case_match; done. Qed.
Lemma only_key_SET s : keeps (only_key k) (SET k s).
Proof. intros r k' Hk. unfold SET. mstep. by rewrite lookup_insert_ne. Qed.
Lemma only_key_DEL : keeps (only_key k) (DEL k).
Proof. intros r k' Hk. unfold DEL. mstep. by rewrite lookup_delete_ne. Qed.
Lemma only_key_EXPIRE s : keeps (only_key k) (EXPIRE now k s).
Proof.
  intros r k' Hk. unfold EXPIRE. mstep. case_match; [|done]. by rewrite lookup_insert_ne.
Qed.
End only_key.
#[export] Hint Resolve only_key_HGET only_key_HSET only_key_HDEL only_key_HINCRBY
  only_key_SADD only_key_SREM only_key_SMEMBERS only_key_SCARD only_key_GET only_key_SET
  only_key_DEL only_key_EXPIRE : frames.

Lemma keeps_pipeline (R : Redis → Redis → Prop) `{!PreOrder R} cs :
  Forall (keeps R) cs → keeps R (pipeline cs).
Proof.
  induction 1 as [|c cs Hc _ IH]; intros r; simpl; [reflexivity|].
  specialize (Hc r). destruct (c r) as [[] r']; simpl in *; etrans; eauto; apply IH.
Qed.

Lemma only_key_single_script k step now : keeps (only_key k) (single_script k step now).
Proof.
  unfold single_script.
  apply keeps_bind; [apply _|auto with frames|]. intros cur.
  apply keeps_bind; [apply _|auto with frames|]. intros stored.
  apply keeps_bind; [apply _| |].
  - destruct stored as [[]|]; simpl; try (apply keeps_ret || apply keeps_throw); try apply _.
    apply keeps_bind; [apply _|auto with frames|]. intros _. by apply keeps_ret, _.
  - intros mx. apply keeps_if; [|by apply keeps_ret, _].
    apply keeps_bind; [apply _|auto with frames|]. intros _. by apply keeps_ret, _.
Qed.

(** ** Commands on a permanent hash *)

Lemma hash_at_rhash now r k h : hash_at r k = Some h → rhash now r k = Some h.
Proof.
  unfold hash_at, rhash, rget. destruct (r !! k) as [[[] []]|]; simpl; naive_solver.
Qed.

Lemma hash_at_rput now r k h h' :
  hash_at r k = Some h → hash_at (rput now r k (RHash h')) k = Some h'.
Proof.
  unfold hash_at, rput, rttl. intros Hh. case_bool_decide as Hd.
  - by rewrite lookup_delete_eq, Hd.
  - rewrite lookup_insert_eq. destruct (r !! k) as [[[] []]|]; simpl in *; naive_solver.
Qed.

Lemma hash_at_other k r r' k' : only_key k r r' → k' ≠ k → hash_at r' k' = hash_at r k'.
Proof. intros H Hk. unfold hash_at. by rewrite H. Qed.

Lemma pseq_other k r r' k' : only_key k r r' → k' ≠ k → pseq r' k' = pseq r k'.
Proof. intros H Hk. unfold pseq. by rewrite (hash_at_other k r r'). Qed.

(** What is read at one key depends on that key. *)
Lemma rset_only_key now k k' r r' : only_key k r r' → k' ≠ k → rset now r' k' = rset now r k'.
Proof. intros Ho Hk. unfold rset, rget. by rewrite (Ho k' Hk). Qed.

Lemma pseq_hash r k p :
  pseq r k = Some p →
  ∃ h, hash_at r k = Some h ∧ hint (h !! CUR_SEQ_KEY) = Some p.1
     ∧ hint (h !! MAX_SEQ_KEY) = Some p.2.
Proof.
  unfold pseq. destruct (hash_at r k) as [h|]; simpl; [|done].
  destruct (hint (h !! CUR_SEQ_KEY)) eqn:?; simpl; [|done].
  destruct (hint (h !! MAX_SEQ_KEY)) eqn:?; simpl; [|done].
  intros [= <-]. eauto.
Qed.

Lemma pseq_of_hash r k h : hash_at r k = Some h →
  pseq r k = (cu ← hint (h !! CUR_SEQ_KEY); mx ← hint (h !! MAX_SEQ_KEY); Some (cu, mx)).
Proof. unfold pseq. by intros ->. Qed.

Lemma HINCRBY_run now r k f by_ h o :
  hash_at r k = Some h → hint (h !! f) = Some o → in_i64 (default 0 o + by_)%Z = true →
  HINCRBY now k f by_ r
    = (Ok (default 0 o + by_)%Z, rput now r k (RHash (<[f:=HInt (default 0 o + by_)%Z]> h))).
Proof.
  intros Hh Ho Hi. unfold HINCRBY. rewrite (hash_at_rhash now r k h Hh).
  destruct (h !! f) as [[]|]; simplify_eq/=; by rewrite Hi.
Qed.

Lemma HINCRBY_overflow now r k f by_ h o :
  hash_at r k = Some h → hint (h !! f) = Some o → in_i64 (default 0 o + by_)%Z = false →
  HINCRBY now k f by_ r = (Err tt, r).
Proof.
  intros Hh Ho Hi. unfold HINCRBY. rewrite (hash_at_rhash now r k h Hh).
  destruct (h !! f) as [[]|]; simplify_eq/=; by rewrite Hi.
Qed.

Lemma HSET_run now r k f v h :
  hash_at r k = Some h → HSET now k f v r = (Ok tt, rput now r k (RHash (<[f:=v]> h))).
Proof. intros Hh. unfold HSET. by rewrite (hash_at_rhash now r k h Hh). Qed.

Lemma HGET_run now r k f h : hash_at r k = Some h → HGET now k f r = (Ok (h !! f), r).
Proof. intros Hh. unfold HGET. by rewrite (hash_at_rhash now r k h Hh). Qed.

Lemma cur_ne_max : CUR_SEQ_KEY ≠ MAX_SEQ_KEY.
Proof. done. Qed.

(** ** The increment script *)

Definition pair_of (x : Z * Z * bool) : option Z * option Z := (Some x.1.1, Some x.1.2).

Lemma single_script_run now r k step p :
  pseq r k = Some p → in_i64 (default 0 p.1 + 1)%Z = true →
  ∃ r', single_script k step now r = (Ok (bump step p), r')
      ∧ pseq r' k = Some (pair_of (bump step p)) ∧ only_key k r r'.
Proof.
  intros (h & Hh & Hc & Hm)%pseq_hash Hi.
  assert (Honly := only_key_single_script k step now r). revert Honly.
  unfold single_script, bump, pair_of. mstep. erewrite HINCRBY_run by eassumption. simpl.
  set (cur := (default 0 p.1 + 1)%Z) in *.
  set (r1 := rput now r k _).
  assert (Hr1 : hash_at r1 k = Some (<[CUR_SEQ_KEY:=HInt cur]> h)) by (eapply hash_at_rput; eassumption).
  rewrite (HGET_run _ _ _ _ _ Hr1), lookup_insert_ne by done.
  destruct (h !! MAX_SEQ_KEY) as [[m|]|] eqn:E; simplify_eq/=; rewrite <- Hm; simpl.
  - destruct (m <? cur)%Z eqn:Hgt; rewrite ?Hgt; mstep.
    + erewrite HSET_run by eassumption. simpl. intros Honly. eexists. split_and!; [done| |done].
      erewrite pseq_of_hash by (eapply hash_at_rput; eassumption). by simplify_map_eq.
    + intros Honly. eexists. split_and!; [done| |done].
      erewrite pseq_of_hash by eassumption. by simplify_map_eq.
  - erewrite HSET_run by eassumption. simpl.
    set (r2 := rput now r1 k _).
    assert (Hr2 : hash_at r2 k = Some (<[MAX_SEQ_KEY:=HInt step]> (<[CUR_SEQ_KEY:=HInt cur]> h)))
      by (eapply hash_at_rput; eassumption).
    destruct (step <? cur)%Z eqn:Hgt; rewrite ?Hgt; mstep.
    + erewrite HSET_run by eassumption. simpl. intros Honly. eexists. split_and!; [done| |done].
      erewrite pseq_of_hash by (eapply hash_at_rput; eassumption). by simplify_map_eq.
    + intros Honly. eexists. split_and!; [done| |done].
      erewrite pseq_of_hash by eassumption. by simplify_map_eq.
Qed.

Lemma single_script_overflow now r k step p :
  pseq r k = Some p → in_i64 (default 0 p.1 + 1)%Z = false →
  single_script k step now r = (Err tt, r).
Proof.
  intros (h & Hh & Hc & _)%pseq_hash Hi. unfold single_script. mstep.
  by erewrite HINCRBY_overflow by eassumption.
Qed.

Lemma bump_ok step p : (0 < step)%Z → seq_ok step (Some p) →
  seq_ok step (Some (pair_of (bump step p))).
Proof.
  intros Hs. destruct p as [[c|] [m|]]; simpl; try done; unfold bump; simpl;
    case (Z.ltb_spec _ _); simpl; lia.
Qed.

Lemma seq_ok_Some step p : seq_ok step p → ∃ q, p = Some q ∧ seq_ok step (Some q).
Proof. destruct p; simpl; naive_solver. Qed.

Lemma increase_seq_run c u w p :
  healthy w → pseq (w_redis w) (seq_key u) = Some p → in_i64 (default 0 p.1 + 1)%Z = true →
  ∃ r', increase_seq c u w = (Ok (bump (rc_seq_step c) p), upd_redis (λ _, r') w)
      ∧ pseq r' (seq_key u) = Some (pair_of (bump (rc_seq_step c) p))
      ∧ only_key (seq_key u) (w_redis w) r'.
Proof.
  intros Hnet Hp Hi. unfold increase_seq. mstep. rewrite redis_conn_healthy by done.
  destruct (single_script_run (w_clock w) _ _ (rc_seq_step c) _ Hp Hi) as (r' & Hr & Hp' & Ho).
  exists r'. by rewrite (redis_run_healthy _ _ _ _ Hnet Hr).
Qed.

Lemma incr_send_seq_run c u w p :
  healthy w → pseq (w_redis w) (send_seq_key u) = Some p → in_i64 (default 0 p.1 + 1)%Z = true →
  ∃ r', incr_send_seq c u w = (Ok (bump (rc_seq_step c) p), upd_redis (λ _, r') w)
      ∧ pseq r' (send_seq_key u) = Some (pair_of (bump (rc_seq_step c) p))
      ∧ only_key (send_seq_key u) (w_redis w) r'.
Proof.
  intros Hnet Hp Hi. unfold incr_send_seq. mstep. rewrite redis_conn_healthy by done.
  destruct (single_script_run (w_clock w) _ _ (rc_seq_step c) _ Hp Hi) as (r' & Hr & Hp' & Ho).
  exists r'. by rewrite (redis_run_healthy _ _ _ _ Hnet Hr).
Qed.

(** One increment, on every branch: on a counter the script replies the
    previous value plus one together with the reserved maximum, extends the
    reservation by [seq_step] and says so exactly when the new value passes
    it, stores the reply, and touches no other key; at the end of the 64-bit
    range it fails and changes nothing. *)
Theorem increase_seq_functional (c : RedisCache) (u : string) (w : World)
    (p : option Z * option Z)
    (Hnet : healthy w) (Hp : pseq (w_redis w) (seq_key u) = Some p) :
  if in_i64 (default 0 p.1 + 1)%Z
  then ∃ r', increase_seq c u w = (Ok (bump (rc_seq_step c) p), upd_redis (λ _, r') w)
           ∧ pseq r' (seq_key u) = Some (pair_of (bump (rc_seq_step c) p))
           ∧ (∀ k, k ≠ seq_key u → r' !! k = w_redis w !! k)
  else increase_seq c u w = (Err redis_error, w).
Proof.
  destruct (in_i64 _) eqn:Hi; [by apply increase_seq_run|].
  unfold increase_seq. mstep. rewrite redis_conn_healthy by done. unfold redis_run.
  rewrite remote_healthy by done. rewrite (single_script_overflow _ _ _ _ _ Hp Hi).
  by rewrite upd_redis_id.
Qed.

Lemma increase_seq_functional_witness :
  increase_seq redis_cache_new "u" world_empty
    = (Ok (1%Z, 5000%Z, false), (increase_seq redis_cache_new "u" world_empty).2).
Proof.
  destruct (increase_seq_functional redis_cache_new "u" world_empty (None, None)
    eq_refl eq_refl) as (r' & Hr & _). exact (eq_trans Hr (f_equal _ (f_equal snd (eq_sym Hr)))).
Defined.

(** ** The group script *)

Lemma group_script_iterate step members now : ∀ r,
  group_script step members now r = iterate_single step members now r.
Proof.
  induction members as [|m members IH]; intros r; [done|].
  cbn [group_script iterate_single]. unfold single_script.
  mstep. destruct (HINCRBY _ _ _ _ _) as [[cur| | |] r1]; try done.
  destruct (HGET _ _ _ _) as [[stored| | |] r2]; try done.
  destruct stored as [[m'|]|]; simpl; try done.
  - destruct (_ <? _)%Z; [destruct (HSET _ _ _ _ _) as [[]]; try done|]; by rewrite IH.
  - destruct (HSET _ _ _ _ _) as [[] r3]; try done.
    destruct (_ <? _)%Z; [destruct (HSET _ _ _ _ _) as [[]]; try done|]; by rewrite IH.
Qed.

(** C29. The batched group script is equivalent to running the single-user
    script once per member, in order: same replies, same Redis state and same
    error behaviour from every state. *)
Theorem group_script_equiv (step : Z) (members : list string) (now : Z) (r : Redis) :
  group_script step members now r = iterate_single step members now r.
Proof. apply group_script_iterate. Qed.

(** ** The counter invariant *)

Lemma is_seq_key_seq u : is_seq_key (seq_key u).
Proof. exists u; auto. Qed.
Lemma is_seq_key_send u : is_seq_key (send_seq_key u).
Proof. exists u; auto. Qed.
#[export] Hint Resolve is_seq_key_seq is_seq_key_send : keys.

Lemma rseq_inv_only_key step k r r' :
  only_key k r r' → seq_ok step (pseq r' k) ∨ ¬ is_seq_key k →
  preserving (rseq_inv step) r r'.
Proof.
  intros Ho Hk Hr k' Hk'. destruct (decide (k' = k)) as [->|Hne]; [by destruct Hk|].
  rewrite (pseq_other k r r') by done. by apply Hr.
Qed.

Lemma keeps_other_key {A} step k (m : RM A) :
  ¬ is_seq_key k → keeps (only_key k) m → keeps (preserving (rseq_inv step)) m.
Proof. intros Hk Hm r. apply (rseq_inv_only_key step k); auto. Qed.

Lemma keeps_single_script step k now :
  (0 < step)%Z → is_seq_key k → keeps (preserving (rseq_inv step)) (single_script k step now).
Proof.
  intros Hs Hk r Hr. destruct (seq_ok_Some _ _ (Hr k Hk)) as (p & Hp & Hok).
  destruct (in_i64 (default 0 p.1 + 1)%Z) eqn:Hi.
  - destruct (single_script_run now r k step p Hp Hi) as (r' & -> & Hp' & Ho). simpl.
    apply (rseq_inv_only_key step k r); [done| |done]. left. rewrite Hp'. by apply bump_ok.
  - by rewrite (single_script_overflow _ _ _ _ _ Hp Hi).
Qed.

Lemma keeps_iterate_single step members now :
  (0 < step)%Z → keeps (preserving (rseq_inv step)) (iterate_single step members now).
Proof.
  intros Hs. induction members as [|m ms IH]; simpl; [apply keeps_ret, _|].
  apply keeps_bind; [apply _|by apply keeps_single_script; auto with keys|].
  intros [[cur mx] upd]. apply keeps_bind; [apply _|done|]. intros rows. apply keeps_ret, _.
Qed.

Lemma pipeline_app cs1 cs2 r :
  (pipeline (cs1 ++ cs2) r).2 = (pipeline cs2 (pipeline cs1 r).2).2.
Proof.
  revert r. induction cs1 as [|c cs1 IH]; intros r; simpl; [done|].
  destruct (c r) as [[] r']; simpl; by rewrite <- IH.
Qed.

Lemma keeps_pipeline_flat_map {A} (R : Redis → Redis → Prop) `{!PreOrder R}
    (f : A → list (RM unit)) l :
  (∀ x, keeps R (pipeline (f x))) → keeps R (pipeline (flat_map f l)).
Proof.
  intros Hf. induction l as [|x l IH]; intros r; simpl; [reflexivity|].
  rewrite pipeline_app. etrans; [apply Hf|apply IH].
Qed.

Lemma hset_pair now r k v h :
  hash_at r k = Some h →
  ∃ r', pipeline [HSET now k CUR_SEQ_KEY (HInt v); HSET now k MAX_SEQ_KEY (HInt v)] r = (Ok tt, r')
      ∧ pseq r' k = Some (Some v, Some v) ∧ only_key k r r'.
Proof.
  intros Hh. cbn [pipeline]. rewrite (HSET_run _ _ _ _ _ _ Hh).
  assert (Hh1 := hash_at_rput now r k h (<[CUR_SEQ_KEY:=HInt v]> h) Hh).
  rewrite (HSET_run _ _ _ _ _ _ Hh1). mstep. eexists. split_and!; [done| |].
  - erewrite pseq_of_hash by (eapply hash_at_rput; eassumption).
    by simplify_map_eq.
  - etrans; apply only_key_rput.
Qed.

Lemma keeps_hset_pair step now k v :
  (0 < step)%Z →
  is_seq_key k → keeps (preserving (rseq_inv step))
    (pipeline [HSET now k CUR_SEQ_KEY (HInt v); HSET now k MAX_SEQ_KEY (HInt v)]).
Proof.
  intros Hs Hk r Hr. destruct (seq_ok_Some _ _ (Hr k Hk)) as (p & (h & Hh & _)%pseq_hash & _).
  destruct (hset_pair now r k v h Hh) as (r' & -> & Hp & Ho).
  apply (rseq_inv_only_key step k r); [done| |done]. left; simpl. rewrite Hp. simpl. lia.
Qed.

Lemma seq_inv_faults step w fs : preserving (seq_inv step) w (upd_faults (λ _, fs) w).
Proof. intros H. exact H. Qed.

Lemma keeps_redis_conn step : keeps (preserving (seq_inv step)) redis_conn.
Proof. apply keeps_remote; [apply _|apply seq_inv_faults|apply keeps_ret, _]. Qed.

Lemma keeps_run_redis {A} step (c : Z → RM A) :
  (∀ now, keeps (preserving (rseq_inv step)) (c now)) →
  keeps (preserving (seq_inv step)) (redis_run c).
Proof.
  intros Hc. apply keeps_redis_run; [apply _|apply seq_inv_faults|]. intros w. apply Hc.
Qed.

Lemma keeps_conn_run {A} step (c : Z → RM A) :
  (∀ now, keeps (preserving (rseq_inv step)) (c now)) →
  keeps (preserving (seq_inv step)) (redis_conn ;; redis_run c).
Proof.
  intros Hc. apply keeps_bind; [apply _|apply keeps_redis_conn|].
  intros _. by apply keeps_run_redis.
Qed.

Lemma keeps_reads {A} step now k f (g : option hval → RM A) :
  (∀ v, keeps (preserving (rseq_inv step)) (g v)) →
  keeps (preserving (rseq_inv step)) (HGET now k f ≫= g).
Proof.
  intros Hg. apply keeps_bind; [apply _| |done]. intros r. unfold HGET. by case_match.
Qed.

Lemma keeps_as_i64 step v : keeps (preserving (rseq_inv step)) (as_i64 v).
Proof. destruct v as [[]|]; (apply keeps_ret || apply keeps_throw); apply _. Qed.
Lemma keeps_as_opt_i64 step v : keeps (preserving (rseq_inv step)) (as_opt_i64 v).
Proof. destruct v as [[]|]; (apply keeps_ret || apply keeps_throw); apply _. Qed.

Lemma keeps_collect (R : World → World → Prop) `{!PreOrder R} response : ∀ members,
  keeps R (collect_members response members).
Proof.
  induction response as [|v response IH]; intros members; simpl; [apply keeps_ret, _|].
  repeat case_match; try apply IH; try (apply keeps_panic, _).
  apply keeps_bind; [apply _|apply IH|]. intros res. apply keeps_ret, _.
Qed.

Lemma keeps_void {A} (R : World → World → Prop) `{!PreOrder R} (m : IO A) :
  keeps R m → keeps R (m ≫= λ _, mret tt).
Proof. intros. apply keeps_bind; [done|done|]. intros _. apply keeps_ret, _. Qed.

(** C12. Every operation of the cache preserves the counter invariant on every
    path, under every schedule of network faults: each receive and send
    counter is either unused or has its current value inside the last reserved
    block, [max_seq - seq_step < cur_seq ≤ max_seq]. *)
Theorem cache_ops_preserve_seq_inv (c : RedisCache) (op : CacheOp) (w : World)
    (Hstep : (0 < rc_seq_step c)%Z) (Hinv : seq_inv (rc_seq_step c) w) :
  seq_inv (rc_seq_step c) (run_op c op w).2.
Proof.
  revert w Hinv. set (step := rc_seq_step c) in *.
  change (keeps (preserving (seq_inv step)) (run_op c op)).
  destruct op; cbn [run_op]; try (apply keeps_void; [apply _|]);
    try (apply keeps_conn_run; intros now;
         eapply keeps_other_key; [|solve [eauto with frames]]; solve [eauto with keys]);
    try (apply keeps_conn_run; intros now; apply keeps_single_script; solve [auto with keys]).
  - unfold check_seq_loaded. apply keeps_bind; [apply _|apply keeps_redis_conn|intros _].
    apply keeps_bind; [apply _| |intros [|[]]; apply keeps_ret, _].
    apply keeps_attempt, keeps_run_redis. intros now.
    apply (keeps_other_key _ IS_LOADED); auto with keys frames.
  - apply keeps_conn_run. intros now. apply keeps_pipeline_flat_map; [apply _|].
    intros [[u s] v]. change (keeps (preserving (rseq_inv step)) (pipeline
      ([HSET now (send_seq_key u) CUR_SEQ_KEY (HInt s); HSET now (send_seq_key u) MAX_SEQ_KEY (HInt s)]
       ++ [HSET now (seq_key u) CUR_SEQ_KEY (HInt v); HSET now (seq_key u) MAX_SEQ_KEY (HInt v)]))).
    intros r. rewrite pipeline_app. etrans; apply keeps_hset_pair; auto with keys.
  - apply keeps_conn_run. intros now. apply keeps_pipeline_flat_map; [apply _|].
    intros [u s]. apply keeps_hset_pair; auto with keys.
  - unfold get_seq. apply keeps_bind; [apply _|apply keeps_redis_conn|intros _].
    apply keeps_bind; [apply _| |intros ?; apply keeps_ret, _].
    apply keeps_attempt, keeps_run_redis. intros now. apply keeps_reads. apply keeps_as_i64.
  - apply keeps_conn_run. intros now. do 2 (apply keeps_reads; intros ?).
    do 2 (apply keeps_bind; [apply _|apply keeps_as_i64|intros ?]). apply keeps_ret, _.
  - apply keeps_conn_run. intros now. do 2 (apply keeps_reads; intros ?).
    do 2 (apply keeps_bind; [apply _|apply keeps_as_opt_i64|intros ?]). apply keeps_ret, _.
  - unfold incr_group_seq. apply keeps_bind; [apply _|apply keeps_redis_conn|intros _].
    apply keeps_bind; [apply _| |intros ?; apply keeps_collect, _].
    apply keeps_run_redis. intros now r. rewrite group_script_iterate. by apply keeps_iterate_single.
  - apply keeps_conn_run. intros now. apply keeps_pipeline; [apply _|].
    apply Forall_forall. intros m (x & -> & _)%list_elem_of_fmap.
    apply (keeps_other_key _ (members_key g)); auto with keys frames.
  - apply keeps_conn_run. intros now. apply keeps_pipeline; [apply _|].
    repeat constructor; apply (keeps_other_key _ REGISTER_CODE_KEY); auto with keys frames.
  - apply keeps_conn_run. intros now. apply keeps_reads.
    intros [[]|]; (apply keeps_ret || apply keeps_throw); apply _.
Qed.

Lemma cache_ops_preserve_seq_inv_witness :
  seq_inv 5000 (run_op redis_cache_new (OpIncrGroupSeq ["a"; "b"]%string) world_empty).2.
Proof.
  apply (cache_ops_preserve_seq_inv redis_cache_new (OpIncrGroupSeq ["a"; "b"]%string) world_empty).
  - reflexivity.
  - intros k _. exact I.
Defined.

(** ** Incrementing a group *)

(** The entry [incr_group_seq] returns for a member, from the state before. *)
Definition member_seq (step : Z) (r : Redis) (m : string) : GroupMemSeq :=
  let b := bump step (default (None, None) (pseq r (seq_key m))) in
  mkGroupMemSeq m b.1.1 b.1.2 b.2.

(** Every listed member has a counter with room for one more number. *)
Definition can_bump (r : Redis) (m : string) : Prop :=
  ∃ p, pseq r (seq_key m) = Some p ∧ in_i64 (default 0 p.1 + 1)%Z = true.

Definition seq_row (g : GroupMemSeq) : rvalue :=
  VBulk [VInt (cur_seq g); VInt (max_seq g); VInt (if need_update g then 1 else 0)].

Lemma members_not_send gid u : members_key gid ≠ send_seq_key u.
Proof. intros E. apply (members_key_not_seq gid). rewrite E. apply is_seq_key_send. Qed.

Lemma seq_not_members u gid : seq_key u ≠ members_key gid.
Proof. intros E. apply (members_key_not_seq gid). rewrite <- E. apply is_seq_key_seq. Qed.

Lemma can_bump_other r r' k m :
  only_key k r r' → seq_key m ≠ k → can_bump r m → can_bump r' m.
Proof. intros Ho Hk (p & Hp & ?). exists p. by rewrite (pseq_other k r r'). Qed.

Lemma iterate_single_run step now members : ∀ r,
  NoDup members → Forall (can_bump r) members →
  ∃ r', iterate_single step members now r = (Ok (seq_row ∘ member_seq step r <$> members), r')
      ∧ Forall (λ m, pseq r' (seq_key m)
          = Some (Some (cur_seq (member_seq step r m)), Some (max_seq (member_seq step r m)))) members
      ∧ (∀ k, k ∉ (seq_key <$> members) → r' !! k = r !! k).
Proof.
  induction members as [|m ms IH]; intros r Hnd Hall; [by exists r|].
  apply NoDup_cons in Hnd as [Hm Hnd]. apply Forall_cons in Hall as [(p & Hp & Hi) Hall].
  destruct (single_script_run now r (seq_key m) step p Hp Hi) as (r1 & Hr1 & Hp1 & Ho1).
  assert (Hother : ∀ x, x ∈ ms → seq_key x ≠ seq_key m)
    by (intros x Hx Heq%seq_key_inj; subst; done).
  destruct (IH r1) as (r2 & Hr2 & Hp2 & Ho2); [done| |].
  { apply Forall_forall. intros x Hx. rewrite Forall_forall in Hall.
    eapply can_bump_other; eauto. }
  assert (Hsame : ∀ x, x ∈ ms → member_seq step r1 x = member_seq step r x).
  { intros x Hx. unfold member_seq. by rewrite (pseq_other (seq_key m) r r1) by auto. }
  assert (Hmap : seq_row ∘ member_seq step r1 <$> ms = seq_row ∘ member_seq step r <$> ms).
  { apply list_fmap_ext. intros i x Hx%list_elem_of_lookup_2. simpl. by rewrite Hsame. }
  exists r2. split_and!.
  - cbn [iterate_single]. mstep. rewrite Hr1.
    assert (member_seq step r m = mkGroupMemSeq m (bump step p).1.1 (bump step p).1.2 (bump step p).2)
      as -> by (unfold member_seq; by rewrite Hp).
    destruct (bump step p) as [[cur mx] up]. rewrite Hr2, Hmap. done.
  - constructor.
    + assert (pseq r2 (seq_key m) = pseq r1 (seq_key m)) as ->.
      { unfold pseq, hash_at. rewrite Ho2; [done|].
        intros (x & Heq & Hx)%list_elem_of_fmap. apply (Hother x); done. }
      rewrite Hp1. unfold member_seq, pair_of. by rewrite Hp.
    + rewrite Forall_forall in Hp2 |- *. intros x Hx. rewrite (Hp2 x Hx). by rewrite Hsame.
  - intros k Hk. rewrite fmap_cons, not_elem_of_cons in Hk. destruct Hk as [Hk Hk'].
    rewrite Ho2 by done. by apply Ho1.
Qed.

Lemma collect_members_rows (gs : list GroupMemSeq) w :
  collect_members (seq_row <$> gs) (mem_id <$> gs) w = (Ok gs, w).
Proof.
  induction gs as [|[m cu mx up] gs IH]; [done|]. cbn. mstep. rewrite IH. by destruct up.
Qed.

Lemma incr_group_seq_run (c : RedisCache) (members : list string) (w : World)
    (Hnet : healthy w) (Hnd : NoDup members) (Hall : Forall (can_bump (w_redis w)) members) :
  ∃ r', incr_group_seq c members w
          = (Ok (member_seq (rc_seq_step c) (w_redis w) <$> members), upd_redis (λ _, r') w)
      ∧ Forall (λ m, pseq r' (seq_key m)
          = Some (Some (cur_seq (member_seq (rc_seq_step c) (w_redis w) m)),
                  Some (max_seq (member_seq (rc_seq_step c) (w_redis w) m)))) members
      ∧ (∀ k, k ∉ (seq_key <$> members) → r' !! k = w_redis w !! k).
Proof.
  destruct (iterate_single_run (rc_seq_step c) (w_clock w) members _ Hnd Hall)
    as (r' & Hr & Hp & Ho).
  exists r'. split_and!; [|done..]. unfold incr_group_seq. mstep.
  rewrite redis_conn_healthy by done.
  rewrite <- group_script_iterate in Hr. rewrite (redis_run_healthy _ _ _ _ Hnet Hr).
  rewrite list_fmap_compose.
  assert (mem_id <$> (member_seq (rc_seq_step c) (w_redis w) <$> members) = members) as Hids.
  { rewrite <- list_fmap_compose. rewrite <- (list_fmap_id members) at 2.
    by apply list_fmap_ext. }
  rewrite <- Hids at 2. by rewrite collect_members_rows.
Qed.

(** Incrementing a group of distinct members answers one entry per member,
    in the order asked, carrying that member's next number, its reserved
    maximum and whether the reservation grew; exactly those members' receive
    counters advance, every other key of the cache is untouched. *)
Theorem incr_group_seq_functional (c : RedisCache) (members : list string) (w : World)
    (Hnet : healthy w) (Hnd : NoDup members) (Hall : Forall (can_bump (w_redis w)) members) :
  ∃ r', incr_group_seq c members w
          = (Ok (member_seq (rc_seq_step c) (w_redis w) <$> members), upd_redis (λ _, r') w)
      ∧ Forall (λ m, pseq r' (seq_key m)
          = Some (Some (cur_seq (member_seq (rc_seq_step c) (w_redis w) m)),
                  Some (max_seq (member_seq (rc_seq_step c) (w_redis w) m)))) members
      ∧ (∀ k, k ∉ (seq_key <$> members) → r' !! k = w_redis w !! k).
Proof. by apply incr_group_seq_run. Qed.

Lemma incr_group_seq_functional_witness :
  (incr_group_seq (mkRedisCache 1) ["a"; "b"]%string world_empty).1
    = Ok [mkGroupMemSeq "a" 1 1 false; mkGroupMemSeq "b" 1 1 false].
Proof.
  destruct (incr_group_seq_functional (mkRedisCache 1) ["a"; "b"]%string world_empty)
    as (r' & Hr & _).
  - reflexivity.
  - apply (bool_decide_eq_true_1 _). reflexivity.
  - repeat constructor; exists (None, None); split; reflexivity.
  - rewrite Hr. reflexivity.
Defined.

(** ** Reads of a user without counters *)

Lemma get_send_seq_run u w p :
  healthy w → pseq (w_redis w) (send_seq_key u) = Some p →
  get_send_seq u w = (Ok (default 0%Z p.1, default 0%Z p.2), w).
Proof.
  intros Hnet (h & Hh & Hc & Hm)%pseq_hash. unfold get_send_seq, redis_run. mstep.
  rewrite redis_conn_healthy, remote_healthy by done. rewrite !(HGET_run _ _ _ _ _ Hh).
  destruct (h !! CUR_SEQ_KEY) as [[]|], (h !! MAX_SEQ_KEY) as [[]|]; simplify_eq/=;
    rewrite <- Hc, <- Hm; by rewrite upd_redis_id.
Qed.

(** For a user who never exchanged a message the two read paths disagree:
    [get_send_seq] answers (0, 0) and [get_seq] answers 0, while [get_cur_seq],
    which serves the API's sequence query, fails because it decodes the missing
    fields as plain integers. *)
Theorem reads_of_fresh_user (u : string) (w : World) (Hnet : healthy w)
    (Hs : pseq (w_redis w) (seq_key u) = Some (None, None))
    (Hss : pseq (w_redis w) (send_seq_key u) = Some (None, None)) :
  get_send_seq u w = (Ok (0, 0)%Z, w) ∧ get_seq u w = (Ok 0%Z, w)
  ∧ get_cur_seq u w = (Err redis_error, w).
Proof.
  destruct (pseq_hash _ _ _ Hs) as (h1 & Hh1 & Hc1 & _).
  destruct (pseq_hash _ _ _ Hss) as (h2 & Hh2 & Hc2 & Hm2). simpl in *.
  assert (h1 !! CUR_SEQ_KEY = None) as E1 by (by destruct (h1 !! CUR_SEQ_KEY) as [[]|]).
  assert (h2 !! CUR_SEQ_KEY = None) as E2 by (by destruct (h2 !! CUR_SEQ_KEY) as [[]|]).
  assert (h2 !! MAX_SEQ_KEY = None) as E3 by (by destruct (h2 !! MAX_SEQ_KEY) as [[]|]).
  unfold get_send_seq, get_seq, get_cur_seq, redis_run. split_and!; mstep;
    rewrite redis_conn_healthy, remote_healthy by done;
    rewrite ?(HGET_run _ _ _ _ _ Hh1), ?(HGET_run _ _ _ _ _ Hh2); mstep;
    rewrite ?E1, ?(HGET_run _ _ _ _ _ Hh2), ?E2, ?E3; mstep; by rewrite upd_redis_id.
Qed.

Lemma reads_of_fresh_user_witness :
  get_send_seq "u" world_empty = (Ok (0, 0)%Z, world_empty)
  ∧ get_seq "u" world_empty = (Ok 0%Z, world_empty)
  ∧ get_cur_seq "u" world_empty = (Err redis_error, world_empty).
Proof. exact (reads_of_fresh_user "u" world_empty eq_refl eq_refl eq_refl). Defined.

(** ** Registration codes *)

Lemma save_register_code_run e x w h :
  healthy w → rhash (w_clock w) (w_redis w) REGISTER_CODE_KEY = Some h →
  ∃ r', save_register_code e x w = (Ok tt, upd_redis (λ _, r') w)
      ∧ r' !! REGISTER_CODE_KEY
          = Some (RHash (<[e:=HText x]> h), Some (w_clock w + REGISTER_CODE_EXPIRE * 1000)%Z)
      ∧ only_key REGISTER_CODE_KEY (w_redis w) r'.
Proof.
  intros Hnet Hh. unfold save_register_code. mstep. rewrite redis_conn_healthy by done.
  set (k := REGISTER_CODE_KEY) in *. set (r := w_redis w) in *. set (now := w_clock w) in *.
  assert (Hr1 : rget now (rput now r k (RHash (<[e:=HText x]> h))) k
              = Some (RHash (<[e:=HText x]> h))).
  { rewrite rget_rput. simpl. rewrite bool_decide_eq_true_2; [done|apply insert_non_empty]. }
  eexists. split_and!.
  - eapply redis_run_healthy; [done|]. cbn [pipeline]. unfold HSET at 1. fold now r k.
    rewrite Hh. unfold EXPIRE. mstep. by rewrite Hr1.
  - by rewrite lookup_insert_eq.
  - intros k' Hk'. rewrite lookup_insert_ne by done. by apply only_key_rput.
Qed.

Lemma get_register_code_at e w h t :
  healthy w → w_redis w !! REGISTER_CODE_KEY = Some (RHash h, Some t) →
  hint (h !! e) = None ∨ h !! e = None →
  get_register_code e w = (Ok (if (w_clock w <? t)%Z
    then match h !! e with Some (HText s) => Some s | _ => None end else None), w).
Proof.
  intros Hnet Hr He. unfold get_register_code. mstep. rewrite redis_conn_healthy by done.
  eapply redis_run_query; [done|]. unfold HGET, rhash, rget. rewrite Hr. unfold live. simpl.
  case_bool_decide as Ht.
  - rewrite (proj2 (Z.ltb_lt _ _)) by done. destruct (h !! e) as [[]|]; naive_solver.
  - rewrite (proj2 (Z.ltb_ge _ _)) by lia. by rewrite lookup_empty.
Qed.

(** All registration codes live in one hash with one expiry: saving a code
    for [e2] makes every code already there readable until five minutes after
    this save, so a code for [e1] outlives the five minutes it was issued for
    whenever anybody else asks for a code in the meantime; five minutes after
    the last save no code is readable. *)
Theorem register_code_shared_expiry (w : World) (h : gmap string hval)
    (e1 e2 c1 c2 : string) (t : Z)
    (Hnet : healthy w)
    (Hh : rhash (w_clock w) (w_redis w) REGISTER_CODE_KEY = Some h)
    (Hc1 : h !! e1 = Some (HText c1)) :
  let w' := at_time t (save_register_code e2 c2 w).2 in
  (save_register_code e2 c2 w).1 = Ok tt
  ∧ get_register_code e1 w'
    = (Ok (if (t <? w_clock w + REGISTER_CODE_EXPIRE * 1000)%Z
           then Some (if decide (e1 = e2) then c2 else c1) else None), w').
Proof.
  destruct (save_register_code_run e2 c2 w h Hnet Hh) as (r' & Hs & Hr' & _).
  rewrite Hs. cbv zeta. split; [done|].
  assert (Hlook : <[e2:=HText c2]> h !! e1 = Some (HText (if decide (e1 = e2) then c2 else c1))).
  { rewrite lookup_insert. repeat case_decide; congruence. }
  erewrite get_register_code_at; [|done|exact Hr'|left; by rewrite Hlook].
  simpl. by rewrite Hlook.
Qed.

Lemma register_code_shared_expiry_witness :
  let w := (save_register_code "a@x" "111111" world_empty).2 in
  let w2 := at_time 299999 w in
  (save_register_code "b@x" "222222" w2).1 = Ok tt
  ∧ get_register_code "a@x" (at_time 500000 (save_register_code "b@x" "222222" w2).2)
    = (Ok (Some "111111"%string), at_time 500000 (save_register_code "b@x" "222222" w2).2).
Proof.
  exact (register_code_shared_expiry
    (at_time 299999 (save_register_code "a@x" "111111" world_empty).2)
    {["a@x"%string := HText "111111"]} "a@x" "b@x" "111111" "222222" 500000
    eq_refl eq_refl eq_refl).
Defined.
