(* ===== verification/SeqStore.v ===== *)
(** * Sequence and history stores ([db/src/postgres/seq.rs],
    [db/src/postgres/message.rs]) and their loading into the cache
    ([cmd/src/load_seq.rs]) *)

From S2P Require Import Prelude Errors Types Tables World Cache.

(** ** [PostgresSeq]; [seq_step] is its field *)

(** [UPDATE sequence SET col = col + $1 WHERE user_id = $2 RETURNING col]:
    no row and a sum outside [BIGINT] are errors. *)
Definition save_send_max_seq (seq_step : Z) (user_id : string) : IO Z :=
  pg_exec (λ p,
    row ← t_sequence p !! user_id;
    let v := (send_max_seq row + seq_step)%Z in
    if in_i64 v
    then Some (v, upd_sequence (insert user_id (mkSeqRow v (rec_max_seq row))) p)
    else None).

Definition save_max_seq (seq_step : Z) (user_id : string) : IO Z :=
  pg_exec (λ p,
    row ← t_sequence p !! user_id;
    let v := (rec_max_seq row + seq_step)%Z in
    if in_i64 v
    then Some (v, upd_sequence (insert user_id (mkSeqRow (send_max_seq row) v)) p)
    else None).

(** [.. WHERE user_id = ANY($2)]: one row update per listed user, whatever its
    multiplicity; an overflow in any row fails the statement. *)
Definition bump_rec (seq_step : Z) (row : SeqRow) : SeqRow :=
  mkSeqRow (send_max_seq row) (rec_max_seq row + seq_step).

Definition batch_update (seq_step : Z) (user_ids : list string)
    (t : gmap string SeqRow) : gmap string SeqRow :=
  map_imap (λ u row, Some (if bool_decide (u ∈ user_ids) then bump_rec seq_step row else row)) t.

Definition save_max_seq_batch (seq_step : Z) (user_ids : list string) : IO unit :=
  if bool_decide (user_ids = []) then mret tt
  else pg_exec (λ p,
    if bool_decide (map_Forall (λ u row,
         u ∈ user_ids → in_i64 (rec_max_seq row + seq_step) = true) (t_sequence p))
    then Some (tt, upd_sequence (batch_update seq_step user_ids) p)
    else None).

(** [get_max_seq]: every row is sent into a channel of capacity 1024 whose
    receiver is only returned once all rows are sent; the 1025th send waits
    for ever. *)
Definition CHANNEL_CAPACITY : nat := 1024.

Definition get_max_seq : IO (list (string * Z * Z)) :=
  rows ← pg_exec (λ p, Some (map_to_list (t_sequence p), p));
  if bool_decide (length rows ≤ CHANNEL_CAPACITY)
  then mret ((λ '(u, row), (u, send_max_seq row, rec_max_seq row)) <$> rows)
  else hang.

(** ** [PostgresMessage::save_message]

    The statement as written: the column list, the number of value expressions
    ($1 .. $11) and the number of bound arguments. The server refuses an
    [INSERT] with more expressions than target columns. *)
Definition insert_columns : list string :=
  ["client_id"; "server_id"; "sender_id"; "receiver_id"; "msg_type"; "content_type";
   "content"; "send_time"; "platform"; "group_id"]%string.
Definition insert_value_exprs : nat := 11.

Definition message_row (m : Msg) : MessageRow :=
  mkMessageRow (client_id m) (server_id m) (sender_id m) (receiver_id m) (msg_type m)
    (content_type m) (content m) (send_time m) (platform m) (group_id m).

(** [ON CONFLICT DO NOTHING] on the primary key (sender_id, server_id, send_time) *)
Definition row_key (r : MessageRow) : string * string * Z :=
  (row_sender_id r, row_server_id r, row_send_time r).

Definition insert_message (r : MessageRow) (l : list MessageRow) : list MessageRow :=
  if bool_decide (row_key r ∈ (row_key <$> l)) then l else l ++ [r].

Definition save_message_pg (m : Msg) : IO unit :=
  pg_exec (λ p,
    if bool_decide (insert_value_exprs = length insert_columns)
    then Some (tt, upd_messages (insert_message (message_row m)) p)
    else None).

(** ** [load_seq] *)

Definition BATCH_SIZE : nat := 50.

(** The receive loop: rows accumulate in [list_] and are flushed by fifties;
    a failed flush is logged. *)
Fixpoint load_loop (rows list_ : list (string * Z * Z)) : IO (list (string * Z * Z)) :=
  match rows with
  | [] => mret list_
  | item :: rows' =>
      let list' := list_ ++ [item] in
      if bool_decide (length list' = BATCH_SIZE)
      then log_err (set_seq list') ;; load_loop rows' []
      else load_loop rows' list'
  end.

Definition load_seq : IO unit :=
  flag ← unwrap check_seq_loaded;
  if negb flag then mret tt
  else
    rows ← unwrap get_max_seq;
    rest ← load_loop rows [];
    (if bool_decide (rest = []) then mret tt else log_err (set_seq rest)) ;;
    unwrap set_seq_loaded.

(** ** Properties *)

Lemma save_message_pg_fails m w :
  (save_message_pg m w).1 = Err pg_error ∧ same w_pg w (save_message_pg m w).2
  ∧ same w_redis w (save_message_pg m w).2 ∧ same w_mongo w (save_message_pg m w).2.
Proof.
  unfold save_message_pg, pg_exec, remote, take_fault. mstep.
  destruct (w_faults w) as [|[] ?]; simpl; done.
Qed.

(** The history insert can never succeed: its value list has one
    expression more than its column list, so [save_message] returns a database
    error and stores nothing for every message, in every state of the database
    and under every fault schedule. *)
Theorem history_insert_always_fails (m : Msg) (w : World) :
  (save_message_pg m w).1 = Err pg_error
  ∧ t_messages (w_pg (save_message_pg m w).2) = t_messages (w_pg w).
Proof.
  destruct (save_message_pg_fails m w) as (H1 & H2 & _). split; [done|]. by rewrite H2.
Qed.

(** [get_max_seq] completes exactly when the sequence table has at most
    1024 rows: with more users it sends into a full channel that nobody reads
    yet, and the start-up that loads the cache never gets past it. *)
Theorem get_max_seq_completes (w : World) (Hnet : healthy w) :
  (∃ rows, (get_max_seq w).1 = Ok rows) ↔ (size (t_sequence (w_pg w)) ≤ 1024)%nat.
Proof.
  unfold get_max_seq. mstep. erewrite pg_exec_healthy by done. simpl.
  rewrite length_map_to_list. case_bool_decide as H; unfold CHANNEL_CAPACITY in H; mstep.
  - split; eauto.
  - split; [by intros [rows [=]]|done].
Qed.

Lemma get_max_seq_completes_witness :
  (∃ rows, (get_max_seq world_empty).1 = Ok rows) ↔ (size (t_sequence pg_empty) ≤ 1024)%nat.
Proof. exact (get_max_seq_completes world_empty eq_refl). Defined.

(** ** Loading the cache *)

(** The effect of the pipelines of [set_seq] on Redis. *)
Definition apply_rows (now : Z) (l : list (string * Z * Z)) (r : Redis) : Redis :=
  (pipeline (set_seq_cmds now l) r).2.

Lemma apply_rows_app now l1 l2 r :
  apply_rows now (l1 ++ l2) r = apply_rows now l2 (apply_rows now l1 r).
Proof. unfold apply_rows, set_seq_cmds. by rewrite flat_map_app, pipeline_app. Qed.

Lemma log_set_seq l w : healthy w →
  log_err (set_seq l) w = (Ok tt, upd_redis (apply_rows (w_clock w) l) w).
Proof.
  intros Hnet. unfold log_err, set_seq. mstep. rewrite redis_conn_healthy by done.
  unfold redis_run, apply_rows. rewrite remote_healthy by done.
  unfold upd_redis. destruct (pipeline _ (w_redis w)) as [[] r]; done.
Qed.

Lemma load_loop_run rows : ∀ acc w, healthy w →
  ∃ done_ rest, acc ++ rows = done_ ++ rest
    ∧ load_loop rows acc w = (Ok rest, upd_redis (apply_rows (w_clock w) done_) w).
Proof.
  induction rows as [|item rows IH]; intros acc w Hnet.
  { exists [], acc. rewrite app_nil_r. split; [done|].
    unfold apply_rows; simpl. mstep. by destruct w. }
  cbn [load_loop]. case_bool_decide as Hlen.
  - destruct (IH [] (upd_redis (apply_rows (w_clock w) (acc ++ [item])) w))
      as (d & rest & Happ & Hrun); [done|].
    exists ((acc ++ [item]) ++ d), rest. split.
    { simpl in Happ. subst rows. by rewrite <- !app_assoc. }
    mstep. unfold log_err in *. pose proof (log_set_seq (acc ++ [item]) w Hnet) as Hs.
    unfold log_err in Hs. rewrite Hs. rewrite Hrun. simpl. f_equal.
    destruct w; unfold upd_redis; simpl. by rewrite !apply_rows_app.
  - destruct (IH (acc ++ [item]) w Hnet) as (d & rest & Happ & Hrun).
    exists d, rest. split; [|done]. by rewrite <- Happ, <- app_assoc.
Qed.

Definition seq_rows (p : Pg) : list (string * Z * Z) :=
  (λ '(u, row), (u, send_max_seq row, rec_max_seq row)) <$> map_to_list (t_sequence p).

Definition not_loaded (w : World) : Prop := w_redis w !! IS_LOADED = None.

Lemma check_seq_loaded_run w : healthy w → not_loaded w →
  check_seq_loaded w = (Ok true, w).
Proof.
  intros Hnet Hl. unfold check_seq_loaded. mstep. rewrite redis_conn_healthy by done.
  rewrite (redis_run_query _ _ None Hnet); [done|].
  unfold GET, rget. by rewrite Hl.
Qed.

Lemma load_seq_run w :
  healthy w → not_loaded w → (size (t_sequence (w_pg w)) ≤ 1024)%nat →
  load_seq w = (Ok tt, upd_redis (λ r,
     <[IS_LOADED := (RString SEQ_NO_NEED_LOAD, None)]>
       (apply_rows (w_clock w) (seq_rows (w_pg w)) r)) w).
Proof.
  intros Hnet Hl Hsz. unfold load_seq. mstep. rewrite check_seq_loaded_run by done. simpl.
  assert (Hg : get_max_seq w = (Ok (seq_rows (w_pg w)), w)).
  { unfold get_max_seq. mstep. erewrite pg_exec_healthy by done.
    rewrite length_map_to_list, bool_decide_eq_true_2 by done. by rewrite upd_pg_id. }
  rewrite Hg. destruct (load_loop_run (seq_rows (w_pg w)) [] w Hnet) as (d & rest & Happ & ->).
  assert (Hset : ∀ w', healthy w' →
    match set_seq_loaded w' with (Err _, s') => (Panic, s') | x => x end
      = (Ok tt, upd_redis (insert IS_LOADED (RString SEQ_NO_NEED_LOAD, None)) w')).
  { intros w' Hw'. unfold set_seq_loaded. mstep. rewrite redis_conn_healthy by done.
    by erewrite redis_run_healthy by done. }
  simpl in Happ. rewrite Happ. case_bool_decide as Hr.
  - subst rest. rewrite app_nil_r. mstep. by rewrite Hset.
  - pose proof (log_set_seq rest (upd_redis (apply_rows (w_clock w) d) w) Hnet) as Hs.
    unfold log_err in Hs. rewrite Hs. rewrite Hset by done. f_equal.
    destruct w; unfold upd_redis; simpl. by rewrite apply_rows_app.
Qed.

(** The counters a row writes. *)
Lemma apply_row_run now u s v r h1 h2 :
  hash_at r (seq_key u) = Some h1 → hash_at r (send_seq_key u) = Some h2 →
  let r' := apply_rows now [(u, s, v)] r in
  pseq r' (seq_key u) = Some (Some v, Some v)
  ∧ pseq r' (send_seq_key u) = Some (Some s, Some s)
  ∧ (∀ k, k ≠ seq_key u → k ≠ send_seq_key u → r' !! k = r !! k).
Proof.
  intros H1 H2. cbv zeta. unfold apply_rows, set_seq_cmds. cbn [flat_map app].
  destruct (hset_pair now r (send_seq_key u) s h2 H2) as (r1 & Hr1 & Hp1 & Ho1).
  assert (Hh1 : hash_at r1 (seq_key u) = Some h1)
    by (rewrite (hash_at_other _ _ _ _ Ho1); done).
  destruct (hset_pair now r1 (seq_key u) v h1 Hh1) as (r2 & Hr2 & Hp2 & Ho2).
  assert (Heq : (pipeline ([HSET now (send_seq_key u) CUR_SEQ_KEY (HInt s);
      HSET now (send_seq_key u) MAX_SEQ_KEY (HInt s)] ++
     [HSET now (seq_key u) CUR_SEQ_KEY (HInt v);
      HSET now (seq_key u) MAX_SEQ_KEY (HInt v)]) r).2 = r2).
  { rewrite pipeline_app, Hr1. exact (f_equal snd Hr2). }
  simpl app in Heq. rewrite Heq. split_and!; [done| |].
  - rewrite (pseq_other _ _ _ _ Ho2); done.
  - intros k Hk1 Hk2. rewrite Ho2 by done. by apply Ho1.
Qed.

Definition rows_users (l : list (string * Z * Z)) : list string := (λ x, x.1.1) <$> l.

Lemma pseq_lookup r r' k : r' !! k = r !! k → pseq r' k = pseq r k.
Proof. intros H. unfold pseq, hash_at. by rewrite H. Qed.
Lemma hash_at_lookup r r' k : r' !! k = r !! k → hash_at r' k = hash_at r k.
Proof. intros H. unfold hash_at. by rewrite H. Qed.

Lemma apply_rows_run now l : ∀ r,
  NoDup (rows_users l) →
  (∀ u, u ∈ rows_users l → is_Some (hash_at r (seq_key u)) ∧ is_Some (hash_at r (send_seq_key u))) →
  (∀ u s v, (u, s, v) ∈ l →
     pseq (apply_rows now l r) (seq_key u) = Some (Some v, Some v)
     ∧ pseq (apply_rows now l r) (send_seq_key u) = Some (Some s, Some s))
  ∧ (∀ k, k ∉ (seq_key <$> rows_users l) → k ∉ (send_seq_key <$> rows_users l) →
       apply_rows now l r !! k = r !! k).
Proof.
  induction l as [|[[u s] v] l IH]; intros r Hnd Hh.
  { split; [intros ??? []%elem_of_nil|done]. }
  simpl in Hnd. apply NoDup_cons in Hnd as [Hu Hnd].
  destruct (Hh u) as [[h1 Hh1] [h2 Hh2]]; [by left|].
  destruct (apply_row_run now u s v r h1 h2 Hh1 Hh2) as (Hp1 & Hp2 & Ho).
  change ((u, s, v) :: l) with ([(u, s, v)] ++ l). rewrite apply_rows_app.
  set (r1 := apply_rows now [(u, s, v)] r) in *.
  assert (Hne : ∀ x, x ∈ rows_users l → x ≠ u) by (intros x Hx ->; done).
  destruct (IH r1 Hnd) as [IH1 IH2].
  { intros x Hx. rewrite (hash_at_lookup r r1 (seq_key x)), (hash_at_lookup r r1 (send_seq_key x)).
    - apply Hh. by right.
    - apply Ho; [done|]. intros ?%send_seq_key_inj. by eapply Hne.
    - apply Ho; [|done]. intros ?%seq_key_inj. by eapply Hne. }
  split.
  - intros u' s' v' [[= -> -> ->]|Hin]%elem_of_cons; [|by apply IH1].
    rewrite (pseq_lookup r1 (apply_rows now l r1) (seq_key u)),
      (pseq_lookup r1 (apply_rows now l r1) (send_seq_key u)); [done| |]; apply IH2;
      intros (x & Hx & Hin)%list_elem_of_fmap; try done;
      (apply seq_key_inj in Hx || apply send_seq_key_inj in Hx); by subst.
  - intros k Hk1 Hk2. simpl in Hk1, Hk2. rewrite not_elem_of_cons in Hk1, Hk2.
    destruct Hk1, Hk2. rewrite IH2 by done. by apply Ho.
Qed.

Lemma rows_users_seq_rows p : NoDup (rows_users (seq_rows p)).
Proof.
  unfold rows_users, seq_rows. rewrite <- list_fmap_compose.
  rewrite (list_fmap_ext _ fst); [apply NoDup_fst_map_to_list|]. by intros i [u row] _.
Qed.

Lemma elem_of_seq_rows p u row :
  t_sequence p !! u = Some row → (u, send_max_seq row, rec_max_seq row) ∈ seq_rows p.
Proof.
  intros H. unfold seq_rows. apply list_elem_of_fmap. exists (u, row).
  split; [done|]. by apply elem_of_map_to_list.
Qed.

Lemma elem_of_rows_users p u :
  u ∈ rows_users (seq_rows p) ↔ is_Some (t_sequence p !! u).
Proof.
  unfold rows_users, seq_rows. rewrite <- list_fmap_compose, list_elem_of_fmap. split.
  - intros ([u' row] & -> & H%elem_of_map_to_list). simpl. by eexists.
  - intros [row H]. exists (u, row). split; [done|]. by apply elem_of_map_to_list.
Qed.

(** Loading an unloaded cache from a database of at most 1024 users
    succeeds, sets every stored user's receive and send counters to the
    maximum reserved in the database (current value and maximum alike), marks
    the cache as loaded, leaves all other keys and all other stores alone, and
    a second run does nothing. *)
Theorem load_seq_functional (w : World)
    (Hnet : healthy w) (Hunl : not_loaded w)
    (Hsz : (size (t_sequence (w_pg w)) ≤ 1024)%nat)
    (Hok : ∀ u, is_Some (hash_at (w_redis w) (seq_key u))
             ∧ is_Some (hash_at (w_redis w) (send_seq_key u))) :
  ∃ r', load_seq w = (Ok tt, upd_redis (λ _, r') w)
    ∧ (∀ u row, t_sequence (w_pg w) !! u = Some row →
         pseq r' (seq_key u) = Some (Some (rec_max_seq row), Some (rec_max_seq row))
         ∧ pseq r' (send_seq_key u) = Some (Some (send_max_seq row), Some (send_max_seq row)))
    ∧ (∀ k, ¬ is_seq_key k → k ≠ IS_LOADED → r' !! k = w_redis w !! k)
    ∧ load_seq (upd_redis (λ _, r') w) = (Ok tt, upd_redis (λ _, r') w).
Proof.
  rewrite load_seq_run by done.
  destruct (apply_rows_run (w_clock w) (seq_rows (w_pg w)) (w_redis w)
    (rows_users_seq_rows _) (λ u _, Hok u)) as [Hrows Hother].
  eexists. split_and!; [done|..].
  - intros u row Hu. destruct (Hrows _ _ _ (elem_of_seq_rows _ _ _ Hu)) as [H1 H2].
    rewrite <- H1, <- H2. split; apply pseq_lookup; by rewrite lookup_insert_ne.
  - intros k Hk1 Hk2. rewrite lookup_insert_ne by done.
    apply Hother; intros (u & -> & _)%list_elem_of_fmap; apply Hk1; auto with keys.
  - unfold load_seq, check_seq_loaded. mstep. rewrite redis_conn_healthy by done.
    rewrite (redis_run_query _ _ (Some SEQ_NO_NEED_LOAD)); [done|done|].
    unfold GET, rget. simpl. by rewrite lookup_insert_eq.
Qed.

Definition two_users : Pg :=
  upd_sequence (λ _, {["a"%string := mkSeqRow 5000 5000; "b"%string := mkSeqRow 5000 10000]}) pg_empty.

Lemma load_seq_functional_witness :
  let w := upd_pg (λ _, two_users) world_empty in
  ∃ r', load_seq w = (Ok tt, upd_redis (λ _, r') w).
Proof.
  destruct (load_seq_functional (upd_pg (λ _, two_users) world_empty)) as (r' & H & _).
  - reflexivity.
  - reflexivity.
  - vm_compute. lia.
  - intros u. split; by eexists.
  - exists r'. exact H.
Defined.
