(* ===== verification/RecBox.v ===== *)
(** * The receive box ([db/src/message.rs], [db/src/mongodb/message.rs])

    The MongoDB commands the boxes use, the trait [MsgRecBoxRepo] as a record
    of operations, the laws its clients rely on as a class, and the legacy box
    [MsgBox] (one collection for everybody) with its proofs. *)

From S2P Require Import Prelude Errors Types Tables World.

(** ** MongoDB commands *)

Abbreviation Mongo := (gmap string Coll).

Definition coll_of (m : Mongo) (name : string) : Coll := default coll_empty (m !! name).
Definition put_coll (name : string) (c : Coll) (m : Mongo) : Mongo := <[name:=c]> m.

(** Conditions on a field: equality with a string, and numeric comparisons,
    which hold for both integer widths. *)
Definition str_is (k s : string) (d : Document) : bool :=
  match d !! k with Some (BString s') => bool_decide (s' = s) | _ => false end.
Definition num_field (k : string) (d : Document) : option Z :=
  match d !! k with Some (BInt64 z) | Some (BInt32 z) => Some z | _ => None end.
Definition num_cond (k : string) (p : Z → bool) (d : Document) : bool :=
  match num_field k d with Some z => p z | None => false end.
(** [{k: {"$gte": lo, "$lte": hi}}] and [{k: {"$gt": lo, "$lte": hi}}] *)
Definition in_closed (lo hi z : Z) : bool := (lo <=? z)%Z && (z <=? hi)%Z.
Definition in_half_open (lo hi z : Z) : bool := (lo <? z)%Z && (z <=? hi)%Z.
Definition in_list (l : list Z) (z : Z) : bool := bool_decide (z ∈ l).

(** The unique index on (server_id, receiver_id). *)
Definition doc_key (d : Document) : option Bson * option Bson :=
  (d !! "server_id"%string, d !! "receiver_id"%string).
Global Instance byte_eq_dec : EqDecision Byte.byte := Byte.byte_eq_dec.
Global Instance Bson_eq_dec : EqDecision Bson.
Proof. solve_decision. Defined.

Definition coll_insert (d : Document) (c : Coll) : option Coll :=
  if c_unique c && bool_decide (doc_key d ∈ (doc_key <$> c_docs c)) then None
  else Some (mkColl (c_docs c ++ [d]) (c_unique c)).

(** A command on one collection. *)
Definition mongo_run {A} (name : string) (q : Coll → option (A * Coll)) : IO A :=
  remote mongo_error (λ w,
    match q (coll_of (w_mongo w) name) with
    | Some (a, c) => (Ok a, upd_mongo (put_coll name c) w)
    | None => (Err mongo_error, w)
    end).
(** A read does not create the collection. *)
Definition mongo_read {A} (name : string) (q : Coll → A) : IO A :=
  remote mongo_error (gets (λ w, q (coll_of (w_mongo w) name))).

Definition insert_one (name : string) (d : Document) : IO unit :=
  mongo_run name (λ c, c' ← coll_insert d c; Some (tt, c')).

(** [insert_many] inserts in order and stops at the first refused document. *)
Fixpoint coll_insert_many (ds : list Document) (c : Coll) : bool * Coll :=
  match ds with
  | [] => (true, c)
  | d :: ds' =>
      match coll_insert d c with
      | Some c' => coll_insert_many ds' c'
      | None => (false, c)
      end
  end.
Definition insert_many (name : string) (ds : list Document) : IO unit :=
  ok ← mongo_run name (λ c, Some (coll_insert_many ds c));
  if (ok : bool) then mret tt else throw mongo_error.

Fixpoint remove_first (p : Document → bool) (l : list Document) : list Document :=
  match l with
  | [] => []
  | d :: l' => if p d then l' else d :: remove_first p l'
  end.
(** [delete_one] answers the number of deleted documents. *)
Definition delete_one (name : string) (p : Document → bool) : IO nat :=
  mongo_run name (λ c,
    let l := remove_first p (c_docs c) in
    Some ((length (c_docs c) - length l)%nat, mkColl l (c_unique c))).
Definition delete_many (name : string) (p : Document → bool) : IO unit :=
  mongo_run name (λ c, Some (tt, mkColl (List.filter (λ d, negb (p d)) (c_docs c)) (c_unique c))).
Definition update_many (name : string) (p : Document → bool) (f : Document → Document) : IO unit :=
  mongo_run name (λ c, Some (tt, mkColl ((λ d, if p d then f d else d) <$> c_docs c) (c_unique c))).
Definition find_one (name : string) (p : Document → bool) : IO (option Document) :=
  mongo_read name (λ c, head (List.filter p (c_docs c))).

(** Sorting: a missing field sorts before every number; documents that compare
    equal keep their insertion order. *)
Definition opt_le (x y : option Z) : bool :=
  match x, y with
  | None, _ => true
  | Some _, None => false
  | Some a, Some b => (a <=? b)%Z
  end.
Definition opt_lt (x y : option Z) : bool := negb (opt_le y x).

Definition by_seq (d1 d2 : Document) : Prop :=
  opt_le (num_field "seq" d1) (num_field "seq" d2) = true.
Global Instance by_seq_dec : RelDecision by_seq.
Proof. intros ??. unfold by_seq. apply _. Defined.

Definition find_sorted (name : string) (p : Document → bool) : IO (list Document) :=
  mongo_read name (λ c, merge_sort by_seq (List.filter p (c_docs c))).

(** The [$addFields] / [$sort] stages of the aggregation. *)
Definition sort_field (user_id : string) (d : Document) : option Z :=
  if str_is "sender_id" user_id d then num_field "send_seq" d else num_field "seq" d.
Definition by_time (user_id : string) (d1 d2 : Document) : Prop :=
  opt_lt (num_field "send_time" d1) (num_field "send_time" d2)
  || (opt_le (num_field "send_time" d1) (num_field "send_time" d2)
      && opt_le (sort_field user_id d1) (sort_field user_id d2)) = true.
Global Instance by_time_dec u : RelDecision (by_time u).
Proof. intros ??. unfold by_time. apply _. Defined.

Definition aggregate (name user_id : string) (p : Document → bool) : IO (list Document) :=
  mongo_read name (λ c, merge_sort (by_time user_id) (List.filter p (c_docs c))).

(** [Vec::<Msg>::with_capacity(n as usize)] panics with a capacity overflow
    when the allocation would exceed [isize::MAX] bytes; a [Msg] takes 264
    bytes on a 64-bit target. *)
Definition msg_size : Z := 264.
Definition with_capacity (n : Z) : IO unit :=
  if (as_u64 n * msg_size <=? i64_max)%Z then mret tt else panic.

(** The channel of the streaming reads. *)
Definition STREAM_CAPACITY : nat := 100.

(** ** The trait *)

Record MsgRecBoxRepo : Type := mkMsgRecBoxRepo {
  save_message : Msg → IO unit;
  save_group_msg : Msg → list GroupMemSeq → IO unit;
  delete_message : string → IO unit;
  delete_messages : string → list Z → IO unit;
  get_message : string → IO (option Msg);
  get_messages_stream : string → Z → Z → IO (list Msg);
  get_messages : string → Z → Z → IO (list Msg);
  get_msgs : string → Z → Z → Z → Z → IO (list Msg);
  msg_read : string → list Z → IO unit
}.

(** The documents of all collections. *)
Definition mongo_docs (m : Mongo) : list Document := map_to_list m ≫= λ x, c_docs x.2.
Definition all_docs (w : World) : list Document := mongo_docs (w_mongo w).

(** What a box must leave alone, on every path. *)
Definition outside_box (w : World) :=
  (w_redis w, w_pg w, w_kafka w, w_pushed w, w_ws_list w, w_registry w, w_clock w, w_ids w).

(** The copy of a group message for one member. *)
Definition member_copy (m : Msg) (g : GroupMemSeq) : Msg :=
  set_receiver (mem_id g) (set_seq_field (cur_seq g) (set_send_seq_field 0 m)).

Definition fresh_id (id : string) (w : World) : Prop :=
  ∀ d, d ∈ all_docs w → str_is "server_id" id d = false.

(** The part of the world a box lives in. *)
Definition in_box (w : World) := (w_mongo w, w_active w, w_cached w).

(** What the consumer relies on: saving a message under a new id adds exactly
    its document; saving a group message adds one copy for the sender and one
    per member with the member's own sequence number; deleting removes at most
    one document and it carries the id; and nothing outside the box changes,
    whatever fails. *)
Class MsgRecBoxLaws (b : MsgRecBoxRepo) : Type := {
  box_inv : World → Prop;
  box_sender_copy : Msg → Msg;
  box_sender_id m : server_id (box_sender_copy m) = server_id m;
  box_inv_local w w' : in_box w' = in_box w → box_inv w → box_inv w';
  box_save_message m w :
    healthy w → box_inv w → fresh_id (server_id m) w →
    ∃ w', save_message b m w = (Ok tt, w') ∧ healthy w' ∧ box_inv w'
        ∧ all_docs w' ≡ₚ to_doc m :: all_docs w;
  box_save_group m gs w :
    healthy w → box_inv w → fresh_id (server_id m) w →
    NoDup (mem_id <$> gs) → sender_id m ∉ (mem_id <$> gs) →
    ∃ w', save_group_msg b m gs w = (Ok tt, w') ∧ healthy w' ∧ box_inv w'
        ∧ all_docs w' ≡ₚ to_doc (box_sender_copy m) :: (to_doc ∘ member_copy m <$> gs) ++ all_docs w;
  box_delete id w :
    healthy w → box_inv w →
    ∃ w', delete_message b id w = (Ok tt, w') ∧ healthy w' ∧ box_inv w'
        ∧ (all_docs w' ≡ₚ all_docs w
           ∨ ∃ d, str_is "server_id" id d = true ∧ all_docs w ≡ₚ d :: all_docs w');
  box_frame_save m : keeps (same outside_box) (save_message b m);
  box_frame_group m gs : keeps (same outside_box) (save_group_msg b m gs);
  box_frame_delete id : keeps (same outside_box) (delete_message b id);
  box_frame_read u l : keeps (same outside_box) (msg_read b u l)
}.

(** ** The legacy box *)

Definition COLL_SINGLE_BOX : string := "single_msg_box".

Module MsgBox.

Definition save_message (message : Msg) : IO unit :=
  insert_one COLL_SINGLE_BOX (to_doc message).

(** The documents of a group message: the sender's copy as it stands, then one
    per member. *)
Fixpoint member_docs (message : Msg) (members : list GroupMemSeq) : list Document :=
  match members with
  | [] => []
  | g :: members' =>
      let message := set_receiver (mem_id g) (set_seq_field (cur_seq g) message) in
      to_doc message :: member_docs message members'
  end.

Definition save_group_msg (message : Msg) (members : list GroupMemSeq) : IO unit :=
  insert_many COLL_SINGLE_BOX
    (to_doc message :: member_docs (set_send_seq_field 0 message) members).

Definition delete_message (message_id : string) : IO unit :=
  delete_one COLL_SINGLE_BOX (str_is "server_id" message_id) ≫= λ _, mret tt.

Definition seq_in_query (user_id : string) (msg_seq : list Z) (d : Document) : bool :=
  str_is "receiver_id" user_id d && num_cond "seq" (in_list msg_seq) d.

Definition delete_messages (user_id : string) (msg_seq : list Z) : IO unit :=
  delete_many COLL_SINGLE_BOX (seq_in_query user_id msg_seq).

Definition get_message (message_id : string) : IO (option Msg) :=
  d ← find_one COLL_SINGLE_BOX (str_is "server_id" message_id);
  mret (msg_of_doc <$> d).

Definition range_query (user_id : string) (start end_ : Z) (d : Document) : bool :=
  str_is "receiver_id" user_id d && num_cond "seq" (in_closed start end_) d.

(** All results are sent before the receiver is handed out. *)
Definition get_messages_stream (user_id : string) (start end_ : Z) : IO (list Msg) :=
  ds ← find_sorted COLL_SINGLE_BOX (range_query user_id start end_);
  if bool_decide (length ds ≤ STREAM_CAPACITY) then mret (msg_of_doc <$> ds) else hang.

Definition get_messages (user_id : string) (start end_ : Z) : IO (list Msg) :=
  ds ← find_sorted COLL_SINGLE_BOX (range_query user_id start end_);
  with_capacity (end_ - start) ;;
  mret (msg_of_doc <$> ds).

Definition sync_query (user_id : string) (send_start send_end rec_start rec_end : Z)
    (d : Document) : bool :=
  (str_is "receiver_id" user_id d && num_cond "seq" (in_half_open rec_start rec_end) d)
  || (str_is "sender_id" user_id d && num_cond "send_seq" (in_half_open send_start send_end) d).

(** A message the user sent is delivered with [seq] 0. *)
Definition blank_own (user_id : string) (m : Msg) : Msg :=
  if bool_decide (user_id = sender_id m) then set_seq_field 0 m else m.

Definition get_msgs (user_id : string) (send_start send_end rec_start rec_end : Z)
    : IO (list Msg) :=
  ds ← aggregate COLL_SINGLE_BOX user_id (sync_query user_id send_start send_end rec_start rec_end);
  with_capacity (send_end - send_start + (rec_end - rec_start)) ;;
  mret (blank_own user_id ∘ msg_of_doc <$> ds).

Definition set_read (d : Document) : Document := <["is_read"%string:=BBool true]> d.

Definition msg_read (user_id : string) (msg_seq : list Z) : IO unit :=
  if bool_decide (msg_seq = []) then mret tt
  else update_many COLL_SINGLE_BOX (seq_in_query user_id msg_seq) set_read.

(** One round of the cleaning task: [cutoff_time] is in seconds. *)
Definition clean_round (period : Z) (types : list Z) : IO unit :=
  now ← now_ms;
  let cutoff_time := (now / 1000 - period * 86400)%Z in
  log_err (delete_many COLL_SINGLE_BOX (λ d,
    num_cond "send_time" (λ t, t <? cutoff_time)%Z d
    && negb (num_cond "msg_type" (in_list types) d))).

End MsgBox.

Definition msg_box : MsgRecBoxRepo :=
  mkMsgRecBoxRepo MsgBox.save_message MsgBox.save_group_msg MsgBox.delete_message
    MsgBox.delete_messages MsgBox.get_message MsgBox.get_messages_stream MsgBox.get_messages
    MsgBox.get_msgs MsgBox.msg_read.

(** ** Lemmas on the commands *)

Lemma mongo_run_healthy {A} name (q : Coll → option (A * Coll)) w a c :
  healthy w → q (coll_of (w_mongo w) name) = Some (a, c) →
  mongo_run name q w = (Ok a, upd_mongo (put_coll name c) w).
Proof. intros ? Hq. unfold mongo_run. rewrite remote_healthy by done. by rewrite Hq. Qed.

Lemma mongo_read_healthy {A} name (q : Coll → A) w :
  healthy w → mongo_read name q w = (Ok (q (coll_of (w_mongo w) name)), w).
Proof. intros. unfold mongo_read. by rewrite remote_healthy. Qed.

Lemma coll_of_put name c m : coll_of (put_coll name c m) name = c.
Proof. unfold coll_of, put_coll. by rewrite lookup_insert_eq. Qed.
Lemma coll_of_put_ne name name' c m : name ≠ name' → coll_of (put_coll name c m) name' = coll_of m name'.
Proof. intros. unfold coll_of, put_coll. by rewrite lookup_insert_ne. Qed.

Lemma put_coll_twice name c c' m : put_coll name c' (put_coll name c m) = put_coll name c' m.
Proof. unfold put_coll. by rewrite insert_insert_eq. Qed.

Lemma mongo_docs_insert name c m :
  mongo_docs (put_coll name c m) ≡ₚ c_docs c ++ mongo_docs (delete name m).
Proof.
  unfold put_coll, mongo_docs. rewrite <- insert_delete_eq.
  rewrite map_to_list_insert by apply lookup_delete_eq. done.
Qed.

Lemma mongo_docs_delete name m :
  mongo_docs m ≡ₚ c_docs (coll_of m name) ++ mongo_docs (delete name m).
Proof.
  unfold coll_of. destruct (m !! name) as [c|] eqn:E; simpl.
  - rewrite <- mongo_docs_insert. unfold put_coll. by rewrite insert_id.
  - by rewrite delete_id.
Qed.

Lemma elem_of_coll_docs name m d : d ∈ c_docs (coll_of m name) → d ∈ mongo_docs m.
Proof. intros H. rewrite (mongo_docs_delete name). set_solver. Qed.

Lemma coll_insert_ok d c :
  c_unique c = false ∨ doc_key d ∉ (doc_key <$> c_docs c) →
  coll_insert d c = Some (mkColl (c_docs c ++ [d]) (c_unique c)).
Proof.
  intros H. unfold coll_insert. destruct H as [->|H]; [done|].
  rewrite bool_decide_eq_false_2 by done. by rewrite andb_false_r.
Qed.

Lemma coll_insert_many_ok ds : ∀ c, c_unique c = false →
  coll_insert_many ds c = (true, mkColl (c_docs c ++ ds) false).
Proof.
  induction ds as [|d ds IH]; intros c Hc; simpl.
  - rewrite app_nil_r. by destruct c; simpl in *; subst.
  - rewrite coll_insert_ok by auto. rewrite IH by done. simpl. by rewrite <- app_assoc.
Qed.

Lemma insert_many_run name ds w :
  healthy w → c_unique (coll_of (w_mongo w) name) = false →
  insert_many name ds w
  = (Ok tt, upd_mongo (put_coll name (mkColl (c_docs (coll_of (w_mongo w) name) ++ ds) false)) w).
Proof.
  intros Hnet Hu. unfold insert_many. mstep.
  erewrite mongo_run_healthy; [|done|by rewrite coll_insert_many_ok by done]. done.
Qed.

Lemma keeps_outside_remote {A} e (op : IO A) :
  keeps (same outside_box) op → keeps (same outside_box) (remote e op).
Proof. intros. apply keeps_remote; [apply _|done|done]. Qed.

Lemma keeps_mongo_run {A} name (q : Coll → option (A * Coll)) :
  keeps (same outside_box) (mongo_run name q).
Proof. apply keeps_outside_remote. intros w. by destruct (q _) as [[a c]|]. Qed.

Lemma keeps_mongo_read {A} name (q : Coll → A) :
  keeps (same outside_box) (mongo_read name q).
Proof. apply keeps_outside_remote. by intros w. Qed.
#[export] Hint Resolve keeps_mongo_run keeps_mongo_read : frames.

(** Membership in terms of the message a document came from. *)
Lemma str_is_server m id : str_is "server_id" id (to_doc m) = bool_decide (server_id m = id).
Proof. reflexivity. Qed.
Lemma str_is_receiver m u : str_is "receiver_id" u (to_doc m) = bool_decide (receiver_id m = u).
Proof. reflexivity. Qed.
Lemma str_is_sender m u : str_is "sender_id" u (to_doc m) = bool_decide (sender_id m = u).
Proof. reflexivity. Qed.
Lemma num_seq m p : num_cond "seq" p (to_doc m) = p (seq m).
Proof. reflexivity. Qed.
Lemma num_send_seq m p : num_cond "send_seq" p (to_doc m) = p (send_seq m).
Proof. reflexivity. Qed.
Lemma set_read_to_doc m : MsgBox.set_read (to_doc m) = to_doc (set_is_read true m).
Proof. reflexivity. Qed.
Create Rewrite HintDb docs.
#[export] Hint Rewrite str_is_server str_is_receiver str_is_sender num_seq num_send_seq
  set_read_to_doc : docs.

Lemma member_docs_base m x y gs :
  MsgBox.member_docs (set_receiver x (set_seq_field y m)) gs = MsgBox.member_docs m gs.
Proof. by destruct gs. Qed.

Lemma member_docs_eq m gs :
  MsgBox.member_docs (set_send_seq_field 0 m) gs = to_doc ∘ member_copy m <$> gs.
Proof.
  induction gs as [|g gs IH]; [done|]. cbn [MsgBox.member_docs].
  rewrite member_docs_base, IH. done.
Qed.

Lemma remove_first_cases p l :
  remove_first p l = l ∨ ∃ d, p d = true ∧ l ≡ₚ d :: remove_first p l.
Proof.
  induction l as [|d l IH]; simpl; [by left|].
  destruct (p d) eqn:E; [right; by exists d|].
  destruct IH as [->|(d' & ? & Hp)]; [by left|]. right. exists d'. split; [done|].
  rewrite Hp at 1. apply Permutation_swap.
Qed.

(** The legacy box meets the laws. *)
#[export, refine] Instance msg_box_laws : MsgRecBoxLaws msg_box := {|
  box_inv w := c_unique (coll_of (w_mongo w) COLL_SINGLE_BOX) = false;
  box_sender_copy m := m
|}.
Proof.
  - done.
  - intros w w' [= H _ _]. by rewrite H.
  - intros m w Hnet Hinv _. simpl. unfold MsgBox.save_message, insert_one.
    erewrite mongo_run_healthy; [|done|by rewrite coll_insert_ok by auto].
    eexists. split_and!; [done|done| |]; simpl.
    + by rewrite coll_of_put.
    + unfold all_docs; simpl. rewrite mongo_docs_insert, (mongo_docs_delete COLL_SINGLE_BOX (w_mongo w)).
      simpl. by rewrite <- app_assoc, Permutation_middle.
  - intros m gs w Hnet Hinv _ _ _. cbn [RecBox.save_group_msg msg_box]. unfold MsgBox.save_group_msg.
    rewrite insert_many_run by done.
    eexists. split_and!; [done|done| |]; simpl.
    + by rewrite coll_of_put.
    + unfold all_docs; simpl. rewrite mongo_docs_insert, (mongo_docs_delete COLL_SINGLE_BOX (w_mongo w)).
      rewrite member_docs_eq. simpl. solve_Permutation.
  - intros id w Hnet Hinv. simpl. unfold MsgBox.delete_message, delete_one. mstep.
    erewrite mongo_run_healthy by done.
    eexists. split_and!; [done|done| |]; simpl.
    + by rewrite coll_of_put.
    + unfold all_docs; simpl.
      destruct (remove_first_cases (str_is "server_id" id)
        (c_docs (coll_of (w_mongo w) COLL_SINGLE_BOX))) as [Heq|(d & Hd & Hp)].
      * left. rewrite mongo_docs_insert, (mongo_docs_delete COLL_SINGLE_BOX (w_mongo w)). simpl. by rewrite Heq.
      * right. exists d. split; [done|].
        rewrite mongo_docs_insert, (mongo_docs_delete COLL_SINGLE_BOX (w_mongo w)). simpl. by rewrite Hp at 1.
  - intros m. apply keeps_mongo_run.
  - intros m gs. apply keeps_bind; [apply _|apply keeps_mongo_run|].
    intros []; eauto with frames typeclass_instances.
  - intros id. apply keeps_bind; [apply _|apply keeps_mongo_run|]. eauto with frames typeclass_instances.
  - intros u l. simpl. unfold MsgBox.msg_read. case_bool_decide; [|apply keeps_mongo_run].
    apply keeps_ret, _.
Defined.

(** ** The abstract mailbox and its refinement *)

(** A mailbox is a list of messages; the operations on it. *)
Inductive BoxCmd : Type :=
| CSave (m : Msg)
| CSaveGroup (m : Msg) (gs : list GroupMemSeq)
| CDelete (id : string)
| CDeleteMany (u : string) (l : list Z)
| CRead (u : string) (l : list Z).

Definition addressed (u : string) (l : list Z) (m : Msg) : bool :=
  bool_decide (receiver_id m = u) && in_list l (seq m).

Fixpoint drop_id (id : string) (ms : list Msg) : list Msg :=
  match ms with
  | [] => []
  | m :: ms' => if bool_decide (server_id m = id) then ms' else m :: drop_id id ms'
  end.

Definition spec_step (ms : list Msg) (c : BoxCmd) : list Msg :=
  match c with
  | CSave m => ms ++ [m]
  | CSaveGroup m gs => ms ++ m :: (member_copy m <$> gs)
  | CDelete id => drop_id id ms
  | CDeleteMany u l => List.filter (λ m, negb (addressed u l m)) ms
  | CRead u l => (λ m, if addressed u l m then set_is_read true m else m) <$> ms
  end.

Definition run_cmd (b : MsgRecBoxRepo) (c : BoxCmd) : IO unit :=
  match c with
  | CSave m => save_message b m
  | CSaveGroup m gs => save_group_msg b m gs
  | CDelete id => delete_message b id
  | CDeleteMany u l => delete_messages b u l
  | CRead u l => msg_read b u l
  end.

(** The collection holds exactly the documents of [ms]. *)
Definition mailbox (w : World) (ms : list Msg) : Prop :=
  coll_of (w_mongo w) COLL_SINGLE_BOX = mkColl (to_doc <$> ms) false.

Lemma filter_to_doc p (q : Msg → bool) ms :
  (∀ m, p (to_doc m) = q m) → List.filter p (to_doc <$> ms) = to_doc <$> List.filter q ms.
Proof.
  intros H. induction ms as [|m ms IH]; [done|]. rewrite fmap_cons. cbn [List.filter].
  rewrite H, IH. by destruct (q m).
Qed.

Lemma remove_first_to_doc id ms :
  remove_first (str_is "server_id" id) (to_doc <$> ms) = to_doc <$> drop_id id ms.
Proof.
  induction ms as [|m ms IH]; [done|]. rewrite fmap_cons. cbn [remove_first drop_id].
  rewrite str_is_server. case_bool_decide; [done|]. by rewrite IH.
Qed.

Lemma update_to_doc p f (q : Msg → bool) g (ms : list Msg) :
  (∀ m, p (to_doc m) = q m) → (∀ m, f (to_doc m) = to_doc (g m)) →
  (λ d, if p d then f d else d) <$> (to_doc <$> ms)
  = to_doc <$> ((λ m, if q m then g m else m) <$> ms).
Proof.
  intros Hp Hf. rewrite <- !list_fmap_compose. apply list_fmap_ext. intros i m _. simpl.
  rewrite Hp, Hf. by destruct (q m).
Qed.

Lemma seq_in_query_to_doc u l m : MsgBox.seq_in_query u l (to_doc m) = addressed u l m.
Proof. reflexivity. Qed.

Lemma run_cmd_refines c w ms :
  healthy w → mailbox w ms →
  ∃ w', run_cmd msg_box c w = (Ok tt, w') ∧ healthy w' ∧ mailbox w' (spec_step ms c).
Proof.
  unfold mailbox. intros Hnet Hm. destruct c as [m|m gs|id|u l|u l]; cbn [run_cmd spec_step];
    cbn [RecBox.save_message RecBox.save_group_msg RecBox.delete_message RecBox.delete_messages
         RecBox.msg_read msg_box].
  - unfold MsgBox.save_message, insert_one.
    erewrite mongo_run_healthy; [|done|by rewrite coll_insert_ok by (left; by rewrite Hm)].
    eexists. split_and!; [done|done|]. simpl. rewrite coll_of_put, Hm. simpl. by rewrite fmap_app.
  - unfold MsgBox.save_group_msg. rewrite insert_many_run by (done || by rewrite Hm).
    eexists. split_and!; [done|done|]. simpl. rewrite coll_of_put, Hm, member_docs_eq. simpl.
    by rewrite fmap_app, fmap_cons, list_fmap_compose.
  - unfold MsgBox.delete_message, delete_one. mstep. erewrite mongo_run_healthy by done.
    eexists. split_and!; [done|done|]. simpl. rewrite coll_of_put, Hm. simpl.
    by rewrite remove_first_to_doc.
  - unfold MsgBox.delete_messages, delete_many. erewrite mongo_run_healthy by done.
    eexists. split_and!; [done|done|]. simpl. rewrite coll_of_put, Hm. simpl.
    by rewrite (filter_to_doc _ (λ m, negb (addressed u l m))).
  - unfold MsgBox.msg_read. case_bool_decide as Hl.
    + subst l. exists w. split_and!; [done|done|]. rewrite Hm. f_equal.
      rewrite <- list_fmap_compose. apply list_fmap_ext. intros i m _. simpl.
      unfold addressed. by rewrite andb_false_r.
    + unfold update_many. erewrite mongo_run_healthy by done.
      eexists. split_and!; [done|done|]. simpl. rewrite coll_of_put, Hm. simpl.
      by rewrite (update_to_doc _ _ (addressed u l) (set_is_read true)).
Qed.

(** C11. The legacy box implements the abstract mailbox: whatever sequence of
    saves, group saves, deletions by id, acknowledgement deletions and read
    marks is run on a healthy network, every command succeeds and the
    collection ends up holding exactly the messages of the abstract mailbox,
    in order. *)
Theorem msg_box_refines (cs : list BoxCmd) (w : World) (ms : list Msg)
    (Hnet : healthy w) (Hbox : mailbox w ms) :
  ∃ w', for_each cs (run_cmd msg_box) w = (Ok tt, w') ∧ mailbox w' (foldl spec_step ms cs).
Proof.
  revert w ms Hnet Hbox. induction cs as [|c cs IH]; intros w ms Hnet Hbox; [by exists w|].
  destruct (run_cmd_refines c w ms Hnet Hbox) as (w1 & Hr1 & Hn1 & Hm1).
  destruct (IH w1 _ Hn1 Hm1) as (w2 & Hr2 & Hm2). exists w2.
  split; [|done]. cbn [for_each]. unfold mbind, M_bind. by rewrite Hr1.
Qed.

Definition mailbox_world : World :=
  upd_mongo (put_coll COLL_SINGLE_BOX coll_empty) world_empty.

Lemma msg_box_refines_witness :
  ∃ w', for_each [CSave (set_receiver "bob" default_msg); CRead "bob" [0]%Z] (run_cmd msg_box)
          mailbox_world = (Ok tt, w')
      ∧ mailbox w' [set_is_read true (set_receiver "bob" default_msg)].
Proof.
  exact (msg_box_refines [CSave (set_receiver "bob" default_msg); CRead "bob" [0]%Z]
    mailbox_world [] eq_refl eq_refl).
Defined.

(** ** The message handlers of the API ([api/src/handlers/messages]) *)

Definition pull_offline_messages (b : MsgRecBoxRepo) (req : GetDbMessagesRequest)
    : IO (list Msg) :=
  get_msgs b (gdm_user_id req) (gdm_send_start req) (gdm_send_end req)
    (gdm_start req) (gdm_end req).

Definition del_msg (b : MsgRecBoxRepo) (user_id : string) (msg_id : list Z) : IO unit :=
  delete_messages b user_id msg_id.

(** ** Synchronisation reads *)

Definition synced (u : string) (ss se rs re : Z) (m : Msg) : bool :=
  (bool_decide (receiver_id m = u) && in_half_open rs re (seq m))
  || (bool_decide (sender_id m = u) && in_half_open ss se (send_seq m)).

Definition sort_key (u : string) (m : Msg) : Z :=
  if bool_decide (sender_id m = u) then send_seq m else seq m.

Definition msg_le (u : string) (a b : Msg) : Prop :=
  (send_time a < send_time b ∨ (send_time a = send_time b ∧ sort_key u a ≤ sort_key u b))%Z.

Lemma by_time_to_doc u a b : by_time u (to_doc a) (to_doc b) ↔ msg_le u a b.
Proof.
  unfold by_time, msg_le.
  change (sort_field u (to_doc a))
    with (if bool_decide (sender_id a = u) then Some (send_seq a) else Some (seq a)).
  change (sort_field u (to_doc b))
    with (if bool_decide (sender_id b = u) then Some (send_seq b) else Some (seq b)).
  change (num_field "send_time" (to_doc a)) with (Some (send_time a)).
  change (num_field "send_time" (to_doc b)) with (Some (send_time b)).
  unfold opt_lt, opt_le, sort_key.
  repeat case_bool_decide; rewrite orb_true_iff, negb_true_iff, andb_true_iff, Z.leb_gt, !Z.leb_le; lia.
Qed.

Global Instance by_time_total u : Total (by_time u).
Proof.
  intros a b. unfold by_time, opt_lt, opt_le.
  destruct (num_field "send_time" a), (num_field "send_time" b), (sort_field u a), (sort_field u b);
    simpl; rewrite ?orb_true_iff, ?negb_true_iff, ?andb_true_iff, ?Z.leb_gt, ?Z.leb_le; auto; lia.
Qed.

(** A sort of documents that came from messages is a sort of the messages. *)
Lemma sort_to_doc (R : relation Document) `{!RelDecision R} `{!Total R} (ms : list Msg) :
  ∃ ms', merge_sort R (to_doc <$> ms) = to_doc <$> ms' ∧ ms' ≡ₚ ms
       ∧ Sorted (λ a b, R (to_doc a) (to_doc b)) ms'.
Proof.
  destruct (Permutation_map_inv to_doc (l1 := merge_sort R (to_doc <$> ms)) ms)
    as (ms' & Heq & Hp); [apply merge_sort_Permutation|].
  exists ms'. split_and!; [exact Heq|done|].
  assert (Sorted R (to_doc <$> ms')) as Hs
    by (change (to_doc <$> ms') with (map to_doc ms'); rewrite <- Heq; apply Sorted_merge_sort, _).
  clear -Hs. induction ms' as [|m ms IH]; [constructor|].
  rewrite fmap_cons in Hs. apply Sorted_inv in Hs as [Hs Hh]. constructor; [auto|].
  destruct ms; [constructor|]. rewrite fmap_cons in Hh. apply HdRel_inv in Hh. by constructor.
Qed.

Lemma msg_le_blank u a b :
  msg_le u a b → msg_le u (MsgBox.blank_own u (stored_part a)) (MsgBox.blank_own u (stored_part b)).
Proof.
  unfold msg_le, MsgBox.blank_own, sort_key. intros H.
  repeat case_bool_decide; simpl in *; repeat case_bool_decide; simpl in *; subst; try done; lia.
Qed.

Lemma Sorted_fmap_mono {A B} (R : relation A) (R' : relation B) (f : A → B) l :
  (∀ a b, R a b → R' (f a) (f b)) → Sorted R l → Sorted R' (f <$> l).
Proof.
  intros Hf. induction 1 as [|a l Hs IH Hh]; [constructor|]. rewrite fmap_cons. constructor; [done|].
  destruct Hh; [constructor|]. rewrite fmap_cons. constructor. auto.
Qed.

Definition capacity_ok (n : Z) : Prop := (as_u64 n * msg_size ≤ i64_max)%Z.

Lemma with_capacity_ok n w : capacity_ok n → with_capacity n w = (Ok tt, w).
Proof. intros H. unfold with_capacity. by rewrite (proj2 (Z.leb_le _ _)). Qed.
Lemma with_capacity_panic n w : ¬ capacity_ok n → with_capacity n w = (Panic, w).
Proof. intros H. unfold with_capacity. unfold capacity_ok in H. by rewrite (proj2 (Z.leb_gt _ _)) by lia. Qed.

Lemma pull_offline_run (req : GetDbMessagesRequest) (w : World) (ms : list Msg)
    (Hnet : healthy w) (Hbox : mailbox w ms)
    (Hcap : capacity_ok (gdm_send_end req - gdm_send_start req + (gdm_end req - gdm_start req))) :
  let u := gdm_user_id req in
  ∃ out, pull_offline_messages msg_box req w = (Ok out, w)
    ∧ out ≡ₚ MsgBox.blank_own u ∘ stored_part
              <$> List.filter (synced u (gdm_send_start req) (gdm_send_end req)
                                 (gdm_start req) (gdm_end req)) ms
    ∧ Sorted (msg_le u) out.
Proof.
  intros u. unfold pull_offline_messages. cbn [RecBox.get_msgs msg_box].
  unfold MsgBox.get_msgs, aggregate. unfold mbind, M_bind. rewrite mongo_read_healthy by done.
  rewrite with_capacity_ok by done. rewrite Hbox. cbn [c_docs]. fold u.
  rewrite (filter_to_doc _ (synced u (gdm_send_start req) (gdm_send_end req)
             (gdm_start req) (gdm_end req))) by done.
  destruct (sort_to_doc (by_time u) (List.filter (synced u (gdm_send_start req)
    (gdm_send_end req) (gdm_start req) (gdm_end req)) ms)) as (ms' & -> & Hp & Hs).
  assert (Hmap : MsgBox.blank_own u ∘ msg_of_doc <$> (to_doc <$> ms')
    = MsgBox.blank_own u ∘ stored_part <$> ms').
  { rewrite <- list_fmap_compose. apply list_fmap_ext. intros i m _. simpl.
    by rewrite msg_of_doc_to_doc. }
  eexists. split_and!; [reflexivity| |].
  - rewrite Hmap. by rewrite Hp.
  - rewrite Hmap. eapply Sorted_fmap_mono; [|exact Hs]. intros a b Hab%by_time_to_doc.
    by apply msg_le_blank.
Qed.

(** C15. Pulling offline messages answers exactly the messages received with a
    sequence in (start, end] and the messages sent with a send sequence in
    (send_start, send_end], each once, ordered by send time and then by the
    sequence of the direction, the user's own messages with [seq] blanked; it
    changes nothing. *)
Theorem pull_offline_exact (req : GetDbMessagesRequest) (w : World) (ms : list Msg)
    (Hnet : healthy w) (Hbox : mailbox w ms)
    (Hcap : capacity_ok (gdm_send_end req - gdm_send_start req + (gdm_end req - gdm_start req))) :
  let u := gdm_user_id req in
  ∃ out, pull_offline_messages msg_box req w = (Ok out, w)
    ∧ out ≡ₚ MsgBox.blank_own u ∘ stored_part
              <$> List.filter (synced u (gdm_send_start req) (gdm_send_end req)
                                 (gdm_start req) (gdm_end req)) ms
    ∧ Sorted (msg_le u) out.
Proof. exact (pull_offline_run req w ms Hnet Hbox Hcap). Qed.

Lemma pull_offline_exact_witness :
  ∃ out, pull_offline_messages msg_box (mkGetDbMessages "bob" 0 10 0 0) mailbox_world
           = (Ok out, mailbox_world) ∧ out ≡ₚ [].
Proof.
  destruct (pull_offline_exact (mkGetDbMessages "bob" 0 10 0 0) mailbox_world [])
    as (out & H & Hp & _).
  - reflexivity.
  - reflexivity.
  - vm_compute. discriminate.
  - exists out. split; [exact H|exact Hp].
Defined.

Lemma capacity_ok_iff n : in_i64 n = true → capacity_ok n ↔ (0 ≤ n ≤ i64_max / msg_size)%Z.
Proof.
  unfold in_i64, capacity_ok, as_u64, u64_modulus, msg_size. rewrite andb_true_iff, !bool_decide_eq_true.
  unfold i64_min, i64_max. intros [H1 H2]. split.
  - intros H. destruct (decide (0 ≤ n)%Z).
    + rewrite Z.mod_small in H by lia. split; [done|]. apply Z.div_le_lower_bound; lia.
    + exfalso. rewrite <- (Z_mod_plus_full n 1), Z.mod_small in H; lia.
  - intros [H3 H4]. rewrite Z.mod_small by lia.
    pose proof (Z.mul_div_le 9223372036854775807 264). lia.
Qed.

(** Pulling offline messages panics in the server, whoever asks, exactly
    when the two requested ranges together have a negative length or one above
    [isize::MAX / size_of::<Msg>()]: the length is cast to [usize] for a
    preallocation, and the handler runs no validation first. *)
Theorem pull_offline_panics (req : GetDbMessagesRequest) (w : World)
    (Hnet : healthy w)
    (Hlen : in_i64 (gdm_send_end req - gdm_send_start req + (gdm_end req - gdm_start req)) = true) :
  (pull_offline_messages msg_box req w).1 = Panic
  ↔ ¬ (0 ≤ gdm_send_end req - gdm_send_start req + (gdm_end req - gdm_start req)
         ≤ i64_max / msg_size)%Z.
Proof.
  rewrite <- capacity_ok_iff by done. unfold pull_offline_messages. cbn [RecBox.get_msgs msg_box].
  unfold MsgBox.get_msgs, aggregate. unfold mbind, M_bind. rewrite mongo_read_healthy by done.
  destruct (Z.leb_spec (as_u64 (gdm_send_end req - gdm_send_start req
    + (gdm_end req - gdm_start req)) * msg_size) i64_max).
  - rewrite with_capacity_ok by done. by split.
  - rewrite with_capacity_panic by (unfold capacity_ok; lia). split; [|done].
    intros _ Hc. unfold capacity_ok in Hc. lia.
Qed.

Lemma pull_offline_panics_witness :
  (pull_offline_messages msg_box (mkGetDbMessages "bob" 5 3 0 0) world_empty).1 = Panic.
Proof. apply (proj2 (pull_offline_panics (mkGetDbMessages "bob" 5 3 0 0) world_empty eq_refl eq_refl)). vm_compute. tauto. Defined.

(** The cleaning task deletes nothing: it compares the send time, which the
    producer stores in milliseconds, with a cutoff in seconds. Whatever the
    retention period and the kept types, a round run at any time before the
    year 33658 leaves every message sent since September 2001 in place. *)
Theorem clean_round_deletes_nothing (period : Z) (types : list Z) (w : World) (ms : list Msg)
    (Hnet : healthy w) (Hbox : mailbox w ms) (Hperiod : (0 ≤ period)%Z)
    (Hclock : (w_clock w < 1000000000000000)%Z)
    (Hsent : Forall (λ m, (1000000000000 ≤ send_time m)%Z) ms) :
  (MsgBox.clean_round period types w).1 = Ok tt
  ∧ mailbox (MsgBox.clean_round period types w).2 ms.
Proof.
  unfold MsgBox.clean_round, now_ms, delete_many. mstep. erewrite mongo_run_healthy by done. simpl.
  split; [done|]. unfold mailbox; simpl. rewrite coll_of_put, Hbox. simpl.
  assert (Hcut : (w_clock w / 1000 - period * 86400 < 1000000000000)%Z).
  { pose proof (Z.div_lt_upper_bound (w_clock w) 1000 1000000000000). lia. }
  f_equal. rewrite (filter_to_doc _ (λ m, negb ((send_time m <? w_clock w / 1000 - period * 86400)%Z
      && negb (in_list types (msg_type m))))) by done.
  f_equal. clear Hbox. induction Hsent as [|m ms Hm _ IH]; [done|]. cbn [List.filter].
  rewrite (proj2 (Z.ltb_ge _ _)) by lia. simpl. by rewrite IH.
Qed.

(** A message sent on 2020-01-01, five years before the round, kept for 7 days. *)
Definition old_box_world : World :=
  at_time 1735689600000 (upd_mongo (put_coll COLL_SINGLE_BOX
    (mkColl [to_doc (set_send_time 1577836800000 default_msg)] false)) world_empty).

Lemma clean_round_deletes_nothing_witness :
  mailbox (MsgBox.clean_round 7 [] old_box_world).2 [set_send_time 1577836800000 default_msg].
Proof.
  apply (clean_round_deletes_nothing 7 [] old_box_world [set_send_time 1577836800000 default_msg]).
  - reflexivity.
  - reflexivity.
  - lia.
  - reflexivity.
  - repeat constructor. vm_compute. discriminate.
Defined.

(** Streaming offline messages from the legacy box completes only while at
    most 100 messages match: all matches are sent into a channel of that
    capacity before its reader exists, and the next send waits for ever. *)
Theorem stream_completes (u : string) (start end_ : Z) (w : World) (ms : list Msg)
    (Hnet : healthy w) (Hbox : mailbox w ms) :
  (∃ out, (MsgBox.get_messages_stream u start end_ w).1 = Ok out)
  ↔ length (List.filter (λ m, bool_decide (receiver_id m = u) && in_closed start end_ (seq m)) ms) ≤ 100.
Proof.
  unfold MsgBox.get_messages_stream, find_sorted. unfold mbind, M_bind.
  rewrite mongo_read_healthy by done. rewrite Hbox. cbn [c_docs].
  rewrite (filter_to_doc _ (λ m, bool_decide (receiver_id m = u) && in_closed start end_ (seq m))) by done.
  rewrite (Permutation_length (merge_sort_Permutation _ _)), length_fmap.
  unfold STREAM_CAPACITY. case_bool_decide as H.
  - split; [done|]. intros _. by eexists.
  - split; [|done]. by intros [out [=]].
Qed.

Definition crowded_world : World :=
  upd_mongo (put_coll COLL_SINGLE_BOX (mkColl (to_doc <$> replicate 101 default_msg) false))
    world_empty.

Lemma stream_completes_witness :
  ¬ ∃ out, (MsgBox.get_messages_stream "" 0 0 crowded_world).1 = Ok out.
Proof.
  intros H. apply (stream_completes "" 0 0 crowded_world (replicate 101 default_msg) eq_refl) in H.
  - vm_compute in H. lia.
  - reflexivity.
Defined.
