(* ===== verification/ShardedBox.v ===== *)
(** * The sharded receive box ([db/src/mongodb/sharded_message.rs])

    [HybridShardedMsgBox]: one collection per month and user range. The hash of
    a user id and chrono's calendar are parameters: [year_month] is
    [DateTime::from_timestamp(secs, 0)] formatted with ["%Y_%m"], [None] when
    the timestamp is out of chrono's range, and the month arithmetic maps
    seconds to seconds. *)

From stdpp Require Import pretty.
From S2P Require Import Prelude Errors Types Tables World RecBox.

Section sharded.
Context (hash : string → Z)
        (year_month : Z → option string)
        (checked_add_months checked_sub_months : Z → Z → option Z).
Context (user_shards : Z).

Definition now_secs : IO Z := now ← now_ms; mret (now / 1000)%Z.

(** [DateTime::from_timestamp(t, 0).unwrap_or(Utc::now())], formatted *)
Definition get_collection_name (timestamp user_range : Z) : IO string :=
  now ← now_secs;
  let ym := match year_month timestamp with Some s => s | None => default ""%string (year_month now) end in
  mret ("msg_box_" +:+ ym +:+ "_" +:+ pretty user_range)%string.

(** [(hasher.finish() % self.user_shards as u64) as u8]: a remainder by zero panics. *)
Definition get_user_range (user_id : string) : IO Z :=
  if bool_decide (user_shards = 0)%Z then panic else mret (as_u8 (hash user_id mod user_shards)).

(** [create_index]: it creates the collection; a unique index is refused when
    the collection holds duplicates. *)
Definition create_index (name : string) (unique : bool) : IO unit :=
  mongo_run name (λ c,
    if unique && negb (bool_decide (NoDup (doc_key <$> c_docs c))) then None
    else Some (tt, mkColl (c_docs c) (unique || c_unique c))).

Definition ensure_collection_indexed (name : string) : IO unit :=
  create_index name false ;; create_index name false ;; create_index name false ;;
  create_index name true ;;
  modify (upd_cached (λ s, {[name]} ∪ s)).

Definition get_collection (name : string) : IO unit :=
  cache ← gets w_cached;
  if bool_decide (name ∈ cache) then mret tt
  else
    ensure_collection_indexed name ;;
    cache ← gets w_cached;
    if bool_decide (name ∈ cache) then mret tt
    else throw (internal_with_details "Failed to cache collection").

(** ** Start-up *)

Definition user_ranges : list Z := Z.of_nat <$> List.seq 0 (Z.to_nat user_shards).

(** [Months::new(month_offset as u32)] *)
Definition initialize_system : IO unit :=
  now ← now_secs;
  for_each [-1; 0; 1; 2; 3]%Z (λ month_offset,
    for_each user_ranges (λ user_range,
      let adjusted_date := default now (checked_add_months (as_u32 month_offset) now) in
      coll_name ← get_collection_name adjusted_date user_range;
      ensure_collection_indexed coll_name ;;
      modify (upd_active (λ s, {[coll_name]} ∪ s)))).

(** One round of the maintenance task: index errors are only logged. *)
Definition maintenance_round : IO unit :=
  now ← now_secs;
  for_each [0; 1; 2; 3]%Z (λ month_offset,
    for_each user_ranges (λ user_range,
      let adjusted_date := default now (checked_add_months month_offset now) in
      coll_name ← get_collection_name adjusted_date user_range;
      active ← gets w_active;
      if bool_decide (coll_name ∈ active) then mret tt
      else
        log_err (create_index coll_name false) ;; log_err (create_index coll_name false) ;;
        log_err (create_index coll_name false) ;; log_err (create_index coll_name true) ;;
        modify (upd_active (λ s, {[coll_name]} ∪ s)) ;;
        modify (upd_cached (λ s, {[coll_name]} ∪ s)))).

(** ** The trait *)

Definition sharded_save_message (message : Msg) : IO unit :=
  user_range ← get_user_range (receiver_id message);
  coll_name ← get_collection_name (send_time message) user_range;
  get_collection coll_name ;;
  insert_one coll_name (to_doc message).

(** The collection and document of every member. *)
Fixpoint member_inserts (message : Msg) (members : list GroupMemSeq)
    : IO (list (string * Document)) :=
  match members with
  | [] => mret []
  | g :: members' =>
      let message := set_receiver (mem_id g) (set_seq_field (cur_seq g) message) in
      receiver_range ← get_user_range (mem_id g);
      coll ← get_collection_name (send_time message) receiver_range;
      get_collection coll ;;
      rest ← member_inserts message members';
      mret ((coll, to_doc message) :: rest)
  end.

(** All inserts are spawned, then awaited in order. *)
Fixpoint spawn_inserts (l : list (string * Document)) : IO (list (outcome Error unit)) :=
  match l with
  | [] => mret []
  | (coll, d) :: l' =>
      h ← spawn (insert_one coll d);
      hs ← spawn_inserts l';
      mret (h :: hs)
  end.

Fixpoint await_all (hs : list (outcome Error unit)) : IO unit :=
  match hs with
  | [] => mret tt
  | Ok _ :: hs' => await_all hs'
  | Err e :: _ => throw e
  | Panic :: _ => throw (internal "task panicked")
  | Hang :: _ => hang
  end.

Definition sharded_save_group_msg (message : Msg) (members : list GroupMemSeq) : IO unit :=
  sender_range ← get_user_range (sender_id message);
  sender_coll ← get_collection_name (send_time message) sender_range;
  get_collection sender_coll ;;
  let sender_msg := set_receiver (sender_id message) message in
  rest ← member_inserts (set_send_seq_field 0 message) members;
  hs ← spawn_inserts ((sender_coll, to_doc sender_msg) :: rest);
  await_all hs.

Fixpoint delete_in (colls : list string) (message_id : string) : IO unit :=
  match colls with
  | [] => mret tt
  | coll_name :: colls' =>
      get_collection coll_name ;;
      deleted_count ← delete_one coll_name (str_is "server_id" message_id);
      if bool_decide (0 < deleted_count) then mret tt else delete_in colls' message_id
  end.

Definition sharded_delete_message (message_id : string) : IO unit :=
  active ← gets w_active;
  delete_in (elements active) message_id.

(** The collections of the current month and of the [n] months before it. *)
Fixpoint recent (now user_range : Z) (months : list Z) : IO (list string) :=
  match months with
  | [] => mret []
  | k :: months' =>
      name ← get_collection_name
               (if bool_decide (k = 0)%Z then now else default now (checked_sub_months k now)) user_range;
      rest ← recent now user_range months';
      mret (name :: rest)
  end.

Definition user_collections (user_id : string) (months : list Z) : IO (list string) :=
  user_range ← get_user_range user_id;
  now ← now_secs;
  recent now user_range months.

(** [match self.get_collection(..).await { Ok(c) => .., Err(_) => continue }] *)
Definition if_collection (coll : string) (m : IO unit) : IO unit :=
  c ← attempt (get_collection coll);
  match c with inr _ => m | inl _ => mret tt end.

Definition sharded_delete_messages (user_id : string) (msg_seq : list Z) : IO unit :=
  if bool_decide (msg_seq = []) then mret tt
  else
    colls ← user_collections user_id [0; 1]%Z;
    for_each colls (λ coll,
      if_collection coll (delete_many coll (MsgBox.seq_in_query user_id msg_seq))).

Fixpoint get_in (colls : list string) (message_id : string) : IO (option Msg) :=
  match colls with
  | [] => mret None
  | coll_name :: colls' =>
      get_collection coll_name ;;
      d ← find_one coll_name (str_is "server_id" message_id);
      match d with
      | Some d => mret (Some (msg_of_doc d))
      | None => get_in colls' message_id
      end
  end.

Definition sharded_get_message (message_id : string) : IO (option Msg) :=
  active ← gets w_active;
  get_in (elements active) message_id.

(** The reads of a list of collections, concatenated. *)
Fixpoint collect (colls : list string) (q : string → IO (list Document)) : IO (list Document) :=
  match colls with
  | [] => mret []
  | coll :: colls' =>
      c ← attempt (get_collection coll);
      ds ← match c with inr _ => q coll | inl _ => mret [] end;
      rest ← collect colls' q;
      mret (ds ++ rest)
  end.

(** The streaming task skips missing collections and failed queries; it runs
    beside its reader, so the channel never blocks it for good. *)
Fixpoint stream (colls : list string) (p : Document → bool) : IO (list Document) :=
  match colls with
  | [] => mret []
  | coll :: colls' =>
      names ← attempt (remote mongo_error (gets (λ w, dom (w_mongo w))));
      ds ← (if match names with inr s => bool_decide (coll ∈ s) | inl _ => false end
            then r ← attempt (find_sorted coll p);
                 mret (match r with inr ds => ds | inl _ => [] end)
            else mret []);
      rest ← stream colls' p;
      mret (ds ++ rest)
  end.

Definition sharded_get_messages_stream (user_id : string) (start end_ : Z) : IO (list Msg) :=
  colls ← user_collections user_id [0; 1; 2]%Z;
  ds ← stream colls (MsgBox.range_query user_id start end_);
  mret (msg_of_doc <$> ds).

Definition seq_le (a b : Msg) : Prop := (seq a ≤ seq b)%Z.
Global Instance seq_le_dec : RelDecision seq_le.
Proof. intros ??. unfold seq_le. apply _. Defined.
Definition time_le (u : string) (a b : Msg) : Prop := msg_le u a b.
Global Instance time_le_dec u : RelDecision (time_le u).
Proof. intros ??. unfold time_le, msg_le. apply _. Defined.

Definition sharded_get_messages (user_id : string) (start end_ : Z) : IO (list Msg) :=
  colls ← user_collections user_id [0; 1; 2]%Z;
  with_capacity (end_ - start) ;;
  ds ← collect colls (λ c, find_sorted c (MsgBox.range_query user_id start end_));
  mret (merge_sort seq_le (msg_of_doc <$> ds)).

Definition sync_query_closed (user_id : string) (send_start send_end rec_start rec_end : Z)
    (d : Document) : bool :=
  (str_is "receiver_id" user_id d && num_cond "seq" (in_closed rec_start rec_end) d)
  || (str_is "sender_id" user_id d && num_cond "send_seq" (in_closed send_start send_end) d).

Definition sharded_get_msgs (user_id : string) (send_start send_end rec_start rec_end : Z)
    : IO (list Msg) :=
  colls ← user_collections user_id [0; 1; 2]%Z;
  with_capacity (send_end - send_start + (rec_end - rec_start)) ;;
  ds ← collect colls (λ c, aggregate c user_id
         (sync_query_closed user_id send_start send_end rec_start rec_end));
  mret (merge_sort (time_le user_id) (MsgBox.blank_own user_id ∘ msg_of_doc <$> ds)).

Definition sharded_msg_read (user_id : string) (msg_seq : list Z) : IO unit :=
  if bool_decide (msg_seq = []) then mret tt
  else
    colls ← user_collections user_id [0; 1]%Z;
    for_each colls (λ coll,
      if_collection coll (update_many coll (MsgBox.seq_in_query user_id msg_seq) MsgBox.set_read)).

Definition sharded_box : MsgRecBoxRepo :=
  mkMsgRecBoxRepo sharded_save_message sharded_save_group_msg sharded_delete_message
    sharded_delete_messages sharded_get_message sharded_get_messages_stream sharded_get_messages
    sharded_get_msgs sharded_msg_read.

(** ** One round of the cleaning task *)

(** [coll_name.split('_')]; the underscore is character 95 *)
Definition split_underscore : string → list string := split_on 95.

(** The outdated ones of a list of names; [parts[3]] of a name with exactly
    three parts panics. *)
Fixpoint outdated (names : list string) (threshold : string) : IO (list string) :=
  match names with
  | [] => mret []
  | coll_name :: names' =>
      match split_underscore coll_name with
      | _ :: _ :: y :: m :: _ =>
          rest ← outdated names' threshold;
          mret (if String.ltb (y +:+ "_" +:+ m)%string threshold then coll_name :: rest else rest)
      | [_; _; _] => panic
      | _ => outdated names' threshold
      end
  end.

(** The task holds the read guard of [active_collections] for the whole round;
    asking for the write guard then waits for ever. *)
Definition sharded_clean_round (period : Z) (types : list Z) : IO unit :=
  now ← now_secs;
  let cutoff_time := (now - period * 86400)%Z in
  active ← gets w_active;
  for_each (elements active) (λ coll_name,
    names ← attempt (remote mongo_error (gets (λ w, dom (w_mongo w))));
    if match names with inr s => bool_decide (coll_name ∈ s) | inl _ => false end
    then log_err (delete_many coll_name (λ d,
           num_cond "send_time" (λ t, t <? cutoff_time)%Z d
           && negb (num_cond "msg_type" (in_list types) d)))
    else mret tt) ;;
  let outdated_threshold := default ""%string
    (year_month (default now (checked_sub_months (as_u32 (Z.quot period 30 + 2)) now))) in
  to_remove ← outdated (elements active) outdated_threshold;
  if bool_decide (to_remove = []) then mret tt else hang.

(** ** Lemmas *)

(** No collection holds two documents with the same index key. *)
Definition keys_ok (m : Mongo) : Prop := ∀ name, NoDup (doc_key <$> c_docs (coll_of m name)).
Definition key_fresh (d : Document) (m : Mongo) : Prop :=
  ∀ name, doc_key d ∉ (doc_key <$> c_docs (coll_of m name)).
(** The documents of every collection agree; index flags and empty collections
    may differ. *)
Definition same_docs (m m' : Mongo) : Prop :=
  (∀ name, c_docs (coll_of m' name) = c_docs (coll_of m name)) ∧ mongo_docs m' ≡ₚ mongo_docs m.

Global Instance same_docs_preorder : PreOrder same_docs.
Proof.
  split.
  - by intros m.
  - intros m1 m2 m3 [H1 P1] [H2 P2]. split; [intros name; by rewrite H2, H1|by rewrite P2, P1].
Qed.

Lemma same_docs_put name c m :
  c_docs c = c_docs (coll_of m name) → same_docs m (put_coll name c m).
Proof.
  intros Hc. split.
  - intros name'. destruct (decide (name = name')) as [<-|Hne]; [by rewrite coll_of_put|].
    by rewrite coll_of_put_ne.
  - by rewrite mongo_docs_insert, (mongo_docs_delete name m), Hc.
Qed.

Lemma keys_ok_same m m' : same_docs m m' → keys_ok m → keys_ok m'.
Proof. intros [H _] Hk name. rewrite H. apply Hk. Qed.

Lemma key_fresh_same d m m' : same_docs m m' → key_fresh d m → key_fresh d m'.
Proof. intros [H _] Hk name. rewrite H. apply Hk. Qed.

(** What looking up a collection does on a healthy network. *)
Record got_collection (w w' : World) : Prop := {
  gc_net : healthy w';
  gc_docs : same_docs (w_mongo w) (w_mongo w');
  gc_out : outside_box w' = outside_box w;
  gc_active : w_active w' = w_active w
}.

Global Instance got_collection_trans : Transitive got_collection.
Proof.
  intros w1 w2 w3 [] []. split; [done|by etrans|congruence|congruence].
Qed.

Lemma create_index_run name u w :
  healthy w → keys_ok (w_mongo w) →
  ∃ w', create_index name u w = (Ok tt, w') ∧ got_collection w w' ∧ w_cached w' = w_cached w.
Proof.
  intros Hnet Hk. unfold create_index. eexists. split.
  - eapply mongo_run_healthy; [done|]. rewrite (bool_decide_eq_true_2 _ (Hk name)).
    simpl. by rewrite andb_false_r.
  - split; [|done]. split; [done| |done|done]. simpl. by apply same_docs_put.
Qed.

Lemma ensure_run name w :
  healthy w → keys_ok (w_mongo w) →
  ∃ w', ensure_collection_indexed name w = (Ok tt, w') ∧ got_collection w w' ∧ name ∈ w_cached w'.
Proof.
  intros Hnet Hk. unfold ensure_collection_indexed.
  destruct (create_index_run name false w Hnet Hk) as (w1 & H1 & G1 & _). mrun H1.
  destruct (create_index_run name false w1) as (w2 & H2 & G2 & _);
    [by destruct G1|by eapply keys_ok_same; [apply G1|]|]. mrun H2.
  pose proof (transitivity G1 G2) as G12.
  destruct (create_index_run name false w2) as (w3 & H3 & G3 & _);
    [by destruct G12|by eapply keys_ok_same; [apply G12|]|]. mrun H3.
  pose proof (transitivity G12 G3) as G13.
  destruct (create_index_run name true w3) as (w4 & H4 & G4 & _);
    [by destruct G13|by eapply keys_ok_same; [apply G13|]|]. mrun H4.
  destruct (transitivity G13 G4). eexists. split; [reflexivity|]. split; [by split|]. simpl. set_solver.
Qed.

Lemma get_collection_run name w :
  healthy w → keys_ok (w_mongo w) →
  ∃ w', get_collection name w = (Ok tt, w') ∧ got_collection w w'.
Proof.
  intros Hnet Hk. unfold get_collection. erewrite bind_ok by done.
  case_bool_decide; [by exists w|].
  destruct (ensure_run name w Hnet Hk) as (w' & H1 & G1 & Hc). mrun H1. erewrite bind_ok by done.
  rewrite bool_decide_eq_true_2 by done. by exists w'.
Qed.

Lemma insert_one_run name d w :
  healthy w → key_fresh d (w_mongo w) → keys_ok (w_mongo w) →
  ∃ w', insert_one name d w = (Ok tt, w') ∧ healthy w' ∧ keys_ok (w_mongo w')
    ∧ outside_box w' = outside_box w ∧ all_docs w' ≡ₚ d :: all_docs w
    ∧ (∀ d', doc_key d' ≠ doc_key d → key_fresh d' (w_mongo w) → key_fresh d' (w_mongo w')).
Proof.
  intros Hnet Hf Hk. unfold insert_one.
  erewrite mongo_run_healthy; [|done|by rewrite coll_insert_ok by (right; apply Hf)].
  eexists. split_and!; [done|done| |done| |]; simpl.
  - intros name'. destruct (decide (name = name')) as [<-|Hne].
    + rewrite coll_of_put. simpl. rewrite fmap_app. apply NoDup_app. split_and!; [apply Hk| |].
      * intros k Hin ->%list_elem_of_singleton. by apply (Hf name).
      * apply NoDup_singleton.
    + by rewrite coll_of_put_ne.
  - unfold all_docs; simpl. rewrite mongo_docs_insert, (mongo_docs_delete name (w_mongo w)). simpl.
    by rewrite <- app_assoc, Permutation_middle.
  - intros d' Hne Hf' name'. destruct (decide (name = name')) as [<-|].
    + rewrite coll_of_put. simpl. rewrite fmap_app.
      intros [Hin|Hin%list_elem_of_singleton]%elem_of_app; [by apply (Hf' name)|done].
    + rewrite coll_of_put_ne by done. apply Hf'.
Qed.

Lemma doc_key_to_doc m : doc_key (to_doc m) = (Some (BString (server_id m)), Some (BString (receiver_id m))).
Proof. reflexivity. Qed.

Lemma fresh_id_key m w : fresh_id (server_id m) w → key_fresh (to_doc m) (w_mongo w).
Proof.
  intros Hf name (d & Hd & Hin)%list_elem_of_fmap. apply elem_of_coll_docs in Hin.
  specialize (Hf d Hin). rewrite doc_key_to_doc in Hd. unfold doc_key in Hd. injection Hd as H1 H2.
  unfold str_is in Hf. rewrite <- H1 in Hf. by rewrite bool_decide_eq_true_2 in Hf.
Qed.

Lemma get_user_range_run u w : user_shards ≠ 0%Z →
  get_user_range u w = (Ok (as_u8 (hash u mod user_shards)), w).
Proof. intros. unfold get_user_range. by rewrite bool_decide_eq_false_2. Qed.

Definition collection_name (w : World) (timestamp user_range : Z) : string :=
  ("msg_box_" +:+ match year_month timestamp with Some s => s
                  | None => default "" (year_month (w_clock w / 1000)) end
   +:+ "_" +:+ pretty user_range)%string.

Lemma get_collection_name_run t r w :
  get_collection_name t r w = (Ok (collection_name w t r), w).
Proof. reflexivity. Qed.

(** ** Frames *)

Lemma keeps_upd_cached f : keeps (E := Error) (same outside_box) (modify (upd_cached f)).
Proof. by intros w. Qed.
Lemma keeps_get_range u : keeps (same outside_box) (get_user_range u).
Proof. unfold get_user_range. case_bool_decide; by intros w. Qed.
Lemma keeps_get_name t r : keeps (same outside_box) (get_collection_name t r).
Proof. by intros w. Qed.

Lemma keeps_get_collection name : keeps (same outside_box) (get_collection name).
Proof.
  assert (He : keeps (same outside_box) (ensure_collection_indexed name)).
  { unfold ensure_collection_indexed, create_index.
    repeat (apply keeps_bind; [apply _|apply keeps_mongo_run|intros _]). apply keeps_upd_cached. }
  unfold get_collection. apply keeps_bind; [apply _|apply keeps_gets, _|intros c].
  case_bool_decide; [apply keeps_ret, _|].
  apply keeps_bind; [apply _|exact He|intros _].
  apply keeps_bind; [apply _|apply keeps_gets, _|intros c'].
  case_bool_decide; [apply keeps_ret, _|apply keeps_throw, _].
Qed.

Lemma keeps_member_inserts gs : ∀ m, keeps (same outside_box) (member_inserts m gs).
Proof.
  induction gs as [|g gs IH]; intros m; simpl; [apply keeps_ret, _|].
  apply keeps_bind; [apply _|apply keeps_get_range|intros r].
  apply keeps_bind; [apply _|apply keeps_get_name|intros c].
  apply keeps_bind; [apply _|apply keeps_get_collection|intros _].
  apply keeps_bind; [apply _|apply IH|intros rest]. apply keeps_ret, _.
Qed.

Lemma keeps_spawn_inserts l : keeps (same outside_box) (spawn_inserts l).
Proof.
  induction l as [|[c d] l IH]; simpl; [apply keeps_ret, _|].
  apply keeps_bind; [apply _|apply keeps_spawn, keeps_mongo_run|intros h].
  apply keeps_bind; [apply _|apply IH|intros hs]. apply keeps_ret, _.
Qed.

Lemma keeps_await_all hs : keeps (same outside_box) (await_all hs).
Proof. induction hs as [|[] hs IH]; simpl; try done; by intros w. Qed.

Lemma keeps_delete_in id colls : keeps (same outside_box) (delete_in colls id).
Proof.
  induction colls as [|c colls IH]; simpl; [apply keeps_ret, _|].
  apply keeps_bind; [apply _|apply keeps_get_collection|intros _].
  apply keeps_bind; [apply _|apply keeps_mongo_run|intros n].
  case_bool_decide; [apply keeps_ret, _|apply IH].
Qed.

Lemma keeps_recent now r months : keeps (same outside_box) (recent now r months).
Proof.
  induction months as [|k months IH]; simpl; [apply keeps_ret, _|].
  apply keeps_bind; [apply _|apply keeps_get_name|intros n].
  apply keeps_bind; [apply _|apply IH|intros rest]. apply keeps_ret, _.
Qed.

Lemma keeps_user_collections u months : keeps (same outside_box) (user_collections u months).
Proof.
  apply keeps_bind; [apply _|apply keeps_get_range|intros r].
  apply keeps_bind; [apply _|by intros w|intros now]. apply keeps_recent.
Qed.

Lemma keeps_if_collection c m : keeps (same outside_box) m → keeps (same outside_box) (if_collection c m).
Proof.
  intros Hm. apply keeps_bind; [apply _|apply keeps_attempt, keeps_get_collection|].
  intros []; [apply keeps_ret, _|done].
Qed.

(** ** The laws of the box *)

Lemma member_inserts_run gs : ∀ m w,
  user_shards ≠ 0%Z → healthy w → keys_ok (w_mongo w) →
  ∃ l w', member_inserts m gs w = (Ok l, w') ∧ got_collection w w' ∧ l.*2 = MsgBox.member_docs m gs.
Proof.
  induction gs as [|g gs IH]; intros m w Hu Hnet Hk; cbn [member_inserts MsgBox.member_docs].
  { exists [], w. by split_and!. }
  cbv zeta. mrun (get_user_range_run (mem_id g) w Hu). erewrite bind_ok by done.
  match goal with |- context [get_collection ?c] =>
    destruct (get_collection_run c w Hnet Hk) as (w1 & H1 & G1) end.
  mrun H1. destruct (IH (set_receiver (mem_id g) (set_seq_field (cur_seq g) m)) w1 Hu)
    as (l & w2 & H2 & G2 & Hl); [apply G1|by eapply keys_ok_same; [apply G1|]|].
  mrun H2. do 2 eexists. split; [reflexivity|]. split; [by etrans|]. by rewrite fmap_cons, Hl.
Qed.

Lemma spawn_inserts_run l : ∀ w,
  healthy w → keys_ok (w_mongo w) → NoDup (doc_key <$> l.*2) →
  Forall (λ x, key_fresh x.2 (w_mongo w)) l →
  ∃ hs w', spawn_inserts l w = (Ok hs, w') ∧ (∀ w0, await_all hs w0 = (Ok tt, w0))
    ∧ healthy w' ∧ keys_ok (w_mongo w') ∧ all_docs w' ≡ₚ l.*2 ++ all_docs w.
Proof.
  induction l as [|[c d] l IH]; intros w Hnet Hk Hnd Hf; simpl.
  { exists [], w. by split_and!. }
  apply NoDup_cons in Hnd as [Hd Hnd]. apply Forall_cons in Hf as [Hfd Hf].
  destruct (insert_one_run c d w Hnet Hfd Hk) as (w1 & H1 & Hn1 & Hk1 & _ & Hdocs & Hkeep).
  destruct (IH w1 Hn1 Hk1 Hnd) as (hs & w2 & H2 & Ha & Hn2 & Hk2 & Hdocs2).
  { rewrite Forall_forall in Hf |- *. intros [c' d'] Hin. apply Hkeep; [|by apply (Hf (c', d'))].
    intros Heq. apply Hd. apply list_elem_of_fmap. exists d'. split; [exact (eq_sym Heq)|].
    apply list_elem_of_fmap. by exists (c', d'). }
  exists (Ok tt :: hs), w2. split_and!; try done.
  - erewrite bind_ok by (apply spawn_ok; exact H1). by mrun H2.
  - rewrite Hdocs2, Hdocs. by rewrite <- Permutation_middle.
Qed.

Lemma delete_one_run name id w :
  healthy w → keys_ok (w_mongo w) →
  ∃ n w', delete_one name (str_is "server_id" id) w = (Ok n, w') ∧ healthy w' ∧ keys_ok (w_mongo w')
    ∧ ((n = 0 ∧ all_docs w' ≡ₚ all_docs w)
       ∨ (0 < n ∧ ∃ d, str_is "server_id" id d = true ∧ all_docs w ≡ₚ d :: all_docs w')).
Proof.
  intros Hnet Hk. unfold delete_one. erewrite mongo_run_healthy by done.
  set (p := str_is "server_id" id). set (l := c_docs (coll_of (w_mongo w) name)).
  do 2 eexists. split; [reflexivity|]. split; [done|].
  assert (Hall : all_docs w ≡ₚ l ++ mongo_docs (delete name (w_mongo w))) by apply mongo_docs_delete.
  destruct (remove_first_cases p l) as [Heq|(d & Hd & Hp)].
  - split; [|left; split; [rewrite Heq; lia|]]; simpl.
    + rewrite Heq. eapply keys_ok_same; [|exact Hk]. by apply same_docs_put.
    + unfold all_docs at 1; simpl. rewrite mongo_docs_insert; simpl. by rewrite Heq, Hall.
  - split; [|right; split; [rewrite (Permutation_length Hp); simpl; lia|exists d; split; [done|]]]; simpl.
    + intros name'. destruct (decide (name = name')) as [<-|Hne]; [|by rewrite coll_of_put_ne].
      rewrite coll_of_put. simpl. specialize (Hk name). fold l in Hk.
      rewrite Hp in Hk. by apply NoDup_cons in Hk as [_ Hk].
    + rewrite Hall, Hp at 1. unfold all_docs at 1; simpl. rewrite mongo_docs_insert. done.
Qed.

Lemma delete_in_run id colls : ∀ w,
  healthy w → keys_ok (w_mongo w) →
  ∃ w', delete_in colls id w = (Ok tt, w') ∧ healthy w' ∧ keys_ok (w_mongo w')
    ∧ (all_docs w' ≡ₚ all_docs w
       ∨ ∃ d, str_is "server_id" id d = true ∧ all_docs w ≡ₚ d :: all_docs w').
Proof.
  induction colls as [|c colls IH]; intros w Hnet Hk; cbn [delete_in].
  { exists w. split_and!; try done. by left. }
  destruct (get_collection_run c w Hnet Hk) as (w1 & H1 & [Hn1 Hs1 _ _]). mrun H1.
  pose proof (keys_ok_same _ _ Hs1 Hk) as Hk1. destruct Hs1 as [_ Hs1].
  destruct (delete_one_run c id w1 Hn1 Hk1) as (n & w2 & H2 & Hn2 & Hk2 & [[-> Hd]|[Hn (d & Hd & Hp)]]);
    mrun H2.
  - rewrite bool_decide_eq_false_2 by lia. destruct (IH w2 Hn2 Hk2) as (w3 & H3 & Hn3 & Hk3 & Hd3).
    exists w3. split_and!; try done. unfold all_docs in *. by setoid_rewrite Hd in Hd3; setoid_rewrite Hs1 in Hd3.
  - rewrite bool_decide_eq_true_2 by done. exists w2. split_and!; try done. right. exists d.
    split; [done|]. unfold all_docs in *. by rewrite <- Hs1.
Qed.

Lemma keys_member_docs m (gs : list GroupMemSeq) :
  doc_key <$> (to_doc ∘ member_copy m <$> gs)
  = (λ u, (Some (BString (server_id m)), Some (BString u))) <$> (mem_id <$> gs).
Proof. rewrite <- !list_fmap_compose. by apply list_fmap_ext. Qed.

Lemma save_group_run m gs w :
  user_shards ≠ 0%Z → healthy w → keys_ok (w_mongo w) → fresh_id (server_id m) w →
  NoDup (mem_id <$> gs) → sender_id m ∉ (mem_id <$> gs) →
  ∃ w', sharded_save_group_msg m gs w = (Ok tt, w') ∧ healthy w' ∧ keys_ok (w_mongo w')
    ∧ all_docs w' ≡ₚ to_doc (set_receiver (sender_id m) m)
                      :: (to_doc ∘ member_copy m <$> gs) ++ all_docs w.
Proof.
  intros Hu Hnet Hk Hf Hnd Hs. unfold sharded_save_group_msg.
  mrun (get_user_range_run (sender_id m) w Hu). mrun (get_collection_name_run (send_time m)
    (as_u8 (hash (sender_id m) mod user_shards)) w).
  set (c0 := collection_name w (send_time m) _).
  destruct (get_collection_run c0 w Hnet Hk) as (w1 & H1 & G1). mrun H1. cbv zeta.
  destruct (member_inserts_run gs (set_send_seq_field 0 m) w1 Hu) as (l & w2 & H2 & G2 & Hl);
    [apply G1|by eapply keys_ok_same; [apply G1|]|]. mrun H2.
  destruct (transitivity G1 G2) as [Hn2 Hs2 _ _]. rewrite member_docs_eq in Hl.
  assert (Hfresh : ∀ m', server_id m' = server_id m → key_fresh (to_doc m') (w_mongo w2)).
  { intros m' Hid. eapply key_fresh_same; [exact Hs2|]. apply fresh_id_key. by rewrite Hid. }
  destruct (spawn_inserts_run ((c0, to_doc (set_receiver (sender_id m) m)) :: l) w2)
    as (hs & w3 & H3 & Ha & Hn3 & Hk3 & Hd3); [done|by eapply keys_ok_same| | |].
  - rewrite fmap_cons, fmap_cons, Hl, keys_member_docs. apply NoDup_cons. split.
    + cbn [snd]. rewrite doc_key_to_doc. simpl. by intros (u & [= <-] & Hin)%list_elem_of_fmap.
    + apply NoDup_fmap_2; [|done]. by intros u v [= ->].
  - constructor; [by apply Hfresh|]. apply Forall_forall. intros [c d] Hin.
    assert (Hd : d ∈ l.*2) by (apply list_elem_of_fmap; by exists (c, d)).
    rewrite Hl in Hd. apply list_elem_of_fmap in Hd as (g & -> & _). by apply Hfresh.
  - mrun H3. exists w3. split_and!; [apply Ha|done|done|]. rewrite Hd3, fmap_cons, Hl.
    simpl. by rewrite (proj2 Hs2).
Qed.

#[export, refine] Instance sharded_box_laws : MsgRecBoxLaws sharded_box := {|
  box_inv w := user_shards ≠ 0%Z ∧ keys_ok (w_mongo w);
  box_sender_copy m := set_receiver (sender_id m) m
|}.
Proof.
  - done.
  - intros w w' [= H _ _]. by rewrite H.
  - intros m w Hnet [Hu Hk] Hf. cbn [RecBox.save_message sharded_box]. unfold sharded_save_message.
    mrun (get_user_range_run (receiver_id m) w Hu). erewrite bind_ok by done.
    match goal with |- context [get_collection ?c] =>
      destruct (get_collection_run c w Hnet Hk) as (w1 & H1 & [Hn1 Hs1 _ _]) end.
    mrun H1. match goal with |- context [insert_one ?c ?d] =>
      destruct (insert_one_run c d w1) as (w2 & H2 & Hn2 & Hk2 & _ & Hd2 & _) end;
      [done|by eapply key_fresh_same, fresh_id_key|by eapply keys_ok_same|].
    exists w2. split_and!; try done. rewrite Hd2. f_equiv. apply Hs1.
  - intros m gs w Hnet [Hu Hk] Hf Hnd Hs.
    destruct (save_group_run m gs w Hu Hnet Hk Hf Hnd Hs) as (w' & ? & ? & ? & ?).
    exists w'. by split_and!.
  - intros id w Hnet [Hu Hk]. cbn [RecBox.delete_message sharded_box]. unfold sharded_delete_message.
    erewrite bind_ok by done.
    destruct (delete_in_run id (elements (w_active w)) w Hnet Hk) as (w' & ? & ? & ? & ?).
    exists w'. by split_and!.
  - intros m. apply keeps_bind; [apply _|apply keeps_get_range|intros r].
    apply keeps_bind; [apply _|apply keeps_get_name|intros c].
    apply keeps_bind; [apply _|apply keeps_get_collection|intros _]. apply keeps_mongo_run.
  - intros m gs. apply keeps_bind; [apply _|apply keeps_get_range|intros r].
    apply keeps_bind; [apply _|apply keeps_get_name|intros c].
    apply keeps_bind; [apply _|apply keeps_get_collection|intros _]. cbv zeta.
    apply keeps_bind; [apply _|apply keeps_member_inserts|intros rest].
    apply keeps_bind; [apply _|apply keeps_spawn_inserts|intros hs]. apply keeps_await_all.
  - intros id. apply keeps_bind; [apply _|apply keeps_gets, _|intros a]. apply keeps_delete_in.
  - intros u l. cbn [RecBox.msg_read sharded_box]. unfold sharded_msg_read.
    case_bool_decide; [apply keeps_ret, _|].
    apply keeps_bind; [apply _|apply keeps_user_collections|intros cs].
    apply keeps_for_each; [apply _|]. intros c. apply keeps_if_collection, keeps_mongo_run.
Defined.

(** ** The cleaning task stops itself *)

Definition named_like_ours (name : string) : Prop :=
  ∃ a b y m rest, split_underscore name = a :: b :: y :: m :: rest.
Definition older_than (threshold name : string) : Prop :=
  ∃ a b y m rest, split_underscore name = a :: b :: y :: m :: rest
    ∧ String.ltb (y +:+ "_" +:+ m)%string threshold = true.

Lemma outdated_run names t w :
  Forall named_like_ours names →
  ∃ l, outdated names t w = (Ok l, w) ∧ ∀ n, n ∈ names → older_than t n → n ∈ l.
Proof.
  induction 1 as [|n names (a & b & y & m & rest & Hn) _ (l & Hl & IH)]; cbn [outdated].
  { exists []. split; [done|]. by intros n ?%not_elem_of_nil. }
  rewrite Hn. mrun Hl. eexists. split; [reflexivity|]. intros n' Hin Hold.
  apply elem_of_cons in Hin as [->|Hin].
  - destruct Hold as (a' & b' & y' & m' & r' & Hn' & Hlt). rewrite Hn in Hn'. simplify_eq.
    rewrite Hlt. by left.
  - specialize (IH n' Hin Hold). destruct (String.ltb _ _); [by right|done].
Qed.

Lemma clean_loop_run (f : string → IO unit) names w :
  (∀ n w, healthy w → ∃ w', f n w = (Ok tt, w') ∧ healthy w') → healthy w →
  ∃ w', for_each names f w = (Ok tt, w') ∧ healthy w'.
Proof.
  intros Hf. revert w. induction names as [|n names IH]; intros w Hnet; [by exists w|].
  destruct (Hf n w Hnet) as (w1 & H1 & Hn1). cbn [for_each]. mrun H1. by apply IH.
Qed.

(** The cleaning task of the sharded box stops for good the first time it
    meets an outdated collection: it still holds the read lock of the set of
    active collections when it asks for the write lock, and from then on every
    deletion or lookup by message id waits for that lock's queue. *)
Theorem sharded_clean_hangs (period : Z) (types : list Z) (w : World) (c : string)
    (Hnet : healthy w) (Hnames : Forall named_like_ours (elements (w_active w)))
    (Hc : c ∈ w_active w)
    (Hold : older_than (default ""%string (year_month (default (w_clock w / 1000)%Z
       (checked_sub_months (as_u32 (Z.quot period 30 + 2)) (w_clock w / 1000)%Z)))) c) :
  (sharded_clean_round period types w).1 = Hang.
Proof.
  unfold sharded_clean_round. do 2 (erewrite bind_ok by done). cbv zeta.
  edestruct (clean_loop_run (λ coll_name : string,
    names ← attempt (remote mongo_error (gets (λ w, dom (w_mongo w))));
    if match names with inr s => bool_decide (coll_name ∈ s) | inl _ => false end
    then log_err (delete_many coll_name (λ d,
           num_cond "send_time" (λ t, t <? w_clock w / 1000 - period * 86400)%Z d
           && negb (num_cond "msg_type" (in_list types) d)))
    else mret tt) (elements (w_active w)) w) as (w1 & H1 & Hn1); [|exact Hnet|].
  - intros n w0 Hn0. erewrite bind_ok by (unfold attempt; by rewrite remote_healthy).
    cbv iota beta. case_bool_decide; [|by exists w0]. eexists. split.
    + eapply log_err_ok. unfold delete_many. by apply mongo_run_healthy.
    + done.
  - mrun H1. destruct (outdated_run (elements (w_active w)) (default ""%string
      (year_month (default (w_clock w / 1000)%Z (checked_sub_months
        (as_u32 (Z.quot period 30 + 2)) (w_clock w / 1000)%Z)))) w1 Hnames) as (l & Hl & Hin).
    mrun Hl. assert (Hin' : c ∈ l) by (apply Hin; [by apply elem_of_elements|done]).
    rewrite bool_decide_eq_false_2; [done|]. intros ->. by apply not_elem_of_nil in Hin'.
Qed.

(** ** Reads look in other collections than writes *)

Lemma string_app_cancel_r (x a b : string) : (a +:+ x = b +:+ x)%string → a = b.
Proof.
  intros H. rewrite <- (String.string_of_list_ascii_of_string a), <- (String.string_of_list_ascii_of_string b).
  apply (f_equal String.list_ascii_of_string) in H.
  assert (Happ : ∀ s t, String.list_ascii_of_string (s +:+ t)
    = String.list_ascii_of_string s ++ String.list_ascii_of_string t).
  { intros s t. induction s as [|c s IH]; [done|]. simpl. by rewrite IH. }
  rewrite !Happ in H. apply app_inv_tail in H. by rewrite H.
Qed.

Lemma collection_name_ne w1 w2 t1 t2 r s1 s2 :
  year_month t1 = Some s1 → year_month t2 = Some s2 → s1 ≠ s2 →
  collection_name w1 t1 r ≠ collection_name w2 t2 r.
Proof.
  unfold collection_name. intros -> -> Hne Heq. apply Hne.
  apply (inj (String.append "msg_box_")) in Heq. by apply string_app_cancel_r in Heq.
Qed.

(** The months read are computed from the current time. *)
Definition read_time (now k : Z) : Z :=
  if bool_decide (k = 0)%Z then now else default now (checked_sub_months k now).

Lemma recent_run now r months w :
  recent now r months w = (Ok ((λ k, collection_name w (read_time now k) r) <$> months), w).
Proof.
  induction months as [|k months IH]; [done|]. cbn [recent]. erewrite bind_ok by done.
  by mrun IH.
Qed.

Lemma user_collections_run u months w : user_shards ≠ 0%Z →
  user_collections u months w
  = (Ok ((λ k, collection_name w (read_time (w_clock w / 1000) k)
                 (as_u8 (hash u mod user_shards))) <$> months), w).
Proof.
  intros Hu. unfold user_collections. mrun (get_user_range_run u w Hu). erewrite bind_ok by done.
  apply recent_run.
Qed.

Lemma collect_empty (f : Coll → list Document) colls : ∀ w,
  healthy w → keys_ok (w_mongo w) → (∀ c, c_docs c = [] → f c = []) →
  (∀ c, c ∈ colls → c_docs (coll_of (w_mongo w) c) = []) →
  ∃ w', collect colls (λ c, mongo_read c f) w = (Ok [], w').
Proof.
  induction colls as [|c colls IH]; intros w Hnet Hk Hf Hc; cbn [collect]; [by eexists|].
  destruct (get_collection_run c w Hnet Hk) as (w1 & H1 & [Hn1 Hs1 _ _]).
  erewrite bind_ok by (unfold attempt; by rewrite H1).
  erewrite bind_ok by (by apply mongo_read_healthy).
  rewrite Hf by (rewrite (proj1 Hs1); apply Hc; by left).
  destruct (IH w1 Hn1 (keys_ok_same _ _ Hs1 Hk) Hf) as (w2 & H2).
  { intros c' Hc'. rewrite (proj1 Hs1). apply Hc. by right. }
  mrun H2. by eexists.
Qed.

(** What is relied on of chrono: two times with the same ["%Y_%m"] lie within
    31 days; going back one or two months moves at most 62 days; and every
    second from 1970 up to 8 * 10^12 has a date. *)
Definition calendar_ok : Prop :=
  (∀ t1 t2 s, year_month t1 = Some s → year_month t2 = Some s → Z.abs (t1 - t2) < 2678400)%Z
  ∧ (∀ k t t', k = 1 ∨ k = 2 → checked_sub_months k t = Some t' → t - 5356800 ≤ t' ≤ t)%Z
  ∧ (∀ t, 0 ≤ t ≤ 8000000000000 → is_Some (year_month t))%Z.

Lemma read_time_near now k : calendar_ok → (k = 0 ∨ k = 1 ∨ k = 2)%Z →
  (now - 5356800 ≤ read_time now k ≤ now)%Z.
Proof.
  intros (_ & Hsub & _) Hk. unfold read_time. case_bool_decide; [lia|].
  destruct (checked_sub_months k now) as [t|] eqn:E; simpl; [|lia].
  apply (Hsub k now t); [lia|done].
Qed.

Definition now_plausible (w : World) : Prop := (10000000000 ≤ w_clock w ≤ 8000000000000)%Z.

Lemma read_elsewhere w w' k r :
  calendar_ok → now_plausible w → (k = 0 ∨ k = 1 ∨ k = 2)%Z →
  collection_name w' (read_time (w_clock w / 1000) k) r ≠ collection_name w (w_clock w) r.
Proof.
  intros Hcal Hnow Hk. unfold now_plausible in Hnow.
  pose proof (read_time_near (w_clock w / 1000) k Hcal Hk) as Hr.
  pose proof (Z.div_mod (w_clock w) 1000 ltac:(lia)). pose proof (Z.mod_pos_bound (w_clock w) 1000).
  destruct Hcal as (Hm & _ & Hd).
  destruct (Hd (read_time (w_clock w / 1000) k)) as [s1 H1]; [lia|].
  destruct (Hd (w_clock w)) as [s2 H2]; [lia|].
  eapply collection_name_ne; [exact H1|exact H2|]. intros ->. specialize (Hm _ _ _ H1 H2). lia.
Qed.

(** The sharded box loses every message. A message stamped with the current
    time in milliseconds, as the chat service stamps it, is written to the
    collection of the month that number denotes in seconds, tens of thousands
    of years ahead; a synchronisation by its receiver right afterwards, for
    any range, looks only in the collections of the current and the two
    previous months and returns nothing. *)
Theorem sharded_messages_unreadable (m : Msg) (w : World) (ss se rs re : Z)
    (Hcal : calendar_ok) (Hshards : user_shards ≠ 0%Z)
    (Hnet : healthy w) (Hempty : w_mongo w = ∅) (Hnow : now_plausible w)
    (Hstamp : send_time m = w_clock w)
    (Hcap : capacity_ok (se - ss + (re - rs))) :
  ∃ w', save_message sharded_box m w = (Ok tt, w') ∧ all_docs w' ≡ₚ [to_doc m]
    ∧ (get_msgs sharded_box (receiver_id m) ss se rs re w').1 = Ok [].
Proof.
  cbn [RecBox.save_message RecBox.get_msgs sharded_box].
  set (r := as_u8 (hash (receiver_id m) mod user_shards)).
  set (c0 := collection_name w (w_clock w) r).
  assert (Hk : keys_ok (w_mongo w)) by (rewrite Hempty; intros n; unfold coll_of; rewrite lookup_empty; constructor).
  destruct (get_collection_run c0 w Hnet Hk) as (w1 & H1 & [Hn1 Hs1 Ho1 _]).
  assert (He : ∀ n, c_docs (coll_of (w_mongo w1) n) = []).
  { intros n. rewrite (proj1 Hs1), Hempty. unfold coll_of. by rewrite lookup_empty. }
  assert (Hi : insert_one c0 (to_doc m) w1
    = (Ok tt, upd_mongo (put_coll c0 (mkColl [to_doc m] (c_unique (coll_of (w_mongo w1) c0)))) w1)).
  { unfold insert_one. apply mongo_run_healthy; [done|].
    rewrite coll_insert_ok, He; [done|]. right. rewrite He. apply not_elem_of_nil. }
  set (w2 := upd_mongo _ w1) in Hi. unfold outside_box in Ho1.
  assert (Hclock : w_clock w2 = w_clock w) by (by injection Ho1).
  exists w2. split_and!.
  - unfold sharded_save_message. mrun (get_user_range_run (receiver_id m) w Hshards).
    rewrite Hstamp. mrun (get_collection_name_run (w_clock w) r w). mrun H1. exact Hi.
  - unfold all_docs, w2; simpl. rewrite mongo_docs_insert. simpl.
    assert (Hnil : mongo_docs (delete c0 (w_mongo w1)) = []).
    { pose proof (proj2 Hs1) as Hp. rewrite (mongo_docs_delete c0 (w_mongo w1)), He, Hempty in Hp.
      unfold mongo_docs at 2 in Hp. rewrite map_to_list_empty in Hp. by apply Permutation_nil. }
    by rewrite Hnil.
  - unfold sharded_get_msgs. mrun (user_collections_run (receiver_id m) [0; 1; 2]%Z w2 Hshards).
    mrun (with_capacity_ok _ w2 Hcap). rewrite Hclock. fold r.
    unfold aggregate. match goal with |- context [collect ?cs (λ c, mongo_read c ?f)] =>
      destruct (collect_empty f cs w2) as (w3 & H3) end; [done| | | |by mrun H3].
    + intros n. destruct (decide (c0 = n)) as [<-|Hne]; simpl; [rewrite coll_of_put; apply NoDup_singleton|].
      rewrite coll_of_put_ne, He by done. constructor.
    + by intros c ->.
    + intros c (k & -> & Hin)%list_elem_of_fmap. simpl. rewrite coll_of_put_ne; [apply He|].
      intros Heq. symmetry in Heq. revert Heq. apply read_elsewhere; [done|done|]. set_solver.
Qed.
End sharded.

(** ** Choosing the box ([db/src/lib.rs]) *)

(** [config.db.mongodb.user_shards.unwrap_or(10) as u8] *)
Definition shards_of_config (user_shards : option Z) : Z := as_u8 (default 10%Z user_shards).

Definition msg_rec_box_repo (hash : string → Z) (year_month : Z → option string)
    (checked_sub_months : Z → Z → option Z)
    (use_sharding : option bool) (user_shards : option Z) : MsgRecBoxRepo :=
  match use_sharding with
  | Some true => sharded_box hash year_month checked_sub_months (shards_of_config user_shards)
  | _ => msg_box
  end.

(** The configured names that are message types, and one round of the cleaner
    of the chosen box. *)
Definition except_codes (except_types : list string) : list Z :=
  msg_type_i32 <$> omap msg_type_from_str_name except_types.

Definition clean_receive_box (year_month : Z → option string) (checked_sub_months : Z → Z → option Z)
    (use_sharding : option bool) (period : Z) (except_types : list string) : IO unit :=
  match use_sharding with
  | Some true => sharded_clean_round year_month checked_sub_months period (except_codes except_types)
  | _ => MsgBox.clean_round period (except_codes except_types)
  end.

(** A shard count that is a multiple of 256 is accepted and truncated to
    zero: with sharding on, every attempt to store a message then panics. *)
Theorem truncated_shards_panic (hash : string → Z) (year_month : Z → option string)
    (sub_months : Z → Z → option Z) (n : Z) (m : Msg) (w : World)
    (Hn : (n mod 256 = 0)%Z) :
  save_message (msg_rec_box_repo hash year_month sub_months (Some true) (Some n)) m w = (Panic, w)
  ∧ save_group_msg (msg_rec_box_repo hash year_month sub_months (Some true) (Some n)) m [] w = (Panic, w).
Proof.
  assert (Hr : ∀ u, get_user_range hash (shards_of_config (Some n)) u w = (Panic, w)).
  { intros u. unfold get_user_range. by rewrite bool_decide_eq_true_2. }
  cbn [msg_rec_box_repo RecBox.save_message RecBox.save_group_msg sharded_box].
  unfold sharded_save_message, sharded_save_group_msg, mbind, M_bind. by rewrite !Hr.
Qed.

Lemma truncated_shards_panic_witness :
  save_message (msg_rec_box_repo (λ _, 0%Z) (λ _, None) (λ _ _, None) (Some true) (Some 256%Z))
    default_msg world_empty = (Panic, world_empty).
Proof.
  apply (truncated_shards_panic (λ _, 0%Z) (λ _, None) (λ _ _, None) 256 default_msg world_empty eq_refl).
Defined.

(** A calendar of months of thirty days. *)
Definition flat_month (t : Z) : option string := Some (pretty (t / 2592000)%Z).
Definition flat_sub (k t : Z) : option Z := Some (t - k * 2592000)%Z.

Lemma flat_calendar_ok : calendar_ok flat_month flat_sub.
Proof.
  split_and!.
  - unfold flat_month. intros t1 t2 s H1 H2. assert (Heq : Some (pretty (t1 / 2592000)%Z) = Some (pretty (t2 / 2592000)%Z))
      by congruence. apply (inj Some), (inj pretty) in Heq.
    pose proof (Z.div_mod t1 2592000 ltac:(lia)). pose proof (Z.mod_pos_bound t1 2592000 ltac:(lia)).
    pose proof (Z.div_mod t2 2592000 ltac:(lia)). pose proof (Z.mod_pos_bound t2 2592000 ltac:(lia)). lia.
  - intros k t t' Hk [= <-]. lia.
  - intros t _. by eexists.
Qed.

Definition noon_2024 : World := at_time 1717200000000 world_empty.

Lemma sharded_messages_unreadable_witness :
  ∃ w', save_message (sharded_box (λ _, 3%Z) flat_month flat_sub 10)
          (set_send_time 1717200000000 default_msg) noon_2024 = (Ok tt, w')
    ∧ (get_msgs (sharded_box (λ _, 3%Z) flat_month flat_sub 10) "" 0 100 0 100 w').1 = Ok [].
Proof.
  destruct (sharded_messages_unreadable (λ _, 3%Z) flat_month flat_sub flat_sub 10
    (set_send_time 1717200000000 default_msg) noon_2024 0 100 0 100) as (w' & H1 & _ & H2).
  - exact flat_calendar_ok.
  - discriminate.
  - reflexivity.
  - reflexivity.
  - split; vm_compute; discriminate.
  - reflexivity.
  - vm_compute. discriminate.
  - exists w'. split; [exact H1|exact H2].
Defined.

Definition stale_world : World :=
  upd_active (λ _, {["msg_box_2020_01_0"%string]}) noon_2024.

Lemma sharded_clean_hangs_witness :
  (sharded_clean_round (λ _, Some "2024_03"%string) flat_sub 30 [] stale_world).1 = Hang.
Proof.
  apply (sharded_clean_hangs (λ _, Some "2024_03"%string) flat_sub 30 [] stale_world "msg_box_2020_01_0").
  - reflexivity.
  - vm_compute. repeat constructor. do 5 eexists. reflexivity.
  - by vm_compute.
  - do 5 eexists. split; reflexivity.
Defined.
