(* ===== verification/Pusher.v ===== *)
(** * The pusher of the message server ([msg_server/src/pusher])

    The trait [Pusher] as a record, and [PusherService]: its list of gateway
    connections, the refresh from the service centre, and the fan-out of a
    message to every gateway. A gateway call consults the fault schedule, so a
    call may fail, and may fail after the gateway took the message. *)

From S2P Require Import Prelude Errors Types Tables World.
From stdpp Require Import pretty.

Record Pusher : Type := mkPusher {
  push_single_msg : Msg → IO unit;
  push_group_msg : Msg → list GroupMemSeq → IO unit
}.

(** What the consumer relies on: pushing leaves the stores alone. *)
Definition stores (w : World) := (w_redis w, w_pg w, w_mongo w, w_kafka w, w_active w, w_cached w,
  w_clock w, w_ids w).
Class PusherLaws (p : Pusher) : Prop := {
  push_single_frame m : keeps (same stores) (push_single_msg p m);
  push_group_frame m gs : keeps (same stores) (push_group_msg p m gs)
}.

(** [DashMap::insert] and [DashMap::remove] on the keys of the list. *)
Definition ws_insert (a : string) (l : list string) : list string :=
  if bool_decide (a ∈ l) then l else l ++ [a].
Definition ws_remove (a : string) (l : list string) : list string := filter (.≠ a) l.

(** [tower::discover::Change], as the discovery channel delivers it. *)
Inductive Change : Type := ChInsert (service_id : string) | ChRemove (service_id : string).

Section pusher.
Context (parse_socket : string → option string) (endpoint_ok : string → bool).
(** The order in which the spawned calls report. *)
Context (arrival : list (string * bool) → list (string * bool)).

Definition transport_error : Error := from_external (TonicTransportError "tonic").

(** The task of [PusherService::new] that follows the discovery channel. *)
Definition handle_change (c : Change) : IO unit :=
  match c with
  | ChInsert service_id =>
      r ← attempt (remote transport_error (mret tt));
      match r with
      | inr _ => modify (upd_ws_list (ws_insert service_id))
      | inl _ => mret tt
      end
  | ChRemove service_id => modify (upd_ws_list (ws_remove service_id))
  end.

Definition handle_sub_service (service : RegService) : IO unit :=
  let addr := (svc_address service +:+ ":" +:+ pretty (svc_port service))%string in
  match parse_socket addr with
  | None => mret tt
  | Some socket =>
      if endpoint_ok (svc_scheme service +:+ "://" +:+ addr)%string then
        ws ← attempt (remote transport_error (mret tt));
        match ws with
        | inl _ => mret tt
        | inr _ => modify (upd_ws_list (ws_insert socket))
        end
      else mret tt
  end.

Definition handle_sub_services (services : list RegService) : IO unit :=
  for_each services handle_sub_service.

(** The list is refreshed from the service centre when it is empty. *)
Definition refresh_if_empty : IO unit :=
  ws ← gets w_ws_list;
  if bool_decide (ws = []) then
    services ← remote (internal_with_details "service center") (gets w_registry);
    handle_sub_services services
  else mret tt.

(** [mpsc::channel(n)] panics for capacity 0. *)
Definition channel (n : nat) : IO unit := if bool_decide (n = 0) then panic else mret tt.

(** The calls to all gateways, with what each returned. *)
Fixpoint send_all (push : string → Push) (ws : list string) : IO (list (string * bool)) :=
  match ws with
  | [] => mret []
  | a :: ws' =>
      r ← attempt (remote transport_error (modify (upd_pushed (λ l, l ++ [push a]))));
      rs ← send_all push ws';
      mret ((a, match r with inr _ => true | inl _ => false end) :: rs)
  end.

(** [while let Some((service_id, err)) = rx.recv().await]: only errors are sent. *)
Definition failed (rs : list (string * bool)) : list string :=
  (filter (λ x : string * bool, x.2 = false) rs).*1.

(** [while let Some(Err((service_id, err))) = rx.recv().await]: successes are
    sent too, and the first one ends the loop. *)
Fixpoint failed_prefix (rs : list (string * bool)) : list string :=
  match rs with
  | (a, false) :: rs' => a :: failed_prefix rs'
  | _ => []
  end.

Definition remove_all (bad : list string) : IO unit :=
  for_each bad (λ a, modify (upd_ws_list (ws_remove a))).

Definition service_push_single_msg (request : Msg) : IO unit :=
  refresh_if_empty ;;
  ws ← gets w_ws_list;
  channel (length ws) ;;
  rs ← send_all (λ a, PushSingle a request) ws;
  remove_all (failed (arrival rs)).

Definition service_push_group_msg (msg : Msg) (members : list GroupMemSeq) : IO unit :=
  refresh_if_empty ;;
  ws ← gets w_ws_list;
  channel (length ws) ;;
  rs ← send_all (λ a, PushGroup a msg members) ws;
  remove_all (failed_prefix (arrival rs)).

Definition push_service : Pusher := mkPusher service_push_single_msg service_push_group_msg.

(** ** Frames *)

Lemma keeps_push_remote {A} e (op : IO A) :
  keeps (same stores) op → keeps (same stores) (remote e op).
Proof. intros. apply keeps_remote; [apply _|done|done]. Qed.

Lemma keeps_handle_sub_services l : keeps (same stores) (handle_sub_services l).
Proof.
  apply keeps_for_each; [apply _|]. intros s. unfold handle_sub_service.
  destruct (parse_socket _); [|apply keeps_ret, _]. destruct (endpoint_ok _); [|apply keeps_ret, _].
  apply keeps_bind; [apply _| |].
  - apply keeps_attempt, keeps_push_remote, keeps_ret, _.
  - intros []; [apply keeps_ret, _|by intros w].
Qed.

Lemma keeps_refresh : keeps (same stores) refresh_if_empty.
Proof.
  apply keeps_bind; [apply _|apply keeps_gets, _|]. intros ws. case_bool_decide; [|apply keeps_ret, _].
  apply keeps_bind; [apply _|apply keeps_push_remote, keeps_gets, _|].
  intros l. apply keeps_handle_sub_services.
Qed.

Lemma keeps_send_all push ws : keeps (same stores) (send_all push ws).
Proof.
  induction ws as [|a ws IH]; simpl; [apply keeps_ret, _|].
  apply keeps_bind; [apply _| |].
  - apply keeps_attempt, keeps_push_remote. by intros w.
  - intros r. apply keeps_bind; [apply _|done|]. intros rs. apply keeps_ret, _.
Qed.

Lemma keeps_remove_all bad : keeps (same stores) (remove_all bad).
Proof. apply keeps_for_each; [apply _|]. by intros a w. Qed.

Lemma keeps_push f ws_of (bad : list (string * bool) → list string) :
  keeps (same stores)
    (refresh_if_empty ;; ws ← gets ws_of; channel (length ws) ;;
     rs ← send_all f ws; remove_all (bad rs)).
Proof.
  apply keeps_bind; [apply _|apply keeps_refresh|]. intros _.
  apply keeps_bind; [apply _|apply keeps_gets, _|]. intros ws.
  apply keeps_bind; [apply _| |].
  - unfold channel. case_bool_decide; [apply keeps_panic, _|apply keeps_ret, _].
  - intros _. apply keeps_bind; [apply _|apply keeps_send_all|]. intros rs. apply keeps_remove_all.
Qed.

#[export] Instance push_service_laws : PusherLaws push_service.
Proof.
  split.
  - intros m. exact (keeps_push _ w_ws_list (λ rs, failed (arrival rs))).
  - intros m gs. exact (keeps_push _ w_ws_list (λ rs, failed_prefix (arrival rs))).
Qed.

(** ** Fan-out under a fault schedule *)

(** What the schedule holds for the [i]-th call from here. *)
Definition fault_at (w : World) (i : nat) : fault := default Pass (w_faults w !! i).
Definition passes (f : fault) : bool := match f with Pass => true | _ => false end.
Definition delivers (f : fault) : bool := match f with FailBefore => false | _ => true end.

(** Every gateway is called once, in turn. *)
Definition results (fs : list fault) (ws : list string) : list (string * bool) :=
  imap (λ i a, (a, passes (default Pass (fs !! i)))) ws.
Definition deliveries (fs : list fault) (push : string → Push) (ws : list string) : list Push :=
  omap (λ x : string * bool, if x.2 then Some (push x.1) else None)
    (imap (λ i a, (a, delivers (default Pass (fs !! i)))) ws).

Lemma results_cons fs a ws :
  results fs (a :: ws) = (a, passes (default Pass (head fs))) :: results (tail fs) ws.
Proof.
  unfold results. rewrite imap_cons. f_equal; [by destruct fs|].
  apply imap_ext. intros i x _. simpl. by destruct fs.
Qed.

Lemma deliveries_cons fs push a ws :
  deliveries fs push (a :: ws)
  = (if delivers (default Pass (head fs)) then [push a] else []) ++ deliveries (tail fs) push ws.
Proof.
  unfold deliveries. rewrite imap_cons. simpl.
  assert (imap ((λ (i : nat) (a : string), (a, delivers (default Pass (fs !! i)))) ∘ S) ws
    = imap (λ (i : nat) (a : string), (a, delivers (default Pass (tail fs !! i)))) ws) as ->
    by (apply imap_ext; intros i x _; simpl; by destruct fs).
  destruct fs as [|[] fs]; done.
Qed.

Lemma send_all_run push ws : ∀ w,
  send_all push ws w = (Ok (results (w_faults w) ws),
    upd_faults (drop (length ws)) (upd_pushed (λ l, l ++ deliveries (w_faults w) push ws) w)).
Proof.
  induction ws as [|a ws IH]; intros w.
  { mstep. destruct w. unfold upd_pushed, upd_faults; simpl. by rewrite app_nil_r. }
  cbn [send_all]. unfold mbind, M_bind. unfold attempt at 1, remote, take_fault. mstep.
  rewrite results_cons, deliveries_cons.
  destruct w as [? ? ? ? pushed ? ? ? ? fs ? ?]. destruct fs as [|[] fs]; simpl;
    rewrite IH; unfold upd_pushed, upd_faults, modify; simpl;
    rewrite <- ?app_assoc, ?drop_nil; done.
Qed.

Lemma filter_not_in_nil (l : list string) : filter (.∉ []) l = l.
Proof. induction l as [|a l IH]; [done|]. rewrite filter_cons_True by set_solver. by rewrite IH. Qed.

Lemma remove_all_run bad : ∀ w,
  remove_all bad w = (Ok tt, upd_ws_list (filter (.∉ bad)) w).
Proof.
  unfold remove_all. induction bad as [|a bad IH]; intros w; simpl.
  - mstep. destruct w. unfold upd_ws_list; simpl. do 2 f_equal.
    symmetry. by apply filter_not_in_nil.
  - mstep. rewrite IH. destruct w. unfold upd_ws_list, ws_remove; simpl. do 2 f_equal.
    rewrite list_filter_filter. apply list_filter_iff. intros x. rewrite not_elem_of_cons. tauto.
Qed.

(** A push once the list is known to be non-empty. *)
Lemma push_run (push : string → Push) (bad : list (string * bool) → list string) w :
  w_ws_list w ≠ [] →
  (refresh_if_empty ;; ws ← gets w_ws_list; channel (length ws) ;;
   rs ← send_all push ws; remove_all (bad rs)) w
  = (Ok tt, upd_ws_list (filter (.∉ bad (results (w_faults w) (w_ws_list w))))
      (upd_faults (drop (length (w_ws_list w)))
        (upd_pushed (λ l, l ++ deliveries (w_faults w) push (w_ws_list w)) w))).
Proof.
  intros Hne. unfold refresh_if_empty, channel, mbind, M_bind, gets.
  rewrite bool_decide_eq_false_2 by done. unfold mret at 1, M_ret at 1.
  rewrite bool_decide_eq_false_2 by (by rewrite length_zero_iff_nil). unfold mret, M_ret.
  by rewrite send_all_run, remove_all_run.
Qed.

(** With a healthy network every gateway takes the push and stays listed. *)
Lemma deliveries_healthy push ws : deliveries [] push ws = push <$> ws.
Proof. induction ws as [|a ws IH]; [done|]. rewrite deliveries_cons. simpl. by rewrite IH. Qed.

Lemma failed_results_healthy ws : failed (results [] ws) = [].
Proof.
  induction ws as [|a ws IH]; [done|]. rewrite results_cons. unfold failed in *. by rewrite filter_cons_False by (by simpl).
Qed.

(** A push after which no gateway is dropped. *)
Lemma push_run_healthy (push : string → Push) (bad : list (string * bool) → list string) w :
  healthy w → w_ws_list w ≠ [] → bad (results [] (w_ws_list w)) = [] →
  (refresh_if_empty ;; ws ← gets w_ws_list; channel (length ws) ;;
   rs ← send_all push ws; remove_all (bad rs)) w
  = (Ok tt, upd_pushed (λ l, l ++ (push <$> w_ws_list w)) w).
Proof.
  intros Hnet Hne Hbad. rewrite push_run by done. unfold healthy in Hnet.
  rewrite Hnet, deliveries_healthy, Hbad. destruct w. unfold upd_ws_list, upd_faults, upd_pushed; simpl in *. subst.
  by rewrite filter_not_in_nil, drop_nil.
Qed.

Lemma push_single_healthy m w :
  (∀ l, arrival l ≡ₚ l) → healthy w → w_ws_list w ≠ [] →
  push_single_msg push_service m w
  = (Ok tt, upd_pushed (λ l, l ++ ((λ a, PushSingle a m) <$> w_ws_list w)) w).
Proof.
  intros Harr Hnet Hne. apply (push_run_healthy _ (λ rs, failed (arrival rs))); [done..|].
  apply Permutation_nil. unfold failed. rewrite Harr. by rewrite <- (failed_results_healthy (w_ws_list w)).
Qed.

Lemma failed_prefix_none rs : failed rs = [] → failed_prefix rs = [].
Proof. destruct rs as [|[a []] rs]; [done..|]. unfold failed. by rewrite filter_cons_True by done. Qed.

Lemma push_group_healthy m gs w :
  (∀ l, arrival l ≡ₚ l) → healthy w → w_ws_list w ≠ [] →
  push_group_msg push_service m gs w
  = (Ok tt, upd_pushed (λ l, l ++ ((λ a, PushGroup a m gs) <$> w_ws_list w)) w).
Proof.
  intros Harr Hnet Hne. apply (push_run_healthy _ (λ rs, failed_prefix (arrival rs))); [done..|].
  apply failed_prefix_none, Permutation_nil. unfold failed. rewrite Harr.
  by rewrite <- (failed_results_healthy (w_ws_list w)).
Qed.

(** Pushing a single message to a non-empty list of gateways calls every
    gateway exactly once, whatever fails; it reports success, and afterwards
    the list holds exactly the gateways whose call succeeded, in any order the
    calls report. *)
Theorem push_single_fanout (m : Msg) (w : World)
    (Harr : ∀ l, arrival l ≡ₚ l) (Hne : w_ws_list w ≠ []) :
  ∃ w', push_single_msg push_service m w = (Ok tt, w')
    ∧ w_pushed w' = w_pushed w ++ deliveries (w_faults w) (λ a, PushSingle a m) (w_ws_list w)
    ∧ w_ws_list w' = filter (.∉ failed (results (w_faults w) (w_ws_list w))) (w_ws_list w)
    ∧ stores w' = stores w.
Proof.
  eexists. split_and!; [exact (push_run _ (λ rs, failed (arrival rs)) w Hne)|done| |done].
  cbn. apply list_filter_iff. intros x. unfold failed. by rewrite Harr.
Qed.

(** Pushing a group message also calls every gateway exactly once, but it
    drops only the failed gateways that report before the first success: with
    one success reported first, every failed gateway stays in the list. *)
Theorem push_group_fanout (m : Msg) (gs : list GroupMemSeq) (w : World)
    (Hne : w_ws_list w ≠ []) :
  ∃ w', push_group_msg push_service m gs w = (Ok tt, w')
    ∧ w_pushed w' = w_pushed w ++ deliveries (w_faults w) (λ a, PushGroup a m gs) (w_ws_list w)
    ∧ w_ws_list w'
      = filter (.∉ failed_prefix (arrival (results (w_faults w) (w_ws_list w)))) (w_ws_list w)
    ∧ (∀ a rest, arrival (results (w_faults w) (w_ws_list w)) = (a, true) :: rest →
         w_ws_list w' = w_ws_list w)
    ∧ stores w' = stores w.
Proof.
  eexists. split_and!;
    [exact (push_run _ (λ rs, failed_prefix (arrival rs)) w Hne)|done|done| |done].
  intros a rest Ha. cbn. rewrite Ha. apply filter_not_in_nil.
Qed.

(** A service the pusher can address. *)
Definition usable (s : RegService) : bool :=
  let addr := (svc_address s +:+ ":" +:+ pretty (svc_port s))%string in
  match parse_socket addr with
  | Some _ => endpoint_ok (svc_scheme s +:+ "://" +:+ addr)%string
  | None => false
  end.

Lemma handle_sub_services_unusable l w :
  Forall (λ s, usable s = false) l → handle_sub_services l w = (Ok tt, w).
Proof.
  unfold handle_sub_services. induction 1 as [|s l Hs _ IH]; [done|].
  cbn [for_each]. unfold mbind at 1, M_bind at 1. unfold handle_sub_service, usable in *.
  destruct (parse_socket _); [rewrite Hs|]; exact IH.
Qed.

(** While no gateway is connected and the service centre lists none that
    can be addressed, pushing panics instead of reporting an error, for single
    and group messages alike: the channel is created with capacity 0. *)
Theorem push_without_gateway_panics (m : Msg) (gs : list GroupMemSeq) (w : World)
    (Hnet : healthy w) (Hws : w_ws_list w = [])
    (Hreg : Forall (λ s, usable s = false) (w_registry w)) :
  push_single_msg push_service m w = (Panic, w) ∧ push_group_msg push_service m gs w = (Panic, w).
Proof.
  assert (Href : refresh_if_empty w = (Ok tt, w)).
  { unfold refresh_if_empty, mbind, M_bind, gets. rewrite bool_decide_eq_true_2 by done.
    rewrite remote_healthy by done. by apply handle_sub_services_unusable. }
  cbn. unfold service_push_single_msg, service_push_group_msg, mbind, M_bind.
  rewrite Href. unfold gets. rewrite Hws. done.
Qed.
End pusher.

Definition id_arrival (l : list (string * bool)) : list (string * bool) := l.
Definition two_gateways : World :=
  upd_faults (λ _, [Pass; FailBefore]) (upd_ws_list (λ _, ["a"; "b"]%string) world_empty).

Lemma push_single_fanout_witness :
  ∃ w', push_single_msg (push_service Some (λ _, true) id_arrival) default_msg two_gateways
          = (Ok tt, w')
      ∧ w_ws_list w' = ["a"]%string ∧ w_pushed w' = [PushSingle "a" default_msg].
Proof.
  destruct (push_single_fanout Some (λ _, true) id_arrival default_msg two_gateways)
    as (w' & H1 & H2 & H3 & _).
  - reflexivity.
  - discriminate.
  - exists w'. split; [exact H1|]. split; [exact H3|exact H2].
Defined.

Lemma push_group_fanout_witness :
  ∃ w', push_group_msg (push_service Some (λ _, true) id_arrival) default_msg [] two_gateways
          = (Ok tt, w')
      ∧ w_ws_list w' = ["a"; "b"]%string.
Proof.
  destruct (push_group_fanout Some (λ _, true) id_arrival default_msg [] two_gateways)
    as (w' & H1 & _ & _ & H3 & _).
  - discriminate.
  - exists w'. split; [exact H1|]. exact (H3 _ _ eq_refl).
Defined.

Lemma push_without_gateway_panics_witness :
  (push_single_msg (push_service Some (λ _, true) id_arrival) default_msg world_empty).1 = Panic.
Proof.
  destruct (push_without_gateway_panics Some (λ _, true) id_arrival default_msg [] world_empty)
    as [H _]; [reflexivity|reflexivity|constructor|]. rewrite H. reflexivity.
Defined.
