(* ===== verification/Producer.v ===== *)
(** * The chat service ([msg_server/src/productor.rs])

    [send_msg]: a message gets its server id and send time and is put on the
    Kafka topic as JSON. [serde_json::to_string] and [nanoid!] are parameters. *)

From S2P Require Import Prelude Errors Types Tables World.

(** [tonic::Status::invalid_argument(..)], represented by the error kind whose
    status code it is. *)
Definition invalid_argument (s : string) : Error := bad_request s.

Section producer.
Context (to_json : Msg → string) (nanoid : nat → string).

(** The acknowledgements keep the id of the message they acknowledge. *)
Definition keeps_server_id (t : Z) : bool :=
  bool_decide (t = msg_type_i32 GroupDismissOrExitReceived)
  || bool_decide (t = msg_type_i32 GroupInvitationReceived)
  || bool_decide (t = msg_type_i32 FriendshipReceived).

Definition fresh_server_id : IO string := λ w, (Ok (nanoid (w_ids w)), upd_ids S w).

Definition kafka_send_error : Error := internal_with_details "kafka send".

Definition send_msg (request : SendMsgRequest) : IO MsgResponse :=
  msg ← from_option (invalid_argument "message is empty") request;
  msg ← (if keeps_server_id (msg_type msg) then mret msg
         else id ← fresh_server_id; mret (set_server_id id msg));
  now ← now_ms;
  let msg := set_send_time now msg in
  sent ← attempt (remote kafka_send_error (modify (upd_kafka (λ q, q ++ [to_json msg]))));
  let err := match sent with inr _ => ""%string | inl e => error_to_string e end in
  mret (mkMsgResponse (client_id msg) (server_id msg) (send_time msg) err).

(** The message as it is put on the topic. *)
Definition stamped (w : World) (m : Msg) : Msg :=
  set_send_time (w_clock w)
    (if keeps_server_id (msg_type m) then m else set_server_id (nanoid (w_ids w)) m).

Lemma error_to_string_nonempty : error_to_string kafka_send_error ≠ ""%string.
Proof. done. Qed.

(** Accepting a message: the service puts exactly one record on the topic,
    the message with its send time and, unless it acknowledges a delivery, a
    new server id; the reply names that id and time, its error text is empty
    exactly when the broker accepted the record, and nothing is queued when
    the request never reached the broker. *)
Theorem send_msg_functional (m : Msg) (w : World) :
  let f := default Pass (head (w_faults w)) in
  ∃ w' err, send_msg (Some m) w
      = (Ok (mkMsgResponse (client_id m) (server_id (stamped w m)) (w_clock w) err), w')
    ∧ w_kafka w' = w_kafka w
        ++ (match f with FailBefore => [] | _ => [to_json (stamped w m)] end)
    ∧ (err = ""%string ↔ f = Pass)
    ∧ w_redis w' = w_redis w ∧ w_pg w' = w_pg w ∧ w_mongo w' = w_mongo w.
Proof.
  intros f. unfold send_msg, fresh_server_id, now_ms, remote, take_fault, stamped. mstep.
  pose proof error_to_string_nonempty.
  destruct (keeps_server_id (msg_type m)); simpl; unfold f;
    destruct (w_faults w) as [|[] fs]; do 2 eexists;
    (split; [reflexivity|]); simpl; rewrite ?app_nil_r; split_and!; done.
Qed.
End producer.
