(* ===== verification/Gateway.v ===== *)
(** * The gateway's client hub ([msg_gateway/src/manager.rs], [client.rs],
      [rpc.rs])

    [Manager]: which connections a user has, which of them get a message, and
    what the gateway does with a message a client sent. The frames written to
    the sockets are recorded in order; [bincode::encode_to_vec] is a
    parameter. A connection is named by a number, its socket. *)

From S2P Require Import Prelude Errors Types Tables World Cache Producer.

(** [struct Client]; dropping it drops its [notify_sender]. *)
Record Client : Type := mkClient {
  cl_sender : nat; cl_user_id : string; cl_platform_id : string; cl_platform : PlatformType
}.
Global Instance Client_eq_dec : EqDecision Client.
Proof. solve_decision. Defined.

Abbreviation Clients := (gmap PlatformType Client).
Abbreviation Hub := (gmap string Clients).

(** The gateway: the hub, the frames sent, and the channel into [Manager::run]. *)
Record Gateway : Type := mkGateway {
  gw_hub : Hub;
  gw_frames : list (nat * bytes);
  gw_queue : list Msg
}.
Definition upd_hub (f : Hub → Hub) (g : Gateway) : Gateway :=
  mkGateway (f (gw_hub g)) (gw_frames g) (gw_queue g).
Definition upd_frames (f : list (nat * bytes) → list (nat * bytes)) (g : Gateway) : Gateway :=
  mkGateway (gw_hub g) (f (gw_frames g)) (gw_queue g).
Definition upd_queue (f : list Msg → list Msg) (g : Gateway) : Gateway :=
  mkGateway (gw_hub g) (gw_frames g) (f (gw_queue g)).

Section manager.
Context (encode : Msg → option bytes).

(** [client.send_binary(..)]; a failed send is logged. *)
Definition send_binary (c : Client) (b : bytes) : Gateway → Gateway :=
  upd_frames (λ l, l ++ [(cl_sender c, b)]).

(** [send_msg_to_clients]: one or two clients get the encoded message, any
    other number is only logged. *)
Definition send_msg_to_clients (clients : Clients) (msg : Msg) (g : Gateway) : Gateway :=
  match map_to_list clients with
  | [(_, c)] =>
      match encode msg with Some content => send_binary c content g | None => g end
  | [(_, c1); (_, c2)] =>
      match encode msg with
      | Some content => send_binary c2 content (send_binary c1 content g)
      | None => g
      end
  | _ => g
  end.

(** The sender's client on the other platform. *)
Definition other_platform (p : Z) : PlatformType :=
  if bool_decide (p = platform_i32 Mobile) then Desktop else Mobile.

Definition send_to_self (id : string) (msg : Msg) (g : Gateway) : Gateway :=
  match gw_hub g !! id with
  | Some client =>
      match client !! other_platform (platform msg) with
      | Some sender => match encode msg with Some content => send_binary sender content g | None => g end
      | None => g
      end
  | None => g
  end.

Definition send_single_msg (obj_id : string) (msg : Msg) (g : Gateway) : Gateway :=
  let g := match gw_hub g !! obj_id with
           | Some clients => send_msg_to_clients clients msg g
           | None => g
           end in
  send_to_self (sender_id msg) msg g.

Fixpoint send_members (obj_ids : list GroupMemSeq) (msg : Msg) (g : Gateway) : Gateway :=
  match obj_ids with
  | [] => g
  | mem :: rest =>
      match gw_hub g !! mem_id mem with
      | Some clients =>
          let msg := set_seq_field (cur_seq mem) msg in
          send_members rest msg (send_msg_to_clients clients msg g)
      | None => send_members rest msg g
      end
  end.

Definition send_group (obj_ids : list GroupMemSeq) (msg : Msg) (g : Gateway) : Gateway :=
  send_members obj_ids (set_send_seq_field 0 msg) (send_to_self (sender_id msg) msg g).

(** [self.hub.entry(id).or_default().insert(client.platform, client)] *)
Definition register (id : string) (client : Client) : Gateway → Gateway :=
  upd_hub (λ h, <[id := <[cl_platform client := client]> (default ∅ (h !! id))]> h).

Definition unregister (id : string) (platform : PlatformType) (g : Gateway) : Gateway :=
  match gw_hub g !! id with
  | Some clients =>
      if bool_decide (size clients = 1) then upd_hub (delete id) g
      else upd_hub (insert id (delete platform clients)) g
  | None => g
  end.

(** ** Messages from the clients *)

(** [s.into_bytes()] *)
Definition string_bytes (s : string) : bytes := String.list_byte_of_string s.

Section process.
Context (to_json : Msg → string) (nanoid : nat → string) (cache : RedisCache).

Definition create_error_message (message : Msg) (error : string) : Msg :=
  set_content (string_bytes error)
    (set_msg_type (msg_type_i32 MsgRecResp) (set_content_type content_type_error message)).

Definition status_error : Error := internal_with_details "rpc".

(** The gRPC call to the chat service. *)
Definition send_rpc_message (message : Msg) : IO MsgResponse :=
  remote status_error (send_msg to_json nanoid (Some message)).

Definition process_message (message : Msg) : IO Msg :=
  r ← attempt (incr_send_seq cache (sender_id message));
  match r with
  | inl e => mret (create_error_message message (error_to_string e))
  | inr (seq, _, _) =>
      let message := set_send_seq_field seq message in
      response ← attempt (send_rpc_message message);
      match response with
      | inl err => mret (create_error_message message (error_to_string err))
      | inr response =>
          let message :=
            if bool_decide (resp_err response = ""%string) then set_content [] message
            else create_error_message message (resp_err response) in
          mret (set_send_time (resp_send_time response)
                 (set_server_id (resp_server_id response)
                   (set_msg_type (msg_type_i32 MsgRecResp) message)))
      end
  end.

(** One round of [Manager::run]: the next message of the channel is processed
    and the result goes back to its sender. *)
Definition run_once (g : Gateway) : IO Gateway :=
  match gw_queue g with
  | [] => mret g
  | message :: rest =>
      message ← process_message message;
      mret (send_single_msg (sender_id message) message (upd_queue (λ _, rest) g))
  end.
End process.

(** [Manager::broadcast], and the handlers of [MsgRpcService] *)
Definition broadcast (msg : Msg) : Gateway → Gateway := upd_queue (λ q, q ++ [msg]).

Definition rpc_send_message (request : SendMsgRequest) (g : Gateway) : outcome Status Gateway :=
  match request with
  | None => Err (mkStatus Code_InvalidArgument "message is empty" "")
  | Some msg => Ok (broadcast msg g)
  end.

Definition rpc_send_msg_to_user (request : SendMsgRequest) (g : Gateway) : outcome Status Gateway :=
  match request with
  | None => Err (mkStatus Code_InvalidArgument "message is empty" "")
  | Some msg => Ok (send_single_msg (receiver_id msg) msg g)
  end.

Definition rpc_send_group_msg_to_user (request : SendMsgRequest) (members : list GroupMemSeq)
    (g : Gateway) : outcome Status Gateway :=
  match request with
  | None => Err (mkStatus Code_InvalidArgument "message is empty" "")
  | Some msg => Ok (send_group members msg g)
  end.

(** ** Who gets what *)

(** The hub is well formed: no user without a client, and every client under
    its own user and platform. *)
Definition hub_ok (h : Hub) : Prop :=
  ∀ u cs, h !! u = Some cs →
    cs ≠ ∅ ∧ ∀ p c, cs !! p = Some c → cl_platform c = p ∧ cl_user_id c = u.

Definition clients_of (h : Hub) (u : string) : list Client :=
  (map_to_list (default ∅ (h !! u))).*2.

(** At most two platforms, so at most two clients. *)
Lemma clients_size (cs : Clients) : size cs ≤ 2.
Proof.
  rewrite <- (size_dom (D := gset PlatformType)).
  transitivity (size ({[Desktop; Mobile]} : gset PlatformType)); [|done].
  apply subseteq_size. intros [] _; set_solver.
Qed.

Lemma send_msg_to_clients_all cs m b g :
  encode m = Some b →
  send_msg_to_clients cs m g = upd_frames (λ l, l ++ ((λ c, (cl_sender c, b)) <$> (map_to_list cs).*2)) g.
Proof.
  intros Hb. unfold send_msg_to_clients. rewrite Hb.
  pose proof (clients_size cs) as Hsz. rewrite <- length_map_to_list in Hsz.
  destruct (map_to_list cs) as [|[p1 c1] [|[p2 c2] [|]]]; simpl in *; try lia;
    unfold send_binary, upd_frames; simpl; rewrite ?app_nil_r, <- ?app_assoc; by destruct g.
Qed.

(** The copy for the sender's other device. *)
Definition self_frames (h : Hub) (m : Msg) (b : bytes) : list (nat * bytes) :=
  match h !! sender_id m ≫= lookup (other_platform (platform m)) with
  | Some c => [(cl_sender c, b)]
  | None => []
  end.

Lemma send_to_self_run m b g :
  encode m = Some b →
  send_to_self (sender_id m) m g = upd_frames (λ l, l ++ self_frames (gw_hub g) m b) g.
Proof.
  intros Hb. unfold send_to_self, self_frames. destruct (gw_hub g !! sender_id m) as [cs|]; simpl.
  - destruct (cs !! _); simpl; [by rewrite Hb|]. destruct g; unfold upd_frames; simpl. by rewrite app_nil_r.
  - destruct g; unfold upd_frames; simpl. by rewrite app_nil_r.
Qed.

Lemma send_online_run u m b g :
  encode m = Some b →
  match gw_hub g !! u with Some cs => send_msg_to_clients cs m g | None => g end
  = upd_frames (λ l, l ++ ((λ c, (cl_sender c, b)) <$> clients_of (gw_hub g) u)) g.
Proof.
  intros Hb. unfold clients_of. destruct (gw_hub g !! u) as [cs|]; simpl.
  - by rewrite (send_msg_to_clients_all _ _ _ _ Hb).
  - rewrite map_to_list_empty. destruct g; unfold upd_frames; simpl. by rewrite app_nil_r.
Qed.

(** A single message reaches every connection of its receiver exactly once
    and, besides them, the sender's other device; nobody else gets anything
    and the hub does not change. *)
Theorem single_msg_recipients (u : string) (m : Msg) (b : bytes) (g : Gateway)
    (Henc : encode m = Some b) :
  send_single_msg u m g
  = upd_frames (λ l, l ++ ((λ c, (cl_sender c, b)) <$> clients_of (gw_hub g) u)
                       ++ self_frames (gw_hub g) m b) g.
Proof.
  unfold send_single_msg. cbv zeta. rewrite (send_online_run _ _ _ _ Henc).
  rewrite (send_to_self_run _ _ _ Henc). destruct g; unfold upd_frames; simpl.
  by rewrite <- app_assoc.
Qed.

(** The copy a member of a group gets. *)
Definition group_copy (m : Msg) (mem : GroupMemSeq) : Msg :=
  set_seq_field (cur_seq mem) (set_send_seq_field 0 m).

Definition member_frames (h : Hub) (enc : Msg → bytes) (m : Msg) (mem : GroupMemSeq) : list (nat * bytes) :=
  (λ c, (cl_sender c, enc (group_copy m mem))) <$> clients_of h (mem_id mem).

Lemma send_members_run (enc : Msg → bytes) m mems : ∀ g x,
  (∀ m, encode m = Some (enc m)) →
  send_members mems (set_seq_field x (set_send_seq_field 0 m)) g
  = upd_frames (λ l, l ++ (mems ≫= member_frames (gw_hub g) enc m)) g.
Proof.
  intros g x Henc. revert g x. induction mems as [|mem mems IH]; intros g x; simpl.
  { destruct g; unfold upd_frames; simpl. by rewrite app_nil_r. }
  unfold member_frames at 1, clients_of. destruct (gw_hub g !! mem_id mem) as [cs|]; simpl.
  - rewrite (send_msg_to_clients_all _ _ (enc (group_copy m mem))) by apply Henc.
    rewrite (IH _ (cur_seq mem)). destruct g; unfold upd_frames; simpl. by rewrite <- app_assoc.
  - rewrite IH, map_to_list_empty. done.
Qed.

Lemma send_group_run (mems : list GroupMemSeq) (m : Msg) (enc : Msg → bytes) (g : Gateway) :
  (∀ m, encode m = Some (enc m)) →
  send_group mems m g
  = upd_frames (λ l, l ++ self_frames (gw_hub g) m (enc m)
                       ++ (mems ≫= member_frames (gw_hub g) enc m)) g.
Proof.
  intros Henc. unfold send_group. rewrite (send_to_self_run _ _ _ (Henc m)).
  change (set_send_seq_field 0 m) with (set_seq_field (seq m) (set_send_seq_field 0 m)).
  rewrite (send_members_run enc) by done. destruct g; unfold upd_frames; simpl. by rewrite <- app_assoc.
Qed.

(** A group message reaches every connection of every listed member who is
    online, each with that member's own sequence number and the send sequence
    blanked, after the sender's other device got the unmodified message. *)
Theorem group_msg_recipients (mems : list GroupMemSeq) (m : Msg) (enc : Msg → bytes) (g : Gateway)
    (Henc : ∀ m, encode m = Some (enc m)) :
  send_group mems m g
  = upd_frames (λ l, l ++ self_frames (gw_hub g) m (enc m)
                       ++ (mems ≫= member_frames (gw_hub g) enc m)) g.
Proof. by apply send_group_run. Qed.

(** ** Membership of the hub *)

Inductive HubOp : Type :=
| HRegister (c : Client)
| HUnregister (u : string) (p : PlatformType)
| HSendSingle (u : string) (m : Msg)
| HSendGroup (l : list GroupMemSeq) (m : Msg)
| HBroadcast (m : Msg).

Definition run_hub (op : HubOp) : Gateway → Gateway :=
  match op with
  | HRegister c => register (cl_user_id c) c
  | HUnregister u p => unregister u p
  | HSendSingle u m => send_single_msg u m
  | HSendGroup l m => send_group l m
  | HBroadcast m => broadcast m
  end.

Lemma hub_send_binary c b g : gw_hub (send_binary c b g) = gw_hub g.
Proof. done. Qed.
Lemma hub_send_clients cs m g : gw_hub (send_msg_to_clients cs m g) = gw_hub g.
Proof. unfold send_msg_to_clients. by repeat case_match. Qed.
Lemma hub_send_self u m g : gw_hub (send_to_self u m g) = gw_hub g.
Proof. unfold send_to_self. by repeat case_match. Qed.
Lemma hub_send_members l : ∀ m g, gw_hub (send_members l m g) = gw_hub g.
Proof.
  induction l as [|mem l IH]; intros m g; simpl; [done|].
  case_match; rewrite IH; [apply hub_send_clients|done].
Qed.

Lemma register_ok c g : hub_ok (gw_hub g) → hub_ok (gw_hub (register (cl_user_id c) c g)).
Proof.
  intros Hok u cs. unfold register; simpl. intros [[<- <-]|[Hne Hu]]%lookup_insert_Some; [|by apply Hok].
  split; [apply insert_non_empty|]. intros p c' [[<- <-]|[_ Hc]]%lookup_insert_Some; [done|].
  destruct (gw_hub g !! cl_user_id c) as [cs|] eqn:E; simpl in Hc; [|done]. by apply (Hok _ cs).
Qed.

Lemma unregister_ok u p g : hub_ok (gw_hub g) → hub_ok (gw_hub (unregister u p g)).
Proof.
  intros Hok. unfold unregister. destruct (gw_hub g !! u) as [cs|] eqn:E; [|done].
  destruct (Hok u cs E) as [Hne Hcs]. case_bool_decide as Hsz; intros v cs' Hv; simpl in Hv.
  - apply lookup_delete_Some in Hv as [_ Hv]. by apply Hok.
  - apply lookup_insert_Some in Hv as [[<- <-]|[_ Hv]]; [|by apply Hok]. split.
    + intros He. apply map_size_non_empty_iff in Hne.
      assert (size (delete p cs) = 0) as H0 by (by rewrite He).
      destruct (cs !! p) as [c|] eqn:Ep.
      * rewrite (map_size_delete_Some p cs) in H0 by eauto. lia.
      * rewrite delete_id in H0 by done. lia.
    + intros q c [_ Hq]%lookup_delete_Some. by apply Hcs.
Qed.

(** C28. Every operation of the manager keeps the hub well formed: no user is
    listed without a connection, every connection is listed under its own user
    and platform, and no user has more than two. *)
Theorem hub_invariant (ops : list HubOp) (g : Gateway) (Hok : hub_ok (gw_hub g)) :
  let h := gw_hub (foldl (λ g op, run_hub op g) g ops) in
  hub_ok h ∧ ∀ u, length (clients_of h u) ≤ 2.
Proof.
  cbv zeta. split.
  - revert g Hok. induction ops as [|op ops IH]; intros g Hok; [done|]. simpl. apply IH.
    destruct op; simpl.
    + by apply register_ok.
    + by apply unregister_ok.
    + unfold send_single_msg. cbv zeta. rewrite hub_send_self. case_match; by rewrite ?hub_send_clients.
    + unfold send_group. by rewrite hub_send_members, hub_send_self.
    + done.
  - intros u. unfold clients_of. rewrite length_fmap, length_map_to_list. apply clients_size.
Qed.

(** A stale disconnect drops the replacement. When a connection of a user
    ends while that user's only registered connection is another one, whatever
    platforms the two are on, unregistering removes the registered connection:
    the user becomes unreachable, and the new connection is knocked off. *)
Theorem stale_unregister_drops_replacement (new : Client) (old_platform : PlatformType) (g : Gateway)
    (Honly : gw_hub g !! cl_user_id new = None
             ∨ ∃ old, gw_hub g !! cl_user_id new = Some {[cl_platform new := old]}) :
  let g1 := register (cl_user_id new) new g in
  clients_of (gw_hub g1) (cl_user_id new) = [new]
  ∧ clients_of (gw_hub (unregister (cl_user_id new) old_platform g1)) (cl_user_id new) = [].
Proof.
  cbv zeta. assert (Hr : gw_hub (register (cl_user_id new) new g) !! cl_user_id new
    = Some {[cl_platform new := new]}).
  { unfold register; simpl. rewrite lookup_insert_eq. f_equal.
    destruct Honly as [->|[old ->]]; simpl; [done|]. unfold singletonM, map_singleton. by rewrite insert_insert_eq. }
  split.
  - unfold clients_of. rewrite Hr. simpl. by rewrite map_to_list_singleton.
  - unfold unregister. rewrite Hr. rewrite bool_decide_eq_true_2 by (by rewrite map_size_singleton).
    unfold clients_of; simpl. by rewrite lookup_delete_eq.
Qed.

(** A reply reaches the sender's other device twice: the result of a send
    is addressed to the sender, so it goes to all of the sender's connections
    and then once more to the connection on the other platform. *)
Theorem reply_sent_twice (m : Msg) (b : bytes) (g : Gateway) (cs : Clients) (c : Client)
    (Henc : encode m = Some b) (Hcs : gw_hub g !! sender_id m = Some cs)
    (Hother : cs !! other_platform (platform m) = Some c) :
  ∃ before after, gw_frames (send_single_msg (sender_id m) m g)
    = gw_frames g ++ before ++ [(cl_sender c, b)] ++ after ++ [(cl_sender c, b)].
Proof.
  unfold send_single_msg. cbv zeta. rewrite (send_online_run _ _ _ _ Henc).
  rewrite (send_to_self_run _ _ _ Henc). simpl. unfold self_frames. rewrite Hcs. simpl. rewrite Hother.
  apply elem_of_map_to_list in Hother. apply (list_elem_of_fmap_2 snd) in Hother.
  unfold clients_of. rewrite Hcs. simpl.
  apply list_elem_of_split in Hother as (l1 & l2 & Heq). rewrite Heq, fmap_app, fmap_cons.
  exists ((λ c, (cl_sender c, b)) <$> l1), ((λ c, (cl_sender c, b)) <$> l2). simpl.
  by rewrite <- !app_assoc.
Qed.

(** ** Processing what a client sent *)

Section processing.
Context (to_json : Msg → string) (nanoid : nat → string) (cache : RedisCache).

Lemma send_msg_healthy m w : healthy w →
  send_msg to_json nanoid (Some m) w
  = (Ok (mkMsgResponse (client_id m) (server_id (stamped nanoid w m)) (w_clock w) ""),
     upd_kafka (λ q, q ++ [to_json (stamped nanoid w m)])
       (upd_ids (λ n, if keeps_server_id (msg_type m) then n else S n) w)).
Proof.
  intros Hnet. unfold send_msg, fresh_server_id, now_ms, remote, take_fault, stamped. mstep.
  unfold healthy in Hnet. destruct (keeps_server_id (msg_type m)); simpl; rewrite Hnet; simpl;
    by destruct w.
Qed.

(** The reply to an accepted message: a receipt with the server id and send
    time of the queued copy. *)
Definition receipt (now : Z) (queued m : Msg) : Msg :=
  set_send_time now (set_server_id (server_id queued)
    (set_msg_type (msg_type_i32 MsgRecResp) (set_content [] m))).

Lemma process_message_run m w p :
  healthy w → pseq (w_redis w) (send_seq_key (sender_id m)) = Some p →
  in_i64 (default 0 p.1 + 1)%Z = true →
  let b := bump (rc_seq_step cache) p in
  let sent := set_send_seq_field b.1.1 m in
  let queued := stamped nanoid w sent in
  ∃ r', process_message to_json nanoid cache m w
      = (Ok (receipt (w_clock w) queued sent),
         upd_kafka (λ q, q ++ [to_json queued])
           (upd_ids (λ n, if keeps_server_id (msg_type m) then n else S n) (upd_redis (λ _, r') w)))
    ∧ pseq r' (send_seq_key (sender_id m)) = Some (pair_of b)
    ∧ only_key (send_seq_key (sender_id m)) (w_redis w) r'.
Proof.
  intros Hnet Hp Hroom b sent queued.
  destruct (incr_send_seq_run cache (sender_id m) w _ Hnet Hp Hroom) as (r' & Hi & Hp' & Ho). fold b in Hi.
  exists r'. split; [|done].
  unfold process_message. erewrite bind_ok by (unfold attempt; by rewrite Hi).
  subst sent queued. fold b in Hp'. destruct b as [[cur mx] up] eqn:Hb. cbv zeta.
  by erewrite bind_ok by (unfold attempt, send_rpc_message; rewrite remote_healthy by done;
    by rewrite send_msg_healthy by done).
Qed.

(** A message accepted from a client gets the sender's next send number and
    is queued exactly once under it; the reply echoes the message with its
    content cleared, typed as a receipt, and with the server id and send time
    of the queued copy. *)
Theorem process_message_accepted (m : Msg) (w : World) (p : option Z * option Z)
    (Hnet : healthy w) (Hp : pseq (w_redis w) (send_seq_key (sender_id m)) = Some p)
    (Hroom : in_i64 (default 0 p.1 + 1)%Z = true) :
  let b := bump (rc_seq_step cache) p in
  let queued := stamped nanoid w (set_send_seq_field b.1.1 m) in
  ∃ w', process_message to_json nanoid cache m w
      = (Ok (set_send_time (w_clock w) (set_server_id (server_id queued)
              (set_msg_type (msg_type_i32 MsgRecResp) (set_content [] (set_send_seq_field b.1.1 m))))),
         w')
    ∧ w_kafka w' = w_kafka w ++ [to_json queued]
    ∧ pseq (w_redis w') (send_seq_key (sender_id m)) = Some (pair_of b)
    ∧ only_key (send_seq_key (sender_id m)) (w_redis w) (w_redis w').
Proof.
  intros b queued. destruct (process_message_run m w p Hnet Hp Hroom) as (r' & Hr & Hp' & Ho).
  eexists. split_and!; [exact Hr|done..].
Qed.

Lemma incr_send_seq_returns u w :
  (∃ x w', incr_send_seq cache u w = (Ok x, w') ∧ w_kafka w' = w_kafka w)
  ∨ (∃ e w', incr_send_seq cache u w = (Err e, w') ∧ w_kafka w' = w_kafka w).
Proof.
  unfold incr_send_seq, redis_conn, redis_run, remote, take_fault. mstep.
  destruct (w_faults w) as [|[] [|[] fs]]; simpl;
    repeat case_match; simplify_eq/=;
    solve [left; do 2 eexists; split; reflexivity|right; do 2 eexists; split; reflexivity].
Qed.

Lemma send_rpc_returns m w :
  (∃ x w', send_rpc_message to_json nanoid m w = (Ok x, w')
     ∧ (resp_err x = ""%string → ∃ j, w_kafka w' = w_kafka w ++ [j]))
  ∨ (∃ e w', send_rpc_message to_json nanoid m w = (Err e, w')).
Proof.
  assert (Hsend : ∀ w0, w_kafka w0 = w_kafka w → ∃ x w',
    send_msg to_json nanoid (Some m) w0 = (Ok x, w')
    ∧ (resp_err x = ""%string → ∃ j, w_kafka w' = w_kafka w ++ [j])).
  { intros w0 Hk. unfold send_msg, fresh_server_id, now_ms, remote, take_fault. mstep.
    destruct (keeps_server_id (msg_type m)); simpl;
      destruct (w_faults w0) as [|[] fs]; do 2 eexists;
      (split; [reflexivity|]); simpl; rewrite Hk; intros; try done; by eexists. }
  unfold send_rpc_message, remote, take_fault, mbind, M_bind.
  destruct (w_faults w) as [|[] fs].
  - left. by apply Hsend.
  - left. by apply Hsend.
  - right. by do 2 eexists.
  - right. destruct (Hsend (upd_faults (λ _, fs) w)) as (x & w' & -> & _); [done|]. by do 2 eexists.
Qed.

(** Processing a client's message always ends with a reply to that client,
    whatever fails on the way: the reply is a receipt for the same sender, and
    it is free of the error mark only if the message was put on the queue. *)
Theorem process_message_always_replies (m : Msg) (w : World)
    (Hm : content_type m ≠ content_type_error) :
  ∃ reply w', process_message to_json nanoid cache m w = (Ok reply, w')
    ∧ msg_type reply = msg_type_i32 MsgRecResp ∧ sender_id reply = sender_id m
    ∧ (content_type reply ≠ content_type_error → ∃ j, w_kafka w' = w_kafka w ++ [j]).
Proof.
  unfold process_message, mbind, M_bind. unfold attempt at 1.
  destruct (incr_send_seq_returns (sender_id m) w) as [([[x mx] up] & w1 & -> & Hk)|(e & w1 & -> & Hk)].
  2:{ do 2 eexists. split; [reflexivity|]. simpl. by split_and!. }
  unfold attempt. cbv zeta.
  destruct (send_rpc_returns (set_send_seq_field x m) w1) as [(r & w2 & -> & Hq)|(e & w2 & ->)].
  2:{ do 2 eexists. split; [reflexivity|]. simpl. by split_and!. }
  case_bool_decide as Hr; (do 2 eexists; split; [reflexivity|]); simpl; split_and!; try done.
  intros _. rewrite <- Hk. by apply Hq.
Qed.
End processing.
End manager.

(** ** Witnesses *)

Definition no_bytes (m : Msg) : option bytes := Some [].
Definition desktop : Client := mkClient 7 "alice" "d1" Desktop.
Definition phone : Client := mkClient 8 "alice" "d2" Mobile.
Definition alice_online : Gateway := mkGateway {["alice"%string := {[Desktop := desktop; Mobile := phone]}]} [] [].
Definition from_alice : Msg :=
  mkMsg "" "" 0 0 "alice" "bob" 0 "" [] 0 0 false 0 "" "" None 0.

Lemma single_msg_recipients_witness :
  gw_frames (send_single_msg no_bytes "alice" (set_receiver "alice" default_msg) alice_online)
    ≡ₚ [(7, []); (8, [])].
Proof.
  rewrite (single_msg_recipients no_bytes "alice" (set_receiver "alice" default_msg) [] alice_online eq_refl).
  vm_compute. reflexivity.
Defined.

Lemma group_msg_recipients_witness :
  length (gw_frames (send_group no_bytes [mkGroupMemSeq "alice" 3 5 false] default_msg alice_online)) = 2.
Proof.
  rewrite (group_msg_recipients no_bytes [mkGroupMemSeq "alice" 3 5 false] default_msg (λ _, [])
    alice_online (λ _, eq_refl)). reflexivity.
Defined.

Lemma hub_invariant_witness :
  hub_ok (gw_hub (unregister "alice" Desktop (register "alice" desktop (mkGateway ∅ [] [])))).
Proof.
  apply (hub_invariant no_bytes [HRegister desktop; HUnregister "alice" Desktop] (mkGateway ∅ [] [])).
  intros u cs H. inversion H.
Defined.

Lemma stale_unregister_drops_replacement_witness :
  clients_of (gw_hub (unregister "alice" Desktop (register "alice" phone (mkGateway ∅ [] [])))) "alice" = [].
Proof.
  apply (stale_unregister_drops_replacement phone Desktop (mkGateway ∅ [] [])). left. reflexivity.
Defined.

Lemma reply_sent_twice_witness :
  ∃ before after, gw_frames (send_single_msg no_bytes "alice" from_alice alice_online)
    = [] ++ before ++ [(8, [])] ++ after ++ [(8, [])].
Proof.
  exact (reply_sent_twice no_bytes from_alice [] alice_online {[Desktop := desktop; Mobile := phone]}
    phone eq_refl eq_refl eq_refl).
Defined.

Lemma process_message_accepted_witness :
  ∃ w', w_kafka w' = ["json"%string]
    ∧ ∃ reply, process_message (λ _, "json"%string) (λ _, "id"%string) redis_cache_new from_alice
        world_empty = (Ok reply, w').
Proof.
  destruct (process_message_accepted (λ _, "json"%string) (λ _, "id"%string) redis_cache_new from_alice
    world_empty (None, None) eq_refl eq_refl eq_refl) as (w' & H & Hk & _).
  exists w'. split; [exact Hk|]. eexists. exact H.
Defined.

Lemma process_message_always_replies_witness :
  ∃ reply w', process_message (λ _, "json"%string) (λ _, "id"%string) redis_cache_new from_alice
      (upd_faults (λ _, [FailBefore]) world_empty) = (Ok reply, w')
    ∧ msg_type reply = 28%Z.
Proof.
  destruct (process_message_always_replies (λ _, "json"%string) (λ _, "id"%string) redis_cache_new
    from_alice (upd_faults (λ _, [FailBefore]) world_empty)) as (r & w' & H & Ht & _).
  - discriminate.
  - exists r, w'. split; [exact H|exact Ht].
Defined.
