(* ===== verification/WsServer.v ===== *)
(** * The WebSocket front of the gateway ([msg_gateway/src/ws_server.rs])

    The connection rate limiter, the token check and the life cycle of a
    connection against the hub; its tasks are in [ConnTasks]. Times are in milliseconds;
    [jsonwebtoken::decode], [serde_json] and [bincode] are parameters. *)

From S2P Require Import Prelude Errors Types Tables World Gateway.

Definition KNOCK_OFF_CODE : Z := 4001.
Definition UNAUTHORIZED_CODE : Z := 4002.
Definition MESSAGE_TOO_LARGE_CODE : Z := 4003.
Definition RATE_LIMITED_CODE : Z := 4004.
Definition INVALID_MESSAGE_FORMAT_CODE : Z := 4005.
Definition IDLE_TIMEOUT_CODE : Z := 4006.
Definition MAX_CONN_PER_MINUTE : nat := 10.
Definition RATE_LIMIT_WINDOW : Z := 60000.
Definition MAX_MESSAGE_SIZE : Z := 1048576.
Definition MAX_IDLE_TIME : Z := 300000.
Definition HEART_BEAT_INTERVAL : Z := 30000.

(** ** The rate limiter *)

(** Per address: the connections counted, and when the count started. *)
Abbreviation RateLimiter := (gmap string (nat * Z)).

(** [now.duration_since(t)] saturates at zero. *)
Definition duration_since (now t : Z) : Z := Z.max 0 (now - t).

Definition check_rate (ip : string) (now : Z) (rl : RateLimiter) : bool * RateLimiter :=
  match rl !! ip with
  | Some (count, timestamp) =>
      if bool_decide (duration_since now timestamp < RATE_LIMIT_WINDOW)%Z
         && bool_decide (MAX_CONN_PER_MINUTE ≤ count)
      then (true, rl)
      else if bool_decide (RATE_LIMIT_WINDOW ≤ duration_since now timestamp)%Z
      then (false, <[ip := (1, now)]> rl)
      else (false, <[ip := (S count, timestamp)]> rl)
  | None => (false, <[ip := (1, now)]> rl)
  end.

(** The requests that pass, in order. *)
Fixpoint admitted (rl : RateLimiter) (reqs : list (string * Z)) : list (string * Z) :=
  match reqs with
  | [] => []
  | (ip, now) :: rest =>
      let '(limited, rl') := check_rate ip now rl in
      (if limited then [] else [(ip, now)]) ++ admitted rl' rest
  end.

(** ** Authentication *)

Record Claims : Type := mkClaims { sub : string; exp : Z; iat : Z }.
Inductive JwtError : Type := ExpiredSignature | InvalidToken | OtherJwtError.

Section ws.
Context (jwt_decode : string → string → JwtError + Claims).
Context (from_json : string → option Msg) (decode_msg : bytes → option Msg).

Definition verify_token (token user_id jwt_secret : string) : outcome Error Claims :=
  match jwt_decode token jwt_secret with
  | inl ExpiredSignature => Err (unauthorized "jwt" "Token expired")
  | inl InvalidToken => Err (unauthorized "jwt" "Invalid token format")
  | inl OtherJwtError => Err (unauthorized "jwt" "Token expired")
  | inr claims =>
      if bool_decide (sub claims ≠ user_id)
      then Err (unauthorized_with_details "User ID mismatch in token")
      else Ok claims
  end.

(** [auth_str.strip_prefix("Bearer ")], else the text itself *)
Definition bearer (auth_str : string) : string :=
  if String.prefix "Bearer " auth_str then String.substring 7 (String.length auth_str - 7) auth_str
  else auth_str.

(** The outcome of the upgrade request: a refusal with an HTTP status, or an
    upgrade carrying the token. The header may be missing, or not be text. *)
Inductive Upgrade : Type := Refused (status : Z) | Upgraded (token : string).

Definition websocket_handler (ip : string) (now : Z) (auth_header : option (option string))
    (rl : RateLimiter) : Upgrade * RateLimiter :=
  let '(rate_limited, rl') := check_rate ip now rl in
  if rate_limited then (Refused 429, rl')
  else match auth_header with
       | None => (Refused 401, rl')
       | Some h => (Upgraded (bearer (default ""%string h)), rl')
       end.

(** ** The receive task *)

Inductive WsMessage : Type :=
| Text (s : string) | Binary (b : bytes) | Ping | Pong | CloseMessage.
(** The control frames the server writes. *)
Inductive WsReply : Type := CloseFrame (code : Z) (reason : string) | PingFrame | PongFrame.
Global Instance WsReply_eq_dec : EqDecision WsReply.
Proof. solve_decision. Defined.

(** One received message: what is written to the socket, what is handed to the
    manager, and whether the loop goes on. [send_ok] and [hub_open] say whether
    the socket write and the manager's channel work. *)
Definition parsed (hub_open : bool) (r : option Msg) : list WsReply * option Msg * bool :=
  match r with
  | Some msg => ([], if hub_open then Some msg else None, hub_open)
  | None => ([CloseFrame INVALID_MESSAGE_FORMAT_CODE "Invalid message format"], None, true)
  end.

Definition receive (send_ok hub_open : bool) (m : WsMessage) : list WsReply * option Msg * bool :=
  match m with
  | Text text =>
      if bool_decide (MAX_MESSAGE_SIZE < Z.of_nat (String.length text))%Z
      then ([CloseFrame MESSAGE_TOO_LARGE_CODE "Message too large"], None, true)
      else parsed hub_open (from_json text)
  | Binary b =>
      if bool_decide (MAX_MESSAGE_SIZE < Z.of_nat (length b))%Z
      then ([CloseFrame MESSAGE_TOO_LARGE_CODE "Message too large"], None, true)
      else parsed hub_open (decode_msg b)
  | Ping => ([PongFrame], None, send_ok)
  | Pong => ([], None, true)
  | CloseMessage => ([], None, false)
  end.
End ws.

(** ** The life of a connection *)

Inductive ConnectionState : Type := New | Authenticating | Active | Idle | Closing | Closed.
Inductive TaskExitReason : Type := PingFailed | KnockOff | ClientDisconnected | IdleTimeout.
Global Instance ConnectionState_eq_dec : EqDecision ConnectionState.
Proof. solve_decision. Defined.
Global Instance TaskExitReason_eq_dec : EqDecision TaskExitReason.
Proof. solve_decision. Defined.

(** [ConnectionTasks::wait]: which task ended, and the state it left. *)
Inductive EndedTask : Type := PingTask | WatchTask | ReceiveTask.
Definition exit_reason (t : EndedTask) (state : ConnectionState) : TaskExitReason :=
  match t with
  | PingTask => match state with Idle => IdleTimeout | _ => PingFailed end
  | WatchTask => KnockOff
  | ReceiveTask => ClientDisconnected
  end.

(** A connection: running, ended but not yet cleaned up, or finished. *)
Inductive Phase : Type := Running | Ended (r : TaskExitReason) | Finished.

Record Server : Type := mkServer {
  sv_gateway : Gateway;
  sv_conns : gmap nat (Client * Phase)
}.

(** The last lines of [WsServer::websocket]. *)
Definition need_unregister (r : TaskExitReason) : bool :=
  match r with KnockOff => false | _ => true end.

Definition cleanup (c : Client) (r : TaskExitReason) (g : Gateway) : Gateway :=
  if need_unregister r then unregister (cl_user_id c) (cl_platform c) g else g.

Definition in_hub (c : Client) (h : Hub) : Prop :=
  ∃ cs, h !! cl_user_id c = Some cs ∧ cs !! cl_platform c = Some c.

(** Steps: a new authenticated connection registers; a task of a running
    connection ends (the watch task only once the client is no longer in the
    hub, which drops its [notify_sender]); an ended connection is cleaned up.
    Between the last two any other step may come. *)
Inductive conn_step : Server → Server → Prop :=
| conn_open c g conns :
    conns !! cl_sender c = None →
    conn_step (mkServer g conns)
      (mkServer (register (cl_user_id c) c g) (<[cl_sender c := (c, Running)]> conns))
| conn_end c t state g conns :
    conns !! cl_sender c = Some (c, Running) →
    (t = WatchTask → ¬ in_hub c (gw_hub g)) →
    conn_step (mkServer g conns)
      (mkServer g (<[cl_sender c := (c, Ended (exit_reason t state))]> conns))
| conn_cleanup c r g conns :
    conns !! cl_sender c = Some (c, Ended r) →
    conn_step (mkServer g conns)
      (mkServer (cleanup c r g) (<[cl_sender c := (c, Finished)]> conns)).

Definition server_start : Server := mkServer (mkGateway ∅ [] []) ∅.

(** ** The limiter's guarantee *)

(** The windows of one address, newest first: start and admission times. *)
Abbreviation Windows := (list (Z * list Z)).

Definition start_le (b : Z) (ws : Windows) : Prop :=
  match ws with [] => True | (s, _) :: _ => (s ≤ b)%Z end.

Fixpoint windows_ok (ws : Windows) : Prop :=
  match ws with
  | [] => True
  | (s, ts) :: rest =>
      length ts ≤ MAX_CONN_PER_MINUTE
      ∧ Forall (λ a, s ≤ a < s + RATE_LIMIT_WINDOW)%Z ts
      ∧ start_le (s - RATE_LIMIT_WINDOW) rest ∧ windows_ok rest
  end.

Definition admissions (ws : Windows) : list Z := concat ws.*2.
Definition within (t : Z) (l : list Z) : nat :=
  length (filter (λ a, t ≤ a < t + RATE_LIMIT_WINDOW)%Z l).

Lemma admissions_cons s ts ws : admissions ((s, ts) :: ws) = ts ++ admissions ws.
Proof. done. Qed.

Lemma within_app t l1 l2 : within t (l1 ++ l2) = within t l1 + within t l2.
Proof. unfold within. by rewrite filter_app, length_app. Qed.

Lemma within_le t l : within t l ≤ length l.
Proof. apply length_filter. Qed.

Lemma within_none t l : Forall (λ a, a < t ∨ t + RATE_LIMIT_WINDOW ≤ a)%Z l → within t l = 0.
Proof.
  intros H. unfold within. induction H as [|a l Ha _ IH]; [done|].
  rewrite filter_cons_False by lia. done.
Qed.

Lemma within_old t ws : windows_ok ws → start_le (t - RATE_LIMIT_WINDOW) ws → within t (admissions ws) = 0.
Proof.
  revert t. induction ws as [|[s ts] ws IH]; intros t Hok Hs; [done|].
  destruct Hok as (_ & Hts & Hgap & Hok). rewrite admissions_cons. simpl in Hs.
  rewrite within_app, within_none.
  - apply IH; [done|]. destruct ws as [|[s' ?] ?]; [done|]. unfold RATE_LIMIT_WINDOW in *; simpl in *; lia.
  - eapply Forall_impl; [exact Hts|]. simpl. lia.
Qed.

Lemma within_one t ws : windows_ok ws → start_le (t - 1) ws → within t (admissions ws) ≤ 10.
Proof.
  destruct ws as [|[s ts] ws]; intros Hok Hs; [unfold within; simpl; lia|].
  destruct Hok as (Hlen & _ & Hgap & Hok). rewrite admissions_cons. simpl in Hs.
  rewrite within_app. rewrite (within_old t ws Hok).
  - pose proof (within_le t ts). unfold MAX_CONN_PER_MINUTE in Hlen. lia.
  - destruct ws as [|[s' ?] ?]; [done|]. simpl in *; lia.
Qed.

Lemma within_two t ws : windows_ok ws → within t (admissions ws) ≤ 20.
Proof.
  induction ws as [|[s ts] ws IH]; intros Hok; [unfold within; simpl; lia|].
  destruct Hok as (Hlen & Hts & Hgap & Hok). rewrite admissions_cons.
  rewrite within_app. destruct (decide (t + RATE_LIMIT_WINDOW ≤ s)%Z).
  - rewrite within_none; [by apply IH|]. eapply Forall_impl; [exact Hts|]. simpl. lia.
  - pose proof (within_le t ts). unfold MAX_CONN_PER_MINUTE in Hlen.
    assert (within t (admissions ws) ≤ 10); [|lia]. apply within_one; [done|].
    destruct ws as [|[s' ?] ?]; [done|]. simpl in *; lia.
Qed.

(** The limiter's entry for an address is its newest window. *)
Definition entry_ok (e : option (nat * Z)) (ws : Windows) : Prop :=
  match e, ws with
  | None, [] => True
  | Some (count, timestamp), (s, ts) :: _ => count = length ts ∧ timestamp = s
  | _, _ => False
  end.

Definition times_of (ip : string) (l : list (string * Z)) : list Z :=
  (filter (λ r : string * Z, r.1 = ip) l).*2.

Lemma check_rate_other ip ip' now rl : ip ≠ ip' → (check_rate ip now rl).2 !! ip' = rl !! ip'.
Proof. intros. unfold check_rate. repeat case_match; simpl; by rewrite ?lookup_insert_ne. Qed.

(** One request of the address: what it does to the windows. *)
Lemma check_rate_windows ip now rl ws :
  windows_ok ws → entry_ok (rl !! ip) ws → start_le now ws →
  ∃ ws', windows_ok ws' ∧ entry_ok ((check_rate ip now rl).2 !! ip) ws' ∧ start_le now ws'
    ∧ admissions ws' = (if (check_rate ip now rl).1 then [] else [now]) ++ admissions ws.
Proof.
  intros Hok He Hs. unfold check_rate, duration_since, RATE_LIMIT_WINDOW, MAX_CONN_PER_MINUTE in *.
  destruct (rl !! ip) as [[count ts]|] eqn:E; destruct ws as [|[s l] ws]; try done.
  - destruct He as [-> ->]. destruct Hok as (Hlen & Hts & Hgap & Hok). simpl in Hs.
    unfold RATE_LIMIT_WINDOW, MAX_CONN_PER_MINUTE in *.
    repeat case_bool_decide; simpl; try lia.
    + exists ((s, l) :: ws). rewrite E. by split_and!.
    + exists ((s, now :: l) :: ws). rewrite lookup_insert_eq.
      split_and!; simpl; try done; try lia. split_and!; try done.
      * unfold MAX_CONN_PER_MINUTE; lia.
      * constructor; [unfold RATE_LIMIT_WINDOW; lia|done].
    + exists ((now, [now]) :: (s, l) :: ws). rewrite lookup_insert_eq.
      split_and!; simpl; try done; try lia. unfold RATE_LIMIT_WINDOW, MAX_CONN_PER_MINUTE in *.
      split_and!; try done; try lia. constructor; [lia|done].
    + exists ((now, [now]) :: (s, l) :: ws). rewrite lookup_insert_eq.
      split_and!; simpl; try done; try lia. unfold RATE_LIMIT_WINDOW, MAX_CONN_PER_MINUTE in *.
      split_and!; try done; try lia. constructor; [lia|done].
  - exists [(now, [now])]. simpl. rewrite lookup_insert_eq.
    split_and!; try done; try lia; unfold RATE_LIMIT_WINDOW, MAX_CONN_PER_MINUTE; try lia.
    constructor; [lia|done].
Qed.

Lemma admitted_windows ip reqs : ∀ rl ws,
  StronglySorted (λ x y : string * Z, x.2 ≤ y.2)%Z reqs →
  windows_ok ws → entry_ok (rl !! ip) ws → Forall (λ r, start_le r.2 ws) reqs →
  ∃ ws', windows_ok ws'
    ∧ admissions ws' = reverse (times_of ip (admitted rl reqs)) ++ admissions ws.
Proof.
  induction reqs as [|[ip' now] reqs IH]; intros rl ws Hsort Hok He Hs; [by exists ws|].
  apply StronglySorted_inv in Hsort as [Hsort Hle]. apply Forall_cons in Hs as [Hnow Hs].
  cbn [admitted]. destruct (check_rate ip' now rl) as [lim rl'] eqn:Hc. unfold times_of.
  rewrite filter_app, fmap_app, reverse_app. fold (times_of ip (admitted rl' reqs)).
  destruct (decide (ip' = ip)) as [->|Hne].
  - destruct (check_rate_windows ip now rl ws Hok He Hnow) as (ws1 & Hok1 & He1 & Hs1 & Ha1).
    rewrite Hc in He1, Ha1. simpl in *.
    destruct (IH rl' ws1 Hsort Hok1 He1) as (ws2 & Hok2 & Ha2).
    { eapply Forall_impl; [exact Hle|]. intros [i t]. simpl. destruct ws1 as [|[s ?] ?]; [done|].
      simpl in *. lia. }
    exists ws2. split; [done|]. rewrite Ha2, Ha1, <- app_assoc. f_equal.
    destruct lim; [done|]. by rewrite filter_cons_True.
  - assert (Hl : rl' !! ip = rl !! ip) by (by rewrite <- (check_rate_other ip' ip now rl Hne), Hc).
    destruct (IH rl' ws Hsort Hok) as (ws2 & Hok2 & Ha2); [by rewrite Hl|done|].
    exists ws2. split; [done|]. rewrite Ha2. destruct lim; [by rewrite app_nil_r|].
    rewrite filter_cons_False by done. by rewrite app_nil_r.
Qed.

(** C38. The rate limiter holds: over any sequence of connection attempts in
    time order, from any addresses, no address gets more than twenty
    connections admitted within any sixty seconds (ten in each of the at most
    two counting windows that interval meets). *)
Theorem rate_limit_bound (reqs : list (string * Z)) (ip : string) (t : Z)
    (Hsort : StronglySorted (λ x y : string * Z, x.2 ≤ y.2)%Z reqs) :
  length (filter (λ a, t ≤ a < t + RATE_LIMIT_WINDOW)%Z (times_of ip (admitted ∅ reqs))) ≤ 20.
Proof.
  destruct (admitted_windows ip reqs ∅ [] Hsort I) as (ws & Hok & Ha);
    [done|by apply Forall_true|].
  pose proof (within_two t ws Hok) as Hw. rewrite Ha in Hw. unfold within in Hw.
  rewrite app_nil_r in Hw.
  by rewrite <- (Permutation_length (filter_Permutation _ _ _ (reverse_Permutation _))).
Qed.

Lemma rate_limit_bound_witness :
  length (filter (λ a, 0 ≤ a < 0 + RATE_LIMIT_WINDOW)%Z
    (times_of "a" (admitted ∅ [("a"%string, 0%Z); ("a"%string, 1%Z)]))) ≤ 20.
Proof.
  apply (rate_limit_bound [("a"%string, 0%Z); ("a"%string, 1%Z)] "a" 0).
  repeat constructor; simpl; lia.
Defined.

(** ** Connections and the hub *)

Definition alive (ph : Phase) : Prop := ph ≠ Finished ∧ ph ≠ Ended KnockOff.

Record server_inv (s : Server) : Prop := {
  si_hub : hub_ok (gw_hub (sv_gateway s));
  si_name : ∀ n c ph, sv_conns s !! n = Some (c, ph) → cl_sender c = n;
  si_alive : ∀ c, in_hub c (gw_hub (sv_gateway s)) →
               ∃ ph, sv_conns s !! cl_sender c = Some (c, ph) ∧ alive ph
}.

Lemma in_hub_register c c' g :
  in_hub c' (gw_hub (register (cl_user_id c) c g)) → c' = c ∨ in_hub c' (gw_hub g).
Proof.
  unfold in_hub, register; simpl. intros (cs & [[Hu <-]|[Hu Hcs]]%lookup_insert_Some & Hc);
    [|right; by exists cs].
  apply lookup_insert_Some in Hc as [[_ ->]|[Hp Hc]]; [by left|]. right.
  rewrite <- Hu. destruct (gw_hub g !! cl_user_id c) as [cs|] eqn:E; simpl in Hc; [|done]. by exists cs.
Qed.

Lemma in_hub_unregister u p c g :
  in_hub c (gw_hub (unregister u p g)) →
  in_hub c (gw_hub g) ∧ ¬ (cl_user_id c = u ∧ cl_platform c = p).
Proof.
  unfold in_hub, unregister. intros (cs & Hcs & Hc).
  destruct (gw_hub g !! u) as [cs0|] eqn:E.
  2:{ split; [by exists cs|]. intros [<- <-]. by rewrite E in Hcs. }
  case_bool_decide; simpl in Hcs.
  - apply lookup_delete_Some in Hcs as [Hu Hcs]. split; [by exists cs|]. by intros [<- _].
  - apply lookup_insert_Some in Hcs as [[Hu <-]|[Hu Hcs]].
    + apply lookup_delete_Some in Hc as [Hp Hc]. subst u. split; [by exists cs0|]. by intros [_ <-].
    + split; [by exists cs|]. by intros [<- _].
Qed.

Lemma conn_step_inv s s' : server_inv s → conn_step s s' → server_inv s'.
Proof.
  intros [Hhub Hname Halive] Hstep. destruct Hstep as [c g conns Hnew|c t st g conns Hc Hw|c r g conns Hc];
    simpl in *; split; simpl.
  - by apply register_ok.
  - intros n c' ph [[<- [= <- _]]|[_ H]]%lookup_insert_Some; [done|by eapply Hname].
  - intros c' [->|Hin]%in_hub_register.
    + exists Running. by rewrite lookup_insert_eq.
    + destruct (Halive c' Hin) as (ph & Hph & Ha). exists ph. split; [|done].
      rewrite lookup_insert_ne; [done|]. intros Heq. by rewrite Heq, Hph in Hnew.
  - done.
  - intros n c' ph [[<- [= <- _]]|[_ H]]%lookup_insert_Some; [done|by eapply Hname].
  - intros c' Hin. destruct (Halive c' Hin) as (ph & Hph & Ha).
    destruct (decide (cl_sender c = cl_sender c')) as [Heq|Hne].
    + rewrite <- Heq, Hc in Hph. simplify_eq. rewrite lookup_insert_eq. eexists. split; [done|].
      split; [done|]. destruct t; simpl; [by destruct st|exfalso; by apply Hw|done].
    + exists ph. by rewrite lookup_insert_ne.
  - unfold cleanup. destruct (need_unregister r); [by apply unregister_ok|done].
  - intros n c' ph [[<- [= <- _]]|[_ H]]%lookup_insert_Some; [done|by eapply Hname].
  - intros c' Hin. assert (Hin' : in_hub c' (gw_hub g) ∧ c' ≠ c).
    { unfold cleanup in Hin. destruct (need_unregister r) eqn:Hr.
      - apply in_hub_unregister in Hin as [Hin Hne]. split; [done|]. intros ->. by apply Hne.
      - split; [done|]. intros ->. destruct (Halive c Hin) as (ph & Hph & _ & Hk). rewrite Hc in Hph.
        simplify_eq. destruct r; done. }
    destruct Hin' as [Hin' Hne]. destruct (Halive c' Hin') as (ph & Hph & Ha). exists ph. split; [|done].
    rewrite lookup_insert_ne; [done|]. intros Heq. rewrite <- Heq, Hc in Hph. simplify_eq.
Qed.

(** C14. The hub never keeps a dead connection. Whatever the interleaving of
    connects, task endings and clean-ups, every connection found in the hub is
    one that was opened and has not been cleaned up, under its own user and
    platform, and it was not knocked off. *)
Theorem hub_has_no_dead_connection (s : Server) (c : Client)
    (Hreach : rtc conn_step server_start s) (Hin : in_hub c (gw_hub (sv_gateway s))) :
  ∃ ph, sv_conns s !! cl_sender c = Some (c, ph) ∧ ph ≠ Finished ∧ ph ≠ Ended KnockOff.
Proof.
  enough (server_inv s) as Hinv by (by apply (si_alive s Hinv)).
  assert (Hstart : server_inv server_start).
  { split; simpl; [intros u cs H; inversion H|by intros n c0 ph H; inversion H|].
    intros c0 (cs & H & _). inversion H. }
  clear Hin. revert Hstart. induction Hreach as [|x y z Hxy _ IH]; [done|].
  intros Hx. apply IH. by eapply conn_step_inv.
Qed.

Definition laptop : Client := mkClient 0 "alice" "laptop" Desktop.
Definition laptop2 : Client := mkClient 1 "alice" "laptop" Desktop.
Definition laptop_only : Server :=
  mkServer (register "alice" laptop (mkGateway ∅ [] [])) {[0 := (laptop, Running)]}.

Lemma hub_has_no_dead_connection_witness :
  ∃ ph, sv_conns laptop_only !! 0 = Some (laptop, ph) ∧ ph ≠ Finished ∧ ph ≠ Ended KnockOff.
Proof.
  apply (hub_has_no_dead_connection laptop_only laptop).
  - eapply rtc_l; [|apply rtc_refl]. exact (conn_open laptop (mkGateway ∅ [] []) ∅ eq_refl).
  - eexists. split; reflexivity.
Defined.

(** A live connection can fall out of the hub: when a client reconnects
    after its old connection ended but before that one was cleaned up, the
    clean-up removes the new connection, which is running, was never replaced,
    and whose user is now offline. *)
Theorem reconnect_race :
  ∃ s c, rtc conn_step server_start s ∧ sv_conns s !! cl_sender c = Some (c, Running)
    ∧ gw_hub (sv_gateway s) !! cl_user_id c = None.
Proof.
  eexists _, laptop2. split_and!.
  - eapply rtc_l; [exact (conn_open laptop (mkGateway ∅ [] []) ∅ eq_refl)|].
    eapply rtc_l; [apply (conn_end laptop ReceiveTask Active); [reflexivity|discriminate]|].
    eapply rtc_l; [apply (conn_open laptop2); reflexivity|].
    eapply rtc_l; [apply (conn_cleanup laptop ClientDisconnected); reflexivity|].
    apply rtc_refl.
  - reflexivity.
  - reflexivity.
Qed.

(** ** Admission to the hub *)

(** A connection is accepted for a user only with a token that decodes
    under the server's secret and names that very user, and the upgrade is
    offered only to requests that pass the limiter and carry the header. *)
Theorem websocket_admission (jwt_decode : string → string → JwtError + Claims)
    (ip user_id secret token : string) (now : Z) (hdr : option (option string)) (rl rl' : RateLimiter)
    (claims : Claims)
    (Hup : websocket_handler ip now hdr rl = (Upgraded token, rl'))
    (Hver : verify_token jwt_decode token user_id secret = Ok claims) :
  (check_rate ip now rl).1 = false ∧ (∃ h, hdr = Some h ∧ token = bearer (default ""%string h))
  ∧ jwt_decode token secret = inr claims ∧ sub claims = user_id.
Proof.
  unfold websocket_handler in Hup. destruct (check_rate ip now rl) as [lim rl1]. simpl.
  destruct lim; [done|]. destruct hdr as [h|]; [|done]. injection Hup as <- _.
  unfold verify_token in Hver. destruct (jwt_decode _ secret) as [[]|c]; try done.
  case_bool_decide; [done|]. simplify_eq. eauto 6.
Qed.

Lemma websocket_admission_witness :
  sub (mkClaims "alice" 0 0) = "alice"%string.
Proof.
  apply (websocket_admission (λ t _, if bool_decide (t = "tok"%string) then inr (mkClaims "alice" 0 0)
    else inl InvalidToken) "ip" "alice" "secret" "tok" 0 (Some (Some "Bearer tok"%string)) ∅
    (check_rate "ip" 0 ∅).2 (mkClaims "alice" 0 0)).
  - reflexivity.
  - reflexivity.
Defined.
