(* ===== verification/ConnTasks.v ===== *)
(** * The tasks of a WebSocket connection ([msg_gateway/src/ws_server.rs])

    [ConnectionTasks]: the ping, watch and receive tasks of one connection,
    the state they share, and [wait]; and the server made of such connections
    and the hub, which refines the life cycle of [WsServer]. A round of a task
    is one step, at a time in milliseconds. *)

From S2P Require Import Prelude Errors Types Tables World Config Gateway Discovery WsServer.

(** ** One connection *)

(** [ConnectionTasks], with the frames written to the socket and the messages
    handed to the manager. The ping task sleeps until the time given. *)
Record Conn : Type := mkConn {
  cn_last_activity : Z;
  cn_state : ConnectionState;
  cn_ping : option Z;
  cn_watch : bool;
  cn_receive : bool;
  cn_out : list WsReply;
  cn_hub : list Msg;
  cn_exit : option TaskExitReason
}.

(** [ConnectionTasks::new] *)
Definition tasks_new (now : Z) : Conn := mkConn now Active (Some now) true true [] [] None.

Definition set_state (st : ConnectionState) (c : Conn) : Conn :=
  mkConn (cn_last_activity c) st (cn_ping c) (cn_watch c) (cn_receive c) (cn_out c) (cn_hub c) (cn_exit c).
Definition set_ping (p : option Z) (c : Conn) : Conn :=
  mkConn (cn_last_activity c) (cn_state c) p (cn_watch c) (cn_receive c) (cn_out c) (cn_hub c) (cn_exit c).
Definition end_watch (c : Conn) : Conn :=
  mkConn (cn_last_activity c) (cn_state c) (cn_ping c) false (cn_receive c) (cn_out c) (cn_hub c) (cn_exit c).
Definition end_receive (c : Conn) : Conn :=
  mkConn (cn_last_activity c) (cn_state c) (cn_ping c) (cn_watch c) false (cn_out c) (cn_hub c) (cn_exit c).
Definition touch (now : Z) (c : Conn) : Conn :=
  mkConn now (cn_state c) (cn_ping c) (cn_watch c) (cn_receive c) (cn_out c) (cn_hub c) (cn_exit c).
Definition hand_over (l : list Msg) (c : Conn) : Conn :=
  mkConn (cn_last_activity c) (cn_state c) (cn_ping c) (cn_watch c) (cn_receive c) (cn_out c)
    (cn_hub c ++ l) (cn_exit c).

(** [shared_tx.write().await.send(..)]: a frame is written, or the send fails. *)
Definition emit (send_ok : bool) (l : list WsReply) (c : Conn) : Conn :=
  mkConn (cn_last_activity c) (cn_state c) (cn_ping c) (cn_watch c) (cn_receive c)
    (if send_ok then cn_out c ++ l else cn_out c) (cn_hub c) (cn_exit c).

(** One round of [create_ping_task]'s loop. *)
Definition ping_round (now : Z) (send_ok : bool) (c : Conn) : Conn :=
  let is_idle := bool_decide (MAX_IDLE_TIME < duration_since now (cn_last_activity c))%Z in
  if is_idle
  then set_ping None (emit send_ok [CloseFrame IDLE_TIMEOUT_CODE "Idle timeout"] (set_state Idle c))
  else if send_ok
  then set_ping (Some (now + HEART_BEAT_INTERVAL)%Z) (emit true [PingFrame] c)
  else set_ping None c.

(** [create_watch_task]: what [notify_receiver.recv()] answered. *)
Definition watch_task (notified : option unit) (send_ok : bool) (c : Conn) : Conn :=
  match notified with
  | None => end_watch (emit send_ok [CloseFrame KNOCK_OFF_CODE "knock off"] (set_state Closing c))
  | Some _ => end_watch c
  end.

Section tasks.
Context (from_json : string → option Msg) (decode_msg : bytes → option Msg).

(** One round of [create_receive_task]'s loop; [None]: the stream ended or
    answered an error. *)
Definition receive_round (now : Z) (send_ok hub_open : bool) (next : option WsMessage) (c : Conn) : Conn :=
  match next with
  | None => end_receive c
  | Some msg =>
      let c := touch now c in
      let c := if bool_decide (cn_state c = Idle) then set_state Active c else c in
      let '(replies, sent, goes_on) := receive from_json decode_msg send_ok hub_open msg in
      let c := hand_over (option_list sent) (emit send_ok replies c) in
      if goes_on then c else end_receive c
  end.

Definition task_ended (t : EndedTask) (c : Conn) : bool :=
  match t with
  | PingTask => bool_decide (cn_ping c = None)
  | WatchTask => negb (cn_watch c)
  | ReceiveTask => negb (cn_receive c)
  end.

(** [wait], once task [t] has ended: [abort_others] and the reason. *)
Definition wait (t : EndedTask) (c : Conn) : Conn :=
  mkConn (cn_last_activity c) (cn_state c) None false false (cn_out c) (cn_hub c)
    (Some (exit_reason t (cn_state c))).

Definition get_state (c : Conn) : ConnectionState := cn_state c.

(** ** Interleaving *)

Inductive Event : Type :=
| EvPing (send_ok : bool)
| EvWatch (notified : option unit) (send_ok : bool)
| EvReceive (send_ok hub_open : bool) (next : option WsMessage)
| EvWait (t : EndedTask).

(** A close frame is the last frame a WebSocket sends: later sends fail. *)
Definition is_close (r : WsReply) : bool := match r with CloseFrame _ _ => true | _ => false end.
Definition closed (c : Conn) : bool := existsb is_close (cn_out c).
Definition can_send (send_ok : bool) (c : Conn) : bool := negb send_ok || negb (closed c).

(** The next state, if the event can happen now. *)
Definition event (now : Z) (e : Event) (c : Conn) : option Conn :=
  match cn_exit c, e with
  | Some _, _ => None
  | None, EvPing ok =>
      match cn_ping c with
      | Some wake => if bool_decide (wake ≤ now)%Z && can_send ok c then Some (ping_round now ok c) else None
      | None => None
      end
  | None, EvWatch n ok =>
      if cn_watch c && can_send ok c then Some (watch_task n ok c) else None
  | None, EvReceive ok hub_open next =>
      if cn_receive c && can_send ok c then Some (receive_round now ok hub_open next c) else None
  | None, EvWait t => if task_ended t c then Some (wait t c) else None
  end.

(** Time passes, but a sleeping ping task is woken at most [latency] late. *)
Inductive timed (latency : Z) : Z * Conn → Z * Conn → Prop :=
| timed_event now e c c' :
    event now e c = Some c' → timed latency (now, c) (now, c')
| timed_tick now now' c :
    (now ≤ now')%Z → (∀ wake, cn_ping c = Some wake → now' ≤ wake + latency)%Z →
    timed latency (now, c) (now', c).
End tasks.

(** ** Timing *)

Section timing.
Context (from_json : string → option Msg) (decode_msg : bytes → option Msg) (latency : Z).

(** While the ping task sleeps, it was put to sleep by a round that saw recent
    activity, and time has not run past its alarm. *)
Definition ping_timely (s : Z * Conn) : Prop :=
  (cn_last_activity s.2 ≤ s.1)%Z
  ∧ ∀ wake, cn_ping s.2 = Some wake →
      (s.1 ≤ wake + latency ∧ wake ≤ s.1 + HEART_BEAT_INTERVAL
       ∧ wake ≤ cn_last_activity s.2 + MAX_IDLE_TIME + HEART_BEAT_INTERVAL)%Z.

Lemma receive_round_fields now ok open next c :
  let c' := receive_round from_json decode_msg now ok open next c in
  cn_ping c' = cn_ping c ∧ cn_watch c' = cn_watch c ∧ cn_exit c' = cn_exit c
  ∧ cn_last_activity c' = (match next with Some _ => now | None => cn_last_activity c end)
  ∧ (closed c' = closed c ∨ ok = true)
  ∧ ∃ l, cn_hub c' = cn_hub c ++ l.
Proof.
  unfold receive_round. destruct next as [m|]; cbn zeta;
    [|split_and!; try done; [by left|exists []; by rewrite app_nil_r]].
  destruct (receive from_json decode_msg ok open m) as [[replies sent] goes_on].
  unfold closed. destruct ok, goes_on; case_bool_decide; simpl; split_and!; eauto.
Qed.

(** What an event leaves of the ping task's clock. *)
Lemma event_timely now e c c' :
  (0 ≤ latency)%Z → ping_timely (now, c) → event from_json decode_msg now e c = Some c' →
  ping_timely (now, c').
Proof.
  unfold ping_timely, event. simpl. intros Hlat [Hact Hwake] Hev.
  destruct (cn_exit c); [done|].
  destruct e as [ok|n ok|ok open next|t]; repeat case_match; simplify_eq; simpl.
  - match goal with H : _ && _ = true |- _ => clear H end.
    unfold ping_round, duration_since, MAX_IDLE_TIME, HEART_BEAT_INTERVAL in *.
    destruct (bool_decide (300000 < _)%Z) eqn:Hidle; simpl; [by split|]. apply bool_decide_eq_false in Hidle.
    destruct ok; simpl; [|by split].
    split; [done|]. intros w [= <-]. lia.
  - destruct n; by split.
  - destruct (receive_round_fields now ok open next c) as (-> & _ & _ & -> & _).
    destruct next; [|by split]. split; [lia|]. intros wk Hk. specialize (Hwake wk Hk).
    unfold MAX_IDLE_TIME, HEART_BEAT_INTERVAL in *. lia.
  - by split.
Qed.

Lemma timed_timely s s' :
  (0 ≤ latency)%Z → ping_timely s → timed from_json decode_msg latency s s' → ping_timely s'.
Proof.
  intros Hlat Hs Hstep. destruct Hstep as [now e c c' Hev|now now' c Hle Hlate].
  - by eapply event_timely.
  - destruct Hs as [Hact Hwake]. split; simpl in *; [lia|]. intros w Hw.
    specialize (Hwake w Hw). specialize (Hlate w Hw). lia.
Qed.

Lemma tasks_new_timely now : (0 ≤ latency)%Z → ping_timely (now, tasks_new now).
Proof.
  intros. split; simpl; [done|]. intros w [= <-]. unfold MAX_IDLE_TIME, HEART_BEAT_INTERVAL. lia.
Qed.

Lemma reach_timely t0 s :
  (0 ≤ latency)%Z → rtc (timed from_json decode_msg latency) (t0, tasks_new t0) s → ping_timely s.
Proof.
  intros Hlat Hr. apply (rtc_ind_r (R := timed from_json decode_msg latency) (λ s, ping_timely s) (t0, tasks_new t0));
    [by apply tasks_new_timely| |done].
  intros y z _ Hyz Hy. by eapply timed_timely.
Qed.

(** Once an event of a connection that is closed has happened, it stays so,
    and its ping task is not put to sleep again. *)
Lemma event_closed now e c c' :
  closed c = true → event from_json decode_msg now e c = Some c' →
  closed c' = true ∧ (cn_ping c' = None ∨ cn_ping c' = cn_ping c).
Proof.
  intros Hcl. unfold event. destruct (cn_exit c); [done|].
  assert (Hsend : ∀ ok b, b && can_send ok c = true → ok = false).
  { intros ok b [_ Hok]%andb_prop. unfold can_send in Hok. rewrite Hcl in Hok. by destruct ok. }
  destruct e as [ok|n ok|ok open next|t]; intros Hev; repeat case_match; simplify_eq;
    try match goal with H : _ && _ = true |- _ => apply Hsend in H as -> end.
  - unfold ping_round. destruct (bool_decide _); simpl; auto.
  - unfold watch_task. destruct n; simpl; auto.
  - destruct (receive_round_fields now false open next c) as (-> & _ & _ & _ & [->|?] & _); [|done]. auto.
  - unfold wait. simpl. auto.
Qed.

(** While the ping task of a connection that was closed by the time [t1] is
    alive, its alarm is within a heart beat of [t1]. *)
Lemma closed_alarm s s' :
  closed s.2 = true → rtc (timed from_json decode_msg latency) s s' →
  closed s'.2 = true ∧ (cn_ping s'.2 = None ∨ cn_ping s'.2 = cn_ping s.2).
Proof.
  intros Hcl Hr. induction Hr as [s|s y s' Hy _ IH]; [by auto|].
  destruct Hy as [now e c c' Hev|now now' c Hle Hlate]; simpl in *; [|by apply IH].
  destruct (event_closed _ _ _ _ Hcl Hev) as [Hcl' Hp]. destruct (IH Hcl') as [? [?|?]]; [by auto|].
  split; [done|]. destruct Hp as [Hp|Hp]; [left|right]; congruence.
Qed.

(** C20. A silent connection does not live on. With timers at most [latency]
    late, a connection whose client has sent nothing for five and a half
    minutes and the latency is over, or its ping task has ended, so that
    [wait] can end it; and a connection that was sent a close frame gets there
    within one heart beat, whatever the client does. *)
Theorem silent_connection_ends (t0 t t1 : Z) (c c1 : Conn)
    (Hlat : (0 ≤ latency)%Z)
    (Hreach : rtc (timed from_json decode_msg latency) (t0, tasks_new t0) (t, c)) :
  ((cn_last_activity c + MAX_IDLE_TIME + HEART_BEAT_INTERVAL + latency < t)%Z →
     cn_exit c ≠ None ∨ event from_json decode_msg t (EvWait PingTask) c = Some (wait PingTask c))
  ∧ (closed c = true → rtc (timed from_json decode_msg latency) (t, c) (t1, c1) →
     (t + HEART_BEAT_INTERVAL + latency < t1)%Z →
     cn_exit c1 ≠ None ∨ event from_json decode_msg t1 (EvWait PingTask) c1 = Some (wait PingTask c1)).
Proof.
  assert (Hend : ∀ n d, cn_ping d = None →
    cn_exit d ≠ None ∨ event from_json decode_msg n (EvWait PingTask) d = Some (wait PingTask d)).
  { intros n d Hd. unfold event. destruct (cn_exit d); [by left|right]. simpl. by rewrite Hd. }
  destruct (reach_timely _ _ Hlat Hreach) as [_ Hw]. split.
  - intros Hlong. apply Hend. destruct (cn_ping c) as [w|] eqn:E; [|done]. specialize (Hw w E). simpl in *. lia.
  - intros Hcl Hr Hlong. apply Hend. destruct (closed_alarm (t, c) (t1, c1) Hcl Hr) as [_ [?|He]]; [done|]. simpl in He.
    assert (Hr1 : ping_timely (t1, c1)).
    { apply (reach_timely t0 _ Hlat). by etrans. }
    destruct Hr1 as [_ Hw1]. destruct (cn_ping c1) as [w|] eqn:E; [|done].
    specialize (Hw w (eq_sym He)). specialize (Hw1 w E). simpl in *. lia.
Qed.
End timing.

(** A client that sends what cannot be parsed, and then nothing. *)
Definition garbled : Conn := receive_round (λ _, None) (λ _, None) 1 true true (Some (Text "?")) (ping_round 0 true (tasks_new 0)).

Lemma silent_connection_ends_witness :
  event (λ _, None) (λ _, None) 30002 (EvWait PingTask) (ping_round 30000 false garbled)
  = Some (wait PingTask (ping_round 30000 false garbled)).
Proof.
  assert (Hstart : rtc (timed (λ _, None) (λ _, None) 0) (0%Z, tasks_new 0) (1%Z, garbled)).
  { eapply rtc_l; [apply (timed_event _ _ _ _ (EvPing true)); reflexivity|].
    eapply rtc_l; [apply (timed_tick _ _ _ _ 1); [lia|intros w Hw; vm_compute in Hw; injection Hw as <-; lia]|].
    eapply rtc_l; [apply (timed_event _ _ _ _ (EvReceive true true (Some (Text "?")))); reflexivity|].
    apply rtc_refl. }
  destruct (silent_connection_ends (λ _, None) (λ _, None) 0 0 1 30002 _ (ping_round 30000 false garbled) ltac:(done) Hstart)
    as [_ H].
  destruct H as [H|H]; [reflexivity| |unfold HEART_BEAT_INTERVAL; lia|by destruct H|exact H].
  eapply rtc_l; [apply (timed_tick _ _ _ _ 30000); [lia|intros w Hw; vm_compute in Hw; injection Hw as <-; lia]|].
  eapply rtc_l; [apply (timed_event _ _ _ _ (EvPing false)); reflexivity|].
  eapply rtc_l; [apply (timed_tick _ _ _ _ 30002); [lia|intros w Hw; vm_compute in Hw; discriminate]|]. apply rtc_refl.
Defined.

(** ** The receive loop *)

Section receiving.
Context (from_json : string → option Msg) (decode_msg : bytes → option Msg).

(** The message a frame carries: text and binary frames of at most a
    mebibyte that parse. *)
Definition payload (m : WsMessage) : option Msg :=
  match m with
  | Text s => if bool_decide (Z.of_nat (String.length s) ≤ MAX_MESSAGE_SIZE)%Z then from_json s else None
  | Binary b => if bool_decide (Z.of_nat (length b) ≤ MAX_MESSAGE_SIZE)%Z then decode_msg b else None
  | _ => None
  end.

(** What a frame is answered with. *)
Definition answer (m : WsMessage) : list WsReply :=
  match m with
  | Ping => [PongFrame]
  | Pong | CloseMessage => []
  | Text s => if bool_decide (Z.of_nat (String.length s) ≤ MAX_MESSAGE_SIZE)%Z
      then match from_json s with Some _ => [] | None => [CloseFrame INVALID_MESSAGE_FORMAT_CODE "Invalid message format"] end
      else [CloseFrame MESSAGE_TOO_LARGE_CODE "Message too large"]
  | Binary b => if bool_decide (Z.of_nat (length b) ≤ MAX_MESSAGE_SIZE)%Z
      then match decode_msg b with Some _ => [] | None => [CloseFrame INVALID_MESSAGE_FORMAT_CODE "Invalid message format"] end
      else [CloseFrame MESSAGE_TOO_LARGE_CODE "Message too large"]
  end.

Lemma receive_healthy m :
  m ≠ CloseMessage → receive from_json decode_msg true true m = (answer m, payload m, true).
Proof.
  intros Hm. unfold receive, answer, payload, parsed. destruct m as [s|b| | |]; try done;
    repeat case_bool_decide; try lia; try done; by case_match.
Qed.

Lemma receive_round_healthy now m c :
  m ≠ CloseMessage → cn_receive c = true →
  let c' := receive_round from_json decode_msg now true true (Some m) c in
  cn_receive c' = true ∧ cn_hub c' = cn_hub c ++ option_list (payload m)
  ∧ cn_out c' = cn_out c ++ answer m ∧ cn_last_activity c' = now.
Proof.
  intros Hm Hc. cbv zeta. unfold receive_round. rewrite (receive_healthy m Hm). by case_bool_decide.
Qed.

(** The loop over the frames of a stream, with the times they arrive. *)
Fixpoint receive_loop (frames : list (Z * WsMessage)) (c : Conn) : Conn :=
  match frames with
  | [] => c
  | (now, m) :: rest =>
      if cn_receive c
      then receive_loop rest (receive_round from_json decode_msg now true true (Some m) c)
      else c
  end.

(** The frames before the client's close frame. *)
Fixpoint until_close (frames : list (Z * WsMessage)) : list WsMessage :=
  match frames with
  | [] => []
  | (_, CloseMessage) :: _ => []
  | (_, m) :: rest => m :: until_close rest
  end.

(** The receive loop on a working connection: every message up to the
    client's close frame that parses and is not too large goes to the
    manager, once and in order, a message that is refused does not stop the
    ones after it, each ping gets its pong and each refusal its close code,
    and the connection counts as active at the last frame read. *)
Theorem receive_loop_functional (frames : list (Z * WsMessage)) (c : Conn)
    (Hrun : cn_receive c = true) :
  let c' := receive_loop frames c in
  cn_hub c' = cn_hub c ++ omap payload (until_close frames)
  ∧ cn_out c' = cn_out c ++ (until_close frames ≫= answer)
  ∧ (cn_receive c' = true ↔ CloseMessage ∉ frames.*2)
  ∧ (cn_receive c' = true → cn_last_activity c' = default (cn_last_activity c) (last frames.*1)).
Proof.
  cbv zeta. revert c Hrun. induction frames as [|[now m] frames IH]; intros c Hrun.
  { simpl. rewrite !app_nil_r. split_and!; try done. split; [|done]. intros _. apply not_elem_of_nil. }
  cbn [receive_loop]. rewrite Hrun.
  assert (m = CloseMessage ∨ m ≠ CloseMessage) as [->|Hm] by (destruct m; auto).
  - assert (Hstop : ∀ d, cn_receive d = false → receive_loop frames d = d).
    { intros d Hd. destruct frames as [|[? ?] ?]; [done|]. simpl. by rewrite Hd. }
    rewrite Hstop by done.
    unfold receive_round. simpl. case_bool_decide; simpl; rewrite !app_nil_r;
      split_and!; try done; set_solver.
  - assert (Huntil : until_close ((now, m) :: frames) = m :: until_close frames) by (by destruct m).
    destruct (receive_round_healthy now m c Hm Hrun) as (Hr & Hh & Ho & Ha).
    destruct (IH _ Hr) as (-> & -> & Hiff & Hact). rewrite Hh, Ho, <- !app_assoc. split_and!.
    + rewrite Huntil. simpl. by destruct (payload m).
    + by rewrite Huntil.
    + rewrite Hiff. simpl. rewrite not_elem_of_cons. naive_solver.
    + intros Hc. rewrite Hact, Ha by done. cbn [fmap list_fmap fst]. rewrite last_cons. by destruct (last frames.*1).
Qed.
End receiving.

(** ** The server *)

(** The server with its connections: the client a socket belongs to, its
    tasks, and whether [websocket] has returned. *)
Record TServer : Type := mkTServer {
  ts_gateway : Gateway;
  ts_conns : gmap nat (Client * Conn * bool)
}.

Section server.
Context (jwt_decode : string → string → JwtError + Claims) (jwt_secret : string).
Context (from_json : string → option Msg) (decode_msg : bytes → option Msg).

(** [WsServer::websocket] up to [wait]: a refused token is answered with a
    close frame; otherwise the client is registered and its tasks start. *)
Definition websocket (user_id device_id token : string) (platform : PlatformType) (socket : nat) (now : Z)
    (s : TServer) : option WsReply * TServer :=
  match verify_token jwt_decode token user_id jwt_secret with
  | Ok _ =>
      let client := mkClient socket user_id device_id platform in
      (None, mkTServer (register user_id client (ts_gateway s))
               (<[socket := (client, tasks_new now, false)]> (ts_conns s)))
  | Err err => (Some (CloseFrame UNAUTHORIZED_CODE ("Authentication failed: " +:+ error_to_string err)), s)
  | _ => (None, s)
  end.

(** The messages an event hands over go to the manager's channel. *)
Definition handed (c c' : Conn) : list Msg := drop (length (cn_hub c)) (cn_hub c').

(** The notification channel of a client closes when the hub drops the client;
    nothing is ever sent on it. *)
Definition notify_ok (client : Client) (h : Hub) (e : Event) : Prop :=
  match e with
  | EvWatch None _ => ¬ in_hub client h
  | EvWatch (Some _) _ => False
  | _ => True
  end.

Inductive tserver_step : TServer → TServer → Prop :=
| ts_open user_id device_id token platform socket now s :
    ts_conns s !! socket = None →
    tserver_step s (websocket user_id device_id token platform socket now s).2
| ts_event now e client c c' g conns :
    conns !! cl_sender client = Some (client, c, false) →
    notify_ok client (gw_hub g) e →
    event from_json decode_msg now e c = Some c' →
    tserver_step (mkTServer g conns)
      (mkTServer (foldl (λ g m, broadcast m g) g (handed c c'))
         (<[cl_sender client := (client, c', false)]> conns))
| ts_manager g g' conns :
    (* a round of the manager, or a push: the hub stays *)
    gw_hub g' = gw_hub g → tserver_step (mkTServer g conns) (mkTServer g' conns)
| ts_return client c r g conns :
    conns !! cl_sender client = Some (client, c, false) →
    cn_exit c = Some r →
    tserver_step (mkTServer g conns)
      (mkTServer (cleanup client r g) (<[cl_sender client := (client, c, true)]> conns)).

Definition tserver_start : TServer := mkTServer (mkGateway ∅ [] []) ∅.

(** ** Refinement of the life cycle *)

Definition phase_of (x : Client * Conn * bool) : Client * Phase :=
  (x.1.1, if x.2 then Finished else match cn_exit x.1.2 with Some r => Ended r | None => Running end).
Definition abs_gateway (g : Gateway) : Gateway := mkGateway (gw_hub g) [] [].
Definition abs (s : TServer) : Server := mkServer (abs_gateway (ts_gateway s)) (phase_of <$> ts_conns s).

(** What the tasks know of the hub, and the hub of the tokens. *)
Record tserver_inv (s : TServer) : Prop := {
  ti_name : ∀ n x, ts_conns s !! n = Some x → cl_sender x.1.1 = n;
  ti_conn : ∀ c, in_hub c (gw_hub (ts_gateway s)) → is_Some (ts_conns s !! cl_sender c);
  ti_watch : ∀ n client c, ts_conns s !! n = Some (client, c, false) →
      cn_exit c = None → cn_watch c = false → ¬ in_hub client (gw_hub (ts_gateway s));
  ti_token : ∀ c, in_hub c (gw_hub (ts_gateway s)) →
      ∃ token claims, jwt_decode token jwt_secret = inr claims ∧ sub claims = cl_user_id c
}.

Lemma hub_broadcasts l : ∀ g, gw_hub (foldl (λ g m, broadcast m g) g l) = gw_hub g.
Proof. induction l as [|m l IH]; intros g; [done|]. simpl. by rewrite IH. Qed.

Lemma abs_register u c g : abs_gateway (register u c g) = register u c (abs_gateway g).
Proof. done. Qed.

Lemma abs_cleanup c r g : abs_gateway (cleanup c r g) = cleanup c r (abs_gateway g).
Proof. unfold cleanup, unregister, abs_gateway. simpl. by repeat case_match. Qed.

(** Before [wait] only an event of the watch task ends it, and that one needs
    the client to be out of the hub; [wait] returns what [exit_reason] says. *)
Lemma event_watch now e client c c' h :
  notify_ok client h e → event from_json decode_msg now e c = Some c' →
  cn_exit c = None
  ∧ ((cn_exit c' = None ∧ (cn_watch c' = false → cn_watch c = false ∨ ¬ in_hub client h))
     ∨ ∃ t, cn_exit c' = Some (exit_reason t (cn_state c)) ∧ task_ended t c = true).
Proof.
  intros Hn Hev. unfold event in Hev. destruct (cn_exit c) eqn:Hx; [done|]. split; [done|].
  destruct e as [ok|n ok|ok open next|t]; repeat case_match; simplify_eq.
  - left. unfold ping_round. by repeat case_bool_decide; simpl; auto; case_match; auto.
  - left. destruct n; [done|]. simpl in *. auto.
  - left. destruct (receive_round_fields from_json decode_msg now ok open next c) as (_ & -> & -> & _). auto.
  - right. exists t. by split.
Qed.

Lemma in_hub_cleanup c r client g : in_hub c (gw_hub (cleanup client r g)) → in_hub c (gw_hub g).
Proof.
  unfold cleanup. destruct (need_unregister r); [|done]. by intros [H _]%in_hub_unregister.
Qed.

Lemma verify_token_sub token u cl :
  verify_token jwt_decode token u jwt_secret = Ok cl →
  jwt_decode token jwt_secret = inr cl ∧ sub cl = u.
Proof.
  unfold verify_token. destruct (jwt_decode _ _) as [[]|c]; try done.
  case_bool_decide as Hs; [done|]. intros [= ->]. split; [done|]. by destruct (decide (sub cl = u)).
Qed.

Lemma open_inv u d token p k now s :
  ts_conns s !! k = None → tserver_inv s → tserver_inv (websocket u d token p k now s).2.
Proof.
  intros Hk Hs. unfold websocket. destruct (verify_token _ _ _ _) as [cl|e| |] eqn:Hv; [|done..].
  apply verify_token_sub in Hv as [Hd Hu]. destruct Hs as [Hname Hconn Hwatch Htok].
  set (client := mkClient k u d p). split; simpl.
  - intros n x [[<- <-]|[_ Hl]]%lookup_insert_Some; [done|by apply Hname].
  - intros c [->|Hin]%(in_hub_register client); [by rewrite lookup_insert_eq; eauto|].
    apply lookup_insert_is_Some'. right. by apply Hconn.
  - intros n cl' c [[<- [= <- <-]]|[Hne Hl]]%lookup_insert_Some Hx Hw; [done|].
    intros [->|Hin]%(in_hub_register client); [|by eapply Hwatch]. by apply Hname in Hl.
  - intros c [->|Hin]%(in_hub_register client); [by exists token, cl|by apply Htok].
Qed.

Lemma tserver_step_inv s s' : tserver_inv s → tserver_step s s' → tserver_inv s'.
Proof.
  intros Hs Hstep. pose proof Hs as [Hname Hconn Hwatch Htok].
  destruct Hstep as [u d token p k now s Hk|now e client c c' g conns Hc Hn Hev|g g' conns Hg|client c r g conns Hc Hx];
    [by apply open_inv|..]; simpl in *.
  - split; simpl; rewrite ?hub_broadcasts; try done.
    + intros n x [[<- <-]|[_ Hl]]%lookup_insert_Some; [done|by apply Hname].
    + intros c0 Hin. apply lookup_insert_is_Some'. right. by apply Hconn.
    + intros n cl c0 [[<- [= <- <-]]|[_ Hl]]%lookup_insert_Some Hx Hw; [|by eapply Hwatch].
      destruct (event_watch _ _ _ _ _ _ Hn Hev) as [Hx0 [[_ H]|(t & Ht & _)]]; [|congruence].
      destruct (H Hw) as [Hw0|?]; [by eapply Hwatch|done].
  - split; simpl; rewrite ?Hg; try done.
  - split; simpl.
    + intros n x [[<- <-]|[_ Hl]]%lookup_insert_Some; [done|by apply Hname].
    + intros c0 Hin%in_hub_cleanup. apply lookup_insert_is_Some'. right. by apply Hconn.
    + intros n cl c0 [[? ?]|[_ Hl]]%lookup_insert_Some Hx0 Hw; [done|].
      intros Hin%in_hub_cleanup. by eapply Hwatch.
    + intros c0 Hin%in_hub_cleanup. by apply Htok.
Qed.

Lemma tserver_start_inv : tserver_inv tserver_start.
Proof.
  split; simpl; [by intros n x H|by intros c (cs & H & _)|by intros n cl c H|by intros c (cs & H & _)].
Qed.

(** Each step of the tasks is a step of the life cycle, or none. *)
Lemma tserver_simulates s s' :
  tserver_inv s → tserver_step s s' → rtc conn_step (abs s) (abs s').
Proof.
  intros Hs Hstep. pose proof Hs as [Hname Hconn Hwatch Htok].
  destruct Hstep as [u d token p k now s Hk|now e client c c' g conns Hc Hn Hev|g g' conns Hg|client c r g conns Hc Hx];
    unfold abs; simpl in *.
  - unfold websocket. destruct (verify_token _ _ _ _) as [cl|e| |]; [|done..]. simpl.
    rewrite fmap_insert. apply rtc_once. apply (conn_open (mkClient k u d p)). simpl.
    by rewrite lookup_fmap, Hk.
  - assert (Hg : abs_gateway (foldl (λ g m, broadcast m g) g (handed c c')) = abs_gateway g)
      by (unfold abs_gateway; by rewrite hub_broadcasts).
    rewrite Hg, fmap_insert.
    destruct (event_watch _ _ _ _ _ _ Hn Hev) as [Hx0 [[Hx _]|(t & Hx & Ht)]]; unfold phase_of at 2; simpl; rewrite Hx.
    + rewrite insert_id; [done|]. rewrite lookup_fmap, Hc. unfold phase_of; simpl. by rewrite Hx0.
    + apply rtc_once. apply conn_end.
      * rewrite lookup_fmap, Hc. unfold phase_of; simpl. by rewrite Hx0.
      * intros ->. simpl in *. eapply Hwatch; [exact Hc|done|by destruct (cn_watch c)].
  - unfold abs_gateway. by rewrite Hg.
  - rewrite fmap_insert, abs_cleanup. apply rtc_once. unfold phase_of at 2; simpl. apply conn_cleanup.
    rewrite lookup_fmap, Hc. unfold phase_of; simpl. by rewrite Hx.
Qed.

Lemma tserver_reach s :
  rtc tserver_step tserver_start s → tserver_inv s ∧ rtc conn_step server_start (abs s).
Proof.
  intros Hr. apply (rtc_ind_r (R := tserver_step) (λ s, tserver_inv s ∧ rtc conn_step server_start (abs s)) tserver_start); [| |done].
  - split; [apply tserver_start_inv|]. unfold abs. simpl. by rewrite fmap_empty.
  - intros y z _ Hyz [Hy Hyr]. split; [by eapply tserver_step_inv|].
    etrans; [exact Hyr|by apply tserver_simulates].
Qed.

(** C19. The server with its tasks refines the life cycle of a connection:
    whatever the interleaving of the ping, watch and receive tasks of all
    connections, of [wait], of the manager and of new connections, the phases
    of the connections and the hub go through steps of the life cycle. In
    particular the hub lists only connections that are not over, and each of
    them presented a token that decodes under the secret and names its user. *)
Theorem tasks_refine_life_cycle (s : TServer) (Hreach : rtc tserver_step tserver_start s) :
  rtc conn_step server_start (abs s)
  ∧ ∀ c, in_hub c (gw_hub (ts_gateway s)) →
      (∃ x, ts_conns s !! cl_sender c = Some x)
      ∧ ∃ token claims, jwt_decode token jwt_secret = inr claims ∧ sub claims = cl_user_id c.
Proof.
  destruct (tserver_reach s Hreach) as [[Hname Hconn Hwatch Htok] Hr]. split; [done|].
  intros c Hin. split; [by apply Hconn|by apply Htok].
Qed.
End server.

Definition any_token (token secret : string) : JwtError + Claims := inr (mkClaims "alice" 0 0).
Definition one_open : TServer :=
  (websocket any_token "secret" "alice" "laptop" "token" Desktop 0 0 tserver_start).2.

Lemma tasks_refine_life_cycle_witness :
  rtc conn_step server_start (abs one_open)
  ∧ ∃ token claims, any_token token "secret" = inr claims ∧ sub claims = "alice"%string.
Proof.
  destruct (tasks_refine_life_cycle any_token "secret" (λ _, None) (λ _, None) one_open) as [H1 H2].
  - eapply rtc_l; [|apply rtc_refl]. apply ts_open. reflexivity.
  - split; [exact H1|]. apply (H2 laptop). eexists. split; reflexivity.
Defined.

(** ** Registration and the list of clients *)

(** [WsServer::register_service]: the address of the service centre must be a
    URI and answer, and it must take the registration; only the host name's
    error is returned. *)
Definition ws_register_service (scheme_i32 : string → Z) (host_name : outcome Error string)
    (from_shared : string → bool) (connect register : outcome Error unit) (config : Config)
    : outcome Error ServiceInstance :=
  let sc := cfg_service_center config in
  let ws := cfg_websocket config in
  if negb (from_shared (sce_protocol sc +:+ "://" +:+ host_port (sce_host sc) (sce_port sc))%string)
  then Panic else
  match connect with
  | Ok _ =>
      match host_name with
      | Ok h =>
          let service := mkServiceInstance (h +:+ "-" +:+ wsc_name ws)%string (wsc_name ws) (wsc_host ws)
            (wsc_port ws) (wsc_tags ws) None (scheme_i32 (rsc_protocol (rpc_db (cfg_rpc config)))) in
          match register with Ok _ => Ok service | Hang => Hang | _ => Panic end
      | Err e => Err e | Panic => Panic | Hang => Hang
      end
  | Hang => Hang
  | _ => Panic
  end.

Definition platform_debug (p : PlatformType) : string :=
  match p with Desktop => "Desktop" | Mobile => "Mobile" end.

Definition newline : string := String (Ascii.ascii_of_nat 10) "".

(** [test]: the users of the hub with their connections, in the map's order. *)
Definition describe_client (x : PlatformType * Client) : string :=
  ("  Platform: " +:+ platform_debug x.1 +:+ ", PlatformID: " +:+ cl_platform_id x.2 +:+ newline)%string.
Definition describe_user (x : string * Clients) : string :=
  ("UserID: " +:+ x.1 +:+ newline +:+ String.concat "" (describe_client <$> map_to_list x.2))%string.
Definition test (h : Hub) : string := String.concat "" (describe_user <$> map_to_list h).

(** The websocket service is registered under its own name, address and port,
    but with the scheme of the database service, not its own. *)
Theorem ws_registered_as (scheme_i32 : string → Z) (host_name : outcome Error string)
    (from_shared : string → bool) (connect register : outcome Error unit) (config : Config)
    (i : ServiceInstance)
    (Hreg : ws_register_service scheme_i32 host_name from_shared connect register config = Ok i) :
  Discovery.si_name i = wsc_name (cfg_websocket config)
  ∧ host_port (si_address i) (si_port i) = ws_rpc_server_url (cfg_websocket config)
  ∧ si_scheme i = scheme_i32 (rsc_protocol (rpc_db (cfg_rpc config)))
  ∧ si_health_check i = None
  ∧ ∃ h, host_name = Ok h ∧ si_id i = (h +:+ "-" +:+ Discovery.si_name i)%string.
Proof.
  unfold ws_register_service in Hreg. cbv zeta in Hreg. case_match; [done|].
  destruct connect, host_name, register; simplify_eq. simpl. by eauto 7.
Qed.
