(* ===== verification/GroupStore.v ===== *)
(** * The group store ([db/src/postgres/group.rs])

    Membership: who may invite, remove, mute and promote whom, and what the
    statements do to the member table. A statement runs alone and atomically;
    [chrono::Utc::now] and the server's [now()] are the clock. *)

From S2P Require Import Prelude Errors Types Tables World Sql Records.

(** The users of a group: [SELECT user_id FROM group_members WHERE group_id = $1] *)
Definition members_of (p : Pg) (gid : string) : list string :=
  (λ x : (string * string) * MemberRow, x.1.2)
    <$> filter (λ x : (string * string) * MemberRow, x.1.1 = gid) (map_to_list (t_members p)).

Definition query_group_members_id_db (group_id : string) : IO (list string) :=
  pg_query (λ p, Some (members_of p group_id)).

Lemma elem_of_members_of p gid u : u ∈ members_of p gid ↔ is_Some (t_members p !! (gid, u)).
Proof.
  unfold members_of. rewrite list_elem_of_fmap. split.
  - intros ([[g v] row] & -> & [Hg H]%list_elem_of_filter). simpl in *. subst.
    apply elem_of_map_to_list in H. by eexists.
  - intros [row H]. exists ((gid, u), row). split; [done|].
    apply list_elem_of_filter. split; [done|]. by apply elem_of_map_to_list.
Qed.

Lemma NoDup_members_of p gid : NoDup (members_of p gid).
Proof.
  unfold members_of. apply NoDup_fmap_2_strong.
  - intros [[g u] row] [[g' u'] row'] [Hg H]%list_elem_of_filter [Hg' H']%list_elem_of_filter Heq.
    simpl in *. subst. apply elem_of_map_to_list in H, H'. congruence.
  - apply NoDup_filter, NoDup_map_to_list.
Qed.

(** ** Membership *)

Definition role_of (p : Pg) (gid u : string) : option GroupRole :=
  m_role <$> t_members p !! (gid, u).

(** Comparison of role labels as text, in SQL and in Rust alike: alphabetical. *)
Definition text_le (r1 r2 : GroupRole) : bool := String.leb (role_text r1) (role_text r2).

Definition is_manager (r : GroupRole) : bool :=
  match r with Owner | Admin => true | Member => false end.

(** [SELECT EXISTS (.. AND (role = 'Admin' OR role = 'Owner'))] *)
Definition manages (p : Pg) (gid u : string) : bool :=
  match role_of p gid u with Some r => is_manager r | None => false end.

(** The member rows an invitation inserts, for the listed users that exist;
    existing members keep their row ([ON CONFLICT DO NOTHING]). *)
Definition invited_row (p : Pg) (now : Z) (inviter u : string) : option MemberRow :=
  usr ← t_users p !! u;
  Some (mkMemberRow (u_name usr) Member now false "all" now 0 inviter).

Definition insert_invited (p : Pg) (now : Z) (gid inviter : string) (users : list string)
    (t : gmap (string * string) MemberRow) : gmap (string * string) MemberRow :=
  foldl (λ t u,
    match t !! (gid, u), invited_row p now inviter u with
    | None, Some row => <[(gid, u) := row]> t
    | _, _ => t
    end) t users.

Definition invite_new_members (group_id user_id : string) (members : list string) : IO unit :=
  user_has_permission ← pg_query (λ p, Some (
    match role_of p group_id user_id, t_groups p !! group_id with
    | Some r, Some g => text_le r (g_invite_permission g)
    | _, _ => false
    end));
  if negb user_has_permission
  then throw (unauthorized_with_details "user doesn't have permission to invite")
  else
    now ← now_ms;
    pg_exec (λ p, Some (tt, upd_members (insert_invited p now group_id user_id members) p)).

(** One statement: the listed members go if the caller manages the group; mute
    records go with their member ([ON DELETE CASCADE]). *)
Definition drop_members (gid : string) (gone : string → bool) (p : Pg) : Pg :=
  upd_mutes (filter (λ x : string * MuteRow, ¬ (mu_group_id x.2 = gid ∧ gone (mu_user_id x.2) = true)))
    (upd_members (filter (λ x : (string * string) * MemberRow,
                    ¬ (x.1.1 = gid ∧ gone x.1.2 = true))) p).

Definition remove_member (group_id user_id : string) (mem_ids : list string) : IO unit :=
  pg_exec (λ p, Some (tt,
    if manages p group_id user_id
    then drop_members group_id (λ u, bool_decide (u ∈ mem_ids)) p else p)).

Definition exit_group (user_id group_id : string) : IO unit :=
  is_owner ← pg_query (λ p, Some (bool_decide (role_of p group_id user_id = Some Owner)));
  if (is_owner : bool)
  then throw (unauthorized_with_details "Owner cannot exit group. Transfer ownership first")
  else pg_exec (λ p, Some (tt, drop_members group_id (λ u, bool_decide (u = user_id)) p)).

(** ** Muting *)

Definition set_muted (b : bool) (gid u : string) (p : Pg) : Pg :=
  upd_members (alter (λ m, mkMemberRow (m_group_name m) (m_role m) (m_joined_at m) b
    (m_notification_level m) (m_last_read_time m) (m_display_order m) (m_joined_by m)) (gid, u)) p.

Section mute.
Context (nanoid : nat → string).

Definition mute_group_member (group_id user_id operator_id : string) (mute_until : Z)
    (reason : option string) : IO GroupMuteRecord :=
  has_permission ← pg_query (λ p, Some (manages p group_id operator_id));
  if negb has_permission
  then throw (unauthorized_with_details "No permission to mute members")
  else
    target_role ← pg_query (λ p, role_of p group_id user_id);
    operator_role ← pg_query (λ p, role_of p group_id operator_id);
    if text_le target_role operator_role && bool_decide (target_role ≠ Member)
    then throw (unauthorized_with_details "Cannot mute higher or equal role")
    else
      now ← now_ms;
      id ← draw_nanoid nanoid;
      record ← exec_one mute_from_row (λ p,
        (* the primary key, and the foreign key on the member *)
        if bool_decide (t_mutes p !! id = None) && bool_decide (is_Some (t_members p !! (group_id, user_id)))
        then let r := mkMute group_id user_id operator_id mute_until reason now in
             Some ([mute_cells id r], upd_mutes (insert id r) p)
        else None);
      pg_exec (λ p, Some (tt, set_muted true group_id user_id p)) ;;
      mret record.
End mute.

Definition unmute_group_member (group_id user_id operator_id : string) : IO unit :=
  has_permission ← pg_query (λ p, Some (manages p group_id operator_id));
  if negb has_permission
  then throw (unauthorized_with_details "No permission to unmute members")
  else
    now ← now_ms;
    pg_exec (λ p, Some (tt, upd_mutes (fmap (λ r,
      if bool_decide (mu_group_id r = group_id) && bool_decide (mu_user_id r = user_id)
         && (now <? mu_mute_until r)%Z
      then mkMute (mu_group_id r) (mu_user_id r) (mu_operator_id r) now (mu_reason r) (mu_created_at r)
      else r)) p)) ;;
    pg_exec (λ p, Some (tt, set_muted false group_id user_id p)).

(** ** Roles *)

(** The update is committed by the statement itself; the row is decoded after it. *)
Definition change_member_role (group_id user_id target_id new_role : string) : IO GroupMember :=
  operator_role ← pg_query (λ p, role_of p group_id user_id);
  if bool_decide (operator_role ≠ Owner)
     && (bool_decide (operator_role ≠ Admin) || bool_decide (new_role = "Owner"%string))
  then throw (unauthorized_with_details "Insufficient permissions for role change")
  else
    member ← pg_exec (λ p,
      role ← role_of_text new_role;
      m ← t_members p !! (group_id, target_id);
      let m' := mkMemberRow (m_group_name m) role (m_joined_at m) (m_is_muted m)
                  (m_notification_level m) (m_last_read_time m) (m_display_order m) (m_joined_by m) in
      Some (m', upd_members (insert (group_id, target_id) m') p));
    decoded (fetch_one member_from_row [member_cells group_id target_id member]).

(** ** Properties *)

Lemma invite_run gid u us w r g :
  healthy w → role_of (w_pg w) gid u = Some r → t_groups (w_pg w) !! gid = Some g →
  invite_new_members gid u us w
  = if text_le r (g_invite_permission g)
    then (Ok tt, upd_pg (λ p, upd_members (insert_invited p (w_clock w) gid u us) p) w)
    else (Err (unauthorized_with_details "user doesn't have permission to invite"), w).
Proof.
  intros Hnet Hr Hg. unfold invite_new_members.
  erewrite bind_ok by (apply pg_query_run; [done|by rewrite Hr, Hg]).
  destruct (text_le _ _); simpl; [|done]. erewrite bind_ok by done.
  by erewrite pg_exec_healthy by done.
Qed.

Lemma insert_invited_keeps p now gid inviter us k : ∀ t,
  is_Some (t !! k) → is_Some (insert_invited p now gid inviter us t !! k).
Proof.
  unfold insert_invited. induction us as [|u us IH]; intros t Ht; [done|]. simpl. apply IH.
  destruct (t !! (gid, u)) eqn:E; [done|]. destruct (invited_row p _ _ _); [|done].
  rewrite lookup_insert. case_decide; [done|exact Ht].
Qed.

(** The invite permission orders roles alphabetically. With the permission
    set to Admin, the default, exactly the admins may invite and the owner is
    refused; set to Owner it lets everybody invite; set to Member it lets
    everybody but the owner. A refusal changes nothing. *)
Theorem invite_permission_alphabetical (gid u : string) (us : list string) (w : World)
    (r : GroupRole) (g : GroupRow)
    (Hnet : healthy w) (Hrole : role_of (w_pg w) gid u = Some r)
    (Hgroup : t_groups (w_pg w) !! gid = Some g) :
  ((invite_new_members gid u us w).1 = Ok tt
   ↔ match g_invite_permission g with
     | Admin => r = Admin
     | Owner => True
     | Member => r ≠ Owner
     end)
  ∧ ((invite_new_members gid u us w).1 ≠ Ok tt → (invite_new_members gid u us w).2 = w).
Proof.
  rewrite (invite_run gid u us w r g) by done.
  destruct (g_invite_permission g), r; simpl; split; try split; done.
Qed.

(** A group whose owner is alice, with bob as an admin and carol as a member. *)
Definition club : Pg :=
  upd_groups (λ _, {["g"%string := mkGroupRow "alice" "" "" "" "" 0 0 500 true false None None false false Admin None]})
    (upd_members (λ _,
      {[("g"%string, "alice"%string) := mkMemberRow "" Owner 0 false "" 0 0 "";
        ("g"%string, "bob"%string) := mkMemberRow "" Admin 0 false "" 0 0 "";
        ("g"%string, "carol"%string) := mkMemberRow "" Member 0 false "" 0 0 ""]}) pg_empty).
Definition club_world : World := upd_pg (λ _, club) world_empty.

Lemma invite_permission_alphabetical_witness :
  (invite_new_members "g" "alice" ["dave"%string] club_world).1 ≠ Ok tt.
Proof.
  rewrite (proj1 (invite_permission_alphabetical "g" "alice" ["dave"%string] club_world Owner
    (mkGroupRow "alice" "" "" "" "" 0 0 500 true false None None false false Admin None)
    eq_refl eq_refl eq_refl)). discriminate.
Defined.

(** Muting orders roles alphabetically too: an admin may mute the owner, who
    is then muted, and the owner may not mute an admin. *)
Theorem mute_order_inverted (nanoid : nat → string) (gid op target : string) (until : Z)
    (reason : option string) (w : World)
    (Hnet : healthy w) (Hnew : t_mutes (w_pg w) !! nanoid (w_ids w) = None) :
  (role_of (w_pg w) gid op = Some Admin → role_of (w_pg w) gid target = Some Owner →
     ∃ rec w', mute_group_member nanoid gid target op until reason w = (Ok rec, w')
       ∧ m_is_muted <$> t_members (w_pg w') !! (gid, target) = Some true)
  ∧ (role_of (w_pg w) gid op = Some Owner → role_of (w_pg w) gid target = Some Admin →
     mute_group_member nanoid gid target op until reason w
     = (Err (unauthorized_with_details "Cannot mute higher or equal role"), w)).
Proof.
  split; intros Ho Ht; unfold mute_group_member;
    erewrite bind_ok by (apply pg_query_run; [done|by unfold manages; rewrite Ho]); simpl;
    (erewrite bind_ok by (by apply pg_query_run)); (erewrite bind_ok by (by apply pg_query_run)); simpl.
  - erewrite bind_ok by done. erewrite bind_ok by done.
    destruct (t_members (w_pg w) !! (gid, target)) as [m|] eqn:Hm; [|by unfold role_of in Ht; rewrite Hm in Ht].
    erewrite bind_ok.
    2:{ etrans.
        { eapply bind_ok, pg_exec_healthy; [done|]. simpl. rewrite bool_decide_eq_true_2 by done.
          rewrite bool_decide_eq_true_2 by (by rewrite Hm). reflexivity. }
        reflexivity. }
    erewrite bind_ok by (by apply pg_exec_healthy).
    do 2 eexists. split; [reflexivity|]. simpl. by rewrite lookup_alter_eq, Hm.
  - done.
Qed.

Lemma mute_order_inverted_witness :
  mute_group_member (λ _, "id"%string) "g" "bob" "alice" 5 None club_world
  = (Err (unauthorized_with_details "Cannot mute higher or equal role"), club_world).
Proof.
  apply (mute_order_inverted (λ _, "id"%string) "g" "alice" "bob" 5 None club_world eq_refl eq_refl);
    reflexivity.
Defined.

(** An admin can demote the owner, and the call reports a database error
    although the change is committed: the returned row lacks the user columns
    its decoding asks for. *)
Theorem admin_demotes_owner (gid admin owner : string) (w : World)
    (Hnet : healthy w) (Hadmin : role_of (w_pg w) gid admin = Some Admin)
    (Howner : role_of (w_pg w) gid owner = Some Owner) :
  ∃ w', change_member_role gid admin owner "Member" w = (Err pg_error, w')
    ∧ role_of (w_pg w') gid owner = Some Member
    ∧ (∀ u, u ≠ owner → role_of (w_pg w') gid u = role_of (w_pg w) gid u).
Proof.
  unfold change_member_role. erewrite bind_ok by (by apply pg_query_run). simpl.
  unfold role_of in Howner. destruct (t_members (w_pg w) !! (gid, owner)) as [m|] eqn:Hm; [|done].
  erewrite bind_ok by (apply pg_exec_healthy; [done|]; by rewrite Hm).
  eexists. split_and!; [reflexivity| |]; unfold role_of; simpl.
  - by rewrite lookup_insert_eq.
  - intros u Hu. by rewrite lookup_insert_ne by congruence.
Qed.

Lemma admin_demotes_owner_witness :
  ∃ w', change_member_role "g" "bob" "alice" "Member" club_world = (Err pg_error, w')
    ∧ role_of (w_pg w') "g" "alice" = Some Member.
Proof.
  destruct (admin_demotes_owner "g" "bob" "alice" club_world eq_refl eq_refl eq_refl) as (w' & H1 & H2 & _).
  exists w'. split; [exact H1|exact H2].
Defined.

(** Removing members through the API of the store takes effect exactly for
    callers who manage the group: the listed members disappear together with
    their mute records, everybody else stays; for any other caller nothing
    changes, yet both report success. *)
Theorem remove_member_functional (gid caller : string) (ids : list string) (w : World) (Hnet : healthy w) :
  ∃ w', remove_member gid caller ids w = (Ok tt, w')
    ∧ (∀ g u, t_members (w_pg w') !! (g, u)
         = if bool_decide (g = gid) && bool_decide (u ∈ ids) && manages (w_pg w) gid caller
           then None else t_members (w_pg w) !! (g, u)).
Proof.
  unfold remove_member. erewrite pg_exec_healthy by done. eexists. split; [done|].
  intros g u. simpl. destruct (manages (w_pg w) gid caller); [|by rewrite andb_false_r].
  rewrite andb_true_r. simpl.
  destruct (t_members (w_pg w) !! (g, u)) as [m|] eqn:Hm.
  - repeat case_bool_decide; simpl; subst.
    + rewrite map_lookup_filter_None. right. intros m' Hm'. simpl. rewrite bool_decide_eq_true_2 by done. tauto.
    + rewrite map_lookup_filter_Some. split; [done|]. simpl. rewrite bool_decide_eq_false_2 by done. naive_solver.
    + rewrite map_lookup_filter_Some. split; [done|]. simpl. naive_solver.
    + rewrite map_lookup_filter_Some. split; [done|]. simpl. naive_solver.
  - rewrite (proj2 (map_lookup_filter_None _ _ _)) by (by left). by destruct (_ && _).
Qed.

Lemma remove_member_functional_witness :
  ∃ w', remove_member "g" "carol" ["bob"%string] club_world = (Ok tt, w')
    ∧ is_Some (t_members (w_pg w') !! ("g"%string, "bob"%string)).
Proof.
  destruct (remove_member_functional "g" "carol" ["bob"%string] club_world eq_refl) as (w' & H1 & H2).
  exists w'. split; [exact H1|]. rewrite H2. eexists. reflexivity.
Defined.
