(* ===== verification/GroupData.v ===== *)
(** * Groups, their settings and categories ([db/src/postgres/group.rs])

    Reading, creating, updating and deleting groups, and the categories. The
    length limits of VARCHAR columns are left out. *)

From S2P Require Import Prelude Errors Types Tables World Sql Records GroupStore.

(** ** Requests *)

Record GroupCreate : Type := mkGroupCreate {
  cr_id : string; cr_owner : string; cr_avatar : string; cr_group_name : string;
  cr_members_id : list string
}.
Record GroupInvitation : Type := mkGroupInvitation {
  inv_info : option GroupInfo; inv_members : list GroupMember
}.
Record GroupUpdate : Type := mkGroupUpdate {
  gu_id : string; gu_name : string; gu_avatar : string; gu_description : string;
  gu_announcement : string
}.
Record UpdateGroupRequest : Type := mkUpdateGroupRequest {
  ug_group_id : string; ug_user_id : string; ug_name : string; ug_avatar : string;
  ug_description : string; ug_announcement : string; ug_join_approval_required : bool;
  ug_mute_all : bool; ug_only_admin_post : bool; ug_invite_permission : Z;
  ug_category : string; ug_tags : list string
}.
Record CreateGroupCategoryRequest : Type := mkCreateGroupCategoryRequest {
  cc_name : string; cc_description : string; cc_display_order : Z
}.
Record GetGroupAndMembersResp : Type := mkGetGroupAndMembersResp {
  ggm_group : option GroupInfo; ggm_members : list GroupMember
}.

(** ** Reading *)

(** [id = ANY($1)] *)
Definition listed (ids : list string) (u : string) : bool := bool_decide (u ∈ ids).

(** [groups g JOIN group_members gm .. WHERE g.id = $1 AND gm.user_id = $2] *)
Definition group_rows_for (user_id group_id : string) (p : Pg) : list Row :=
  match t_groups p !! group_id, t_members p !! (group_id, user_id) with
  | Some g, Some _ => [group_cells group_id g]
  | _, _ => []
  end.

(** The members of a group with their user rows; [name] chooses what is
    selected as [group_name]. *)
Definition member_rows (name : MemberRow → User → string) (group_id : string) (p : Pg)
    : list (string * Row) :=
  omap (λ x : (string * string) * MemberRow,
    if bool_decide (x.1.1 = group_id)
    then (λ u, (x.1.2, member_user_cells group_id x.1.2 (name x.2 u) x.2 u)) <$> t_users p !! x.1.2
    else None) (map_to_list (t_members p)).

Definition user_name_of (_ : MemberRow) (u : User) : string := u_name u.
Definition member_name_of (m : MemberRow) (_ : User) : string := m_group_name m.

Definition get_group (user_id group_id : string) : IO GroupInfo :=
  query_one group_from_row (group_rows_for user_id group_id).

Definition get_group_and_members (user_id group_id : string) : IO GetGroupAndMembersResp :=
  group ← query_one group_from_row (group_rows_for user_id group_id);
  members ← query_all member_from_row (λ p, snd <$> member_rows user_name_of group_id p);
  mret (mkGetGroupAndMembersResp (Some group) members).

Definition get_members (user_id group_id : string) (mem_ids : list string) : IO (list GroupMember) :=
  user_belongs_to_group ← pg_query (λ p, Some (bool_decide (is_Some (t_members p !! (group_id, user_id)))));
  if negb user_belongs_to_group then throw not_found
  else query_all member_from_row (λ p,
    snd <$> List.filter (λ x : string * Row, listed mem_ids x.1)
              (member_rows user_name_of group_id p)).

Definition get_group_by_id (group_id : string) : IO GroupInfo :=
  query_one group_from_row (λ p,
    match t_groups p !! group_id with Some g => [group_cells group_id g] | None => [] end).

Definition query_group_members_by_group_id (group_id : string) : IO (list GroupMember) :=
  query_all member_from_row (λ p, snd <$> member_rows member_name_of group_id p).

(** ** Creating *)

Definition new_group_row (g : GroupCreate) (now : Z) : GroupRow :=
  mkGroupRow (cr_owner g) (cr_group_name g) (cr_avatar g) "" "" now now 500 true false None None
    false false Admin None.

Definition insert_group (g : GroupCreate) (now : Z) (p : Pg) : option (list Row * Pg) :=
  if bool_decide (t_groups p !! cr_id g = None)
  then Some ([group_cells (cr_id g) (new_group_row g now)],
             upd_groups (insert (cr_id g) (new_group_row g now)) p)
  else None.

(** The rows of the listed users that exist, the owner as owner; an existing
    member is a conflict on the primary key. *)
Definition first_members (g : GroupCreate) (now : Z) (p : Pg)
    : list (string * User * MemberRow) :=
  (λ x : string * User, (x.1, x.2,
     mkMemberRow (u_name x.2) (if bool_decide (x.1 = cr_owner g) then Owner else Member)
       now false "all" now 0 (cr_owner g)))
  <$> List.filter (λ x : string * User, listed (cr_members_id g) x.1) (map_to_list (t_users p)).

Definition insert_first_members (g : GroupCreate) (now : Z) (p : Pg) : option (list Row * Pg) :=
  let ms := first_members g now p in
  if forallb (λ x : string * User * MemberRow,
       bool_decide (t_members p !! (cr_id g, x.1.1) = None)) ms
  then Some ((λ x : string * User * MemberRow,
                member_user_cells (cr_id g) x.1.1 (u_name x.1.2) x.2 x.1.2) <$> ms,
             upd_members (λ t, foldr (λ x : string * User * MemberRow,
                insert (cr_id g, x.1.1) x.2) t ms) p)
  else None.

Definition create_group_with_members (group : GroupCreate) : IO GroupInvitation :=
  now ← now_ms;
  transaction (
    info ← exec_one group_from_row (insert_group group now);
    members ← exec_all member_from_row (insert_first_members group now);
    mret (mkGroupInvitation (Some info) members)).

(** ** Updating and deleting *)

(** [COALESCE(NULLIF($1, ''), old)] *)
Definition coalesce (new old : string) : string := if bool_decide (new = ""%string) then old else new.

Definition updated_group (u : GroupUpdate) (now : Z) (g : GroupRow) : GroupRow :=
  mkGroupRow (g_owner g) (coalesce (gu_name u) (g_name g)) (coalesce (gu_avatar u) (g_avatar g))
    (coalesce (gu_description u) (g_description g)) (coalesce (gu_announcement u) (g_announcement g))
    (g_create_time g) now (g_max_members g) (g_is_public g) (g_join_approval_required g)
    (g_category g) (g_tags g) (g_mute_all g) (g_only_admin_post g) (g_invite_permission g)
    (g_pinned_messages g).

Definition update_group (group : GroupUpdate) : IO GroupInfo :=
  now ← now_ms;
  exec_one group_from_row (update_returning t_groups upd_groups (gu_id group)
    (updated_group group now) (group_cells (gu_id group))).

(** Files, polls and announcements of a group go with it ([ON DELETE CASCADE]);
    members have no foreign key to the group and stay. *)
Definition cascade_group (gid : string) (p : Pg) : Pg :=
  upd_files (filter (λ x : string * GroupFileRow, f_group_id x.2 ≠ gid))
    (upd_polls (filter (λ x : string * GroupPollRow, p_group_id x.2 ≠ gid))
      (upd_announcements (filter (λ x : string * AnnouncementRow, a_group_id x.2 ≠ gid))
        (upd_groups (delete gid) p))).

Definition delete_group (group_id owner : string) : IO GroupInfo :=
  transaction (exec_one group_from_row (λ p,
    match t_groups p !! group_id with
    | Some g => if bool_decide (g_owner g = owner)
                then Some ([group_cells group_id g], cascade_group group_id p) else Some ([], p)
    | None => Some ([], p)
    end)).

(** [invite_permission = $8::group_role] with an [i32] parameter: there is no
    cast from an integer to the enum, and the statement is rejected before it
    runs. *)
Definition update_settings_stmt : Stmt :=
  sets "groups" [("name", TText); ("avatar", TText); ("description", TText); ("announcement", TText);
    ("join_approval_required", TBool); ("mute_all", TBool); ("only_admin_post", TBool);
    ("invite_permission", role_type); ("category", TText); ("tags", TTextArray); ("update_time", TInt8)]
  ++ [ICast TInt4 role_type] ++ cmps "groups" [("id", TText)].

Definition update_group_settings `{!PgServer} (req : UpdateGroupRequest) : IO GroupInfo :=
  now ← now_ms;
  rows ← stmt_rows update_settings_stmt [BText (ug_name req); BText (ug_avatar req); BText (ug_description req);
    BText (ug_announcement req); BBool (ug_join_approval_required req); BBool (ug_mute_all req);
    BBool (ug_only_admin_post req); BInt4 (ug_invite_permission req); BText (ug_category req);
    BTextArray (ug_tags req); BInt8 now; BText (ug_group_id req)];
  decoded (fetch_one group_from_row rows).

Definition update_member_settings (group_id user_id notification_level : string)
    (display_order : Z) : IO GroupMember :=
  exec_one member_from_row (update_returning t_members upd_members (group_id, user_id)
    (λ m, mkMemberRow (m_group_name m) (m_role m) (m_joined_at m) (m_is_muted m) notification_level
            (m_last_read_time m) display_order (m_joined_by m))
    (member_cells group_id user_id)).

(** ** Categories *)

Section categories.
Context (nanoid : nat → string).

Definition create_group_category (req : CreateGroupCategoryRequest) : IO GroupCategory :=
  now ← now_ms;
  id ← draw_nanoid nanoid;
  exec_one category_from_row (λ p,
    let c := mkCategory (cc_name req) (Some (cc_description req)) (cc_display_order req) now now in
    if bool_decide (t_categories p !! id = None)
    then Some ([category_cells id c], upd_categories (insert id c) p) else None).
End categories.

Definition update_group_category (category : GroupCategory) : IO GroupCategory :=
  now ← now_ms;
  exec_one category_from_row (update_returning t_categories upd_categories (gc_id category)
    (λ c, mkCategory (gc_name category) (Some (gc_description category)) (gc_display_order category)
            (c_create_time c) now)
    (category_cells (gc_id category))).

Definition clear_category (id : string) (g : GroupRow) : GroupRow :=
  mkGroupRow (g_owner g) (g_name g) (g_avatar g) (g_description g) (g_announcement g)
    (g_create_time g) (g_update_time g) (g_max_members g) (g_is_public g)
    (g_join_approval_required g)
    (if bool_decide (g_category g = Some id) then None else g_category g)
    (g_tags g) (g_mute_all g) (g_only_admin_post g) (g_invite_permission g) (g_pinned_messages g).

Definition delete_group_category (id : string) : IO unit :=
  transaction (
    pg_exec (λ p, Some (tt, upd_groups (fmap (clear_category id)) p)) ;;
    pg_exec (λ p, Some (tt, upd_categories (delete id) p))).

Definition get_group_categories : IO (list GroupCategory) :=
  query_all category_from_row (λ p,
    (λ x : string * CategoryRow, category_cells x.1 x.2)
      <$> order_by (λ x : string * CategoryRow, c_display_order x.2) (map_to_list (t_categories p))).

(** ** Properties *)

Lemma group_rows_for_undecodable u g p r : r ∈ group_rows_for u g p → group_from_row r = None.
Proof.
  unfold group_rows_for. repeat case_match; rewrite ?list_elem_of_singleton; try set_solver.
  intros ->. apply group_undecodable.
Qed.

Lemma update_returning_rows {K R} `{Countable K} (tbl : Pg → gmap K R) upd k f cells p rows p' r :
  update_returning tbl upd k f cells p = Some (rows, p') → r ∈ rows → ∃ x, r = cells x.
Proof.
  unfold update_returning. destruct (tbl p !! k); intros; simplify_eq; set_solver.
Qed.

Lemma create_body_never_ok g now :
  never_ok (info ← exec_one group_from_row (insert_group g now);
            members ← exec_all member_from_row (insert_first_members g now);
            mret (mkGroupInvitation (Some info) members) : IO GroupInvitation).
Proof.
  apply never_ok_bind_l, never_ok_exec_one. intros p rows p' r. unfold insert_group.
  case_bool_decide; [|done]. intros [= <- <-] Hr%list_elem_of_singleton. subst. apply group_undecodable.
Qed.

Lemma delete_body_never_ok gid owner :
  never_ok (exec_one group_from_row (λ p,
    match t_groups p !! gid with
    | Some g => if bool_decide (g_owner g = owner)
                then Some ([group_cells gid g], cascade_group gid p) else Some ([], p)
    | None => Some ([], p)
    end)).
Proof.
  apply never_ok_exec_one. intros p rows p' r.
  destruct (t_groups p !! gid); [case_bool_decide|]; intros [= <- <-]; [|set_solver..].
  intros ->%list_elem_of_singleton. apply group_undecodable.
Qed.

(** No call that answers a group ever succeeds, whatever is stored and
    whatever fails: the row's [invite_permission] is an SQL enum and is read as
    an integer. So groups cannot be read, their creation and their deletion
    are always rolled back, and no call updates them with a success. *)
Theorem groups_unreadable (server : PgServer) (w : World) :
  (∀ u g, is_ok (get_group u g w).1 = false)
  ∧ (∀ u g, is_ok (get_group_and_members u g w).1 = false)
  ∧ (∀ g, is_ok (get_group_by_id g w).1 = false)
  ∧ (∀ g, is_ok (update_group g w).1 = false)
  ∧ (∀ r, is_ok (update_group_settings r w).1 = false ∧ w_pg (update_group_settings r w).2 = w_pg w)
  ∧ (∀ g, is_ok (create_group_with_members g w).1 = false
          ∧ w_pg (create_group_with_members g w).2 = w_pg w)
  ∧ (∀ g o, is_ok (delete_group g o w).1 = false ∧ w_pg (delete_group g o w).2 = w_pg w).
Proof.
  split_and!; intros.
  - apply never_ok_query_one. apply group_rows_for_undecodable.
  - apply never_ok_bind_l, never_ok_query_one. apply group_rows_for_undecodable.
  - apply never_ok_query_one. intros p r. destruct (t_groups p !! g); [|set_solver].
    intros ->%list_elem_of_singleton. apply group_undecodable.
  - apply never_ok_bind_r. intros now. apply never_ok_exec_one. intros p rows p' r Hq Hr.
    destruct (update_returning_rows _ _ _ _ _ _ _ _ _ Hq Hr) as [x ->]. apply group_undecodable.
  - unfold update_group_settings. erewrite bind_ok by done.
    match goal with |- context [stmt_rows _ ?binds] =>
      destruct (pg_stmt_rejected update_settings_stmt (server_does update_settings_stmt binds) w) as [fs Hr] end;
      [vm_compute; reflexivity|]. by rewrite (bind_err _ _ _ _ _ Hr).
  - unfold create_group_with_members. erewrite bind_ok by done.
    split; [apply never_ok_transaction, create_body_never_ok|apply never_ok_rolls_back, create_body_never_ok].
  - split; [apply never_ok_transaction, delete_body_never_ok|apply never_ok_rolls_back, delete_body_never_ok].
Qed.

(** Updating an existing group reports a database error although the change
    stands: every text that is not empty replaces the old one, nothing else of
    the group moves and no other group does. *)
Theorem update_group_commits_and_fails (u : GroupUpdate) (w : World) (g : GroupRow)
    (Hnet : healthy w) (Hg : t_groups (w_pg w) !! gu_id u = Some g) :
  ∃ w', update_group u w = (Err pg_error, w')
    ∧ t_groups (w_pg w') = <[gu_id u := updated_group u (w_clock w) g]> (t_groups (w_pg w))
    ∧ t_members (w_pg w') = t_members (w_pg w)
    ∧ w_redis w' = w_redis w ∧ w_kafka w' = w_kafka w.
Proof.
  unfold update_group. erewrite bind_ok by done.
  erewrite exec_one_run; [|done|unfold update_returning; by rewrite Hg].
  cbn [fetch_one]. rewrite group_undecodable. eexists. by split_and!.
Qed.

Definition club_rename : GroupUpdate := mkGroupUpdate "g" "Chess" "" "" "".

Lemma update_group_commits_and_fails_witness :
  ∃ w', update_group club_rename club_world = (Err pg_error, w')
    ∧ g_name <$> t_groups (w_pg w') !! "g"%string = Some "Chess"%string.
Proof.
  destruct (update_group_commits_and_fails club_rename club_world _ eq_refl eq_refl)
    as (w' & H1 & H2 & _).
  exists w'. split; [exact H1|]. rewrite H2. reflexivity.
Defined.

(** The rows of a group's members decode to their user data. *)
Definition member_list (name : MemberRow → User → string) (gid : string) (p : Pg)
    : list (string * GroupMember) :=
  omap (λ x : (string * string) * MemberRow,
    if bool_decide (x.1.1 = gid)
    then (λ u, (x.1.2, member_of gid x.1.2 (name x.2 u) x.2 u)) <$> t_users p !! x.1.2
    else None) (map_to_list (t_members p)).

Lemma member_rows_decode name gid p (keep : string → bool) :
  fetch_all member_from_row
    (snd <$> List.filter (λ x : string * Row, keep x.1) (member_rows name gid p))
  = Some (snd <$> List.filter (λ x : string * GroupMember, keep x.1) (member_list name gid p)).
Proof.
  unfold member_rows, member_list, fetch_all.
  induction (map_to_list (t_members p)) as [|[[g u] m] l IH]; [done|].
  cbn [omap list_omap]. simpl. case_bool_decide; [|exact IH]. subst.
  destruct (t_users p !! u) as [usr|]; simpl; [|exact IH].
  destruct (keep u); simpl; [|exact IH]. rewrite member_decodes. cbn.
  unfold mapM, list_fmap in *. simpl in *. setoid_rewrite IH. reflexivity.
Qed.

Lemma elem_of_member_list name gid p u x :
  (u, x) ∈ member_list name gid p
  ↔ ∃ m usr, t_members p !! (gid, u) = Some m ∧ t_users p !! u = Some usr
      ∧ x = member_of gid u (name m usr) m usr.
Proof.
  unfold member_list. rewrite list_elem_of_omap. split.
  - intros ([[g u'] m] & Hin%elem_of_map_to_list & Hx). simpl in Hx. case_bool_decide; [|done].
    subst. destruct (t_users p !! u') as [usr|] eqn:E; simplify_eq/=. by exists m, usr.
  - intros (m & usr & Hm & Hu & ->). exists ((gid, u), m). split; [by apply elem_of_map_to_list|].
    simpl. rewrite bool_decide_eq_true_2 by done. by rewrite Hu.
Qed.

(** Asking for members answers, to a member of the group, exactly the listed
    users that are members and have an account, with their user data, and
    changes nothing; to anybody else it answers "not found". *)
Theorem get_members_functional (uid gid : string) (ids : list string) (w : World) (Hnet : healthy w) :
  (t_members (w_pg w) !! (gid, uid) = None → get_members uid gid ids w = (Err not_found, w))
  ∧ (is_Some (t_members (w_pg w) !! (gid, uid)) → ∃ l, get_members uid gid ids w = (Ok l, w)
      ∧ ∀ x, x ∈ l ↔ ∃ u m usr, u ∈ ids ∧ t_members (w_pg w) !! (gid, u) = Some m
          ∧ t_users (w_pg w) !! u = Some usr ∧ x = member_of gid u (u_name usr) m usr).
Proof.
  unfold get_members. split; intros Hm.
  - erewrite bind_ok by (by apply pg_query_run). by rewrite Hm.
  - erewrite bind_ok by (by apply pg_query_run). rewrite bool_decide_eq_true_2 by done. simpl.
    eexists. split.
    + apply query_all_run; [done|]. apply (member_rows_decode user_name_of gid (w_pg w) (listed ids)).
    + intros x. rewrite list_elem_of_fmap. split.
      * intros ([u y] & -> & [Hin Hk]%list_elem_of_In%filter_In).
        apply list_elem_of_In, elem_of_member_list in Hin as (m & usr & ? & ? & ->).
        exists u, m, usr. by apply bool_decide_eq_true_1 in Hk.
      * intros (u & m & usr & Hu & H1 & H2 & ->).
        exists (u, member_of gid u (u_name usr) m usr). split; [done|].
        apply list_elem_of_In, filter_In. split; [|by apply bool_decide_eq_true_2].
        apply list_elem_of_In, elem_of_member_list. by exists m, usr.
Qed.

(** The club, with accounts for alice and bob. *)
Definition account (id name : string) : User :=
  mkUser id name id "" "" "" 30 None None None None None 0 0 "" "" None None false "" "" None None
    "" "" "" "" "" "" "" false.
Definition club_accounts : World :=
  upd_pg (upd_users (λ _, {["alice"%string := account "alice" "Alice"; "bob"%string := account "bob" "Bob"]}))
    club_world.

Lemma get_members_functional_witness :
  ∃ l, get_members "alice" "g" ["bob"%string; "carol"%string] club_accounts = (Ok l, club_accounts)
    ∧ member_of "g" "bob" "Bob" (mkMemberRow "" Admin 0 false "" 0 0 "") (account "bob" "Bob") ∈ l.
Proof.
  destruct (proj2 (get_members_functional "alice" "g" ["bob"%string; "carol"%string] club_accounts eq_refl))
    as (l & H1 & H2); [eexists; reflexivity|].
  exists l. split; [exact H1|]. apply H2. exists "bob"%string, (mkMemberRow "" Admin 0 false "" 0 0 ""), (account "bob" "Bob").
  split; [apply list_elem_of_here|]. split; [reflexivity|]. split; reflexivity.
Defined.
