(* ===== verification/GroupContent.v ===== *)
(** * Files, polls, mutes and announcements of a group ([db/src/postgres/group.rs])

    The statements on the four tables that refer to a group. [serde_json] is a
    parameter where a poll's options are parsed or printed. *)

From stdpp Require Import sorting.
From S2P Require Import Prelude Errors Types Tables World Sql Records GroupStore.

(** ** Requests *)

Record GroupFileUploadRequest : Type := mkFileUpload {
  up_group_id : string; up_uploader_id : string; up_file_name : string; up_file_data : bytes;
  up_file_type : string; up_file_size : Z; up_file_url : string
}.
Record CreatePollRequest : Type := mkCreatePoll {
  cp_group_id : string; cp_creator_id : string; cp_title : string; cp_options : list string;
  cp_is_multiple : bool; cp_is_anonymous : bool; cp_expires_at : Z
}.
Record VotePollRequest : Type := mkVotePoll {
  vp_poll_id : string; vp_user_id : string; vp_option_ids : list string
}.
Record CreateAnnouncementRequest : Type := mkCreateAnnouncement {
  ca_group_id : string; ca_creator_id : string; ca_content : string; ca_is_pinned : bool
}.

(** [EXISTS (SELECT 1 FROM t x JOIN group_members m ON x.group_id = m.group_id
    WHERE x.id = $1 AND ..)], for the row [x] of group [gid]. *)
Definition joined (p : Pg) (gid : string) (cond : string → MemberRow → bool) : bool :=
  existsb (λ x : string * string * MemberRow, String.eqb x.1.1 gid && cond x.1.2 x.2) (map_to_list (t_members p)).

(** [m.role = '..'] *)
Definition has_role (m : MemberRow) (r : GroupRole) : bool := bool_decide (m_role m = r).

(** The foreign key on [groups(id)]. *)
Definition group_exists (p : Pg) (gid : string) : bool := bool_decide (is_Some (t_groups p !! gid)).

(** [INSERT .. RETURNING *] of a row that refers to a group. *)
Definition insert_in_group {R} (tbl : Pg → gmap string R)
    (upd : (gmap string R → gmap string R) → Pg → Pg) (gid id : string) (r : R) (cells : Row)
    (p : Pg) : option (list Row * Pg) :=
  if bool_decide (tbl p !! id = None) && group_exists p gid
  then Some ([cells], upd (insert id r) p) else None.

(** [SELECT * FROM t WHERE group_id = $1], before its ordering *)
Definition rows_of_group {R} (group_of : R → string) (gid : string) (t : gmap string R)
    : list (string * R) :=
  List.filter (λ x : string * R, String.eqb (group_of x.2) gid) (map_to_list t).

Section content.
Context (nanoid : nat → string).
Context (options_of_json : string → option (list PollOption)) (json_of_options : list PollOption → string).

(** ** Files *)

Definition upload_group_file (req : GroupFileUploadRequest) : IO GroupFileInfo :=
  now ← now_ms;
  id ← draw_nanoid nanoid;
  let f := mkGroupFile (up_group_id req) (up_uploader_id req) (up_file_name req) (up_file_url req)
             (up_file_size req) (up_file_type req) now false 0 None in
  exec_one file_from_row (insert_in_group t_files upd_files (up_group_id req) id f (file_cells id f)).

(** The permission query: [m.user_id = $2] is part of the join. *)
Definition can_delete_file (file_id user_id : string) (p : Pg) : bool :=
  match t_files p !! file_id with
  | Some f => joined p (f_group_id f) (λ u m, String.eqb u user_id
                && (has_role m Owner || has_role m Admin || String.eqb (f_uploader_id f) user_id))
  | None => false
  end.
Definition delete_group_file (file_id user_id : string) : IO unit :=
  can_delete ← pg_query (λ p, Some (can_delete_file file_id user_id p));
  if negb can_delete then throw (unauthorized_with_details "No permission to delete this file")
  else pg_exec (λ p, Some (tt, upd_files (delete file_id) p)).

Definition get_group_files (group_id : string) : IO (list GroupFileInfo) :=
  query_all file_from_row (λ p,
    (λ x : string * GroupFileRow, file_cells x.1 x.2)
      <$> order_by_desc (λ x : string * GroupFileRow, f_upload_time x.2)
            (rows_of_group f_group_id group_id (t_files p))).

Definition pin_file (b : bool) (f : GroupFileRow) : GroupFileRow :=
  mkGroupFile (f_group_id f) (f_uploader_id f) (f_file_name f) (f_file_url f) (f_file_size f)
    (f_file_type f) (f_upload_time f) b (f_download_count f) (f_thumbnail_url f).

Definition update_file_pin_status (file_id : string) (is_pinned : bool) : IO GroupFileInfo :=
  exec_one file_from_row (update_returning t_files upd_files file_id (pin_file is_pinned)
    (file_cells file_id)).

(** ** Polls *)

Fixpoint draw_options (texts : list string) : IO (list PollOption) :=
  match texts with
  | [] => mret []
  | text :: texts' =>
      id ← draw_nanoid nanoid;
      rest ← draw_options texts';
      mret (mkPollOption id text 0 [] :: rest)
  end.

Definition create_poll (req : CreatePollRequest) : IO GroupPoll :=
  now ← now_ms;
  id ← draw_nanoid nanoid;
  options ← draw_options (cp_options req);
  let r := mkGroupPollRow (cp_group_id req) (cp_creator_id req) (cp_title req) options
             (cp_is_multiple req) (cp_is_anonymous req) now (Some (cp_expires_at req)) "active" in
  exec_one (poll_from_row options_of_json)
    (insert_in_group t_polls upd_polls (cp_group_id req) id r (poll_cells id r)).

Definition poll_by_id (poll_id : string) (p : Pg) : list Row :=
  match t_polls p !! poll_id with Some r => [poll_cells poll_id r] | None => [] end.

(** The loop over the options of the poll. *)
Definition vote_option (is_anonymous : bool) (user_id : string) (option_ids : list string)
    (o : PollOption) : PollOption :=
  if bool_decide (po_id o ∈ option_ids)
  then mkPollOption (po_id o) (po_text o) (po_vote_count o + 1)
         (if is_anonymous then po_voter_ids o
          else if bool_decide (user_id ∈ po_voter_ids o) then po_voter_ids o
          else po_voter_ids o ++ [user_id])
  else o.

(** [options] and [results] are JSONB, the parameter is a text. *)
Definition vote_stmt : Stmt :=
  sets "group_polls" [("options", TText); ("results", TText)] ++ cmps "group_polls" [("id", TText)].

Definition vote_poll (req : VotePollRequest) : IO GroupPoll :=
  poll ← query_one (poll_from_row options_of_json) (poll_by_id (vp_poll_id req));
  if bool_decide (gp_status poll ≠ "active"%string)
  then throw (unauthorized_with_details "Poll is not active")
  else
    let options_array := vote_option (gp_is_anonymous poll) (vp_user_id req) (vp_option_ids req)
                           <$> gp_options poll in
    let updated_options := json_of_options options_array in
    rows ← pg_stmt vote_stmt (λ p,
      match options_of_json updated_options with
      | None => None
      | Some os => update_returning t_polls upd_polls (vp_poll_id req)
          (λ r, mkGroupPollRow (p_group_id r) (p_creator_id r) (p_title r) os (p_is_multiple r)
                  (p_is_anonymous r) (p_created_at r) (p_expires_at r) (p_status r))
          (poll_cells (vp_poll_id req)) p
      end);
    decoded (fetch_one (poll_from_row options_of_json) rows).

Definition can_close_poll (poll_id user_id : string) (p : Pg) : bool :=
  match t_polls p !! poll_id with
  | Some r => joined p (p_group_id r) (λ u m, String.eqb u user_id
                && (has_role m Admin || has_role m Owner || String.eqb (p_creator_id r) user_id))
  | None => false
  end.
Definition close_poll (poll_id user_id : string) : IO GroupPoll :=
  can_close ← pg_query (λ p, Some (can_close_poll poll_id user_id p));
  if negb can_close then throw (unauthorized_with_details "No permission to close this poll")
  else exec_one (poll_from_row options_of_json)
    (update_returning t_polls upd_polls poll_id
      (λ r, mkGroupPollRow (p_group_id r) (p_creator_id r) (p_title r) (p_options r)
              (p_is_multiple r) (p_is_anonymous r) (p_created_at r) (p_expires_at r) "closed")
      (poll_cells poll_id)).

Definition get_group_polls (group_id : string) : IO (list GroupPoll) :=
  query_all (poll_from_row options_of_json) (λ p,
    (λ x : string * GroupPollRow, poll_cells x.1 x.2)
      <$> order_by_desc (λ x : string * GroupPollRow, p_created_at x.2)
            (rows_of_group p_group_id group_id (t_polls p))).

Definition get_poll_details (poll_id : string) : IO GroupPoll :=
  query_one (poll_from_row options_of_json) (poll_by_id poll_id).

(** ** Mute records *)

Definition get_group_muted_members (group_id : string) : IO (list GroupMuteRecord) :=
  now ← now_ms;
  query_all mute_from_row (λ p,
    (λ x : string * MuteRow, mute_cells x.1 x.2)
      <$> order_by_desc (λ x : string * MuteRow, mu_created_at x.2)
            (List.filter (λ x : string * MuteRow, (now <? mu_mute_until x.2)%Z)
               (rows_of_group mu_group_id group_id (t_mutes p)))).

(** ** Announcements *)

Definition create_announcement (req : CreateAnnouncementRequest) : IO GroupAnnouncementInfo :=
  has_permission ← pg_query (λ p, Some (manages p (ca_group_id req) (ca_creator_id req)));
  if negb has_permission
  then throw (unauthorized_with_details "No permission to create announcements")
  else
    now ← now_ms;
    id ← draw_nanoid nanoid;
    let a := mkAnnouncement (ca_group_id req) (ca_creator_id req) (ca_content req) now
               (ca_is_pinned req) in
    exec_one announcement_from_row
      (insert_in_group t_announcements upd_announcements (ca_group_id req) id a
        (announcement_cells id a)).

Definition can_delete_announcement (id user_id : string) (p : Pg) : bool :=
  match t_announcements p !! id with
  | Some a => joined p (a_group_id a) (λ u m, String.eqb u user_id
                && (has_role m Admin || has_role m Owner || String.eqb (a_creator_id a) user_id))
  | None => false
  end.
Definition delete_announcement (id user_id : string) : IO unit :=
  has_permission ← pg_query (λ p, Some (can_delete_announcement id user_id p));
  if negb has_permission
  then throw (unauthorized_with_details "No permission to delete this announcement")
  else pg_exec (λ p, Some (tt, upd_announcements (delete id) p)).

(** [ORDER BY is_pinned DESC, created_at DESC] *)
Definition announcement_le (x y : string * AnnouncementRow) : Prop :=
  match a_is_pinned x.2, a_is_pinned y.2 with
  | true, false => True
  | false, true => False
  | _, _ => (a_created_at y.2 ≤ a_created_at x.2)%Z
  end.
Global Instance announcement_le_dec : RelDecision announcement_le.
Proof. unfold announcement_le. intros x y. destruct (a_is_pinned x.2), (a_is_pinned y.2); apply _. Defined.

Definition get_group_announcements (group_id : string) : IO (list GroupAnnouncementInfo) :=
  query_all announcement_from_row (λ p,
    (λ x : string * AnnouncementRow, announcement_cells x.1 x.2)
      <$> merge_sort announcement_le (rows_of_group a_group_id group_id (t_announcements p))).

Definition pin_announcement (id : string) (is_pinned : bool) : IO GroupAnnouncementInfo :=
  exec_one announcement_from_row (update_returning t_announcements upd_announcements id
    (λ a, mkAnnouncement (a_group_id a) (a_creator_id a) (a_content a) (a_created_at a) is_pinned)
    (announcement_cells id)).
End content.

(** ** Properties *)

Definition announcement_of (x : string * AnnouncementRow) : GroupAnnouncementInfo :=
  mkGroupAnnouncementInfo x.1 (a_group_id x.2) (a_creator_id x.2) (a_content x.2)
    (a_created_at x.2) (a_is_pinned x.2).
Definition poll_of (x : string * GroupPollRow) : GroupPoll :=
  mkGroupPoll x.1 (p_group_id x.2) (p_creator_id x.2) (p_title x.2) [] (p_is_multiple x.2)
    (p_is_anonymous x.2) (p_created_at x.2) (default 0%Z (p_expires_at x.2)) (p_status x.2).

Lemma announcement_decodes x :
  announcement_from_row (announcement_cells x.1 x.2) = Some (announcement_of x).
Proof. reflexivity. Qed.

Lemma poll_decodes options_of_json x :
  options_of_json ""%string = None → poll_from_row options_of_json (poll_cells x.1 x.2) = Some (poll_of x).
Proof.
  intros H. unfold poll_from_row, get_or, try_get. cbn. rewrite H. unfold poll_of.
  by destruct (p_expires_at x.2).
Qed.

Global Instance announcement_le_total : Total announcement_le.
Proof.
  intros x y. unfold announcement_le.
  destruct (a_is_pinned x.2), (a_is_pinned y.2); auto; lia.
Qed.

(** The announcements of a group are answered completely, each once, the
    pinned ones first and the newest first among each kind. *)
Theorem announcements_listed (gid : string) (w : World) (Hnet : healthy w) :
  ∃ xs, get_group_announcements gid w = (Ok (announcement_of <$> xs), w)
    ∧ (∀ id a, (id, a) ∈ xs ↔ t_announcements (w_pg w) !! id = Some a ∧ a_group_id a = gid)
    ∧ NoDup xs ∧ Sorted announcement_le xs.
Proof.
  exists (merge_sort announcement_le (rows_of_group a_group_id gid (t_announcements (w_pg w)))).
  pose proof (merge_sort_Permutation announcement_le
    (rows_of_group a_group_id gid (t_announcements (w_pg w)))) as Hp.
  split_and!.
  - apply query_all_run; [done|]. by apply (fetch_all_total _ _ announcement_of), announcement_decodes.
  - intros id a. rewrite Hp. unfold rows_of_group. rewrite list_elem_of_In, filter_In.
    rewrite <- list_elem_of_In, elem_of_map_to_list. simpl. by rewrite String.eqb_eq.
  - rewrite Hp. apply NoDup_ListNoDup, List.NoDup_filter, NoDup_ListNoDup, NoDup_map_to_list.
  - apply Sorted_merge_sort; apply _.
Qed.

(** Who may: a member of the group that is its owner or one of its admins, or
    that made the item. *)
Definition has_right (p : Pg) (gid maker user : string) : Prop :=
  ∃ m, t_members p !! (gid, user) = Some m ∧ (m_role m = Owner ∨ m_role m = Admin ∨ maker = user).

Lemma joined_iff p gid cond : joined p gid cond = true ↔ ∃ u m, t_members p !! (gid, u) = Some m ∧ cond u m = true.
Proof.
  unfold joined. rewrite existsb_exists. split.
  - intros ([[g u] m] & Hin & H). simpl in H. apply andb_true_iff in H as [->%String.eqb_eq Hc].
    exists u, m. by apply list_elem_of_In, elem_of_map_to_list in Hin.
  - intros (u & m & Hm & Hc). exists (gid, u, m). split; [by apply list_elem_of_In, elem_of_map_to_list|].
    simpl. by rewrite String.eqb_refl.
Qed.

Lemma has_role_iff m r : has_role m r = true ↔ m_role m = r.
Proof. apply bool_decide_eq_true. Qed.

(** A query that admits exactly who has the right. *)
Lemma admits p gid maker user (cond : string → MemberRow → bool) :
  (∀ u m, cond u m = true ↔ u = user ∧ (m_role m = Owner ∨ m_role m = Admin ∨ maker = user)) →
  joined p gid cond = true ↔ has_right p gid maker user.
Proof. intros H. rewrite joined_iff. unfold has_right. split; [intros (u & m & Hm & [-> ?]%H); eauto|]. intros (m & ? & ?). exists user, m. by rewrite H. Qed.

Ltac permission := intros ? ?; rewrite andb_true_iff, !orb_true_iff, !has_role_iff, !String.eqb_eq; tauto.

Lemma can_delete_file_iff id user p f : t_files p !! id = Some f →
  can_delete_file id user p = true ↔ has_right p (f_group_id f) (f_uploader_id f) user.
Proof. intros Hf. unfold can_delete_file. rewrite Hf. apply admits. permission. Qed.
Lemma can_close_poll_iff id user p r : t_polls p !! id = Some r →
  can_close_poll id user p = true ↔ has_right p (p_group_id r) (p_creator_id r) user.
Proof. intros Hr. unfold can_close_poll. rewrite Hr. apply admits. permission. Qed.
Lemma can_delete_announcement_iff id user p a : t_announcements p !! id = Some a →
  can_delete_announcement id user p = true ↔ has_right p (a_group_id a) (a_creator_id a) user.
Proof. intros Ha. unfold can_delete_announcement. rewrite Ha. apply admits. permission. Qed.

(** An operation behind a permission query. *)
Lemma guarded_run {A} (can : Pg → bool) (e : Error) (act : IO A) w :
  healthy w →
  (allowed ← pg_query (λ p, Some (can p)); if negb allowed then throw e else act) w
  = if can (w_pg w) then act w else (Err e, w).
Proof. intros Hw. erewrite bind_ok by (by apply pg_query_run). by destruct (can (w_pg w)). Qed.

(** C35. Who may delete a file or an announcement or close a poll. The operation
    takes effect, on that item alone, exactly if the user is a member of the
    item's group and either its owner, an admin or the maker of the item;
    everybody else is refused with the operation's own message and nothing
    changes, and so is whoever names an item that does not exist. *)
Theorem content_permissions (options_of_json : string → option (list PollOption))
    (id user : string) (w : World) (Hnet : healthy w) :
  (∀ f, t_files (w_pg w) !! id = Some f →
     (has_right (w_pg w) (f_group_id f) (f_uploader_id f) user →
        delete_group_file id user w = (Ok tt, upd_pg (upd_files (delete id)) w))
     ∧ (¬ has_right (w_pg w) (f_group_id f) (f_uploader_id f) user →
        delete_group_file id user w = (Err (unauthorized_with_details "No permission to delete this file"), w)))
  ∧ (∀ r, t_polls (w_pg w) !! id = Some r → options_of_json ""%string = None →
     let r' := mkGroupPollRow (p_group_id r) (p_creator_id r) (p_title r) (p_options r)
                 (p_is_multiple r) (p_is_anonymous r) (p_created_at r) (p_expires_at r) "closed" in
     (has_right (w_pg w) (p_group_id r) (p_creator_id r) user →
        close_poll options_of_json id user w = (Ok (poll_of (id, r')), upd_pg (upd_polls (insert id r')) w))
     ∧ (¬ has_right (w_pg w) (p_group_id r) (p_creator_id r) user →
        close_poll options_of_json id user w
        = (Err (unauthorized_with_details "No permission to close this poll"), w)))
  ∧ (∀ a, t_announcements (w_pg w) !! id = Some a →
     (has_right (w_pg w) (a_group_id a) (a_creator_id a) user →
        delete_announcement id user w = (Ok tt, upd_pg (upd_announcements (delete id)) w))
     ∧ (¬ has_right (w_pg w) (a_group_id a) (a_creator_id a) user →
        delete_announcement id user w
        = (Err (unauthorized_with_details "No permission to delete this announcement"), w)))
  ∧ (t_files (w_pg w) !! id = None →
       delete_group_file id user w = (Err (unauthorized_with_details "No permission to delete this file"), w))
  ∧ (t_polls (w_pg w) !! id = None →
       close_poll options_of_json id user w
       = (Err (unauthorized_with_details "No permission to close this poll"), w))
  ∧ (t_announcements (w_pg w) !! id = None →
       delete_announcement id user w
       = (Err (unauthorized_with_details "No permission to delete this announcement"), w)).
Proof.
  unfold delete_group_file, close_poll, delete_announcement. rewrite !guarded_run by done. split_and!.
  - intros f Hf. pose proof (can_delete_file_iff id user (w_pg w) f Hf) as Hiff.
    destruct (can_delete_file id user (w_pg w)); split; intros H; try tauto.
    + by erewrite pg_exec_healthy by done.
    + by apply Hiff in H.
  - intros r Hr Hj. pose proof (can_close_poll_iff id user (w_pg w) r Hr) as Hiff.
    destruct (can_close_poll id user (w_pg w)); split; intros H; try tauto; [|by apply Hiff in H].
    erewrite exec_one_run; [|done|unfold update_returning; by rewrite Hr]. cbn [fetch_one].
    by rewrite (poll_decodes _ (id, mkGroupPollRow (p_group_id r) (p_creator_id r) (p_title r) (p_options r)
      (p_is_multiple r) (p_is_anonymous r) (p_created_at r) (p_expires_at r) "closed")) by done.
  - intros a Ha. pose proof (can_delete_announcement_iff id user (w_pg w) a Ha) as Hiff.
    destruct (can_delete_announcement id user (w_pg w)); split; intros H; try tauto.
    + by erewrite pg_exec_healthy by done.
    + by apply Hiff in H.
  - intros Hf. unfold can_delete_file. by rewrite Hf.
  - intros Hr. unfold can_close_poll. by rewrite Hr.
  - intros Ha. unfold can_delete_announcement. by rewrite Ha.
Qed.

Definition club_file : GroupFileRow := mkGroupFile "g" "carol" "a.txt" "/a" 1 "text" 5 false 0 None.
Definition club_files : World := upd_pg (upd_files (λ _, {["f1"%string := club_file]})) club_world.

Lemma announcements_listed_witness :
  ∃ xs, get_group_announcements "g" club_world = (Ok (announcement_of <$> xs), club_world) ∧ NoDup xs.
Proof.
  destruct (announcements_listed "g" club_world eq_refl) as (xs & H1 & _ & H3 & _).
  exists xs. split; [exact H1|exact H3].
Defined.

Lemma content_permissions_witness :
  delete_group_file "f1" "carol" club_files = (Ok tt, upd_pg (upd_files (delete "f1"%string)) club_files)
  ∧ delete_group_file "f1" "bob" club_files = (Ok tt, upd_pg (upd_files (delete "f1"%string)) club_files)
  ∧ (delete_group_file "f1" "dave" club_files).2 = club_files.
Proof.
  split_and!.
  - apply (proj1 (content_permissions (λ _, None) "f1" "carol" club_files eq_refl) club_file eq_refl).
    eexists. split; [reflexivity|by right; right].
  - apply (proj1 (content_permissions (λ _, None) "f1" "bob" club_files eq_refl) club_file eq_refl).
    eexists. split; [reflexivity|by right; left].
  - rewrite (proj2 (proj1 (content_permissions (λ _, None) "f1" "dave" club_files eq_refl) club_file eq_refl));
      [reflexivity|]. intros (m & H & _). discriminate H.
Defined.

(** A poll's options are lost on every read, because the JSONB column is
    decoded as a text, and no vote is ever recorded: the vote's update binds a
    text to the JSONB column and is rejected. A poll can be created and closed,
    nothing else. *)
Theorem polls_cannot_be_voted (options_of_json : string → option (list PollOption))
    (json_of_options : list PollOption → string) (Hempty : options_of_json ""%string = None) (w : World) :
  (∀ req, is_ok (vote_poll options_of_json json_of_options req w).1 = false
          ∧ t_polls (w_pg (vote_poll options_of_json json_of_options req w).2) = t_polls (w_pg w))
  ∧ (∀ id poll w', get_poll_details options_of_json id w = (Ok poll, w') → gp_options poll = []).
Proof.
  split.
  - intros req. unfold vote_poll. split.
    + apply never_ok_bind_r. intros poll. case_bool_decide; [done|]. apply never_ok_bind_l.
      intros w1. match goal with |- context [pg_stmt vote_stmt ?q w1] =>
        destruct (pg_stmt_rejected vote_stmt q w1) as [fs ->]; [vm_compute; reflexivity|done] end.
    + assert (Hq : t_polls (w_pg (query_one (poll_from_row options_of_json)
                     (poll_by_id (vp_poll_id req)) w).2) = t_polls (w_pg w)).
      { apply (keeps_bind (same (t_polls ∘ w_pg))); [|intros rows; apply keeps_from_option; apply _].
        apply keeps_pg_exec; [apply _|intros; hnf; reflexivity|]. intros w0 a p [= <- <-]. hnf. reflexivity. }
      unfold mbind, M_bind. destruct (query_one _ _ w) as [[poll|e| |] w1]; simpl in Hq |- *; try done.
      case_bool_decide; [done|].
      match goal with |- context [pg_stmt vote_stmt ?q w1] =>
        destruct (pg_stmt_rejected vote_stmt q w1) as [fs ->]; [vm_compute; reflexivity|done] end.
  - intros id poll w'. unfold get_poll_details, query_one, mbind, M_bind.
    destruct (pg_query _ w) as [[rows|e| |] w1] eqn:Eq; try done. unfold decoded, from_option.
    assert (Hrows : rows = [] ∨ ∃ r, rows = [poll_cells id r]).
    { revert Eq. unfold pg_query, pg_exec, remote, mbind, M_bind.
      destruct (take_fault w) as [[[]| | |] w0]; simpl; unfold poll_by_id; try done.
      destruct (t_polls (w_pg w0) !! id); simpl; intros; simplify_eq; eauto. }
    destruct Hrows as [->|[r ->]]; [done|]. cbn [fetch_one].
    rewrite (poll_decodes _ (id, r)) by done. by intros [= <- <-].
Qed.

Lemma polls_cannot_be_voted_witness :
  is_ok (vote_poll (λ _, None) (λ _, ""%string) (mkVotePoll "p" "bob" []) club_world).1 = false.
Proof. apply (polls_cannot_be_voted (λ _, None) (λ _, ""%string) eq_refl club_world). Defined.
