(* ===== verification/GroupInv.v ===== *)
(** * What the group store keeps, over all its operations

    Every operation of [GroupStoreRepo] that writes, as one type; the foreign
    keys of the schema hold after each of them on every path, and none creates
    or deletes a group. *)

From S2P Require Import Prelude Errors Types Tables World Sql Records GroupStore GroupData GroupContent.

Inductive GroupOp : Type :=
| OpCreateGroup (g : GroupCreate) | OpInvite (gid uid : string) (us : list string)
| OpRemove (gid uid : string) (us : list string) | OpUpdateGroup (u : GroupUpdate)
| OpExit (uid gid : string) | OpDeleteGroup (gid owner : string)
| OpSettings (r : UpdateGroupRequest) | OpMemberSettings (gid uid level : string) (order : Z)
| OpCreateCategory (r : CreateGroupCategoryRequest) | OpUpdateCategory (c : GroupCategory)
| OpDeleteCategory (id : string) | OpUpload (r : GroupFileUploadRequest)
| OpDeleteFile (id uid : string) | OpPinFile (id : string) (b : bool)
| OpCreatePoll (r : CreatePollRequest) | OpVote (r : VotePollRequest) | OpClosePoll (id uid : string)
| OpMute (gid uid op : string) (until : Z) (reason : option string) | OpUnmute (gid uid op : string)
| OpAnnounce (r : CreateAnnouncementRequest) | OpDeleteAnnouncement (id uid : string)
| OpPinAnnouncement (id : string) (b : bool) | OpChangeRole (gid uid target role : string).

Section ops.
Context (nanoid : nat → string) {pg_server : PgServer}.
Context (options_of_json : string → option (list PollOption)) (json_of_options : list PollOption → string).

Definition run_group_op (op : GroupOp) : IO unit :=
  match op with
  | OpCreateGroup g => void (create_group_with_members g)
  | OpInvite gid uid us => invite_new_members gid uid us
  | OpRemove gid uid us => remove_member gid uid us
  | OpUpdateGroup u => void (update_group u)
  | OpExit uid gid => exit_group uid gid
  | OpDeleteGroup gid owner => void (delete_group gid owner)
  | OpSettings r => void (update_group_settings r)
  | OpMemberSettings gid uid level order => void (update_member_settings gid uid level order)
  | OpCreateCategory r => void (create_group_category nanoid r)
  | OpUpdateCategory c => void (update_group_category c)
  | OpDeleteCategory id => delete_group_category id
  | OpUpload r => void (upload_group_file nanoid r)
  | OpDeleteFile id uid => delete_group_file id uid
  | OpPinFile id b => void (update_file_pin_status id b)
  | OpCreatePoll r => void (create_poll nanoid options_of_json r)
  | OpVote r => void (vote_poll options_of_json json_of_options r)
  | OpClosePoll id uid => void (close_poll options_of_json id uid)
  | OpMute gid uid op until reason => void (mute_group_member nanoid gid uid op until reason)
  | OpUnmute gid uid op => unmute_group_member gid uid op
  | OpAnnounce r => void (create_announcement nanoid r)
  | OpDeleteAnnouncement id uid => delete_announcement id uid
  | OpPinAnnouncement id b => void (pin_announcement id b)
  | OpChangeRole gid uid target role => void (change_member_role gid uid target role)
  end.

(** ** The foreign keys *)

Record fk_ok (p : Pg) : Prop := {
  fk_files : ∀ id f, t_files p !! id = Some f → is_Some (t_groups p !! f_group_id f);
  fk_polls : ∀ id r, t_polls p !! id = Some r → is_Some (t_groups p !! p_group_id r);
  fk_announcements : ∀ id a, t_announcements p !! id = Some a → is_Some (t_groups p !! a_group_id a);
  fk_mutes : ∀ id m, t_mutes p !! id = Some m → is_Some (t_members p !! (mu_group_id m, mu_user_id m))
}.

(** One step on the tables, and the frame it gives for the programs. *)
Definition pstep (p p' : Pg) : Prop :=
  (fk_ok p → fk_ok p') ∧ dom (t_groups p') = dom (t_groups p).
Abbreviation group_frame := (pg_frame pstep).

Global Instance pstep_preorder : PreOrder pstep.
Proof. split; [by intros p|]. intros p1 p2 p3 [H1 H2] [H3 H4]. split; [tauto|congruence]. Qed.

(** A change of tables that no foreign key looks at, and of the rows of the
    referring tables that keeps what they refer to. *)
Lemma pstep_refs p p' :
  (∀ id f, t_files p' !! id = Some f → is_Some (t_groups p !! f_group_id f)
     ∨ ∃ id' f', t_files p !! id' = Some f' ∧ f_group_id f' = f_group_id f) →
  (∀ id f, t_polls p' !! id = Some f → is_Some (t_groups p !! p_group_id f)
     ∨ ∃ id' f', t_polls p !! id' = Some f' ∧ p_group_id f' = p_group_id f) →
  (∀ id f, t_announcements p' !! id = Some f → is_Some (t_groups p !! a_group_id f)
     ∨ ∃ id' f', t_announcements p !! id' = Some f' ∧ a_group_id f' = a_group_id f) →
  (fk_ok p → ∀ id m, t_mutes p' !! id = Some m → is_Some (t_members p' !! (mu_group_id m, mu_user_id m))) →
  dom (t_groups p') = dom (t_groups p) → pstep p p'.
Proof.
  intros Hf Hp Ha Hm Hdom.
  assert (Hg : ∀ g, is_Some (t_groups p !! g) → is_Some (t_groups p' !! g)).
  { intros g. by rewrite <- !elem_of_dom, Hdom. }
  split; [|done]. intros Hok. split; [..|by apply Hm].
  - intros id f Hid. apply Hg. destruct (Hf id f Hid) as [?|(id' & f' & H' & <-)]; [done|].
    by eapply fk_files.
  - intros id f Hid. apply Hg. destruct (Hp id f Hid) as [?|(id' & f' & H' & <-)]; [done|].
    by eapply fk_polls.
  - intros id f Hid. apply Hg. destruct (Ha id f Hid) as [?|(id' & f' & H' & <-)]; [done|].
    by eapply fk_announcements.
Qed.

(** Changes of the members and mutes alone. *)
Lemma pstep_members p f h :
  (fk_ok p → ∀ id m, h (t_mutes p) !! id = Some m →
     is_Some (f (t_members p) !! (mu_group_id m, mu_user_id m))) →
  pstep p (upd_mutes h (upd_members f p)).
Proof. intros H. apply pstep_refs; eauto. Qed.

Lemma pstep_members_only p f :
  (∀ k, is_Some (t_members p !! k) → is_Some (f (t_members p) !! k)) → pstep p (upd_members f p).
Proof.
  intros H. change (upd_members f p) with (upd_mutes (λ x, x) (upd_members f p)) at 1.
  apply pstep_members. intros Hok id m Hm. apply H. by eapply fk_mutes.
Qed.

Lemma pstep_drop_members p gid gone : pstep p (drop_members gid gone p).
Proof.
  apply pstep_members. intros Hok id m [Hm Hkeep]%map_lookup_filter_Some. simpl in Hkeep.
  destruct (fk_mutes p Hok id m Hm) as [row Hrow]. exists row.
  apply map_lookup_filter_Some. by split.
Qed.

Lemma pstep_set_muted p b gid u : pstep p (set_muted b gid u p).
Proof.
  apply pstep_members_only. intros k Hk. destruct (decide (k = (gid, u))) as [->|?].
  - rewrite lookup_alter_eq. by destruct Hk as [? ->].
  - by rewrite lookup_alter_ne.
Qed.

Lemma lookup_insert_cases {A} (m : gmap string A) k a k' x :
  <[k := a]> m !! k' = Some x → x = a ∨ m !! k' = Some x.
Proof. rewrite lookup_insert. case_decide; intros; simplify_eq; auto. Qed.

Lemma frame_membership :
  (∀ gid uid us, keeps group_frame (invite_new_members gid uid us))
  ∧ (∀ gid uid us, keeps group_frame (remove_member gid uid us))
  ∧ (∀ uid gid, keeps group_frame (exit_group uid gid))
  ∧ (∀ gid uid op until reason, keeps group_frame (mute_group_member nanoid gid uid op until reason))
  ∧ (∀ gid uid op, keeps group_frame (unmute_group_member gid uid op))
  ∧ (∀ gid uid target role, keeps group_frame (change_member_role gid uid target role)).
Proof.
  split_and!; intros.
  - unfold invite_new_members. frame_split. apply pstep_members_only.
    intros k. apply insert_invited_keeps.
  - unfold remove_member. frame_split. destruct (manages _ _ _); [|reflexivity].
    apply pstep_drop_members.
  - unfold exit_group. frame_split. apply pstep_drop_members.
  - unfold mute_group_member. frame_split.
    + intros p res p'. destruct (_ && _) eqn:Hc; [|done]. intros [= <- <-].
      apply andb_prop in Hc as [_ Hm%bool_decide_eq_true_1].
      apply (pstep_members p (λ x, x) (insert _ _)). intros Hok id' m' [->|H']%lookup_insert_cases;
        [exact Hm|by eapply fk_mutes].
    + apply pstep_set_muted.
  - unfold unmute_group_member. frame_split.
    + apply (pstep_members p (λ x, x) (fmap _)). intros Hok id m.
      rewrite lookup_fmap. intros (m' & Hm' & ->)%fmap_Some.
      apply (fk_mutes p Hok) in Hm'. by destruct (_ && _).
    + apply pstep_set_muted.
  - unfold change_member_role. frame_split. intros p m p'.
    destruct (role_of_text role); simpl; [|done].
    destruct (t_members p !! (gid, target)) eqn:E; simpl; [|done]. intros [= <- <-].
    apply pstep_members_only. intros k Hk. rewrite lookup_insert. by case_decide.
Qed.
Lemma pstep_files p h :
  (∀ id f, h (t_files p) !! id = Some f → is_Some (t_groups p !! f_group_id f)
     ∨ ∃ id' f', t_files p !! id' = Some f' ∧ f_group_id f' = f_group_id f) → pstep p (upd_files h p).
Proof. intros H. apply pstep_refs; [exact H|eauto..|]; [intros Hok; apply Hok|done]. Qed.

Lemma pstep_polls p h :
  (∀ id f, h (t_polls p) !! id = Some f → is_Some (t_groups p !! p_group_id f)
     ∨ ∃ id' f', t_polls p !! id' = Some f' ∧ p_group_id f' = p_group_id f) → pstep p (upd_polls h p).
Proof. intros H. apply pstep_refs; [eauto|exact H|eauto..|]; [intros Hok; apply Hok|done]. Qed.

Lemma pstep_announcements p h :
  (∀ id f, h (t_announcements p) !! id = Some f → is_Some (t_groups p !! a_group_id f)
     ∨ ∃ id' f', t_announcements p !! id' = Some f' ∧ a_group_id f' = a_group_id f) →
  pstep p (upd_announcements h p).
Proof. intros H. apply pstep_refs; [eauto|eauto|exact H|intros Hok; apply Hok|done]. Qed.

Lemma pstep_groups p h : dom (h (t_groups p)) = dom (t_groups p) → pstep p (upd_groups h p).
Proof. intros H. apply pstep_refs; [eauto..|intros Hok; apply Hok|exact H]. Qed.

Lemma pstep_categories p h : pstep p (upd_categories h p).
Proof. apply pstep_refs; [eauto..|intros Hok; apply Hok|done]. Qed.

Lemma insert_in_group_spec {R} (tbl : Pg → gmap string R) upd gid id r cells p rows p' :
  insert_in_group tbl upd gid id r cells p = Some (rows, p') →
  is_Some (t_groups p !! gid) ∧ p' = upd (insert id r) p.
Proof.
  unfold insert_in_group, group_exists. destruct (_ && _) eqn:E; [|done]. intros [= _ <-].
  apply andb_prop in E as [_ ?%bool_decide_eq_true_1]. done.
Qed.

Lemma frame_content :
  (∀ r, keeps group_frame (upload_group_file nanoid r))
  ∧ (∀ id uid, keeps group_frame (delete_group_file id uid))
  ∧ (∀ id b, keeps group_frame (update_file_pin_status id b))
  ∧ (∀ r, keeps group_frame (create_poll nanoid options_of_json r))
  ∧ (∀ r, keeps group_frame (vote_poll options_of_json json_of_options r))
  ∧ (∀ id uid, keeps group_frame (close_poll options_of_json id uid))
  ∧ (∀ r, keeps group_frame (create_announcement nanoid r))
  ∧ (∀ id uid, keeps group_frame (delete_announcement id uid))
  ∧ (∀ id b, keeps group_frame (pin_announcement id b)).
Proof.
  split_and!; intros.
  - unfold upload_group_file. frame_split. intros p rows p' [Hg ->]%insert_in_group_spec.
    apply pstep_files. intros id f [->|H]%lookup_insert_cases; eauto.
  - unfold delete_group_file. frame_split. apply pstep_files.
    intros id' f [_ H]%lookup_delete_Some. eauto.
  - unfold update_file_pin_status. frame_split. intros p rows p'. apply frame_update; [apply _|].
    intros r Hr. apply pstep_files.
    intros id' f [->|H]%lookup_insert_cases; eauto.
  - unfold create_poll. frame_split.
    + clear. induction (cp_options r) as [|x l IH]; simpl; frame_split. exact IH.
    + intros p rows p' [Hg ->]%insert_in_group_spec.
      apply pstep_polls. intros id f [->|H]%lookup_insert_cases; eauto.
  - unfold vote_poll. frame_split. intros p rows p'.
    destruct (options_of_json _); [|done]. apply frame_update; [apply _|]. intros x Hx. apply pstep_polls.
    intros id' f [->|H]%lookup_insert_cases; eauto.
  - unfold close_poll. frame_split. intros p rows p'. apply frame_update; [apply _|].
    intros r Hr. apply pstep_polls. intros id' f [->|H]%lookup_insert_cases; eauto.
  - unfold create_announcement. frame_split.
    intros p rows p' [Hg ->]%insert_in_group_spec.
    apply pstep_announcements. intros id f [->|H]%lookup_insert_cases; eauto.
  - unfold delete_announcement. frame_split. apply pstep_announcements.
    intros id' f [_ H]%lookup_delete_Some. eauto.
  - unfold pin_announcement. frame_split. intros p rows p'. apply frame_update; [apply _|].
    intros r Hr. apply pstep_announcements.
    intros id' f [->|H]%lookup_insert_cases; eauto.
Qed.

Lemma frame_data :
  (∀ g, keeps group_frame (create_group_with_members g))
  ∧ (∀ u, keeps group_frame (update_group u))
  ∧ (∀ gid owner, keeps group_frame (delete_group gid owner))
  ∧ (∀ r, keeps group_frame (update_group_settings r))
  ∧ (∀ gid uid level order, keeps group_frame (update_member_settings gid uid level order))
  ∧ (∀ r, keeps group_frame (create_group_category nanoid r))
  ∧ (∀ c, keeps group_frame (update_group_category c))
  ∧ (∀ id, keeps group_frame (delete_group_category id)).
Proof.
  split_and!; intros.
  - apply frame_same; [apply _|]. intros w. apply never_ok_rolls_back, create_body_never_ok.
  - unfold update_group. frame_split. intros p rows p'. apply frame_update; [apply _|].
    intros r Hr. apply pstep_groups. rewrite dom_insert_L. apply elem_of_dom_2 in Hr. set_solver.
  - apply frame_same; [apply _|]. intros w. apply never_ok_rolls_back, delete_body_never_ok.
  - unfold update_group_settings. by frame_split.
  - unfold update_member_settings. frame_split. intros p rows p'. apply frame_update; [apply _|].
    intros r Hr. apply pstep_members_only. intros k Hk. rewrite lookup_insert. by case_decide.
  - unfold create_group_category. frame_split. intros p rows p'.
    case_bool_decide; [|done]. intros [= _ <-]. apply pstep_categories.
  - unfold update_group_category. frame_split. intros p rows p'. apply frame_update; [apply _|].
    intros r Hr. apply pstep_categories.
  - unfold delete_group_category. frame_split.
    + apply pstep_groups. by rewrite dom_fmap_L.
    + apply pstep_categories.
Qed.

Lemma group_op_frame op : keeps group_frame (run_group_op op).
Proof.
  destruct frame_membership as (?&?&?&?&?&?). destruct frame_content as (?&?&?&?&?&?&?&?&?).
  destruct frame_data as (?&?&?&?&?&?&?&?).
  destruct op; simpl; try (apply frame_void; [apply _|]); auto.
Qed.

(** C16. Every writing operation of the group store, under any schedule of
    faults and whatever it answers, keeps the foreign keys of the files, polls,
    announcements and mute records, and leaves the set of groups what it is: no
    group is ever created or deleted. *)
Theorem group_ops_keep_references (op : GroupOp) (w : World) :
  (fk_ok (w_pg w) → fk_ok (w_pg (run_group_op op w).2))
  ∧ dom (t_groups (w_pg (run_group_op op w).2)) = dom (t_groups (w_pg w)).
Proof. exact (group_op_frame op w). Qed.
End ops.

#[local] Existing Instance no_server.

Lemma club_files_ok : fk_ok (w_pg club_files).
Proof.
  split; simpl; intros id x; rewrite ?lookup_empty; try done.
  rewrite lookup_singleton_Some. intros [_ <-]. by eexists.
Qed.

Lemma group_ops_keep_references_witness :
  fk_ok (w_pg (run_group_op (λ _, "n"%string) (λ _, None) (λ _, ""%string)
                 (OpRemove "g" "bob" ["carol"%string]) club_files).2).
Proof.
  apply (proj1 (group_ops_keep_references (λ _, "n"%string) (λ _, None) (λ _, ""%string)
    (OpRemove "g" "bob" ["carol"%string]) club_files)). exact club_files_ok.
Defined.
