(* ===== verification/UserStore.v ===== *)
(** * The user store ([db/src/postgres/user.rs], password helpers of [utils/src/lib.rs])

    Accounts: creation together with the sequence row, lookups, updates, the
    password check and its change. Argon2 and the salt generator are
    parameters with the laws their documentation gives. *)

From S2P Require Import Prelude Errors Types Tables World Sql Records.

(** ** Password hashing *)

Record Argon2 : Type := mkArgon2 {
  salt_gen : nat → string;                       (* SaltString::generate *)
  salt_ok : string → bool;                       (* SaltString::from_b64 succeeds *)
  argon2_hash : string → string → option string; (* password, salt *)
  phc_ok : string → bool;                        (* PasswordHash::new succeeds *)
  argon2_verify : string → string → bool         (* password, hash *)
}.

Class Argon2Laws (a : Argon2) : Prop := {
  salt_gen_ok : ∀ n, salt_ok a (salt_gen a n) = true;
  hash_parses : ∀ pw s h, argon2_hash a pw s = Some h → phc_ok a h = true;
  hash_verifies : ∀ pw s h, argon2_hash a pw s = Some h → argon2_verify a pw h = true
}.

Record UserUpdate : Type := mkUserUpdate {
  uu_id : string; uu_name : string; uu_avatar : string; uu_gender : string; uu_phone : string;
  uu_email : string; uu_address : string; uu_region : string; uu_birthday : Z;
  uu_signature : string; uu_status : string; uu_status_message : string;
  uu_privacy_settings : string; uu_notification_settings : string; uu_language : string;
  uu_friend_requests_privacy : string; uu_profile_visibility : string; uu_theme : string;
  uu_timezone : string
}.

Section users.
Context (argon : Argon2).

Definition generate_salt : IO string := λ w, (Ok (salt_gen argon (w_ids w)), upd_ids S w).

(** An unusable salt panics. *)
Definition hash_password (password salt : string) : IO string :=
  if salt_ok argon salt
  then from_option (internal_with_details "argon2") (argon2_hash argon password salt)
  else panic.

(** ** Creation: the account and its sequence row in one transaction *)

Definition stored_user (user : User) (now : Z) : User :=
  mkUser (u_id user) (u_name user) (u_account user) (u_password user) (u_avatar user)
    (u_gender user) (u_age user) (u_phone user) (u_email user) (u_address user) (u_region user)
    (u_birthday user) now now (u_salt user) (u_signature user) (Some now) (u_last_login_ip user)
    (u_two_factor_enabled user) (u_account_status user) (u_status user) (Some now)
    (u_status_message user) (u_privacy_settings user) (u_notification_settings user)
    (u_language user) (u_friend_requests_privacy user) (u_profile_visibility user)
    (u_theme user) (u_timezone user) false.

Definition create_user (init_max_seq : Z) (user : User) : IO User :=
  now ← now_ms;
  transaction (
    result ← exec_one user_from_row (λ p,
      if bool_decide (t_users p !! u_id user = None)
      then Some ([user_cells (stored_user user now)], upd_users (insert (u_id user) (stored_user user now)) p)
      else None);
    pg_exec (λ p,
      if bool_decide (t_sequence p !! u_id user = None)
      then Some (tt, upd_sequence (insert (u_id user) (mkSeqRow init_max_seq init_max_seq)) p)
      else None) ;;
    mret result).

(** ** Lookups; several accounts may match, the first in storage order is read *)

Definition users_where (f : User → bool) (p : Pg) : list User :=
  List.filter f (snd <$> map_to_list (t_users p)).

Definition is_text (o : option string) (s : string) : bool := bool_decide (o = Some s).

Definition get_user_by_id (id : string) : IO (option User) :=
  query_optional user_from_row (λ p, match t_users p !! id with Some u => [user_cells u] | None => [] end).

Definition get_user_by_email (email : string) : IO (option User) :=
  query_optional user_from_row (λ p, user_cells <$> users_where (λ u, is_text (u_email u) email) p).

Definition match_type (pattern : string) (u : User) : option string :=
  if is_text (u_phone u) pattern then Some "phone"%string
  else if is_text (u_email u) pattern then Some "email"%string
  else if bool_decide (u_account u = pattern) then Some "account"%string
  else None.

Definition search_cells (pattern : string) (u : User) : Row :=
  [ ("id", Some (VText (u_id u))); ("name", Some (VText (u_name u)));
    ("account", Some (VText (u_account u))); ("avatar", Some (VText (u_avatar u)));
    ("gender", Some (VText (u_gender u))); ("age", Some (VInt4 (u_age u)));
    ("email", VText <$> u_email u); ("region", VText <$> u_region u);
    ("birthday", VInt8 <$> u_birthday u); ("signature", Some (VText (u_signature u)));
    ("status", Some (VText (u_status u))); ("last_active_time", VInt8 <$> u_last_active_time u);
    ("profile_visibility", Some (VText (u_profile_visibility u)));
    ("match_type", VText <$> match_type pattern u) ]%string.

Definition search_user (user_id pattern : string) : IO (option UserWithMatchType) :=
  query_optional user_match_from_row (λ p, search_cells pattern <$> users_where (λ u,
    bool_decide (u_id u ≠ user_id)
    && (is_text (u_email u) pattern || is_text (u_phone u) pattern || bool_decide (u_account u = pattern))
    && negb (u_is_delete u)) p).

(** ** Updates *)

(** [COALESCE(NULLIF($n, empty), column)], for a column that may be NULL or not *)
Definition keep_text (new old : string) : string := if bool_decide (new = ""%string) then old else new.
Definition keep_opt (new : string) (old : option string) : option string :=
  if bool_decide (new = ""%string) then old else Some new.
Definition keep_json (new old : string) : string := if bool_decide (new = "{}"%string) then old else new.
Definition keep_int (new : Z) (old : option Z) : option Z :=
  if bool_decide (new = 0%Z) then old else Some new.

Definition apply_update (u : UserUpdate) (now : Z) (r : User) : User :=
  mkUser (u_id r) (keep_text (uu_name u) (u_name r)) (u_account r) (u_password r)
    (keep_text (uu_avatar u) (u_avatar r)) (keep_text (uu_gender u) (u_gender r)) (u_age r)
    (keep_opt (uu_phone u) (u_phone r)) (keep_opt (uu_email u) (u_email r))
    (keep_opt (uu_address u) (u_address r)) (keep_opt (uu_region u) (u_region r))
    (keep_int (uu_birthday u) (u_birthday r)) (u_create_time r) now (u_salt r)
    (keep_text (uu_signature u) (u_signature r)) (u_last_login_time r) (u_last_login_ip r)
    (u_two_factor_enabled r) (u_account_status r) (keep_text (uu_status u) (u_status r))
    (u_last_active_time r) (keep_opt (uu_status_message u) (u_status_message r))
    (keep_json (uu_privacy_settings u) (u_privacy_settings r))
    (keep_json (uu_notification_settings u) (u_notification_settings r))
    (keep_text (uu_language u) (u_language r))
    (keep_text (uu_friend_requests_privacy u) (u_friend_requests_privacy r))
    (keep_text (uu_profile_visibility u) (u_profile_visibility r))
    (keep_text (uu_theme u) (u_theme r)) (keep_text (uu_timezone u) (u_timezone r)) (u_is_delete r).

Definition update_user (user : UserUpdate) : IO User :=
  now ← now_ms;
  exec_one user_from_row (update_returning t_users upd_users (uu_id user) (apply_update user now) user_cells).

(** [UPDATE users SET .. WHERE id = $1] *)
Definition alter_user (id : string) (f : User → User) : IO unit :=
  pg_exec (λ p, Some (tt, upd_users (alter f id) p)).

Definition with_region (region : option string) (u : User) : User :=
  mkUser (u_id u) (u_name u) (u_account u) (u_password u) (u_avatar u) (u_gender u) (u_age u)
    (u_phone u) (u_email u) (u_address u) region (u_birthday u) (u_create_time u)
    (u_update_time u) (u_salt u) (u_signature u) (u_last_login_time u) (u_last_login_ip u)
    (u_two_factor_enabled u) (u_account_status u) (u_status u) (u_last_active_time u)
    (u_status_message u) (u_privacy_settings u) (u_notification_settings u) (u_language u)
    (u_friend_requests_privacy u) (u_profile_visibility u) (u_theme u) (u_timezone u) (u_is_delete u).
Definition with_password (salt password : string) (u : User) : User :=
  mkUser (u_id u) (u_name u) (u_account u) password (u_avatar u) (u_gender u) (u_age u)
    (u_phone u) (u_email u) (u_address u) (u_region u) (u_birthday u) (u_create_time u)
    (u_update_time u) salt (u_signature u) (u_last_login_time u) (u_last_login_ip u)
    (u_two_factor_enabled u) (u_account_status u) (u_status u) (u_last_active_time u)
    (u_status_message u) (u_privacy_settings u) (u_notification_settings u) (u_language u)
    (u_friend_requests_privacy u) (u_profile_visibility u) (u_theme u) (u_timezone u) (u_is_delete u).
Definition with_status (status : string) (message : option string) (now : Z) (u : User) : User :=
  mkUser (u_id u) (u_name u) (u_account u) (u_password u) (u_avatar u) (u_gender u) (u_age u)
    (u_phone u) (u_email u) (u_address u) (u_region u) (u_birthday u) (u_create_time u)
    (u_update_time u) (u_salt u) (u_signature u) (u_last_login_time u) (u_last_login_ip u)
    (u_two_factor_enabled u) (u_account_status u) status (Some now)
    (match message with Some m => Some m | None => u_status_message u end)
    (u_privacy_settings u) (u_notification_settings u) (u_language u)
    (u_friend_requests_privacy u) (u_profile_visibility u) (u_theme u) (u_timezone u) (u_is_delete u).

Definition update_region (user_id region : string) : IO unit := alter_user user_id (with_region (Some region)).

Definition update_user_status (user_id status : string) (message : option string) : IO unit :=
  now ← now_ms; alter_user user_id (with_status status message now).

Definition with_login (now : Z) (ip : string) (u : User) : User :=
  mkUser (u_id u) (u_name u) (u_account u) (u_password u) (u_avatar u) (u_gender u) (u_age u)
    (u_phone u) (u_email u) (u_address u) (u_region u) (u_birthday u) (u_create_time u)
    (u_update_time u) (u_salt u) (u_signature u) (Some now) (Some ip)
    (u_two_factor_enabled u) (u_account_status u) (u_status u) (u_last_active_time u)
    (u_status_message u) (u_privacy_settings u) (u_notification_settings u) (u_language u)
    (u_friend_requests_privacy u) (u_profile_visibility u) (u_theme u) (u_timezone u) (u_is_delete u).

(** The statement also sets [login_attempts], a column [users] does not have. *)
Definition login_info_stmt : Stmt :=
  sets "users" [("last_login_time", TInt8); ("last_login_ip", TText); ("login_attempts", TInt4)]
  ++ cmps "users" [("id", TText)].
Definition update_login_info (user_id ip : string) : IO unit :=
  now ← now_ms;
  pg_stmt login_info_stmt (λ p, Some (tt, upd_users (alter (with_login now ip) user_id) p)).

(** ** Passwords *)

Definition clear_password (u : User) : User := with_password (u_salt u) "" u.

Definition verify_pwd (account password : string) : IO (option User) :=
  user ← query_optional user_from_row (λ p, user_cells <$> users_where (λ u,
           bool_decide (u_account u = account) || is_text (u_phone u) account
           || is_text (u_email u) account) p);
  match user with
  | None => mret None
  | Some user =>
      if negb (phc_ok argon (u_password user))
      then throw (internal_with_details "password_hash")
      else
        let is_valid := argon2_verify argon password (u_password user) in
        let user := clear_password user in
        mret (if is_valid then Some user else None)
  end.

Definition modify_pwd (user_id password : string) : IO unit :=
  user ← query_one user_from_row (λ p,
           match t_users p !! user_id with Some u => [user_cells u] | None => [] end);
  salt ← (if bool_decide (u_salt user = ""%string) then generate_salt else mret (u_salt user));
  password ← hash_password password salt;
  alter_user user_id (with_password salt password).
End users.

(** ** Properties *)

Section user_properties.
Context (argon : Argon2).

Lemma query_user_run w id :
  healthy w →
  query_one user_from_row (λ p, match t_users p !! id with Some u => [user_cells u] | None => [] end) w
  = (match t_users (w_pg w) !! id with Some u => Ok u | None => Err pg_error end, w).
Proof.
  intros Hw. unfold query_one. erewrite bind_ok by (by apply pg_query_run).
  destruct (t_users (w_pg w) !! id) as [u|]; cbn [fetch_one]; [by rewrite user_decodes|done].
Qed.

Lemma query_users_run w (f : User → bool) :
  healthy w →
  query_optional user_from_row (λ p, user_cells <$> users_where f p) w
  = (Ok (head (users_where f (w_pg w))), w).
Proof.
  intros Hw. apply query_optional_run; [done|].
  destruct (users_where f (w_pg w)) as [|u us]; [done|].
  cbn [fmap list_fmap fetch_optional]. by rewrite user_decodes.
Qed.

Lemma elem_of_users_where f p u :
  u ∈ users_where f p ↔ (∃ id, t_users p !! id = Some u) ∧ f u = true.
Proof.
  unfold users_where. rewrite list_elem_of_In, filter_In, <- list_elem_of_In, list_elem_of_fmap.
  split; intros [H Hf]; (split; [|done]).
  - destruct H as ([id u'] & -> & H%elem_of_map_to_list). eauto.
  - destruct H as (id & H%elem_of_map_to_list). by exists (id, u).
Qed.

(** The accounts a login name can mean. *)
Definition answers_to (name : string) (u : User) : bool :=
  bool_decide (u_account u = name) || is_text (u_phone u) name || is_text (u_email u) name.

(** Only [u] answers to the name. *)
Definition only_account (p : Pg) (name : string) (u : User) : Prop :=
  ∀ id u', t_users p !! id = Some u' → answers_to name u' = true → u' = u.

Lemma head_only f p u :
  (∃ id, t_users p !! id = Some u) → f u = true →
  (∀ id u', t_users p !! id = Some u' → f u' = true → u' = u) → head (users_where f p) = Some u.
Proof.
  intros Hin Hf Honly. assert (Hu : u ∈ users_where f p) by (by apply elem_of_users_where).
  destruct (users_where f p) as [|x l] eqn:E; [by apply not_elem_of_nil in Hu|].
  assert (Hx : x ∈ users_where f p) by (rewrite E; apply list_elem_of_here).
  apply elem_of_users_where in Hx as [[id Hx] Hfx]. simpl. f_equal. eauto.
Qed.

(** The run of the password check on the one account a name means. *)
Lemma verify_pwd_run name pw w u :
  healthy w → (∃ id, t_users (w_pg w) !! id = Some u) → answers_to name u = true →
  only_account (w_pg w) name u → phc_ok argon (u_password u) = true →
  verify_pwd argon name pw w
  = (Ok (if argon2_verify argon pw (u_password u) then Some (clear_password u) else None), w).
Proof.
  intros Hw Hin Ha Ho Hp. unfold verify_pwd. erewrite bind_ok by (by apply query_users_run).
  pose proof (head_only (answers_to name) (w_pg w) u Hin Ha Ho) as Hh. unfold answers_to in Hh.
  rewrite Hh. by rewrite Hp.
Qed.

Lemma alter_user_run id f w :
  healthy w → alter_user id f w = (Ok tt, upd_pg (upd_users (alter f id)) w).
Proof. intros Hw. unfold alter_user. by erewrite pg_exec_healthy by done. Qed.

(** Changing the password of an account makes the password check accept the
    new password for it, under each of its names, and answers the account
    without its hash; the other accounts are untouched. *)
Theorem modify_then_verify `{!Argon2Laws argon} (id name pw hash : string) (w : World) (u : User)
    (Hnet : healthy w) (Hu : t_users (w_pg w) !! id = Some u)
    (Hsalt : u_salt u ≠ ""%string) (Hok : salt_ok argon (u_salt u) = true)
    (Hhash : argon2_hash argon pw (u_salt u) = Some hash)
    (Hname : answers_to name u = true) (Honly : only_account (w_pg w) name u)
    (Hids : ∀ id' u', t_users (w_pg w) !! id' = Some u' → u_id u' = id') :
  ∃ w', modify_pwd argon id pw w = (Ok tt, w')
    ∧ verify_pwd argon name pw w' = (Ok (Some (clear_password u)), w')
    ∧ (∀ id', id' ≠ id → t_users (w_pg w') !! id' = t_users (w_pg w) !! id').
Proof.
  set (u' := with_password (u_salt u) hash u).
  exists (upd_pg (upd_users (alter (with_password (u_salt u) hash) id)) w). split_and!.
  - unfold modify_pwd. erewrite bind_ok by (by rewrite query_user_run, Hu).
    rewrite bool_decide_eq_false_2 by done. erewrite bind_ok by done.
    unfold hash_password. rewrite Hok, Hhash. erewrite bind_ok by done. by apply alter_user_run.
  - rewrite (verify_pwd_run name pw _ u'); [..|by eapply hash_parses].
    + simpl. by rewrite (hash_verifies pw (u_salt u) hash Hhash).
    + done.
    + exists id. simpl. by rewrite lookup_alter_eq, Hu.
    + exact Hname.
    + intros id' v Hv Ha. simpl in Hv. destruct (decide (id' = id)) as [->|Hne].
      * rewrite lookup_alter_eq, Hu in Hv. by injection Hv as <-.
      * rewrite lookup_alter_ne in Hv by done. exfalso. apply Hne.
        rewrite <- (Hids id' v Hv), (Honly id' v Hv Ha). by apply Hids.
  - intros id' Hne. simpl. by rewrite lookup_alter_ne.
Qed.

Lemma create_user_run (init : Z) (u : User) (w : World) (Hnet : healthy w) :
  (t_users (w_pg w) !! u_id u = None → t_sequence (w_pg w) !! u_id u = None →
     create_user init u w
     = (Ok (stored_user u (w_clock w)),
        upd_pg (λ p, upd_sequence (insert (u_id u) (mkSeqRow init init))
          (upd_users (insert (u_id u) (stored_user u (w_clock w))) p)) w))
  ∧ (is_Some (t_users (w_pg w) !! u_id u) ∨ is_Some (t_sequence (w_pg w) !! u_id u) →
     create_user init u w = (Err pg_error, w)).
Proof.
  unfold create_user. erewrite !bind_ok by done. split.
  - intros Hu Hs. apply transaction_ok; [done| |done].
    erewrite bind_ok.
    2:{ erewrite exec_one_run; [|done|by rewrite bool_decide_eq_true_2 by done].
        cbn [fetch_one]. by rewrite user_decodes. }
    erewrite bind_ok by (apply pg_exec_healthy; [done|]; simpl; by rewrite Hs). done.
  - intros Hex. destruct (t_users (w_pg w) !! u_id u) as [u0|] eqn:Eu.
    + erewrite transaction_err; [|done|].
      2:{ eapply bind_err. unfold exec_one. eapply bind_err.
          apply pg_exec_healthy_err; [done|]. by rewrite Eu. }
      unfold rollback. by rewrite upd_pg_id.
    + destruct Hex as [[? ?]|[s Hs]]; [done|].
      erewrite transaction_err; [|done|].
      2:{ erewrite bind_ok.
          2:{ erewrite exec_one_run; [|done|by rewrite bool_decide_eq_true_2 by done].
              cbn [fetch_one]. by rewrite user_decodes. }
          eapply bind_err. apply pg_exec_healthy_err; [done|]. simpl. by rewrite Hs. }
      unfold rollback. by destruct w.
Qed.

(** Creating an account with a fresh id stores the account, stamped with the
    time, and its two counters at the initial reservation, and answers what is
    stored; with an id that has an account or counters already it is an error
    and no table changes. *)
Theorem create_user_functional (init : Z) (u : User) (w : World) (Hnet : healthy w) :
  (t_users (w_pg w) !! u_id u = None → t_sequence (w_pg w) !! u_id u = None →
     create_user init u w
     = (Ok (stored_user u (w_clock w)),
        upd_pg (λ p, upd_sequence (insert (u_id u) (mkSeqRow init init))
          (upd_users (insert (u_id u) (stored_user u (w_clock w))) p)) w))
  ∧ (is_Some (t_users (w_pg w) !! u_id u) ∨ is_Some (t_sequence (w_pg w) !! u_id u) →
     create_user init u w = (Err pg_error, w)).
Proof. by apply create_user_run. Qed.
End user_properties.

(** A toy instance of the laws, for evaluation. *)
Definition toy_argon : Argon2 :=
  mkArgon2 (λ _, "salt"%string) (λ s, bool_decide (s ≠ ""%string)) (λ pw _, Some ("$" +:+ pw)%string)
    (String.prefix "$") (λ pw h, bool_decide (h = ("$" +:+ pw)%string)).
Global Instance toy_argon_laws : Argon2Laws toy_argon.
Proof.
  split; simpl; [done| |]; intros pw s h [= <-]; [by destruct pw|by apply bool_decide_eq_true].
Qed.

Definition ann : User :=
  mkUser "u1" "Ann" "ann" "$old" "" "" 30 None (Some "ann@x"%string) None None None 0 0 "salt" ""
    None None false "" "" None None "" "" "" "" "" "" "" false.
Definition ann_world : World := upd_pg (upd_users (λ _, {["u1"%string := ann]})) world_empty.

Lemma modify_then_verify_witness :
  ∃ w', modify_pwd toy_argon "u1" "new" ann_world = (Ok tt, w')
    ∧ verify_pwd toy_argon "ann@x" "new" w' = (Ok (Some (clear_password ann)), w').
Proof.
  destruct (modify_then_verify toy_argon "u1" "ann@x" "new" "$new" ann_world ann
    eq_refl eq_refl ltac:(discriminate) eq_refl eq_refl eq_refl) as (w' & H1 & H2 & _).
  - intros id u' H _. simpl in H. apply lookup_singleton_Some in H as [_ <-]. reflexivity.
  - intros id u' H. simpl in H. apply lookup_singleton_Some in H as [<- <-]. reflexivity.
  - exists w'. split; [exact H1|exact H2].
Defined.

Lemma create_user_functional_witness :
  ∃ w', create_user 100 ann world_empty = (Ok (stored_user ann 0), w')
    ∧ create_user 100 ann w' = (Err pg_error, w').
Proof.
  eexists. split.
  - apply (proj1 (create_user_functional 100 ann world_empty eq_refl)); reflexivity.
  - refine (proj2 (create_user_functional 100 ann _ _) _); [reflexivity|left; eexists; reflexivity].
Defined.

(** ** All writing operations *)

Inductive UserOp : Type :=
| OpCreateUser (init : Z) (u : User) | OpUpdateUser (u : UserUpdate) | OpRegion (id region : string)
| OpStatus (id status : string) (m : option string) | OpLoginInfo (id ip : string)
| OpModifyPwd (id pw : string).

Definition run_user_op (argon : Argon2) (op : UserOp) : IO unit :=
  match op with
  | OpCreateUser init u => create_user init u ;; mret tt
  | OpUpdateUser u => update_user u ;; mret tt
  | OpRegion id region => update_region id region
  | OpStatus id status m => update_user_status id status m
  | OpLoginInfo id ip => update_login_info id ip
  | OpModifyPwd id pw => modify_pwd argon id pw
  end.

(** Every account is stored under its id and has counters. *)
Definition users_ok (p : Pg) : Prop :=
  ∀ id u, t_users p !! id = Some u → u_id u = id ∧ is_Some (t_sequence p !! id).

(** What an operation may do to an existing account's login: its account name
    never changes; its password, to the hash of the one that is asked for, with
    the old salt if there was one; its phone number and e-mail address, which
    are login names too, to the ones of an update of this account that gives
    some. *)
Record login_kept (argon : Argon2) (op : UserOp) (id : string) (u u' : User) : Prop := {
  lk_account : u_account u' = u_account u;
  lk_password : (u_password u' = u_password u ∧ u_salt u' = u_salt u)
    ∨ (∃ pw, op = OpModifyPwd id pw ∧ argon2_hash argon pw (u_salt u') = Some (u_password u')
             ∧ (u_salt u ≠ ""%string → u_salt u' = u_salt u));
  lk_phone : u_phone u' = u_phone u
    ∨ (∃ up, op = OpUpdateUser up ∧ uu_id up = id ∧ uu_phone up ≠ ""%string ∧ u_phone u' = Some (uu_phone up));
  lk_email : u_email u' = u_email u
    ∨ (∃ up, op = OpUpdateUser up ∧ uu_id up = id ∧ uu_email up ≠ ""%string ∧ u_email u' = Some (uu_email up))
}.

Record user_step (argon : Argon2) (op : UserOp) (p p' : Pg) : Prop := {
  us_ok : users_ok p → users_ok p';
  us_login : ∀ id u, t_users p !! id = Some u →
    ∃ u', t_users p' !! id = Some u' ∧ login_kept argon op id u u';
  us_new : ∀ id, is_Some (t_users p' !! id) →
    is_Some (t_users p !! id) ∨ ∃ init u, op = OpCreateUser init u ∧ u_id u = id
}.
Definition user_frame (argon : Argon2) (op : UserOp) (w w' : World) : Prop := user_step argon op (w_pg w) (w_pg w').

Section user_steps.
Context (argon : Argon2) (op : UserOp).

Lemma login_same id u u' :
  u_account u' = u_account u → u_password u' = u_password u → u_salt u' = u_salt u →
  u_phone u' = u_phone u → u_email u' = u_email u → login_kept argon op id u u'.
Proof. split; auto. Qed.

Lemma login_kept_trans id u1 u2 u3 :
  login_kept argon op id u1 u2 → login_kept argon op id u2 u3 → login_kept argon op id u1 u3.
Proof.
  intros [Ha Hp Hph He] [Ha' Hp' Hph' He']. split; [congruence|..].
  - destruct Hp' as [[-> ->]|(pw & ? & ? & Hs)]; [exact Hp|]. right. exists pw. split_and!; [done..|].
    intros Hne. destruct Hp as [[_ Hs1]|(? & _ & _ & Hs1)]; [|specialize (Hs1 Hne)]; rewrite Hs; congruence.
  - destruct Hph' as [->|?]; [exact Hph|by right].
  - destruct He' as [->|?]; [exact He|by right].
Qed.

Global Instance user_step_preorder : PreOrder (user_step argon op).
Proof.
  split; [intros p; split; [done|intros id u ?; exists u; split; [done|by apply login_same]|by left]|].
  intros p1 p2 p3 [H1 H2 H3] [H4 H5 H6]. split; [auto| |].
  - intros id u Hu. destruct (H2 id u Hu) as (u2 & Hu2 & Hc2). destruct (H5 id u2 Hu2) as (u3 & Hu3 & Hc3).
    exists u3. split; [done|by apply (login_kept_trans _ _ u2)].
  - intros id [H|H]%H6; [by apply H3|by right].
Qed.
Global Instance user_frame_preorder : PreOrder (user_frame argon op).
Proof. split; [intros w; apply user_step_preorder|]. intros w1 w2 w3. apply user_step_preorder. Qed.

Lemma user_step_alter f id p :
  (∀ u, u_id (f u) = u_id u) → (∀ u, t_users p !! id = Some u → login_kept argon op id u (f u)) →
  user_step argon op p (upd_users (alter f id) p).
Proof.
  intros Hid Hc. split; simpl.
  - intros Hok id' u Hu. simpl in *. destruct (decide (id' = id)) as [->|Hne].
    + rewrite lookup_alter_eq in Hu. apply fmap_Some in Hu as (u0 & Hu0 & ->).
      rewrite Hid. by apply Hok.
    + rewrite lookup_alter_ne in Hu by done. by apply Hok.
  - intros id' u Hu. destruct (decide (id' = id)) as [->|Hne].
    + rewrite lookup_alter_eq, Hu. simpl. eauto.
    + rewrite lookup_alter_ne by done. exists u. split; [done|by apply login_same].
  - intros id' H. left. revert H. destruct (decide (id' = id)) as [->|Hne].
    + rewrite lookup_alter_eq. by rewrite fmap_is_Some.
    + by rewrite lookup_alter_ne.
Qed.

Lemma user_frame_pg {A} (q : Pg → option (A * Pg)) :
  (∀ p a p', q p = Some (a, p') → user_step argon op p p') → keeps (user_frame argon op) (pg_exec q).
Proof.
  intros H. apply keeps_pg_exec; [apply _|intros w fs; apply (reflexivity (R := user_step argon op))|].
  intros w a p Hq. exact (H _ _ _ Hq).
Qed.

Lemma user_frame_alter f id :
  (∀ u, u_id (f u) = u_id u) → (∀ u, login_kept argon op id u (f u)) → keeps (user_frame argon op) (alter_user id f).
Proof. intros H1 H2. apply user_frame_pg. intros p a p' [= _ <-]. by apply user_step_alter. Qed.
End user_steps.

Lemma query_user_cases id w r w1 :
  query_one user_from_row (λ p, match t_users p !! id with Some u => [user_cells u] | None => [] end) w = (r, w1) →
  w_pg w1 = w_pg w ∧ (∀ u, r = Ok u → t_users (w_pg w) !! id = Some u).
Proof.
  unfold query_one, pg_query, pg_exec, remote, mbind, M_bind.
  destruct w as [redis pg mongo kafka pushed ws reg act cach faults clock ids]. unfold take_fault. simpl.
  destruct faults as [|[] fs]; simpl; try (by intros [= <- <-]);
    destruct (t_users pg !! id) as [u|]; simpl; rewrite ?user_decodes; simpl; intros [= <- <-];
    (split; [done|by intros ? [= <-]]).
Qed.

(** One transaction that inserts the account and then its counters. *)
Lemma create_user_step argon init u w : user_frame argon (OpCreateUser init u) w (create_user init u w).2.
Proof.
  unfold create_user. erewrite bind_ok by done. generalize (w_clock w). intros now.
  match goal with |- context [transaction ?body] => set (m := body) end.
  destruct (transaction_atomic m w) as [Hpg|(v & a & Hv & Ha & Hpg & _)];
    unfold user_frame; rewrite Hpg; [reflexivity|]. rewrite <- Hv. clear Hpg Hv w. revert Ha.
  unfold m, exec_one, pg_exec, remote, mbind, M_bind.
  destruct v as [redis pg mongo kafka pushed ws reg act cach faults clock ids]. unfold take_fault. simpl.
  destruct faults as [|[] [|[] fs]]; simpl; try done;
    case_bool_decide as Hu; simpl; try done; rewrite user_decodes; simpl; try done;
    case_bool_decide as Hs; simpl; try done; intros _.
  all: split; simpl; [|intros id v Hv; exists v; split; [|by apply login_same];
                rewrite lookup_insert_ne; [done|congruence]
               |intros id; rewrite lookup_insert; case_decide; [subst; right; eauto|by left]].
  all: intros Hok id v Hv; simpl in *; rewrite lookup_insert in Hv; rewrite lookup_insert;
    case_decide; simplify_eq; [split; [done|by eexists]|by apply Hok].
Qed.

Lemma update_user_step argon up now w :
  user_frame argon (OpUpdateUser up) w
    (exec_one user_from_row (update_returning t_users upd_users (uu_id up) (apply_update up now) user_cells) w).2.
Proof.
  revert w. apply keeps_bind; [apply _| |intros rows; apply keeps_from_option; apply _].
  apply user_frame_pg. intros p rows p'. unfold update_returning.
  destruct (t_users p !! uu_id up) as [r|] eqn:E; intros [= _ <-]; [|reflexivity].
  replace (upd_users _ p) with (upd_users (alter (apply_update up now) (uu_id up)) p).
  - apply user_step_alter; [done|]. intros u _. split; simpl; unfold keep_opt; auto;
      case_bool_decide; eauto 8.
  - unfold upd_users. f_equal. rewrite <- (insert_id (t_users p) (uu_id up) r) at 1 by done.
    by rewrite alter_insert_eq.
Qed.

Lemma modify_pwd_step argon id pw w :
  user_frame argon (OpModifyPwd id pw) w (modify_pwd argon id pw w).2.
Proof.
  unfold modify_pwd, mbind, M_bind.
  destruct (query_one _ _ w) as [[u|e| |] w1] eqn:Eq; apply query_user_cases in Eq as [Hpg Hu];
    unfold user_frame; simpl; rewrite <- Hpg; try reflexivity. specialize (Hu u eq_refl).
  set (salt := if bool_decide (u_salt u = ""%string) then salt_gen argon (w_ids w1) else u_salt u).
  assert (Hsalt : ∃ w2, w_pg w2 = w_pg w1 ∧
    (if bool_decide (u_salt u = ""%string) then generate_salt argon else mret (u_salt u)) w1 = (Ok salt, w2)).
  { unfold salt, generate_salt. case_bool_decide; [exists (upd_ids S w1)|exists w1]; done. }
  destruct Hsalt as (w2 & Hpg2 & ->). rewrite <- Hpg2. unfold hash_password.
  destruct (salt_ok argon salt); [|reflexivity]. unfold from_option.
  destruct (argon2_hash argon pw salt) as [h|] eqn:Eh; [|reflexivity]. cbn [mret M_ret].
  unfold alter_user.
  destruct (pg_exec_cases (λ p, Some (tt, upd_users (alter (with_password salt h) id) p)) w2)
    as [-> | (a & p & [= _ <-] & ->)]; [reflexivity|].
  apply user_step_alter; [done|]. intros u' Hu'. rewrite Hpg2, Hpg, Hu in Hu'. injection Hu' as <-.
  split; auto. right. exists pw. split_and!; [done..|]. simpl. intros Hne. unfold salt.
  by rewrite bool_decide_eq_false_2.
Qed.

Lemma user_op_frame (argon : Argon2) (op : UserOp) : keeps (user_frame argon op) (run_user_op argon op).
Proof.
  destruct op as [init u|u|id region|id status m|id ip|id pw]; simpl.
  - apply keeps_bind; [apply _| |intros _; apply keeps_ret; apply _].
    intros v. apply create_user_step.
  - apply keeps_bind; [apply _| |intros _; apply keeps_ret; apply _].
    unfold update_user. apply keeps_bind; [apply _|apply keeps_gets; apply _|]. intros now.
    intros v. apply update_user_step.
  - apply user_frame_alter; [done|]. intros u. by apply login_same.
  - apply keeps_bind; [apply _|apply keeps_gets; apply _|]. intros now.
    apply user_frame_alter; [done|]. intros u. by apply login_same.
  - apply keeps_bind; [apply _|apply keeps_gets; apply _|]. intros now. apply user_frame_pg.
    intros p a p'. by rewrite (eq_refl : prepares login_info_stmt = false).
  - intros w. apply modify_pwd_step.
Qed.

(** C25. Whatever fails on the way, every operation of the user store keeps every
    account under its own id and with its counters (an account and its counters
    are created together or not at all), and keeps every login: no account
    vanishes and only the creation adds one; no account name changes; an
    account's password and salt change only when its password change is asked
    for, and then to the hash of that password, under the old salt if there was
    one; and its phone number and e-mail address, which a login accepts for
    its name, only to the ones an update of that very account gives. *)
Theorem user_ops_safe (argon : Argon2) (op : UserOp) (w : World) :
  let w' := (run_user_op argon op w).2 in
  (users_ok (w_pg w) → users_ok (w_pg w'))
  ∧ (∀ id u, t_users (w_pg w) !! id = Some u →
       ∃ u', t_users (w_pg w') !! id = Some u'
         ∧ u_account u' = u_account u
         ∧ ((u_password u' = u_password u ∧ u_salt u' = u_salt u)
            ∨ (∃ pw, op = OpModifyPwd id pw ∧ argon2_hash argon pw (u_salt u') = Some (u_password u')
                     ∧ (u_salt u ≠ ""%string → u_salt u' = u_salt u)))
         ∧ (u_phone u' = u_phone u
            ∨ (∃ up, op = OpUpdateUser up ∧ uu_id up = id ∧ uu_phone up ≠ ""%string
                     ∧ u_phone u' = Some (uu_phone up)))
         ∧ (u_email u' = u_email u
            ∨ (∃ up, op = OpUpdateUser up ∧ uu_id up = id ∧ uu_email up ≠ ""%string
                     ∧ u_email u' = Some (uu_email up))))
  ∧ (∀ id, is_Some (t_users (w_pg w') !! id) →
       is_Some (t_users (w_pg w) !! id) ∨ ∃ init u, op = OpCreateUser init u ∧ u_id u = id).
Proof.
  destruct (user_op_frame argon op w) as [H1 H2 H3]. split_and!; [done| |done].
  intros id u (u' & Hu' & [? ? ? ?])%H2. by exists u'.
Qed.

Definition ann_moves : UserUpdate :=
  mkUserUpdate "u1" "" "" "" "555" "" "" "" 0 "" "" "" "{}" "{}" "" "" "" "" "".

Lemma user_ops_safe_witness :
  users_ok (w_pg (run_user_op toy_argon (OpCreateUser 100 ann) world_empty).2)
  ∧ ∃ u', t_users (w_pg (run_user_op toy_argon (OpUpdateUser ann_moves) ann_world).2) !! "u1"%string = Some u'
      ∧ u_account u' = "ann"%string ∧ u_password u' = "$old"%string.
Proof.
  split.
  - apply (proj1 (user_ops_safe toy_argon (OpCreateUser 100 ann) world_empty)).
    intros id u H. simpl in H. rewrite lookup_empty in H. discriminate.
  - destruct (proj1 (proj2 (user_ops_safe toy_argon (OpUpdateUser ann_moves) ann_world)) "u1"%string ann eq_refl)
      as (u' & H1 & H2 & H3 & _). exists u'. split; [exact H1|]. split; [exact H2|].
    destruct H3 as [[H3 _]|(pw & H3 & _)]; [exact H3|discriminate H3].
Defined.
