(* ===== verification/Auth.v ===== *)
(** * Tokens and extractors of the API ([api/src/api_utils/custom_extract],
    [api/src/handlers/users/mod.rs])

    [Claims], and what a request must carry to reach a handler. Decoding and
    encoding a JWT and parsing a body or a path are library code. *)

From S2P Require Import Prelude Errors Types Tables World Sql Records WsServer.

Definition EXPIRES : Z := 60 * 60 * 4.
Definition REFRESH_EXPIRES : Z := 24 * 60 * 60.

(** [Claims::new]; times in seconds *)
Definition claims_new (now_s : Z) (sub : string) : Claims := mkClaims sub (now_s + EXPIRES) now_s.
Definition extend (c : Claims) : Claims := mkClaims (sub c) (exp c + REFRESH_EXPIRES) (iat c).

(** [jsonwebtoken]: the error is represented by its text. *)
Record Jwt : Type := mkJwt {
  jwt_encode : Claims → string → string;                     (* claims, secret *)
  jwt_decode : Z → string → string → string + Claims         (* time, token, secret *)
}.

(** A token that has not expired decodes to the claims it was made of. *)
Class JwtLaws (j : Jwt) : Prop := {
  jwt_decode_encode : ∀ now c s, (now < exp c)%Z → jwt_decode j now (jwt_encode j c s) s = inr c
}.

(** ** Headers *)

(** [HeaderValue::to_str]: visible ASCII, blank and tab only. *)
Definition header_char (a : Ascii.ascii) : bool :=
  let n := Ascii.nat_of_ascii a in (32 <=? n)%nat && (n <=? 126)%nat || (n =? 9)%nat.
Fixpoint all_chars (f : Ascii.ascii → bool) (s : string) : bool :=
  match s with EmptyString => true | String a s' => f a && all_chars f s' end.
Definition to_str (s : string) : option string := if all_chars header_char s then Some s else None.

(** [str::split_whitespace] on such a text: the maximal runs of other characters. *)
Definition blank (a : Ascii.ascii) : bool :=
  let n := Ascii.nat_of_ascii a in (n =? 32)%nat || (9 <=? n)%nat && (n <=? 13)%nat.
Fixpoint words (word : string) (s : string) : list string :=
  match s with
  | EmptyString => if String.eqb word "" then [] else [word]
  | String a s' =>
      if blank a then (if String.eqb word "" then [] else [word]) ++ words "" s'
      else words (word +:+ String a EmptyString)%string s'
  end.
Definition split_whitespace (s : string) : list string := words "" s.

(** ** Extractors

    The outcome of an extractor: the value, a rejection with its status, or a
    panic of the request's task. *)
Abbreviation Extracted T := (outcome (Z * Error) T).

Section extract.
Context (jwt : Jwt) (jwt_secret : string).

(** The common part: the token of the Authorization header, if it is there. *)
Definition token_of (path : string) (header : option string) : Extracted string :=
  match header with
  | None => Err (401%Z, unauthorized_with_details path)
  | Some h =>
      let h := default ""%string (to_str h) in
      if negb (String.prefix "Bearer" h) then Err (401%Z, unauthorized_with_details path)
      else match split_whitespace h !! 1%nat with
           | None => Panic (* header[1] *)
           | Some token => Ok token
           end
  end.

(** [axum::Json::<T>::from_request]: the value or a rejection with status and text. *)
Definition json_with_auth {T} (now_s : Z) (path : string) (header : option string)
    (body : (Z * string) + T) : Extracted T :=
  match token_of path header with
  | Ok token =>
      match jwt_decode jwt now_s token jwt_secret with
      | inl err => Err (500%Z, internal err)
      | inr _ =>
          match body with
          | inr value => Ok value
          | inl (status, text) => Err (status, body_parsing text)
          end
      end
  | Err e => Err e
  | Panic => Panic
  | Hang => Hang
  end.

(** [PathRejection] *)
Inductive PathRejection : Type :=
| FailedToDeserializePathParams (inner : string) | MissingPathParams (e : string) | OtherRejection (r : string).

Definition path_rejection (r : PathRejection) : Z * Error :=
  match r with
  | FailedToDeserializePathParams inner => (400%Z, path_parsing inner)
  | MissingPathParams e => (500%Z, path_parsing e)
  | OtherRejection r => (500%Z, internal_with_details ("Unhandled path rejection: " +:+ r)%string)
  end.

Definition path_with_auth {T} (now_s : Z) (path : string) (header : option string)
    (params : PathRejection + T) : Extracted T :=
  match token_of path header with
  | Ok token =>
      match jwt_decode jwt now_s token jwt_secret with
      | inl err => Err (401%Z, unauthorized err path)
      | inr _ =>
          match params with
          | inr value => Ok value
          | inl r => Err (path_rejection r)
          end
      end
  | Err e => Err e
  | Panic => Panic
  | Hang => Hang
  end.
End extract.

(** [JsonExtractor] and [PathExtractor]: no token is asked for. *)
Definition json_extractor {T} (body : (Z * string) + T) : Extracted T :=
  match body with inr v => Ok v | inl (status, text) => Err (status, body_parsing text) end.
Definition path_extractor {T} (params : PathRejection + T) : Extracted T :=
  match params with inr v => Ok v | inl r => Err (path_rejection r) end.

(** ** Properties *)

(** C26. A request reaches a handler behind the token check exactly if its
    Authorization header starts with "Bearer", has a second word that decodes
    as a token, and its body parses; whose token it is plays no part, so any
    user's token admits requests in any other user's name. A header that is
    the scheme alone crashes the request. *)
Theorem auth_admits {T} (jwt : Jwt) (secret : string) (now : Z) (path : string)
    (header : option string) (body : (Z * string) + T) :
  (∀ v, json_with_auth jwt secret now path header body = Ok v ↔
     ∃ h token c, header = Some h ∧ String.prefix "Bearer" (default ""%string (to_str h)) = true
       ∧ split_whitespace (default ""%string (to_str h)) !! 1%nat = Some token
       ∧ jwt_decode jwt now token secret = inr c ∧ body = inr v)
  ∧ (json_with_auth jwt secret now path header body = Panic ↔
     ∃ h, header = Some h ∧ String.prefix "Bearer" (default ""%string (to_str h)) = true
       ∧ split_whitespace (default ""%string (to_str h)) !! 1%nat = None)
  ∧ (∀ other : Jwt, (∀ t, (∃ e, jwt_decode jwt now t secret = inl e ∧ jwt_decode other now t secret = inl e)
        ∨ ((∃ c, jwt_decode jwt now t secret = inr c) ∧ ∃ c, jwt_decode other now t secret = inr c)) →
     json_with_auth other secret now path header body = json_with_auth jwt secret now path header body).
Proof.
  unfold json_with_auth, token_of. destruct header as [h|]; [|naive_solver].
  destruct (String.prefix "Bearer" (default ""%string (to_str h))) eqn:Hp; cbn [negb].
  2:{ split_and!; [intros v; split; [done|]|split; [done|]|done]; naive_solver congruence. }
  destruct (split_whitespace (default ""%string (to_str h)) !! 1%nat) as [token|] eqn:Hw.
  2:{ split_and!; [intros v; split; [done|]|split; [eauto|done]|done]; naive_solver congruence. }
  split_and!.
  - intros v. destruct (jwt_decode jwt now token secret) eqn:E; [naive_solver congruence|].
    destruct body as [[st x]|v']; naive_solver congruence.
  - destruct (jwt_decode jwt now token secret) eqn:E; [naive_solver congruence|].
    destruct body as [[st x]|v']; naive_solver congruence.
  - intros other Hsame. destruct (Hsame token) as [(e & -> & ->)|[[c ->] [c' ->]]]; done.
Qed.

Definition toy_jwt : Jwt :=
  mkJwt (λ c s, (sub c +:+ "." +:+ s)%string)
        (λ _ t _, if String.eqb t "tok" then inr (mkClaims "alice" 10 0) else inl "InvalidToken"%string).

Lemma auth_admits_witness :
  json_with_auth toy_jwt "k" 0 "/friend" (Some "Bearer tok"%string) (inr 7) = Ok 7
  ∧ json_with_auth toy_jwt "k" 0 "/friend" (Some "Bearer "%string) (inr 7) = Panic.
Proof.
  destruct (auth_admits toy_jwt "k" 0 "/friend" (Some "Bearer tok"%string) (inr 7)) as [H _].
  destruct (auth_admits toy_jwt "k" 0 "/friend" (Some "Bearer "%string) (inr 7)) as [_ [H' _]].
  split.
  - apply H. exists "Bearer tok"%string, "tok"%string, (mkClaims "alice" 10 0).
    vm_compute. repeat split; reflexivity.
  - apply H'. exists "Bearer "%string. vm_compute. repeat split; reflexivity.
Defined.
