(* ===== verification/UserApi.v ===== *)
(** * The user handlers of the API ([api/src/handlers/users],
    [api/src/api_utils/ip_region])

    Registration, login and tokens, password change, profile and search. The
    load balancer is an interface ([get_service]); JWT, Argon2, Base64, the
    mail, GitHub, image and IP libraries are parameters. *)

From S2P Require Import Prelude Errors Types Tables World Oss Sql Records Cache GroupStore UserStore WsServer Auth.

(** ** Regions of addresses *)

Definition CHINA : string := "中国".
Definition INTERNAL_IP : string := "内网IP".
Definition ZERO : string := "0".

(** [region.split('|')]; the bar is character 124. *)
Definition parse_region (region : string) : option string :=
  match split_on 124 region with
  | [country; _; province; isp; _] =>
      if bool_decide (country = CHINA)
      then Some (if bool_decide (province = ""%string) || bool_decide (province = ZERO)
                 then CHINA else province)
      else if bool_decide (country ≠ ZERO) then Some country
      else if bool_decide (isp = INTERNAL_IP) then Some INTERNAL_IP
      else None
  | _ => None
  end.

(** ** Requests *)

Inductive IpAddr : Type := V4 (ip : string) | V6 (ip : string).

Record UserRegister : Type := mkUserRegister {
  ur_avatar : string; ur_name : string; ur_password : string; ur_email : string; ur_code : string
}.
Record Token : Type := mkToken {
  tk_user : User; tk_token : string; tk_refresh_token : string; tk_ws_addr : string
}.
Record LoginRequest : Type := mkLoginRequest { lr_account : string; lr_password : string }.
Record ModifyPwdRequest : Type := mkModifyPwdRequest {
  mp_user_id : string; mp_email : string; mp_pwd : string; mp_code : string
}.
(** [pattern.chars().count()]: the bytes that do not continue a character. *)
Fixpoint char_count (s : string) : nat :=
  match s with
  | EmptyString => 0
  | String a s' => (if is_cont a then 0 else 1) + char_count s'
  end.

Section api.
Context (argon : Argon2) (jwt : Jwt) (jwt_secret : string).
Context (b64_decode : string → option string).
Context (nanoid : nat → string) (init_max_seq : Z).
Context (get_service : IO (option string)) (ws_protocol : string).
Context (search_by_ip : string → option string).

(** ** Decoding the passwords of requests *)

Definition decode_pwd (pwd : string) : outcome Error string :=
  match b64_decode pwd with
  | None => Err (internal "base64")
  | Some b => if utf8_valid b then Ok b else Err (internal "utf8")
  end.

Definition login_decode (r : LoginRequest) : outcome Error LoginRequest :=
  if bool_decide (lr_account r = ""%string) || bool_decide (lr_password r = ""%string)
  then Err (bad_request "parameter is none")
  else match decode_pwd (lr_password r) with
       | Ok pwd => Ok (mkLoginRequest (lr_account r) pwd)
       | Err e => Err e | Panic => Panic | Hang => Hang
       end.

Definition modify_decode (r : ModifyPwdRequest) : outcome Error ModifyPwdRequest :=
  if bool_decide (mp_user_id r = ""%string) || bool_decide (mp_email r = ""%string)
     || bool_decide (mp_pwd r = ""%string) || bool_decide (mp_code r = ""%string)
  then Err (bad_request "parameter is none")
  else match decode_pwd (mp_pwd r) with
       | Ok pwd => Ok (mkModifyPwdRequest (mp_user_id r) (mp_email r) pwd (mp_code r))
       | Err e => Err e | Panic => Panic | Hang => Hang
       end.

(** [x?] on a value already computed *)
Definition lift {A} (o : outcome Error A) : IO A := λ w, (o, w).

(** ** Tokens *)

Definition now_s : IO Z := gets (λ w, w_clock w / 1000)%Z.

Definition gen_token (user : User) (addr : IpAddr) : IO Token :=
  now ← now_s;
  let claims := claims_new now (u_id user) in
  let token := jwt_encode jwt claims jwt_secret in
  let refresh_token := jwt_encode jwt (extend claims) jwt_secret in
  user_login (u_account user) ;;
  service ← get_service;
  ws_addr ← from_option (internal_with_details "No websocket service available")
              ((λ addr, ws_protocol +:+ "://" +:+ addr +:+ "/ws")%string <$> service);
  let region := match addr with V4 ip => search_by_ip ip ≫= parse_region | V6 _ => None end in
  match region with
  | Some r => update_region (u_id user) r
  | None => mret tt
  end ;;
  mret (mkToken (with_region region user) token refresh_token ws_addr).

Definition refresh_token (token : string) (is_refresh : bool) : IO string :=
  now ← now_s;
  claim ← (match jwt_decode jwt now token jwt_secret with
           | inr data => mret data
           | inl err => throw (unauthorized err "/refresh_token")
           end : IO Claims);
  let claims := claims_new now (sub claim) in
  let claims := if is_refresh then extend claims else claims in
  mret (jwt_encode jwt claims jwt_secret).

(** ** Accounts *)

Definition new_account (r : UserRegister) (id password salt : string) : User :=
  mkUser id (ur_name r) id password (ur_avatar r) "" 0 None (Some (ur_email r)) None None None 0 0
    salt "" None None false "" "" None None "" "" "" "" "" "" "" false.

Definition create_user (new_user : UserRegister) : IO User :=
  code ← get_register_code (ur_email new_user);
  code ← from_option (code_expired "in register") code;
  if bool_decide (code ≠ ur_code new_user) then throw (code_invalid "in register")
  else
    salt ← generate_salt argon;
    password ← hash_password argon (ur_password new_user) salt;
    id ← draw_nanoid nanoid;
    user ← UserStore.create_user init_max_seq (new_account new_user id password salt);
    del_register_code (ur_email new_user) ;;
    mret user.

(** Neither this nor the next asks for a token. *)
Definition update_user (user : UserUpdate) : IO User := UserStore.update_user user.

Definition get_user_by_id (id : string) : IO User :=
  user ← UserStore.get_user_by_id id;
  from_option not_found user.

Definition search_user (user_id pattern : string) : IO (option UserWithMatchType) :=
  if bool_decide (pattern = ""%string) || (32 <? char_count pattern)%nat
  then throw (bad_request "keyword is empty or too long")
  else UserStore.search_user user_id pattern.

Definition logout (uuid : string) : IO unit := user_logout uuid.

Definition login (r : LoginRequest) (addr : IpAddr) : IO Token :=
  r ← lift (login_decode r);
  user ← verify_pwd argon (lr_account r) (lr_password r);
  user ← from_option not_found user;
  gen_token user addr.

Definition modify_pwd (req : ModifyPwdRequest) : IO unit :=
  req ← lift (modify_decode req);
  code ← get_register_code (mp_email req);
  code ← from_option (code_expired "code is expired") code;
  if bool_decide (code ≠ mp_code req) then throw (code_invalid "code is invalid")
  else UserStore.modify_pwd argon (mp_user_id req) (mp_pwd req).

(** The mail is built and sent by the library; the code is saved by a task
    nobody waits for, and a failure there is only logged. *)
Context (send_mail : string → string → IO unit) (random_code : nat → string).

Definition send_email (email : string) : IO unit :=
  if bool_decide (email = ""%string) then throw (bad_request "parameter is none")
  else
    num ← (λ w, (Ok (random_code (w_ids w)), upd_ids S w) : outcome Error string * World);
    send_mail email num ;;
    log_err (save_register_code email num).

(** ** Registration through GitHub *)

Record GitHubUser : Type := mkGitHubUser { gh_name : string; gh_avatar_url : string }.
Record GitHubEmail : Type := mkGitHubEmail { ge_email : string; ge_primary : bool }.
Context (exchange_code : string → IO string) (fetch_emails : string → IO (list GitHubEmail))
        (fetch_user : string → IO GitHubUser) (http_get : string → IO bytes)
        (guess_extension : bytes → option string) (oss : S3Client).

Definition download_avatar (url : string) : IO string :=
  content ← http_get url;
  filename ← draw_nanoid nanoid;
  let filename := match guess_extension content with
                  | Some ext => (filename +:+ "." +:+ ext)%string
                  | None => filename
                  end in
  upload_avatar oss filename content ;;
  mret filename.

Definition register_user (email access_token : string) : IO User :=
  user ← fetch_user access_token;
  avatar ← download_avatar (gh_avatar_url user);
  id ← draw_nanoid nanoid;
  UserStore.create_user init_max_seq
    (mkUser id (gh_name user) id "" avatar "" 0 None (Some email) None None None 0 0
      "" "" None None false "" "" None None "" "" "" "" "" "" "" false).

Definition github_callback (code : string) (addr : IpAddr) : IO Token :=
  access_token ← exchange_code code;
  user_emails ← fetch_emails access_token;
  email ← from_option not_found (snd <$> list_find (λ e, ge_primary e = true) user_emails);
  user_info ← get_user_by_email (ge_email email);
  user ← match user_info with
         | Some u => mret u
         | None => register_user (ge_email email) access_token
         end;
  gen_token user addr.
End api.

(** ** Properties *)

(** The codes in the cache, as the commands see them. *)
Definition codes (w : World) : option (gmap string hval) :=
  rhash (w_clock w) (w_redis w) REGISTER_CODE_KEY.

Lemma get_register_code_run e w h :
  healthy w → codes w = Some h → (∀ z, h !! e ≠ Some (HInt z)) →
  get_register_code e w = (Ok (match h !! e with Some (HText s) => Some s | _ => None end), w).
Proof.
  intros Hnet Hh Hi. unfold get_register_code. erewrite bind_ok by (by apply redis_conn_healthy).
  apply redis_run_query; [done|]. unfold codes in Hh. unfold mbind, M_bind, HGET. rewrite Hh.
  destruct (h !! e) as [[z|s]|] eqn:E; [by destruct (Hi z)|done..].
Qed.

Lemma del_register_code_run e w h :
  healthy w → codes w = Some h →
  ∃ r', del_register_code e w = (Ok tt, upd_redis (λ _, r') w)
    ∧ rhash (w_clock w) r' REGISTER_CODE_KEY = Some (delete e h)
    ∧ only_key REGISTER_CODE_KEY (w_redis w) r'.
Proof.
  intros Hnet Hh. eexists. split_and!.
  - unfold del_register_code. erewrite bind_ok by (by apply redis_conn_healthy).
    apply redis_run_healthy; [done|]. unfold HDEL, codes in *. by rewrite Hh.
  - apply rhash_rput.
  - apply only_key_rput.
Qed.

Section api_properties.
Context (argon : Argon2) `{!Argon2Laws argon} (jwt : Jwt) `{!JwtLaws jwt} (jwt_secret : string).
Context (b64_decode : string → option string).
Context (nanoid : nat → string) (init_max_seq : Z).

Abbreviation register := (create_user argon nanoid init_max_seq).

Lemma hash_password_run pw salt hash w :
  salt_ok argon salt = true → argon2_hash argon pw salt = Some hash →
  hash_password argon pw salt w = (Ok hash, w).
Proof. intros Hs Hh. unfold hash_password. by rewrite Hs, Hh. Qed.

(** The account a registration makes, drawing the salt and then the id. *)
Definition registered (r : UserRegister) (hash : string) (w : World) : User :=
  stored_user (new_account r (nanoid (S (w_ids w))) hash (salt_gen argon (w_ids w))) (w_clock w).

Lemma register_run (r : UserRegister) (w : World) (h : gmap string hval) (hash : string) :
  healthy w → codes w = Some h → h !! ur_email r = Some (HText (ur_code r)) →
  argon2_hash argon (ur_password r) (salt_gen argon (w_ids w)) = Some hash →
  t_users (w_pg w) !! nanoid (S (w_ids w)) = None → t_sequence (w_pg w) !! nanoid (S (w_ids w)) = None →
  ∃ w', register r w = (Ok (registered r hash w), w')
    ∧ healthy w' ∧ w_clock w' = w_clock w
    ∧ w_pg w' = upd_sequence (insert (nanoid (S (w_ids w))) (mkSeqRow init_max_seq init_max_seq))
                  (upd_users (insert (nanoid (S (w_ids w))) (registered r hash w)) (w_pg w))
    ∧ codes w' = Some (delete (ur_email r) h)
    ∧ only_key REGISTER_CODE_KEY (w_redis w) (w_redis w').
Proof.
  intros Hnet Hh Hc Hhash Hu Hs. unfold create_user.
  erewrite bind_ok by (eapply get_register_code_run; [done|done|by rewrite Hc]). rewrite Hc.
  erewrite bind_ok by done. rewrite bool_decide_eq_false_2 by (intros []; done).
  erewrite bind_ok by done.
  erewrite bind_ok by (by apply hash_password_run; [apply salt_gen_ok|]).
  erewrite bind_ok by done. simpl w_ids.
  set (w1 := upd_ids S (upd_ids S w)).
  set (u := new_account r (nanoid (S (w_ids w))) hash (salt_gen argon (w_ids w))).
  erewrite bind_ok by (apply (proj1 (create_user_run init_max_seq u w1 Hnet)); done).
  set (w2 := upd_pg _ w1).
  destruct (del_register_code_run (ur_email r) w2 h Hnet Hh) as (r' & Hd & Hr' & Ho).
  erewrite bind_ok by exact Hd. eexists. split; [reflexivity|]. by split_and!.
Qed.
(** Registration: without a code for the address, or with another code, it
    is refused and nothing changes; with the right code, a fresh id and a
    password that hashes, the account is stored with its hash and its two
    counters, it is answered, and the code is used up while the codes of other
    addresses stay. *)
Theorem register_functional (r : UserRegister) (w : World) (h : gmap string hval)
    (Hnet : healthy w) (Hh : codes w = Some h) (Htext : ∀ z, h !! ur_email r ≠ Some (HInt z)) :
  (h !! ur_email r = None → register r w = (Err (code_expired "in register"), w))
  ∧ (∀ c, h !! ur_email r = Some (HText c) → c ≠ ur_code r →
       register r w = (Err (code_invalid "in register"), w))
  ∧ (∀ hash, h !! ur_email r = Some (HText (ur_code r)) →
       argon2_hash argon (ur_password r) (salt_gen argon (w_ids w)) = Some hash →
       let id := nanoid (S (w_ids w)) in
       t_users (w_pg w) !! id = None → t_sequence (w_pg w) !! id = None →
       ∃ w', register r w = (Ok (registered r hash w), w')
         ∧ t_users (w_pg w') = <[id := registered r hash w]> (t_users (w_pg w))
         ∧ t_sequence (w_pg w') = <[id := mkSeqRow init_max_seq init_max_seq]> (t_sequence (w_pg w))
         ∧ (∀ e, (∀ z, h !! e ≠ Some (HInt z)) → get_register_code e w'
              = (Ok (if decide (e = ur_email r) then None
                     else match h !! e with Some (HText s) => Some s | _ => None end), w'))).
Proof.
  assert (Hget := get_register_code_run (ur_email r) w h Hnet Hh Htext). split_and!.
  - intros Hn. unfold create_user. erewrite bind_ok by exact Hget. by rewrite Hn.
  - intros c Hc Hne. unfold create_user. erewrite bind_ok by exact Hget. rewrite Hc.
    erewrite bind_ok by done. by rewrite bool_decide_eq_true_2.
  - intros hash Hc Hhash id Hu Hs.
    destruct (register_run r w h hash Hnet Hh Hc Hhash Hu Hs) as (w' & Hr & Hnet' & Hclk & Hpg & Hcodes & _).
    exists w'. rewrite Hpg. split_and!; [done..|]. intros e Hint.
    erewrite get_register_code_run; [|done|exact Hcodes|].
    + rewrite lookup_delete. repeat case_decide; by subst.
    + intros z. rewrite lookup_delete. case_decide; [done|apply Hint].
Qed.

(** ** Logging in *)

Context (get_service : IO (option string)) (ws_protocol : string).
Context (search_by_ip : string → option string).

Abbreviation log_in :=
  (login argon jwt jwt_secret b64_decode get_service ws_protocol search_by_ip).

(** The region an address is recorded with. *)
Definition region_of (addr : IpAddr) : option string :=
  match addr with V4 ip => search_by_ip ip ≫= parse_region | V6 _ => None end.

Lemma gen_token_run (u : User) (svc : string) (addr : IpAddr) (w : World) (s : gset string) :
  healthy w → rset (w_clock w) (w_redis w) USER_ONLINE_SET = Some s →
  (∀ v, get_service v = (Ok (Some svc), v)) →
  let claims := claims_new (w_clock w / 1000) (u_id u) in
  ∃ w', gen_token jwt jwt_secret get_service ws_protocol search_by_ip u addr w
      = (Ok (mkToken (with_region (region_of addr) u) (jwt_encode jwt claims jwt_secret)
               (jwt_encode jwt (extend claims) jwt_secret)
               (ws_protocol +:+ "://" +:+ svc +:+ "/ws")%string), w')
    ∧ w_pg w' = match region_of addr with
                | Some r => upd_users (alter (with_region (Some r)) (u_id u)) (w_pg w)
                | None => w_pg w
                end
    ∧ rset (w_clock w) (w_redis w') USER_ONLINE_SET = Some ({[u_account u]} ∪ s).
Proof.
  intros Hnet Hs Hsvc claims. unfold gen_token. erewrite bind_ok by done.
  assert (Hlog : user_login (u_account u) w
    = (Ok tt, upd_redis (λ _, rput (w_clock w) (w_redis w) USER_ONLINE_SET (RSet ({[u_account u]} ∪ s))) w)).
  { unfold user_login. erewrite bind_ok by (by apply redis_conn_healthy).
    apply redis_run_healthy; [done|]. unfold SADD. by rewrite Hs. }
  erewrite bind_ok by exact Hlog. erewrite bind_ok by apply Hsvc.
  erewrite bind_ok by done. fold (region_of addr). destruct (region_of addr) as [r|].
  - erewrite bind_ok by (by apply alter_user_run). eexists. split_and!; [reflexivity|done|]. apply rset_rput.
  - erewrite bind_ok by done. eexists. split_and!; [reflexivity|done|]. apply rset_rput.
Qed.

Lemma log_in_run name pwd64 pw addr w :
  name ≠ ""%string → pwd64 ≠ ""%string → b64_decode pwd64 = Some pw → utf8_valid pw = true →
  log_in (mkLoginRequest name pwd64) addr w
  = (user ← verify_pwd argon name pw; user ← from_option not_found user;
     gen_token jwt jwt_secret get_service ws_protocol search_by_ip user addr) w.
Proof.
  intros Hn Hp H64 H8. unfold login, lift, login_decode, decode_pwd. simpl.
  rewrite (bool_decide_eq_false_2 (name = _)), (bool_decide_eq_false_2 (pwd64 = _)) by done.
  simpl. rewrite H64, H8. reflexivity.
Qed.

(** C24. Who registers under an address that no account answers to can log in
    with it: from any network address, with the registered address and password,
    the answer is a token whose claims name the new account, without its hash;
    the account is online from then on, and its region is the one the network
    address is found under, in the answer and, if there is one, in the table.
    The registration does not check that the address is free, so that is a
    hypothesis; see [taken_address_locks_out] for one that is not. *)
Theorem register_then_login (r : UserRegister) (w : World) (h : gmap string hval)
    (hash pwd64 svc : string) (addr : IpAddr) (online : gset string)
    (Hnet : healthy w) (Hh : codes w = Some h)
    (Hc : h !! ur_email r = Some (HText (ur_code r))) (He : ur_email r ≠ ""%string)
    (Hhash : argon2_hash argon (ur_password r) (salt_gen argon (w_ids w)) = Some hash)
    (Hu : t_users (w_pg w) !! nanoid (S (w_ids w)) = None)
    (Hs : t_sequence (w_pg w) !! nanoid (S (w_ids w)) = None)
    (Hother : ∀ id u, t_users (w_pg w) !! id = Some u → answers_to (ur_email r) u = false)
    (Hpwd : pwd64 ≠ ""%string ∧ b64_decode pwd64 = Some (ur_password r) ∧ utf8_valid (ur_password r) = true)
    (Hon : rset (w_clock w) (w_redis w) USER_ONLINE_SET = Some online)
    (Hsvc : ∀ v, get_service v = (Ok (Some svc), v)) :
  let id := nanoid (S (w_ids w)) in
  ∃ w1 tk w2, register r w = (Ok (registered r hash w), w1)
    ∧ log_in (mkLoginRequest (ur_email r) pwd64) addr w1 = (Ok tk, w2)
    ∧ (∃ c, jwt_decode jwt (w_clock w / 1000) (tk_token tk) jwt_secret = inr c ∧ sub c = id)
    ∧ tk_user tk = with_region (region_of addr) (clear_password (registered r hash w))
    ∧ rset (w_clock w) (w_redis w2) USER_ONLINE_SET = Some ({[id]} ∪ online)
    ∧ t_users (w_pg w2) = <[id := match region_of addr with
                                  | Some g => with_region (Some g) (registered r hash w)
                                  | None => registered r hash w
                                  end]> (t_users (w_pg w)).
Proof.
  intros id. destruct (register_run r w h hash Hnet Hh Hc Hhash Hu Hs)
    as (w1 & Hr & Hnet1 & Hclk & Hpg & _ & Honly). exists w1.
  set (u := registered r hash w) in *. destruct Hpwd as (Hne & H64 & H8).
  assert (Hv : verify_pwd argon (ur_email r) (ur_password r) w1 = (Ok (Some (clear_password u)), w1)).
  { erewrite (verify_pwd_run argon _ _ _ u); [|done| | | |by eapply hash_parses].
    - change (u_password u) with hash. by rewrite (hash_verifies _ _ _ Hhash).
    - exists id. rewrite Hpg. apply lookup_insert_eq.
    - unfold answers_to, is_text. simpl. rewrite (bool_decide_eq_true_2 (Some _ = _)) by done.
      by rewrite orb_true_r.
    - intros i v. rewrite Hpg. simpl. rewrite lookup_insert. case_decide; [congruence|].
      intros Hv Ha. by rewrite (Hother i v Hv) in Ha. }
  assert (Hon1 : rset (w_clock w1) (w_redis w1) USER_ONLINE_SET = Some online).
  { rewrite Hclk, <- Hon. unfold rset, rget. by rewrite (Honly USER_ONLINE_SET). }
  destruct (gen_token_run (clear_password u) svc addr w1 online Hnet1 Hon1 Hsvc) as (w2 & Hg & Hpg2 & Hset).
  eexists _, w2. split_and!; [exact Hr| | | | |].
  - rewrite (log_in_run _ _ _ _ _ He Hne H64 H8). erewrite bind_ok by exact Hv.
    erewrite bind_ok by done. exact Hg.
  - exists (claims_new (w_clock w / 1000) id). split; [|reflexivity].
    rewrite <- Hclk. apply jwt_decode_encode. simpl. unfold EXPIRES. lia.
  - reflexivity.
  - rewrite <- Hclk. exact Hset.
  - rewrite Hpg2, Hpg. destruct (region_of addr); simpl; [|done]. by rewrite alter_insert_eq.
Qed.

(** Nothing stops a registration under an address that another account
    answers to. If storage lists that account first and it has another password,
    the new one is never let in by its address: the password is right, and the
    answer is that there is no such account. *)
Theorem taken_address_locks_out (r : UserRegister) (w : World) (h : gmap string hval)
    (hash pwd64 : string) (addr : IpAddr) (v : User)
    (Hnet : healthy w) (Hh : codes w = Some h)
    (Hc : h !! ur_email r = Some (HText (ur_code r))) (He : ur_email r ≠ ""%string)
    (Hhash : argon2_hash argon (ur_password r) (salt_gen argon (w_ids w)) = Some hash)
    (Hu : t_users (w_pg w) !! nanoid (S (w_ids w)) = None)
    (Hs : t_sequence (w_pg w) !! nanoid (S (w_ids w)) = None)
    (Hpwd : pwd64 ≠ ""%string ∧ b64_decode pwd64 = Some (ur_password r) ∧ utf8_valid (ur_password r) = true)
    (Hfirst : head (users_where (answers_to (ur_email r))
       (upd_users (insert (nanoid (S (w_ids w))) (registered r hash w)) (w_pg w))) = Some v)
    (Hv : phc_ok argon (u_password v) = true) (Hbad : argon2_verify argon (ur_password r) (u_password v) = false) :
  ∃ w1, register r w = (Ok (registered r hash w), w1)
    ∧ log_in (mkLoginRequest (ur_email r) pwd64) addr w1 = (Err not_found, w1).
Proof.
  destruct (register_run r w h hash Hnet Hh Hc Hhash Hu Hs) as (w1 & Hr & Hnet1 & _ & Hpg & _ & _).
  exists w1. split; [exact Hr|]. destruct Hpwd as (Hne & H64 & H8).
  rewrite (log_in_run _ _ _ _ _ He Hne H64 H8).
  assert (Hnone : verify_pwd argon (ur_email r) (ur_password r) w1 = (Ok None, w1)).
  { unfold verify_pwd. erewrite bind_ok by (by apply query_users_run). rewrite Hpg.
    unfold users_where, answers_to in Hfirst. unfold users_where. simpl in *.
    rewrite Hfirst, Hv. simpl. by rewrite Hbad. }
  erewrite bind_ok by exact Hnone. reflexivity.
Qed.

(** Any account's password can be changed by whoever holds a code for any
    address: the request names the account and the address separately and
    nothing ties them together. The victim's password check accepts the new
    password afterwards, and the code can be used again. *)
Theorem password_takeover (victim email code pwd64 pw hash : string) (w : World)
    (h : gmap string hval) (u : User)
    (Hnet : healthy w) (Hh : codes w = Some h) (Hc : h !! email = Some (HText code))
    (Hne : victim ≠ ""%string ∧ email ≠ ""%string ∧ pwd64 ≠ ""%string ∧ code ≠ ""%string)
    (Hpwd : b64_decode pwd64 = Some pw ∧ utf8_valid pw = true)
    (Hu : t_users (w_pg w) !! victim = Some u) (Hmail : u_email u ≠ Some email)
    (Hsalt : u_salt u ≠ ""%string ∧ salt_ok argon (u_salt u) = true)
    (Hhash : argon2_hash argon pw (u_salt u) = Some hash) :
  ∃ w', modify_pwd argon b64_decode (mkModifyPwdRequest victim email pwd64 code) w = (Ok tt, w')
    ∧ t_users (w_pg w') !! victim = Some (with_password (u_salt u) hash u)
    ∧ argon2_verify argon pw hash = true
    ∧ get_register_code email w' = (Ok (Some code), w').
Proof.
  destruct Hne as (H1 & H2 & H3 & H4), Hpwd as [H64 H8], Hsalt as [Hs1 Hs2].
  exists (upd_pg (upd_users (alter (with_password (u_salt u) hash) victim)) w). split_and!.
  - unfold modify_pwd, lift, modify_decode, decode_pwd. simpl.
    rewrite !bool_decide_eq_false_2 by done. simpl. rewrite H64, H8. unfold mbind at 1, M_bind at 1. simpl.
    erewrite bind_ok by (eapply get_register_code_run; [done|done|by rewrite Hc]). rewrite Hc.
    erewrite bind_ok by done. rewrite bool_decide_eq_false_2 by (intros []; done).
    unfold UserStore.modify_pwd. erewrite bind_ok by (by rewrite query_user_run, Hu).
    rewrite bool_decide_eq_false_2 by done. erewrite bind_ok by done.
    erewrite bind_ok by (by apply hash_password_run). by apply alter_user_run.
  - simpl. by rewrite lookup_alter_eq, Hu.
  - by eapply hash_verifies.
  - erewrite get_register_code_run; [|done|exact Hh|by rewrite Hc]. by rewrite Hc.
Qed.

(** ** Refreshing *)

(** Refreshing a token at the given times, each answer being refreshed next. *)
Fixpoint refreshes (times : list Z) (token : string) (w : World) : outcome Error string :=
  match times with
  | [] => Ok token
  | t :: times' =>
      match (refresh_token jwt jwt_secret token false (at_time t w)).1 with
      | Ok token' => refreshes times' token' w
      | Err e => Err e | Panic => Panic | Hang => Hang
      end
  end.

(** Each refresh comes before the expiry of the token before it. *)
Fixpoint in_time (expiry : Z) (times : list Z) : Prop :=
  match times with
  | [] => True
  | t :: times' => (t / 1000 < expiry)%Z ∧ in_time (t / 1000 + EXPIRES) times'
  end.

(** A token never has to die: an access token can be refreshed without end,
    as long as each refresh comes within its four hours, and the last token
    still speaks for the same user; nothing ever asks for the password again. *)
Theorem tokens_refresh_forever (times : list Z) (c : Claims) (w : World)
    (Htimes : in_time (exp c) times) :
  ∃ c', refreshes times (jwt_encode jwt c jwt_secret) w = Ok (jwt_encode jwt c' jwt_secret)
    ∧ sub c' = sub c
    ∧ exp c' = match last times with Some t => (t / 1000 + EXPIRES)%Z | None => exp c end.
Proof.
  revert c Htimes. induction times as [|t times IH]; intros c Ht; [by exists c|].
  destruct Ht as [Hlt Hrest]. simpl.
  unfold refresh_token. simpl. unfold mbind, M_bind, now_s, gets. simpl.
  rewrite jwt_decode_encode by done. simpl.
  destruct (IH (claims_new (t / 1000) (sub c)) Hrest) as (c' & Hc' & Hsub & Hexp).
  exists c'. split_and!; [exact Hc'|exact Hsub|]. rewrite Hexp, last_cons. by destruct (last times).
Qed.
End api_properties.

(** ** Witnesses *)

(** Tokens that spell out an encoding of the claims bit by bit. *)
Fixpoint spell (p : positive) : string :=
  match p with
  | xH => EmptyString
  | xO p => String (Ascii.Ascii false false false false true true false false) (spell p)
  | xI p => String (Ascii.Ascii true false false false true true false false) (spell p)
  end.
Fixpoint unspell (s : string) : positive :=
  match s with
  | EmptyString => xH
  | String (Ascii.Ascii one _ _ _ _ _ _ _) s' => if one then xI (unspell s') else xO (unspell s')
  end.
Lemma unspell_spell p : unspell (spell p) = p.
Proof. induction p as [p IH|p IH|]; simpl; rewrite ?IH; done. Qed.

Definition claims_jwt : Jwt :=
  mkJwt (λ c _, spell (encode (sub c, exp c, iat c)))
    (λ now t _, match decode (unspell t) : option (string * Z * Z) with
                | Some (s, e, i) => if (now <? e)%Z then inr (mkClaims s e i) else inl "ExpiredSignature"%string
                | None => inl "InvalidToken"%string
                end).
Global Instance claims_jwt_laws : JwtLaws claims_jwt.
Proof.
  split. intros now c s Hnow. simpl. rewrite unspell_spell, decode_encode.
  destruct c as [a e i]. cbn in *. rewrite (proj2 (Z.ltb_lt now e) Hnow). reflexivity.
Qed.

Definition bob_codes : World :=
  upd_redis (λ _, {[REGISTER_CODE_KEY := (RHash {["bob@x"%string := HText "123456"]}, None)]}) ann_world.
Definition bob_registers : UserRegister := mkUserRegister "" "Bob" "secret" "bob@x" "123456".

Lemma register_functional_witness :
  ∃ w', create_user toy_argon (λ n, "id"%string) 100 bob_registers bob_codes
    = (Ok (registered toy_argon (λ n, "id"%string) bob_registers "$secret" bob_codes), w').
Proof.
  destruct (register_functional toy_argon (λ n, "id"%string) 100 bob_registers bob_codes
    {["bob@x"%string := HText "123456"]} eq_refl eq_refl ltac:(discriminate)) as (_ & _ & H).
  destruct (H "$secret"%string eq_refl eq_refl eq_refl eq_refl) as (w' & H1 & _).
  exists w'. exact H1.
Defined.

Definition toy_region (_ : string) : option string := Some "美国|0|新墨西哥|0|康卡斯特"%string.

Lemma register_then_login_witness :
  ∃ w1 tk w2, create_user toy_argon (λ n, "id"%string) 100 bob_registers bob_codes
      = (Ok (registered toy_argon (λ n, "id"%string) bob_registers "$secret" bob_codes), w1)
    ∧ login toy_argon claims_jwt "k" (λ s, Some s) (mret (Some "host:1"%string)) "ws" toy_region
        (mkLoginRequest "bob@x" "secret") (V4 "3.5.0.1") w1 = (Ok tk, w2)
    ∧ u_region <$> t_users (w_pg w2) !! "id"%string = Some (Some "美国"%string).
Proof.
  destruct (register_then_login toy_argon claims_jwt "k" (λ s, Some s) (λ n, "id"%string) 100
    (mret (Some "host:1"%string)) "ws" toy_region bob_registers bob_codes
    {["bob@x"%string := HText "123456"]} "$secret" "secret" "host:1" (V4 "3.5.0.1") ∅
    eq_refl eq_refl eq_refl ltac:(discriminate) eq_refl eq_refl eq_refl)
    as (w1 & tk & w2 & H1 & H2 & _ & _ & _ & H3).
  - intros id u H. simpl in H. apply lookup_singleton_Some in H as [_ <-]. reflexivity.
  - split; [discriminate|split; reflexivity].
  - reflexivity.
  - reflexivity.
  - exists w1, tk, w2. split; [exact H1|]. split; [exact H2|]. rewrite H3. reflexivity.
Defined.

(** Bob registers with the address of Ann's account. *)
Definition ann_codes : World :=
  upd_redis (λ _, {[REGISTER_CODE_KEY := (RHash {["ann@x"%string := HText "123456"]}, None)]}) ann_world.
Definition bob_as_ann : UserRegister := mkUserRegister "" "Bob" "secret" "ann@x" "123456".

Lemma taken_address_locks_out_witness :
  ∃ w1, create_user toy_argon (λ n, "u2"%string) 100 bob_as_ann ann_codes
      = (Ok (registered toy_argon (λ n, "u2"%string) bob_as_ann "$secret" ann_codes), w1)
    ∧ login toy_argon claims_jwt "k" (λ s, Some s) (mret None) "ws" (λ _, None)
        (mkLoginRequest "ann@x" "secret") (V6 "::1") w1 = (Err not_found, w1).
Proof.
  apply (taken_address_locks_out toy_argon claims_jwt "k" (λ s, Some s) (λ n, "u2"%string) 100
    (mret None) "ws" (λ _, None) bob_as_ann ann_codes
    {["ann@x"%string := HText "123456"]} "$secret" "secret" (V6 "::1") ann);
    try reflexivity; try discriminate. split; [discriminate|split; reflexivity].
Defined.

Lemma password_takeover_witness :
  ∃ w', modify_pwd toy_argon (λ s, Some s) (mkModifyPwdRequest "u1" "bob@x" "owned" "123456") bob_codes
      = (Ok tt, w')
    ∧ u_password <$> t_users (w_pg w') !! "u1"%string = Some "$owned"%string.
Proof.
  destruct (password_takeover toy_argon (λ s, Some s) "u1" "bob@x" "123456" "owned" "owned" "$owned"
    bob_codes {["bob@x"%string := HText "123456"]} ann eq_refl eq_refl eq_refl) as (w' & H1 & H2 & _).
  - repeat split; discriminate.
  - split; reflexivity.
  - reflexivity.
  - discriminate.
  - split; [discriminate|reflexivity].
  - reflexivity.
  - exists w'. split; [exact H1|]. rewrite H2. reflexivity.
Defined.

Lemma tokens_refresh_forever_witness :
  ∃ c', refreshes claims_jwt "k" [3600000; 14400000; 28000000]%Z
          (jwt_encode claims_jwt (mkClaims "ann" 14400 0) "k") world_empty
        = Ok (jwt_encode claims_jwt c' "k") ∧ sub c' = "ann"%string.
Proof.
  destruct (tokens_refresh_forever claims_jwt "k" [3600000; 14400000; 28000000]%Z (mkClaims "ann" 14400 0)
    world_empty) as (c' & H1 & H2 & _).
  - vm_compute. repeat split; reflexivity.
  - exists c'. split; [exact H1|exact H2].
Defined.
