(* ===== verification/FriendStore.v ===== *)
(** * The friend store ([db/src/postgres/friend.rs])

    Requests, acceptance, deletion and the offline lists, over the tables
    [friendships] (one row per ordered pair) and [friends] (one row per user
    and friend); friend groups, tags, privacy and interaction scores, whose
    statements name columns the migrations do not have. Each statement that
    the server may refuse is given with its checked items. *)

From stdpp Require Import pretty.
From S2P Require Import Prelude Errors Types Tables World Sql Records.

(** ** Requests *)

Record FsCreate : Type := mkFsCreate {
  fc_user_id : string; fc_friend_id : string; fc_apply_msg : option string;
  fc_req_remark : option string; fc_source : string
}.
Record FsUpdate : Type := mkFsUpdate { fu_id : string; fu_apply_msg : string; fu_req_remark : string }.
Record AgreeReply : Type := mkAgreeReply {
  ar_fs_id : string; ar_resp_msg : option string; ar_resp_remark : option string
}.

(** ** Creating a request *)

(** The row with the unique pair, if there is one. *)
Definition find_friendship (p : Pg) (user_id friend_id : string) : option (string * FriendshipRow) :=
  head (List.filter (λ x : string * FriendshipRow,
          String.eqb (fs_user_id x.2) user_id && String.eqb (fs_friend_id x.2) friend_id)
        (map_to_list (t_friendships p))).

(** [INSERT .. ON CONFLICT (user_id, friend_id) DO UPDATE .. RETURNING id]: an
    existing row keeps its id and the answers given to it. *)
Definition upsert_friendship (id : string) (fs : FsCreate) (now : Z) (p : Pg) : option (string * Pg) :=
  match find_friendship p (fc_user_id fs) (fc_friend_id fs) with
  | Some (old, r) =>
      Some (old, upd_friendships (insert old
        (mkFriendshipRow (fs_user_id r) (fs_friend_id r) FsPending (fc_apply_msg fs)
           (fc_req_remark fs) (fs_resp_msg r) (fs_resp_remark r) (fc_source fs) now now
           (fc_user_id fs) "update")) p)
  | None =>
      if bool_decide (t_friendships p !! id = None)
      then Some (id, upd_friendships (insert id
        (mkFriendshipRow (fc_user_id fs) (fc_friend_id fs) FsPending (fc_apply_msg fs)
           (fc_req_remark fs) None None (fc_source fs) now now (fc_user_id fs) "create")) p)
      else None
  end.

(** [SELECT * FROM users WHERE id = $1 OR id = $2] *)
Definition two_users (a b : string) (p : Pg) : list User :=
  List.filter (λ u, String.eqb (u_id u) a || String.eqb (u_id u) b) (snd <$> map_to_list (t_users p)).

Definition add_interaction (a b : string) (now : Z) (t : gmap (string * string) InteractionRow)
    : gmap (string * string) InteractionRow :=
  match t !! (a, b) with Some _ => t | None => <[(a, b) := mkInteraction now]> t end.

(** [users.remove(0)] twice: the requester and the other, whichever comes first. *)
Definition take_two (users : list User) (user_id : string) : IO (User * User) :=
  match users with
  | [] => panic
  | user1 :: rest =>
      match rest with
      | [] => panic
      | user2 :: _ => if String.eqb (u_id user1) user_id then mret (user1, user2) else mret (user2, user1)
      end
  end.

(** What the requester and the other are told. *)
Definition fs_replies (fs : FsCreate) (fs_id : string) (user friend : User) (now : Z)
    : FriendshipWithUser * FriendshipWithUser :=
  (mkFriendshipWithUser fs_id (u_id friend) (u_name friend) (u_avatar friend) (u_gender friend)
          (u_age friend) (u_region friend) (status_i32 FsPending) None (fc_source fs) now
          (u_account friend) (fc_req_remark fs) None,
        mkFriendshipWithUser fs_id (fc_user_id fs) (u_name user) (u_avatar user) (u_gender user)
          (u_age user) (u_region user) (status_i32 FsPending) (fc_apply_msg fs) (fc_source fs) now
          (u_account user) None None).

Section friends.
Context (nanoid : nat → string).

Definition create_fs (fs : FsCreate) : IO (FriendshipWithUser * FriendshipWithUser) :=
  now ← now_ms;
  x ← transaction (
    fs_id ← draw_nanoid nanoid;
    fs_id ← pg_exec (upsert_friendship fs_id fs now);
    users ← query_all user_from_row (λ p, user_cells <$> two_users (fc_user_id fs) (fc_friend_id fs) p);
    pg_exec (λ p, Some (tt, upd_interactions (λ t,
      add_interaction (fc_friend_id fs) (fc_user_id fs) now
        (add_interaction (fc_user_id fs) (fc_friend_id fs) now t)) p)) ;;
    mret (fs_id, users));
  let '(fs_id, users) := x in
  y ← take_two users (fc_user_id fs);
  let '(user, friend) := y in
  mret (fs_replies fs fs_id user friend now).
End friends.

(** ** Lists since a time *)

Definition get_fs_list (user_id : string) (offline_time : Z) : IO (list FriendshipWithUser) :=
  query_all fs_user_from_row (λ p,
    omap (λ x : string * FriendshipRow,
      if String.eqb (fs_friend_id x.2) user_id && (offline_time <? fs_update_time x.2)%Z
      then fs_user_cells x.1 x.2 <$> t_users p !! fs_user_id x.2 else None)
    (map_to_list (t_friendships p))).

Definition get_friend_list (user_id : string) (offline_time : Z) : IO (list Friend) :=
  query_all friend_from_row (λ p,
    omap (λ x : (string * string) * FriendRow,
      if String.eqb x.1.1 user_id && (offline_time <? fr_update_time x.2)%Z
      then u ← t_users p !! x.1.2; (if u_is_delete u then None else Some (friend_user_cells x.2 u))
      else None)
    (map_to_list (t_friends p))).

(** ** Accepting *)

Definition accept_row (r : AgreeReply) (now : Z) (f : FriendshipRow) : FriendshipRow :=
  mkFriendshipRow (fs_user_id f) (fs_friend_id f) FsAccepted (fs_apply_msg f) (fs_req_remark f)
    (ar_resp_msg r) (ar_resp_remark r) (fs_source f) (fs_create_time f) now (fs_operator_id f)
    (fs_last_operation f).

(** One row of [INSERT INTO friends .. ON CONFLICT DO UPDATE]: an existing row
    takes the remark, the source and the status, and keeps its [fs_id] and its
    times. *)
Definition upsert_friend (fs_id user_id friend_id : string) (remark : option string) (source : string)
    (now : Z) (t : gmap (string * string) FriendRow) : gmap (string * string) FriendRow :=
  match t !! (user_id, friend_id) with
  | Some f => <[(user_id, friend_id) :=
                 mkFriendRow (fr_fs_id f) FsAccepted remark source (fr_create_time f) (fr_update_time f)]> t
  | None => <[(user_id, friend_id) := mkFriendRow fs_id FsAccepted remark source now now]> t
  end.

Definition befriend (f : Friendship) (now : Z) (t : gmap (string * string) FriendRow)
    : gmap (string * string) FriendRow :=
  upsert_friend (sh_id f) (sh_friend_id f) (sh_user_id f) (sh_resp_remark f) (sh_source f) now
    (upsert_friend (sh_id f) (sh_user_id f) (sh_friend_id f) (sh_req_remark f) (sh_source f) now t).

(** Two proposed rows with the same key make the statement fail. *)
Definition insert_friends (f : Friendship) (now : Z) (p : Pg) : option (unit * Pg) :=
  if String.eqb (sh_user_id f) (sh_friend_id f) then None
  else Some (tt, upd_friends (befriend f now) p).

Definition packed (f : Friendship) (friend_id : string) (u : User) (remark : option string) (now : Z)
    : Friend :=
  mkFriend (sh_id f) friend_id (u_account u) (u_name u) (u_avatar u) (u_gender u) (u_age u)
    (u_region u) (sh_status f) remark (u_email u) (sh_source f) (u_signature u) (sh_update_time f)
    now f32_zero [] "Default" "public" true now.

Definition agree_friend_apply_request (fs : AgreeReply) : IO (Friend * Friend) :=
  now ← now_ms;
  x ← transaction (
    friendship ← exec_one friendship_from_row (update_returning t_friendships upd_friendships
                   (ar_fs_id fs) (accept_row fs now) (friendship_cells (ar_fs_id fs)));
    pg_exec (insert_friends friendship now) ;;
    users ← query_all user_from_row (λ p,
              user_cells <$> two_users (sh_user_id friendship) (sh_friend_id friendship) p);
    mret (friendship, users));
  let '(friendship, users) := x in
  y ← take_two users (sh_user_id friendship);
  let '(user, friend) := y in
  mret (packed friendship (sh_user_id friendship) user (sh_resp_remark friendship) now,
        packed friendship (sh_friend_id friendship) friend (sh_req_remark friendship) now).

(** ** Deleting and editing *)

Definition delete_friend_row (now : Z) (f : FriendRow) : FriendRow :=
  mkFriendRow (fr_fs_id f) FsDeleted (fr_remark f) (fr_source f) (fr_create_time f) now.
Definition delete_friendship_row (now : Z) (f : FriendshipRow) : FriendshipRow :=
  mkFriendshipRow (fs_user_id f) (fs_friend_id f) FsDeleted (fs_apply_msg f) (fs_req_remark f)
    (fs_resp_msg f) (fs_resp_remark f) (fs_source f) (fs_create_time f) now (fs_operator_id f)
    (fs_last_operation f).

(** Some row of [friends] carries the id and belongs to the user. *)
Definition owns_fs (p : Pg) (fs_id user_id : string) : bool :=
  existsb (λ x : (string * string) * FriendRow,
    String.eqb (fr_fs_id x.2) fs_id && String.eqb x.1.1 user_id) (map_to_list (t_friends p)).

Definition delete_friend (fs_id user_id : string) : IO unit :=
  update_time ← now_ms;
  transaction (
    pg_exec (λ p, Some (tt,
      if owns_fs p fs_id user_id
      then upd_friends (fmap (λ f, if String.eqb (fr_fs_id f) fs_id
                                   then delete_friend_row update_time f else f)) p
      else p)) ;;
    pg_exec (λ p, Some (tt, upd_friendships (alter (delete_friendship_row update_time) fs_id) p))).

(** [$1] is a text, [status] an enum, and there is no cast. *)
Definition update_fs_stmt : Stmt :=
  sets "friendships" [("status", TText); ("apply_msg", TText); ("req_remark", TText);
    ("update_time", TInt8)] ++ cmps "friendships" [("id", TText)].
Definition update_fs (fs : FsUpdate) : IO Friendship :=
  now ← now_ms;
  rows ← pg_stmt update_fs_stmt (update_returning t_friendships upd_friendships (fu_id fs)
    (λ f, mkFriendshipRow (fs_user_id f) (fs_friend_id f) FsPending (Some (fu_apply_msg fs))
            (Some (fu_req_remark fs)) (fs_resp_msg f) (fs_resp_remark f) (fs_source f)
            (fs_create_time f) now (fs_operator_id f) (fs_last_operation f))
    (friendship_cells (fu_id fs)));
  decoded (fetch_one friendship_from_row rows).

(** The statement also has no RETURNING: no row would come back. *)
Definition update_friend_status_stmt : Stmt :=
  sets "friendships" [("status", TText)]
  ++ cmps "friendships" [("user_id", TText); ("friend_id", TText)].
Definition update_friend_status (user_id friend_id : string) (status : FriendshipStatus) : IO Friendship :=
  rows ← pg_stmt update_friend_status_stmt (λ p, Some ([] : list Row, upd_friendships (fmap (λ f,
    if (String.eqb (fs_user_id f) user_id && String.eqb (fs_friend_id f) friend_id)
       || (String.eqb (fs_user_id f) friend_id && String.eqb (fs_friend_id f) user_id)
    then mkFriendshipRow (fs_user_id f) (fs_friend_id f) status (fs_apply_msg f) (fs_req_remark f)
           (fs_resp_msg f) (fs_resp_remark f) (fs_source f) (fs_create_time f) (fs_update_time f)
           (fs_operator_id f) (fs_last_operation f)
    else f)) p));
  decoded (fetch_one friendship_from_row rows).

(** [serial] gives the BIGSERIAL id of a row of [friends]. *)
Definition update_friend_remark (serial : string * string → Z) (user_id friend_id remark : string)
    : IO FriendDb :=
  now ← now_ms;
  exec_one friend_db_from_row (update_returning t_friends upd_friends (user_id, friend_id)
    (λ f, mkFriendRow (fr_fs_id f) (fr_status f) (Some remark) (fr_source f) (fr_create_time f) now)
    (friend_cells (serial (user_id, friend_id)) user_id friend_id)).

(** ** Groups, tags, privacy and scores: statements no table of the schema fits *)

Section extras.
Context (nanoid : nat → string) {pg_server : PgServer}.

Definition create_friend_group_stmt : Stmt :=
  sets "friend_groups" [("id", TText); ("user_id", TText); ("name", TText); ("display_order", TInt4);
    ("create_time", TInt8); ("update_time", TInt8)].
Definition create_friend_group (user_id name : string) (display_order : Z) : IO FriendGroup :=
  now ← now_ms; id ← draw_nanoid nanoid;
  rows ← stmt_rows create_friend_group_stmt [BText id; BText user_id; BText name; BInt4 display_order; BInt8 now];
  decoded (fetch_one friend_group_from_row rows).

Definition update_friend_group_stmt : Stmt :=
  sets "friend_groups" [("name", TText); ("display_order", TInt4); ("update_time", TInt8)]
  ++ cmps "friend_groups" [("id", TText)].
Definition update_friend_group (group_id name : string) (display_order : Z) : IO FriendGroup :=
  now ← now_ms;
  rows ← stmt_rows update_friend_group_stmt [BText group_id; BText name; BInt4 display_order; BInt8 now];
  decoded (fetch_one friend_group_from_row rows).

Definition move_to_default_stmt : Stmt :=
  sets "friends" [("group_id", TInt8); ("update_time", TInt8)]
  ++ cmps "friend_groups" [("name", TText); ("id", TText)]
  ++ cols "friend_groups" ["id"; "user_id"]%string ++ cmps "friends" [("group_id", TText)].
Definition drop_group_stmt : Stmt := cmps "friend_groups" [("id", TText)].
Definition delete_friend_group (group_id : string) : IO unit :=
  now ← now_ms;
  stmt_execute move_to_default_stmt [BText group_id; BInt8 now] ;;
  stmt_execute drop_group_stmt [BText group_id].

Definition get_friend_groups_stmt : Stmt :=
  cmps "friend_groups" [("user_id", TText)] ++ cols "friend_groups" ["display_order"]%string.
Definition get_friend_groups (user_id : string) : IO (list FriendGroup) :=
  rows ← stmt_rows get_friend_groups_stmt [BText user_id];
  decoded (fetch_all friend_group_from_row rows).

Definition assign_group_stmt : Stmt :=
  sets "friends" [("group_id", TText); ("update_time", TInt8)]
  ++ cmps "friends" [("user_id", TText); ("friend_id", TText)].
Definition assign_friend_to_group (user_id friend_id group_id : string) : IO FriendDb :=
  now ← now_ms;
  rows ← stmt_rows assign_group_stmt [BText user_id; BText friend_id; BText group_id; BInt8 now];
  decoded (fetch_one friend_db_from_row rows).

Definition create_friend_tag_stmt : Stmt :=
  sets "friend_tags" [("id", TText); ("user_id", TText); ("tag_name", TText); ("tag_color", TText);
    ("create_time", TInt8)].
Definition create_friend_tag (user_id tag_name tag_color : string) : IO FriendTag :=
  id ← draw_nanoid nanoid; now ← now_ms;
  rows ← stmt_rows create_friend_tag_stmt [BText id; BText user_id; BText tag_name; BText tag_color; BInt8 now];
  decoded (fetch_one friend_tag_from_row rows).

Definition drop_tag_relations_stmt : Stmt := cmps "friend_tag_relations" [("tag_id", TText)].
Definition drop_tag_stmt : Stmt := cmps "friend_tags" [("id", TText)].
Definition delete_friend_tag (tag_id : string) : IO unit :=
  stmt_execute drop_tag_relations_stmt [BText tag_id] ;;
  stmt_execute drop_tag_stmt [BText tag_id].

Definition get_friend_tags_stmt : Stmt :=
  cmps "friend_tags" [("user_id", TText)] ++ cols "friend_tags" ["tag_name"]%string.
Definition get_friend_tags (user_id : string) : IO (list FriendTag) :=
  rows ← stmt_rows get_friend_tags_stmt [BText user_id];
  decoded (fetch_all friend_tag_from_row rows).

Definition add_tag_stmt : Stmt :=
  sets "friend_tag_relations" [("user_id", TText); ("friend_id", TText); ("tag_id", TText)].
Definition remove_tag_stmt : Stmt :=
  cmps "friend_tag_relations" [("user_id", TText); ("friend_id", TText); ("tag_id", TText)].
(** [friends] has no column [tags], [friend_tags] none called [tag_name]. *)
Definition refresh_tags_stmt : Stmt :=
  sets "friends" [("tags", TTextArray); ("update_time", TInt8)] ++ cols "friend_tags" ["tag_name"; "id"]%string
  ++ cmps "friend_tag_relations" [("tag_id", TInt8); ("user_id", TText); ("friend_id", TText)]
  ++ cmps "friends" [("user_id", TText); ("friend_id", TText)].

Definition add_tags_to_friend (user_id friend_id : string) (tag_ids : list string) : IO unit :=
  transaction (
    for_each tag_ids (λ tag_id, stmt_execute add_tag_stmt [BText user_id; BText friend_id; BText tag_id]) ;;
    now ← now_ms;
    stmt_execute refresh_tags_stmt [BText user_id; BText friend_id; BInt8 now]).
Definition remove_tags_from_friend (user_id friend_id : string) (tag_ids : list string) : IO unit :=
  transaction (
    for_each tag_ids (λ tag_id, stmt_execute remove_tag_stmt [BText user_id; BText friend_id; BText tag_id]) ;;
    now ← now_ms;
    stmt_execute refresh_tags_stmt [BText user_id; BText friend_id; BInt8 now]).

Definition privacy_stmt : Stmt :=
  sets "friend_privacy_settings" [("user_id", TText); ("friend_id", TText); ("privacy_level", TText);
    ("share_timeline", TBool); ("share_location", TBool); ("share_status", TBool)].
Definition privacy_level_stmt : Stmt :=
  sets "friends" [("privacy_level", TText); ("update_time", TInt8)]
  ++ cmps "friends" [("user_id", TText); ("friend_id", TText)].
Definition update_friend_privacy (user_id friend_id : string) (privacy_settings : FriendPrivacySettings)
    : IO unit :=
  now ← now_ms;
  stmt_execute privacy_stmt [BText user_id; BText friend_id; BText (fp_privacy_level privacy_settings);
    BBool (fp_share_timeline privacy_settings); BBool (fp_share_location privacy_settings);
    BBool (fp_share_status privacy_settings)] ;;
  stmt_execute privacy_level_stmt [BText user_id; BText friend_id; BText (fp_privacy_level privacy_settings);
    BInt8 now].

(** The table stays empty, its one writer being [privacy_stmt]. *)
Definition get_privacy_stmt : Stmt :=
  cmps "friend_privacy_settings" [("user_id", TText); ("friend_id", TText)].
Definition get_friend_privacy (user_id friend_id : string) : IO FriendPrivacySettings :=
  rows ← pg_stmt get_privacy_stmt (λ p, Some ([] : list Row, p));
  privacy ← decoded (fetch_optional friend_privacy_from_row rows);
  mret (default (mkFriendPrivacySettings user_id friend_id "public" true true true) privacy).

Definition score_stmt : Stmt :=
  sets "friends" [("interaction_score", TFloat4); ("interaction_count", TInt4);
    ("last_interaction", TInt8); ("update_time", TInt8)]
  ++ cmps "friends" [("user_id", TText); ("friend_id", TText)].
Definition update_interaction_score (user_id friend_id : string) (interaction_value : f32) : IO f32 :=
  now ← now_ms;
  rows ← stmt_rows score_stmt [BText user_id; BText friend_id; BFloat4 (f32_bits interaction_value); BInt8 now];
  decoded (fetch_one (λ r, try_get as_f32 r "interaction_score") rows).

Definition stats_from_row (r : Row) : option (f32 * Z * Z) :=
  s ← try_get as_f32 r "interaction_score"; n ← try_get as_int4 r "interaction_count";
  t ← try_get as_int8 r "last_interaction"; Some (s, n, t).
Definition stats_stmt : Stmt :=
  cols "friends" ["interaction_score"; "interaction_count"; "last_interaction"]%string
  ++ cmps "friends" [("user_id", TText); ("friend_id", TText)].
Definition get_interaction_stats (user_id friend_id : string) : IO (f32 * Z * Z) :=
  rows ← stmt_rows stats_stmt [BText user_id; BText friend_id];
  decoded (fetch_one stats_from_row rows).
End extras.

(** ** The statements of the file *)

Definition create_fs_stmt : Stmt :=
  sets "friendships" [("id", TText); ("user_id", TText); ("friend_id", TText); ("status", fs_type);
    ("apply_msg", TText); ("req_remark", TText); ("source", TText); ("create_time", TInt8);
    ("update_time", TInt8); ("operator_id", TText); ("last_operation", TText)]
  ++ [ICast TText fs_type].
Definition two_users_stmt : Stmt := cmps "users" [("id", TText)].
Definition interactions_stmt : Stmt :=
  sets "friend_interactions" [("user_id", TText); ("friend_id", TText); ("last_interact_time", TInt8)].
Definition fs_list_stmt : Stmt :=
  cols "friendships" ["id"; "user_id"; "apply_msg"; "source"; "create_time"]%string
  ++ cols "users" ["name"; "avatar"; "gender"; "age"; "region"]%string
  ++ cmps "friendships" [("user_id", TText); ("friend_id", TText); ("update_time", TInt8)].
Definition remark_stmt : Stmt :=
  sets "friends" [("remark", TText); ("update_time", TInt8)]
  ++ cmps "friends" [("user_id", TText); ("friend_id", TText)].
Definition friend_list_stmt : Stmt :=
  cols "users" ["name"; "account"; "email"; "avatar"; "gender"; "age"; "region"; "signature"; "is_delete"]%string
  ++ cols "friends" ["fs_id"; "status"; "source"; "create_time"; "remark"]%string
  ++ cmps "friends" [("friend_id", TText); ("user_id", TText); ("update_time", TInt8)].
Definition accept_stmt : Stmt :=
  sets "friendships" [("status", fs_type); ("update_time", TInt8); ("resp_msg", TText);
    ("resp_remark", TText)] ++ cmps "friendships" [("id", TText)].
Definition insert_friends_stmt : Stmt :=
  sets "friends" [("fs_id", TText); ("user_id", TText); ("friend_id", TText); ("remark", TText);
    ("source", TText); ("create_time", TInt8); ("update_time", TInt8); ("status", fs_type)].
Definition delete_friends_stmt : Stmt :=
  sets "friends" [("status", fs_type); ("update_time", TInt8)]
  ++ cmps "friends" [("fs_id", TText); ("user_id", TText)].
Definition delete_friendship_stmt : Stmt :=
  sets "friendships" [("status", fs_type); ("update_time", TInt8)] ++ cmps "friendships" [("id", TText)].

Definition friend_statements : list (string * Stmt) :=
  [ ("create_fs", create_fs_stmt); ("create_fs.users", two_users_stmt);
    ("create_fs.interactions", interactions_stmt); ("get_fs_list", fs_list_stmt);
    ("update_fs", update_fs_stmt); ("update_friend_remark", remark_stmt);
    ("update_friend_status", update_friend_status_stmt); ("get_friend_list", friend_list_stmt);
    ("agree.accept", accept_stmt); ("agree.friends", insert_friends_stmt);
    ("delete_friend.friends", delete_friends_stmt); ("delete_friend.friendship", delete_friendship_stmt);
    ("create_friend_group", create_friend_group_stmt); ("update_friend_group", update_friend_group_stmt);
    ("delete_friend_group.move", move_to_default_stmt); ("delete_friend_group.drop", drop_group_stmt);
    ("get_friend_groups", get_friend_groups_stmt); ("assign_friend_to_group", assign_group_stmt);
    ("create_friend_tag", create_friend_tag_stmt); ("delete_friend_tag.relations", drop_tag_relations_stmt);
    ("delete_friend_tag.tag", drop_tag_stmt); ("get_friend_tags", get_friend_tags_stmt);
    ("add_tags_to_friend", add_tag_stmt); ("remove_tags_from_friend", remove_tag_stmt);
    ("tags.refresh", refresh_tags_stmt); ("update_friend_privacy", privacy_stmt);
    ("update_friend_privacy.friends", privacy_level_stmt); ("get_friend_privacy", get_privacy_stmt);
    ("update_interaction_score", score_stmt); ("get_interaction_stats", stats_stmt) ]%string.

(** ** Properties *)

Lemma never_ok_rejected {A} s (q : Pg → option (A * Pg)) : prepares s = false → never_ok (pg_stmt s q).
Proof. intros Hs w. by destruct (pg_stmt_rejected s q w Hs) as [fs ->]. Qed.

Lemma rejected_keeps_pg {A B} s (q : Pg → option (A * Pg)) (k : A → IO B) w :
  prepares s = false → (pg_stmt s q ≫= k) w = (Err pg_error, upd_faults (λ _, tail (w_faults w)) w).
Proof.
  intros Hs. unfold pg_stmt, pg_exec, remote, take_fault. rewrite Hs. mstep.
  by destruct w as [????????? [|[] fs] ??].
Qed.

(** An operation that ends in a database error and changes no table. *)
Definition dead {A} (m : IO A) : Prop := ∀ w, (m w).1 = Err pg_error ∧ w_pg (m w).2 = w_pg w.

Lemma dead_stmt {A B} s (q : Pg → option (A * Pg)) (k : A → IO B) :
  prepares s = false → dead (pg_stmt s q ≫= k).
Proof. intros Hs w. by rewrite rejected_keeps_pg. Qed.

Lemma dead_last_stmt {A} s (q : Pg → option (A * Pg)) : prepares s = false → dead (pg_stmt s q).
Proof.
  intros Hs w. by destruct (pg_stmt_rejected s q w Hs) as [fs ->].
Qed.

Lemma dead_now {B} (k : Z → IO B) : (∀ t, dead (k t)) → dead (now_ms ≫= k).
Proof. intros H w. apply H. Qed.

Lemma dead_nanoid {B} nanoid (k : string → IO B) : (∀ s, dead (k s)) → dead (draw_nanoid nanoid ≫= k).
Proof. intros H w. destruct (H (nanoid (w_ids w)) (upd_ids S w)) as [H1 H2]. done. Qed.

Lemma dead_for_each {A B} (l : list A) (f : A → IO unit) (k : unit → IO B) :
  (∀ x, dead (f x)) → dead (k tt) → dead (for_each l f ≫= k).
Proof.
  intros Hf Hk. destruct l as [|x l]; [exact Hk|]. intros w. destruct (Hf x w) as [H1 H2].
  unfold for_each. fold (@for_each World Error A). unfold mbind, M_bind. destruct (f x w) as [o w']. simpl in *.
  by subst o.
Qed.

Lemma dead_transaction {A} (body : IO A) : dead body → dead (transaction body).
Proof.
  intros H w. assert (Hn : never_ok body) by (intros v; unfold is_ok; by destruct (H v) as [-> _]).
  split; [|by apply never_ok_rolls_back].
  unfold transaction, remote, until_commit, take_fault. mstep.
  destruct (w_faults w) as [|[] fs]; simpl; try done;
    match goal with |- context [body ?v] => destruct (H v) as [E _], (body v) as [o w'] end;
    simpl in E; by subst o.
Qed.

Ltac dead_op :=
  intros; first
    [ apply dead_stmt; vm_compute; reflexivity
    | apply dead_now; dead_op | apply dead_nanoid; dead_op
    | apply dead_for_each; dead_op
    | apply dead_transaction; dead_op
    | apply dead_last_stmt; vm_compute; reflexivity ].

(** The names of the statements the server refuses to prepare. *)
Definition ill_typed (ss : list (string * Stmt)) : list string :=
  (List.filter (λ s : string * Stmt, negb (prepares s.2)) ss).*1.

(** ** Requests, acceptance and deletion, step by step *)

(** Accounts are stored under their ids. *)
Definition keyed (p : Pg) : Prop := ∀ id u, t_users p !! id = Some u → u_id u = id.

Lemma two_users_nil a b l :
  (∀ u, u ∈ l → u_id u ≠ a ∧ u_id u ≠ b) →
  List.filter (λ u, String.eqb (u_id u) a || String.eqb (u_id u) b) l = [].
Proof.
  induction l as [|u l IH]; intros H; [done|]. simpl.
  destruct (H u (list_elem_of_here _ _)) as [Ha Hb].
  rewrite (proj2 (String.eqb_neq _ _) Ha), (proj2 (String.eqb_neq _ _) Hb). simpl.
  apply IH. intros v Hv. apply H. by apply list_elem_of_further.
Qed.

Lemma Permutation_filter_bool {A} (f : A → bool) l l' : l ≡ₚ l' → List.filter f l ≡ₚ List.filter f l'.
Proof.
  induction 1; simpl; repeat case_match; try done; [by constructor|by constructor|by etrans].
Qed.

(** Two accounts with different ids: whatever order the rows come in, the
    first taken is the requester. *)
Lemma take_two_users p a b ua ub w :
  keyed p → t_users p !! a = Some ua → t_users p !! b = Some ub → a ≠ b →
  take_two (two_users a b p) a w = (Ok (ua, ub), w).
Proof.
  intros Hk Ha Hb Hne.
  assert (Hp : two_users a b p ≡ₚ [ua; ub]).
  { unfold two_users. rewrite (Permutation_filter_bool _ _
      (snd <$> ((a, ua) :: (b, ub) :: map_to_list (delete b (delete a (t_users p)))))).
    2:{ apply fmap_Permutation. rewrite (map_to_list_delete (delete a (t_users p)) b ub) by (by rewrite lookup_delete_ne).
        by rewrite (map_to_list_delete (t_users p) a ua). }
    simpl. rewrite (Hk _ _ Ha), (Hk _ _ Hb), !String.eqb_refl. simpl. rewrite orb_true_r.
    rewrite two_users_nil; [done|]. intros u ((id & v) & -> & Hid)%list_elem_of_fmap.
    apply elem_of_map_to_list in Hid. rewrite !lookup_delete_Some in Hid.
    destruct Hid as (Hb' & Ha' & Hid). simpl. rewrite (Hk _ _ Hid). done. }
  destruct (Permutation_length_2_inv (Permutation_sym Hp)) as [->| ->]; unfold take_two; mstep;
    rewrite ?(Hk _ _ Ha), ?(Hk _ _ Hb), ?String.eqb_refl; [done|].
  by rewrite (proj2 (String.eqb_neq b a)) by done.
Qed.

(** One account at most: the second [remove(0)] panics. *)
Lemma take_two_short p a b w :
  keyed p → (t_users p !! a = None ∨ t_users p !! b = None ∨ a = b) →
  take_two (two_users a b p) a w = (Panic, w).
Proof.
  intros Hk Hm.
  assert (Hin : ∀ u, u ∈ two_users a b p → (u_id u = a ∨ u_id u = b) ∧ t_users p !! u_id u = Some u).
  { intros u Hu. unfold two_users in Hu. apply list_elem_of_In, filter_In in Hu as [Hu Hab].
    apply list_elem_of_In, list_elem_of_fmap in Hu as ((id & v) & -> & Hid). simpl in *.
    apply elem_of_map_to_list in Hid. rewrite (Hk _ _ Hid). split; [|done].
    apply orb_prop in Hab as [H|H]; apply String.eqb_eq in H; rewrite (Hk _ _ Hid) in H; auto. }
  assert (Hnd : NoDup (two_users a b p)).
  { unfold two_users. apply NoDup_ListNoDup, List.NoDup_filter, NoDup_ListNoDup.
    apply NoDup_fmap_2_strong; [|apply NoDup_map_to_list].
    intros [i u] [j v] Hi Hj E. simpl in E. subst v. apply elem_of_map_to_list in Hi, Hj.
    by rewrite <- (Hk _ _ Hi), <- (Hk _ _ Hj). }
  destruct (two_users a b p) as [|u [|v l]]; [done|done|].
  exfalso. destruct (Hin u (list_elem_of_here _ _)) as [Hu Hu'].
  destruct (Hin v (list_elem_of_further _ _ _ (list_elem_of_here _ _))) as [Hv Hv'].
  assert (u_id u ≠ u_id v).
  { intros E. rewrite E, Hv' in Hu'. simplify_eq. apply NoDup_cons in Hnd as [Hn _].
    apply Hn, list_elem_of_here. }
  destruct Hm as [Hm|[Hm| ->]], Hu as [Eu|Eu], Hv as [Ev|Ev]; congruence.
Qed.

Lemma upsert_friendship_users id fs now p id' p1 :
  upsert_friendship id fs now p = Some (id', p1) → t_users p1 = t_users p.
Proof.
  unfold upsert_friendship. destruct (find_friendship _ _ _) as [[old r]|]; [by intros [= _ <-]|].
  case_bool_decide; [by intros [= _ <-]|done].
Qed.

Definition with_interactions (fs : FsCreate) (now : Z) (p : Pg) : Pg :=
  upd_interactions (λ t, add_interaction (fc_friend_id fs) (fc_user_id fs) now
    (add_interaction (fc_user_id fs) (fc_friend_id fs) now t)) p.

(** What is committed does not depend on the accounts; the answer does. *)
Lemma create_fs_run nanoid fs w id p1 :
  healthy w → upsert_friendship (nanoid (w_ids w)) fs (w_clock w) (w_pg w) = Some (id, p1) →
  create_fs nanoid fs w
  = (y ← take_two (two_users (fc_user_id fs) (fc_friend_id fs) (w_pg w)) (fc_user_id fs);
     let '(user, friend) := y in mret (fs_replies fs id user friend (w_clock w)))
      (upd_pg (λ _, with_interactions fs (w_clock w) p1) (upd_ids S w)).
Proof.
  intros Hw Hup. pose proof (upsert_friendship_users _ _ _ _ _ _ Hup) as Hus.
  unfold create_fs. erewrite bind_ok by done. erewrite bind_ok.
  2:{ apply transaction_ok; [done| |].
      - erewrite bind_ok by done. erewrite bind_ok by (apply pg_exec_healthy; [done|exact Hup]).
        erewrite bind_ok.
        2:{ apply query_all_run; [done|]. apply users_decode. }
        erewrite bind_ok by (by apply pg_exec_healthy). done.
      - done. }
  unfold two_users. simpl. by rewrite Hus.
Qed.

(** A request to become friends, with a fresh id or over an old request of
    the same pair, is committed as pending with both interaction rows; then the
    two accounts decide the answer: two different ones give the two notices,
    and an unknown account, or a request to oneself, makes the call panic after
    its commit. *)
Theorem create_fs_functional (nanoid : nat → string) (fs : FsCreate) (w : World) (id : string) (p1 : Pg)
    (Hnet : healthy w) (Hk : keyed (w_pg w))
    (Hup : upsert_friendship (nanoid (w_ids w)) fs (w_clock w) (w_pg w) = Some (id, p1)) :
  let w1 := upd_pg (λ _, with_interactions fs (w_clock w) p1) (upd_ids S w) in
  (∀ user friend, t_users (w_pg w) !! fc_user_id fs = Some user →
     t_users (w_pg w) !! fc_friend_id fs = Some friend → fc_user_id fs ≠ fc_friend_id fs →
     create_fs nanoid fs w = (Ok (fs_replies fs id user friend (w_clock w)), w1))
  ∧ (t_users (w_pg w) !! fc_user_id fs = None ∨ t_users (w_pg w) !! fc_friend_id fs = None
       ∨ fc_user_id fs = fc_friend_id fs →
     create_fs nanoid fs w = (Panic, w1))
  ∧ fs_status <$> t_friendships p1 !! id = Some FsPending.
Proof.
  intros w1. split_and!.
  - intros user friend Hu Hf Hne. rewrite (create_fs_run _ _ _ _ _ Hnet Hup).
    erewrite bind_ok by (by apply take_two_users). done.
  - intros Hm. rewrite (create_fs_run _ _ _ _ _ Hnet Hup). unfold mbind, M_bind.
    by rewrite take_two_short.
  - unfold upsert_friendship in Hup. destruct (find_friendship _ _ _) as [[old r]|]; [|case_bool_decide; [|done]];
      simplify_eq; simpl; by rewrite lookup_insert_eq.
Qed.

(** The tables after an acceptance. *)
Definition agreed (r : AgreeReply) (f : FriendshipRow) (now : Z) (p : Pg) : Pg :=
  upd_friends (befriend (friendship_of (ar_fs_id r) (accept_row r now f)) now)
    (upd_friendships (insert (ar_fs_id r) (accept_row r now f)) p).
Definition agree_replies (r : AgreeReply) (f : FriendshipRow) (user friend : User) (now : Z)
    : Friend * Friend :=
  let fs := friendship_of (ar_fs_id r) (accept_row r now f) in
  (packed fs (fs_user_id f) user (ar_resp_remark r) now,
   packed fs (fs_friend_id f) friend (fs_req_remark f) now).

Lemma accept_decodes r f now id :
  fetch_one friendship_from_row [friendship_cells id (accept_row r now f)]
  = Some (friendship_of id (accept_row r now f)).
Proof. cbn [fetch_one]. rewrite friendship_decodes. by rewrite bool_decide_eq_false_2 by (by intros [?|?]). Qed.

Lemma accept_run r w f :
  healthy w → t_friendships (w_pg w) !! ar_fs_id r = Some f →
  exec_one friendship_from_row (update_returning t_friendships upd_friendships (ar_fs_id r)
    (accept_row r (w_clock w)) (friendship_cells (ar_fs_id r))) w
  = (Ok (friendship_of (ar_fs_id r) (accept_row r (w_clock w) f)),
     upd_pg (upd_friendships (insert (ar_fs_id r) (accept_row r (w_clock w) f))) w).
Proof.
  intros Hw Hf. erewrite exec_one_run; [|done|unfold update_returning; by rewrite Hf].
  by rewrite accept_decodes.
Qed.

Lemma agree_run r w f :
  healthy w → t_friendships (w_pg w) !! ar_fs_id r = Some f → fs_user_id f ≠ fs_friend_id f →
  agree_friend_apply_request r w
  = (y ← take_two (two_users (fs_user_id f) (fs_friend_id f) (w_pg w)) (fs_user_id f);
     let '(user, friend) := y in mret (agree_replies r f user friend (w_clock w)))
      (upd_pg (agreed r f (w_clock w)) w).
Proof.
  intros Hw Hf Hne. unfold agree_friend_apply_request. erewrite bind_ok by done. erewrite bind_ok.
  2:{ apply transaction_ok; [done| |].
      - erewrite bind_ok by (by apply accept_run).
        erewrite bind_ok.
        2:{ apply pg_exec_healthy; [done|]. unfold insert_friends. simpl.
            by rewrite (proj2 (String.eqb_neq _ _) Hne). }
        erewrite bind_ok by (apply query_all_run; [done|]; apply users_decode). done.
      - done. }
  done.
Qed.

(** C27. Accepting a request marks it accepted and makes each side a friend of
    the other, and answers both accounts under the request's id; a request that
    is not there is an error, and one to oneself an error that undoes the
    acceptance. The request's status and the caller are not looked at. *)
Theorem agree_functional (r : AgreeReply) (w : World) (Hnet : healthy w) (Hk : keyed (w_pg w)) :
  (t_friendships (w_pg w) !! ar_fs_id r = None →
     agree_friend_apply_request r w = (Err pg_error, w))
  ∧ ∀ f, t_friendships (w_pg w) !! ar_fs_id r = Some f →
      (fs_user_id f = fs_friend_id f → agree_friend_apply_request r w = (Err pg_error, w))
      ∧ (fs_user_id f ≠ fs_friend_id f →
         let w1 := upd_pg (agreed r f (w_clock w)) w in
         (∀ user friend, t_users (w_pg w) !! fs_user_id f = Some user →
            t_users (w_pg w) !! fs_friend_id f = Some friend →
            agree_friend_apply_request r w = (Ok (agree_replies r f user friend (w_clock w)), w1))
         ∧ fs_status <$> t_friendships (w_pg w1) !! ar_fs_id r = Some FsAccepted
         ∧ fr_status <$> t_friends (w_pg w1) !! (fs_user_id f, fs_friend_id f) = Some FsAccepted
         ∧ fr_status <$> t_friends (w_pg w1) !! (fs_friend_id f, fs_user_id f) = Some FsAccepted).
Proof.
  split; [|intros f Hf; split].
  - intros Hn. unfold agree_friend_apply_request. erewrite bind_ok by done.
    erewrite bind_err; [reflexivity|]. erewrite transaction_err; [|done|].
    2:{ eapply bind_err. erewrite exec_one_run; [|done|unfold update_returning; by rewrite Hn]. done. }
    unfold rollback. by rewrite !upd_pg_id.
  - intros E. unfold agree_friend_apply_request. erewrite bind_ok by done.
    erewrite bind_err; [reflexivity|]. erewrite transaction_err; [|done|].
    2:{ erewrite bind_ok by (by apply accept_run). eapply bind_err. apply pg_exec_healthy_err; [done|].
        unfold insert_friends. simpl. by rewrite E, String.eqb_refl. }
    unfold rollback. by destruct w.
  - intros Hne w1. split_and!.
    + intros user friend Hu Hv. rewrite (agree_run _ _ _ Hnet Hf Hne).
      by erewrite bind_ok by (by apply take_two_users).
    + simpl. by rewrite lookup_insert_eq.
    + simpl. unfold befriend, upsert_friend. simpl. repeat case_match;
        rewrite ?lookup_insert_eq, ?lookup_insert_ne, ?lookup_insert_eq by congruence; done.
    + simpl. unfold befriend, upsert_friend at 1. case_match; by rewrite lookup_insert_eq.
Qed.

(** The tables after a deletion by [user_id]. *)
Definition deleted (fs_id user_id : string) (now : Z) (p : Pg) : Pg :=
  upd_friendships (alter (delete_friendship_row now) fs_id)
    (if owns_fs p fs_id user_id
     then upd_friends (fmap (λ f, if String.eqb (fr_fs_id f) fs_id then delete_friend_row now f else f)) p
     else p).

Lemma delete_friend_run fs_id user_id w :
  healthy w → delete_friend fs_id user_id w = (Ok tt, upd_pg (deleted fs_id user_id (w_clock w)) w).
Proof.
  intros Hw. unfold delete_friend. erewrite bind_ok by done. apply transaction_ok; [done| |done].
  erewrite bind_ok by (by apply pg_exec_healthy). by erewrite pg_exec_healthy by done.
Qed.

Lemma owns_fs_spec p fs_id user_id :
  owns_fs p fs_id user_id = true
  ↔ ∃ friend f, t_friends p !! (user_id, friend) = Some f ∧ fr_fs_id f = fs_id.
Proof.
  unfold owns_fs. rewrite existsb_exists. split.
  - intros ([[u v] f] & Hin & [H1%String.eqb_eq H2%String.eqb_eq]%andb_prop). simpl in *. subst.
    apply list_elem_of_In, elem_of_map_to_list in Hin. eauto.
  - intros (v & f & Hf & <-). exists ((user_id, v), f). simpl. rewrite !String.eqb_refl. split; [|done].
    by apply list_elem_of_In, elem_of_map_to_list.
Qed.

(** Deleting a friend always succeeds and marks the request deleted,
    whoever asks; the friends rows under its id are marked deleted exactly when
    one of them is the caller's, and are left as they are otherwise. *)
Theorem delete_friend_functional (fs_id user_id : string) (w : World) (Hnet : healthy w) :
  ∃ w', delete_friend fs_id user_id w = (Ok tt, w')
  ∧ t_friendships (w_pg w') !! fs_id = delete_friendship_row (w_clock w) <$> t_friendships (w_pg w) !! fs_id
  ∧ (∀ friend f, t_friends (w_pg w) !! (user_id, friend) = Some f → fr_fs_id f = fs_id →
       ∀ k g, t_friends (w_pg w) !! k = Some g → fr_fs_id g = fs_id →
         t_friends (w_pg w') !! k = Some (delete_friend_row (w_clock w) g))
  ∧ ((∀ friend f, t_friends (w_pg w) !! (user_id, friend) = Some f → fr_fs_id f ≠ fs_id) →
       t_friends (w_pg w') = t_friends (w_pg w)).
Proof.
  exists (upd_pg (deleted fs_id user_id (w_clock w)) w). split; [by apply delete_friend_run|].
  unfold deleted. simpl. destruct (owns_fs _ _ _) eqn:Ho; split_and!; simpl; try apply lookup_alter_eq.
  - intros friend f Hf Hid k g Hg Hg'. rewrite lookup_fmap, Hg. simpl. by rewrite Hg', String.eqb_refl.
  - intros Hn. apply owns_fs_spec in Ho as (friend & f & Hf & Hid). by destruct (Hn friend f Hf).
  - intros friend f Hf Hid. assert (owns_fs (w_pg w) fs_id user_id = true) by (apply owns_fs_spec; eauto).
    congruence.
  - done.
Qed.

Lemma befriend_old f now t a b fa fb :
  t !! (sh_user_id f, sh_friend_id f) = Some fa → t !! (sh_friend_id f, sh_user_id f) = Some fb →
  sh_user_id f = a → sh_friend_id f = b → a ≠ b →
  befriend f now t
  = <[(b, a) := mkFriendRow (fr_fs_id fb) FsAccepted (sh_resp_remark f) (sh_source f)
                  (fr_create_time fb) (fr_update_time fb)]>
    (<[(a, b) := mkFriendRow (fr_fs_id fa) FsAccepted (sh_req_remark f) (sh_source f)
                  (fr_create_time fa) (fr_update_time fa)]> t).
Proof.
  intros Ha Hb <- <- Hne. unfold befriend, upsert_friend. rewrite Ha.
  rewrite lookup_insert_ne by congruence. by rewrite Hb.
Qed.

(** Friends who become friends again by a request the other way round, under
    a new id, keep their rows' first id and times: deleting under the new id,
    the one their clients were answered, marks the request deleted and leaves
    both accepted; and no client that synchronises by update time since then
    is shown the friend again. *)
Theorem readded_friend_stale (r : AgreeReply) (w : World) (f : FriendshipRow) (fa fb : FriendRow) (u : string)
    (Hnet : healthy w) (Hf : t_friendships (w_pg w) !! ar_fs_id r = Some f)
    (Hne : fs_user_id f ≠ fs_friend_id f)
    (Ha : t_friends (w_pg w) !! (fs_user_id f, fs_friend_id f) = Some fa)
    (Hb : t_friends (w_pg w) !! (fs_friend_id f, fs_user_id f) = Some fb)
    (Hnew : ∀ k g, t_friends (w_pg w) !! k = Some g → fr_fs_id g ≠ ar_fs_id r) :
  let w1 := (agree_friend_apply_request r w).2 in
  ∃ w2, delete_friend (ar_fs_id r) u w1 = (Ok tt, w2)
  ∧ fs_status <$> t_friendships (w_pg w2) !! ar_fs_id r = Some FsDeleted
  ∧ (∃ ga gb, t_friends (w_pg w2) !! (fs_user_id f, fs_friend_id f) = Some ga
      ∧ t_friends (w_pg w2) !! (fs_friend_id f, fs_user_id f) = Some gb
      ∧ fr_status ga = FsAccepted ∧ fr_status gb = FsAccepted
      ∧ fr_update_time ga = fr_update_time fa ∧ fr_update_time gb = fr_update_time fb).
Proof.
  assert (Hpg : ∀ {A} (y : IO A) (k : A → IO (Friend * Friend)) v,
    (∀ x, (y x).2 = x) → (∀ a x, (k a x).2 = x) → ((y ≫= k) v).2 = v).
  { intros A y k v Hy Hk. unfold mbind, M_bind. specialize (Hy v).
    destruct (y v) as [[] ?]; simpl in *; subst; [apply Hk|done..]. }
  rewrite (agree_run _ _ _ Hnet Hf Hne). rewrite Hpg; cycle 1.
  { intros x. unfold take_two. repeat case_match; done. }
  { by intros [] x. }
  clear Hpg. simpl. eexists. split; [by apply delete_friend_run|]. unfold deleted. simpl.
  destruct (owns_fs _ _ _) eqn:Ho.
  { exfalso. apply owns_fs_spec in Ho as (v & g & Hg & Hid). simpl in Hg.
    erewrite befriend_old in Hg by done.
    rewrite !lookup_insert in Hg. repeat case_decide; simplify_eq; simpl in *;
      first [exact (Hnew _ _ Ha Hid)|exact (Hnew _ _ Hb Hid)|exact (Hnew _ _ Hg Hid)]. }
  simpl. split; [by rewrite lookup_alter_eq, lookup_insert_eq|].
  erewrite befriend_old by done. simpl. eexists _, _. split_and!.
  - rewrite lookup_insert_ne by congruence. by rewrite lookup_insert_eq.
  - by rewrite lookup_insert_eq.
  - done.
  - done.
  - done.
  - done.
Qed.

(** ** The offline lists and the remark *)

(** The list of requests since a time holds every request made to the user
    and changed since, but always as pending and from a nameless account: an
    accepted, rejected or deleted one reads as a new one. *)
Theorem request_list_hides_status (user_id : string) (t : Z) (w : World) (Hnet : healthy w) :
  ∃ l, get_fs_list user_id t w = (Ok l, w)
  ∧ (∀ x, x ∈ l → fw_status x = status_i32 FsPending ∧ fw_account x = ""%string)
  ∧ (∀ id, (∃ x, x ∈ l ∧ fw_fs_id x = id)
       ↔ ∃ f, t_friendships (w_pg w) !! id = Some f ∧ fs_friend_id f = user_id
           ∧ (t < fs_update_time f)%Z ∧ is_Some (t_users (w_pg w) !! fs_user_id f)).
Proof.
  eexists. split; [apply query_all_run; [done|apply fetch_all_pure]|]. split.
  - intros x (row & -> & ([id f] & _ & Hrow)%list_elem_of_omap)%list_elem_of_fmap. simpl in Hrow.
    case_match; [|done]. apply fmap_Some in Hrow as (u & _ & ->). done.
  - intros id. split.
    + intros (x & (row & -> & ([id' f] & Hin & Hrow)%list_elem_of_omap)%list_elem_of_fmap & <-).
      apply elem_of_map_to_list in Hin. simpl in Hrow.
      destruct (String.eqb _ _ && _) eqn:E; [|done].
      apply andb_prop in E as [E1%String.eqb_eq E2%Z.ltb_lt].
      apply fmap_Some in Hrow as (u & Hu & ->). exists f. cbn. eauto.
    + intros (f & Hf & <- & Ht & [u Hu]). eexists. split.
      * apply list_elem_of_fmap. eexists. split; [reflexivity|]. apply list_elem_of_omap.
        exists (id, f). split; [by apply elem_of_map_to_list|]. simpl.
        rewrite String.eqb_refl, (proj2 (Z.ltb_lt _ _) Ht), Hu. reflexivity.
      * done.
Qed.

(** Changing a remark writes it, for the caller's own row only, and then
    answers an error on every run: the row returned has an id and columns the
    answer's type does not fit. *)
Theorem remark_written_not_answered (serial : string * string → Z) (user_id friend_id remark : string)
    (w : World) :
  is_ok (update_friend_remark serial user_id friend_id remark w).1 = false
  ∧ (healthy w → ∀ f, t_friends (w_pg w) !! (user_id, friend_id) = Some f →
       update_friend_remark serial user_id friend_id remark w
       = (Err pg_error, upd_pg (upd_friends (insert (user_id, friend_id)
            (mkFriendRow (fr_fs_id f) (fr_status f) (Some remark) (fr_source f) (fr_create_time f)
               (w_clock w)))) w)).
Proof.
  split.
  - apply never_ok_bind_r. intros now. apply never_ok_exec_one. intros p rows p' row.
    unfold update_returning. case_match; intros [= <- _]; intros Hin; [|by apply not_elem_of_nil in Hin].
    apply list_elem_of_singleton in Hin as ->. apply friend_db_undecodable.
  - intros Hw f Hf. unfold update_friend_remark. erewrite bind_ok by done.
    erewrite exec_one_run; [|done|unfold update_returning; by rewrite Hf].
    cbn [fetch_one]. by rewrite friend_db_undecodable.
Qed.

(** ** A friendship between two accounts, run *)

Definition person (id : string) : User :=
  mkUser id id id "" "" "" 30 None None None None None 0 0 "" ""
    None None false "" "" None None "" "" "" "" "" "" "" false.
Definition two_people : World :=
  upd_pg (upd_users (λ _, {["a"%string := person "a"; "b"%string := person "b"]})) world_empty.
Definition ids (n : nat) : string := "n" +:+ pretty n.
Definition ask (a b : string) : FsCreate := mkFsCreate a b (Some "hi"%string) None "search".
Definition yes (id : string) : AgreeReply := mkAgreeReply id None None.

(** [a] asks, [b] accepts, [a] deletes, [b] asks. *)
Definition asked : World := (create_fs ids (ask "a" "b") two_people).2.
Definition befriended : World := (agree_friend_apply_request (yes "n0") (at_time 10 asked)).2.
Definition parted : World := (delete_friend "n0" "a" (at_time 20 befriended)).2.
Definition asked_again : World := at_time 40 (create_fs ids (ask "b" "a") (at_time 30 parted)).2.

(** An operation that gets an answer or writes something, when the server is
    reached. *)
Definition effective {A} (m : IO A) : Prop :=
  ∃ w, healthy w ∧ (is_ok (m w).1 = true ∨ w_pg (m w).2 ≠ w_pg w).

Lemma remark_effective serial u f r : effective (update_friend_remark serial u f r).
Proof.
  set (row := mkFriendRow "n0" FsAccepted None "" 0 0).
  exists (upd_pg (upd_friends (λ _, {[(u, f) := row]})) world_empty). split; [done|right].
  unfold update_friend_remark. erewrite bind_ok by done. unfold exec_one. erewrite bind_ok.
  2:{ apply pg_exec_healthy; [done|]. unfold update_returning. simpl. by rewrite lookup_singleton_eq. }
  assert (Hl : ∀ w (o : option FriendDb), w_pg (decoded o w).2 = w_pg w) by (by intros ? []).
  rewrite Hl. simpl. intros E. apply (f_equal (λ p, t_friends p !! (u, f))) in E. simpl in E.
  rewrite lookup_insert_eq, lookup_singleton_eq in E. discriminate E.
Qed.


Lemma two_people_keyed : keyed (w_pg two_people).
Proof.
  intros id u H. change (t_users (w_pg two_people)) with ({["a"%string := person "a"; "b"%string := person "b"]} : gmap string User) in H.
  apply lookup_insert_Some in H as [[<- <-]|[_ H]]; [done|].
  by apply lookup_singleton_Some in H as [<- <-].
Qed.

Lemma create_fs_functional_witness :
  create_fs ids (ask "a" "b") two_people
  = (Ok (fs_replies (ask "a" "b") "n0" (person "a") (person "b") 0), asked)
  ∧ (create_fs ids (ask "a" "z") two_people).1 = Panic.
Proof.
  split.
  - rewrite (proj1 (create_fs_functional ids (ask "a" "b") two_people "n0" _ eq_refl two_people_keyed eq_refl)
      (person "a") (person "b") eq_refl eq_refl ltac:(discriminate)).
    reflexivity.
  - rewrite (proj1 (proj2 (create_fs_functional ids (ask "a" "z") two_people "n0" _ eq_refl two_people_keyed
      eq_refl)) ltac:(right; left; reflexivity)). reflexivity.
Defined.

Lemma agree_functional_witness :
  (agree_friend_apply_request (yes "n0") (at_time 10 asked)).1
  = Ok (agree_replies (yes "n0")
          (mkFriendshipRow "a" "b" FsPending (Some "hi"%string) None None None "search" 0 0 "a" "create")
          (person "a") (person "b") 10)
  ∧ (agree_friend_apply_request (yes "n7") (at_time 10 asked)).1 = Err pg_error.
Proof.
  destruct (agree_functional (yes "n0") (at_time 10 asked) eq_refl two_people_keyed) as [_ H].
  destruct (agree_functional (yes "n7") (at_time 10 asked) eq_refl two_people_keyed) as [H' _].
  split.
  - destruct (H _ eq_refl) as [_ H1]. destruct (H1 ltac:(discriminate)) as [H2 _].
    rewrite (H2 _ _ eq_refl eq_refl). reflexivity.
  - rewrite (H' eq_refl). reflexivity.
Defined.

Lemma delete_friend_functional_witness :
  ∃ w', delete_friend "n0" "z" (at_time 20 befriended) = (Ok tt, w')
  ∧ fs_status <$> t_friendships (w_pg w') !! "n0"%string = Some FsDeleted.
Proof.
  destruct (delete_friend_functional "n0" "z" (at_time 20 befriended) eq_refl) as (w' & H1 & H2 & _).
  exists w'. split; [exact H1|]. rewrite H2. reflexivity.
Defined.

Definition old_row : FriendRow := mkFriendRow "n0" FsDeleted None "search" 10 20.
Definition second_request : FriendshipRow :=
  mkFriendshipRow "b" "a" FsPending (Some "hi"%string) None None None "search" 30 30 "b" "create".
Lemma asked_again_rows :
  t_friendships (w_pg asked_again) !! "n1"%string = Some second_request
  ∧ t_friends (w_pg asked_again) = {[("a", "b")%string := old_row; ("b", "a")%string := old_row]}.
Proof. split; vm_compute; reflexivity. Qed.

Lemma readded_friend_stale_witness :
  let w1 := (agree_friend_apply_request (yes "n1") asked_again).2 in
  ∃ w2, delete_friend "n1" "a" w1 = (Ok tt, w2)
  ∧ fs_status <$> t_friendships (w_pg w2) !! "n1"%string = Some FsDeleted.
Proof.
  destruct asked_again_rows as [H1 H2].
  destruct (readded_friend_stale (yes "n1") asked_again second_request old_row old_row "a")
    as (w2 & H3 & H4 & _).
  - vm_compute. reflexivity.
  - exact H1.
  - discriminate.
  - rewrite H2. reflexivity.
  - rewrite H2. reflexivity.
  - rewrite H2. intros k g [[_ <-]|[_ [_ <-]%lookup_singleton_Some]]%lookup_insert_Some; discriminate.
  - exists w2. split; [exact H3|exact H4].
Defined.

Lemma request_list_hides_status_witness :
  ∃ l, get_fs_list "b" 5 befriended = (Ok l, befriended) ∧ ∀ x, x ∈ l → fw_status x = status_i32 FsPending.
Proof.
  destruct (request_list_hides_status "b" 5 befriended eq_refl) as (l & H1 & H2 & _).
  exists l. split; [exact H1|]. intros x Hx. apply (H2 x Hx).
Defined.

Lemma remark_written_not_answered_witness :
  fr_remark <$> t_friends (w_pg (update_friend_remark (λ _, 1%Z) "a" "b" "pal" befriended).2)
    !! ("a", "b")%string = Some (Some "pal"%string).
Proof.
  rewrite (proj2 (remark_written_not_answered (λ _, 1%Z) "a" "b" "pal" befriended) eq_refl _ eq_refl).
  reflexivity.
Defined.
