(* ===== verification/FriendInv.v ===== *)
(** * What the friend store keeps, over all its operations

    Every writing operation of [FriendRepo] as one type. Whatever fails, there
    is at most one request per ordered pair, and friendship is mutual: two rows
    with one id and one status, never of a user with itself. *)

From S2P Require Import Prelude Errors Types Tables World Sql Records FriendStore.

Inductive FriendOp : Type :=
| OpRequest (fs : FsCreate) | OpAgree (r : AgreeReply) | OpDelete (fs_id user_id : string)
| OpRemark (user_id friend_id remark : string) | OpUpdateFs (fs : FsUpdate)
| OpFsStatus (user_id friend_id : string) (s : FriendshipStatus)
| OpCreateFriendGroup (user_id name : string) (order : Z)
| OpUpdateFriendGroup (group_id name : string) (order : Z) | OpDeleteFriendGroup (group_id : string)
| OpAssign (user_id friend_id group_id : string) | OpCreateTag (user_id name color : string)
| OpDeleteTag (tag_id : string) | OpAddTags (user_id friend_id : string) (tags : list string)
| OpRemoveTags (user_id friend_id : string) (tags : list string)
| OpPrivacy (user_id friend_id : string) (p : FriendPrivacySettings)
| OpScore (user_id friend_id : string) (v : f32).

Section friend_ops.
Context (nanoid : nat → string) (serial : string * string → Z) {pg_server : PgServer}.

Definition run_friend_op (op : FriendOp) : IO unit :=
  match op with
  | OpRequest fs => void (create_fs nanoid fs)
  | OpAgree r => void (agree_friend_apply_request r)
  | OpDelete fs_id u => delete_friend fs_id u
  | OpRemark u f r => void (update_friend_remark serial u f r)
  | OpUpdateFs fs => void (update_fs fs)
  | OpFsStatus u f s => void (update_friend_status u f s)
  | OpCreateFriendGroup u n o => void (create_friend_group nanoid u n o)
  | OpUpdateFriendGroup g n o => void (update_friend_group g n o)
  | OpDeleteFriendGroup g => delete_friend_group g
  | OpAssign u f g => void (assign_friend_to_group u f g)
  | OpCreateTag u n c => void (create_friend_tag nanoid u n c)
  | OpDeleteTag t => delete_friend_tag t
  | OpAddTags u f ts => add_tags_to_friend u f ts
  | OpRemoveTags u f ts => remove_tags_from_friend u f ts
  | OpPrivacy u f p => update_friend_privacy u f p
  | OpScore u f v => void (update_interaction_score u f v)
  end.

(** ** The invariant *)

(** UNIQUE (user_id, friend_id) *)
Definition one_request (t : gmap string FriendshipRow) : Prop := ∀ i j f g,
  t !! i = Some f → t !! j = Some g →
  fs_user_id f = fs_user_id g → fs_friend_id f = fs_friend_id g → i = j.

Definition mutual (t : gmap (string * string) FriendRow) : Prop := ∀ a b f,
  t !! (a, b) = Some f →
  a ≠ b ∧ ∃ g, t !! (b, a) = Some g ∧ fr_fs_id g = fr_fs_id f ∧ fr_status g = fr_status f.

Record friends_ok (p : Pg) : Prop := {
  fk_one : one_request (t_friendships p); fk_mutual : mutual (t_friends p)
}.
Definition friend_step (p p' : Pg) : Prop := friends_ok p → friends_ok p'.
Abbreviation friend_frame := (pg_frame friend_step).

#[export] Instance friend_step_preorder : PreOrder friend_step.
Proof. split; [by intros p|]. intros p1 p2 p3 H1 H2 H. by apply H2, H1. Qed.

Lemma step_friends p f : (mutual (t_friends p) → mutual (f (t_friends p))) → friend_step p (upd_friends f p).
Proof. intros H [H1 H2]. split; [exact H1|by apply H]. Qed.

Lemma step_friendships p f :
  (one_request (t_friendships p) → one_request (f (t_friendships p))) → friend_step p (upd_friendships f p).
Proof. intros H [H1 H2]. split; [by apply H|exact H2]. Qed.

(** Rows that keep their pair. *)
Lemma one_request_same_pairs t t' :
  (∀ i f', t' !! i = Some f' → ∃ f, t !! i = Some f ∧ fs_user_id f' = fs_user_id f
                                  ∧ fs_friend_id f' = fs_friend_id f) →
  one_request t → one_request t'.
Proof.
  intros H Ht i j f' g' Hf Hg Hu Hv. destruct (H i f' Hf) as (f & Hf0 & E1 & E2).
  destruct (H j g' Hg) as (g & Hg0 & E3 & E4). apply (Ht i j f g Hf0 Hg0); congruence.
Qed.

Lemma one_request_update t i f f' :
  t !! i = Some f → fs_user_id f' = fs_user_id f → fs_friend_id f' = fs_friend_id f →
  one_request t → one_request (<[i := f']> t).
Proof.
  intros Hf Hu Hv. apply one_request_same_pairs. intros j g.
  rewrite lookup_insert. case_decide; intros; simplify_eq; eauto.
Qed.

Lemma find_friendship_some p a b i f :
  find_friendship p a b = Some (i, f) →
  t_friendships p !! i = Some f ∧ fs_user_id f = a ∧ fs_friend_id f = b.
Proof.
  unfold find_friendship. intros H. apply head_Some_elem_of in H.
  apply list_elem_of_In, filter_In in H as [H E]. apply list_elem_of_In, elem_of_map_to_list in H.
  simpl in E. by apply andb_prop in E as [?%String.eqb_eq ?%String.eqb_eq].
Qed.

Lemma find_friendship_none p a b i f :
  find_friendship p a b = None → t_friendships p !! i = Some f →
  ¬ (fs_user_id f = a ∧ fs_friend_id f = b).
Proof.
  unfold find_friendship. intros H Hf [<- <-]. apply head_None in H.
  apply elem_of_map_to_list, list_elem_of_In in Hf.
  assert (Hin : In (i, f) (List.filter (λ x : string * FriendshipRow,
    String.eqb (fs_user_id x.2) (fs_user_id f) && String.eqb (fs_friend_id x.2) (fs_friend_id f))
    (map_to_list (t_friendships p)))) by (apply filter_In; simpl; by rewrite !String.eqb_refl).
  rewrite H in Hin. by apply in_nil in Hin.
Qed.

Lemma step_request id fs now p id' p1 :
  upsert_friendship id fs now p = Some (id', p1) → friend_step p p1.
Proof.
  unfold upsert_friendship. destruct (find_friendship _ _ _) as [[old r]|] eqn:E.
  - intros [= _ <-]. apply find_friendship_some in E as (Hr & _ & _).
    apply step_friendships. by eapply one_request_update.
  - case_bool_decide as Hid; [|done]. intros [= _ <-]. apply step_friendships.
    intros Ht i j f g. rewrite !lookup_insert.
    repeat case_decide; intros Hf Hg Hu Hv; simplify_eq; [done| | |by eapply Ht].
    + exfalso. by apply (find_friendship_none _ _ _ j g E Hg).
    + exfalso. by apply (find_friendship_none _ _ _ i f E Hf).
Qed.

(** Rows that keep their pair, id and status: nothing [mutual] looks at. *)
Lemma mutual_fmap t (h : FriendRow → FriendRow) :
  (∀ f, fr_fs_id (h f) = fr_fs_id f) →
  (∀ f g, fr_fs_id f = fr_fs_id g → fr_status f = fr_status g → fr_status (h f) = fr_status (h g)) →
  mutual t → mutual (h <$> t).
Proof.
  intros Hid Hst Ht a b f'. rewrite lookup_fmap. intros (f & Hf & ->)%fmap_Some.
  destruct (Ht a b f Hf) as (Hne & g & Hg & E1 & E2). split; [done|].
  exists (h g). rewrite lookup_fmap, Hg, !Hid. split_and!; auto.
Qed.

Lemma mutual_befriend f now t : sh_user_id f ≠ sh_friend_id f → mutual t → mutual (befriend f now t).
Proof.
  intros Hne Ht. unfold befriend.
  set (a := sh_user_id f) in *. set (b := sh_friend_id f) in *.
  assert (Hlook : ∃ fa fb, fr_fs_id fa = fr_fs_id fb ∧ fr_status fa = fr_status fb ∧
    upsert_friend (sh_id f) b a (sh_resp_remark f) (sh_source f) now
      (upsert_friend (sh_id f) a b (sh_req_remark f) (sh_source f) now t)
    = <[(b, a) := fb]> (<[(a, b) := fa]> t)).
  { unfold upsert_friend.
    destruct (t !! (a, b)) as [ra|] eqn:Ea, (t !! (b, a)) as [rb|] eqn:Eb;
      rewrite ?lookup_insert_ne, ?Eb by congruence.
    - destruct (Ht _ _ _ Ea) as (_ & g & Hg & E & _). simplify_eq.
      do 2 eexists. split_and!; [| |reflexivity]; simpl; congruence.
    - by destruct (Ht _ _ _ Ea) as (_ & g & Hg & _); simplify_eq.
    - by destruct (Ht _ _ _ Eb) as (_ & g & Hg & _); simplify_eq.
    - do 2 eexists. by split_and!; [| |reflexivity]. }
  destruct Hlook as (fa & fb & E1 & E2 & ->). intros x y g Hg.
  destruct (decide ((x, y) = (b, a))) as [[= -> ->]|Hxy].
  { rewrite lookup_insert_eq in Hg. simplify_eq. split; [done|]. exists fa.
    by rewrite lookup_insert_ne, lookup_insert_eq by congruence. }
  rewrite lookup_insert_ne in Hg by done.
  destruct (decide ((x, y) = (a, b))) as [[= -> ->]|Hxy'].
  { rewrite lookup_insert_eq in Hg. simplify_eq. split; [done|]. exists fb.
    by rewrite lookup_insert_eq. }
  rewrite lookup_insert_ne in Hg by done. destruct (Ht x y g Hg) as (? & g' & Hg' & ? & ?).
  split; [done|]. exists g'. rewrite !lookup_insert_ne by congruence. done.
Qed.

Lemma step_insert_friends f now p u p' : insert_friends f now p = Some (u, p') → friend_step p p'.
Proof.
  unfold insert_friends. destruct (String.eqb _ _) eqn:E; [done|]. intros [= _ <-].
  apply step_friends. apply mutual_befriend. by apply String.eqb_neq.
Qed.

Lemma frame_take_two R `{!PreOrder R} l u : keeps (pg_frame R) (take_two l u).
Proof.
  unfold take_two. destruct l as [|x [|y l]]; [apply keeps_panic; apply _..|].
  apply keeps_if; apply keeps_ret; apply _.
Qed.

Lemma frame_create fs : keeps friend_frame (create_fs nanoid fs).
Proof.
  unfold create_fs. frame_split; try (apply frame_take_two; apply _).
  - intros p id' p1. apply step_request.
  - intros [H1 H2]. by split.
Qed.

Lemma frame_agree r : keeps friend_frame (agree_friend_apply_request r).
Proof.
  unfold agree_friend_apply_request. frame_split; try (apply frame_take_two; apply _).
  - intros p rows p'. apply frame_update; [apply _|]. intros f Hf.
    apply step_friendships. by eapply one_request_update.
  - intros p u p'. apply step_insert_friends.
Qed.

Lemma frame_delete fs_id u : keeps friend_frame (delete_friend fs_id u).
Proof.
  unfold delete_friend. frame_split.
  - destruct (owns_fs _ _ _); [|done]. apply step_friends. apply mutual_fmap.
    + intros f. by case_match.
    + intros f g -> Hs. by case_match.
  - apply step_friendships. apply one_request_same_pairs. intros i f'.
    destruct (decide (i = fs_id)) as [->|Hne].
    + rewrite lookup_alter_eq. intros (f & Hf & ->)%fmap_Some. by exists f.
    + rewrite lookup_alter_ne by done. by exists f'.
Qed.

(** Rewriting one row without touching its id and status. *)
Lemma mutual_update t k x y :
  t !! k = Some x → fr_fs_id y = fr_fs_id x → fr_status y = fr_status x → mutual t → mutual (<[k := y]> t).
Proof.
  intros Hk Hid Hst Ht a b z.
  assert (Hnew : ∀ k' g, t !! k' = Some g → ∃ g', <[k := y]> t !! k' = Some g'
    ∧ fr_fs_id g' = fr_fs_id g ∧ fr_status g' = fr_status g).
  { intros k' g Hg. rewrite lookup_insert. case_decide; simplify_eq; eauto. }
  intros Hz. assert (∃ z0, t !! (a, b) = Some z0 ∧ fr_fs_id z = fr_fs_id z0 ∧ fr_status z = fr_status z0)
    as (z0 & Hz0 & E1 & E2).
  { rewrite lookup_insert in Hz. case_decide; simplify_eq; eauto. }
  destruct (Ht a b z0 Hz0) as (Hne & g & Hg & E3 & E4). split; [done|].
  destruct (Hnew _ g Hg) as (g' & Hg' & E5 & E6). exists g'. split_and!; [done|congruence..].
Qed.

Lemma frame_remark u f r : keeps friend_frame (update_friend_remark serial u f r).
Proof.
  unfold update_friend_remark. frame_split. intros p rows p'. apply frame_update; [apply _|].
  intros x Hx. apply step_friends. by eapply mutual_update.
Qed.

Lemma frame_dead R `{!PreOrder R} {A} (m : IO A) : dead m → keeps (pg_frame R) m.
Proof. intros H. apply frame_same; [apply _|]. intros w. apply H. Qed.

Lemma friend_op_frame op : keeps friend_frame (run_friend_op op).
Proof.
  destruct op; simpl; try (apply frame_void; [apply _|]);
    first [apply frame_create|apply frame_agree|apply frame_delete|apply frame_remark
          |apply frame_dead; [apply _|dead_op]].
Qed.

(** C13. Whatever fails on the way and whatever is answered, every writing
    operation of the friend store keeps at most one request per ordered pair,
    and keeps friendship mutual: a friends row has its mirror, with the same
    request id and the same status, and is never between a user and itself. *)
Theorem friend_ops_mutual (op : FriendOp) (w : World) (Hok : friends_ok (w_pg w)) :
  friends_ok (w_pg (run_friend_op op w).2).
Proof. exact (friend_op_frame op w Hok). Qed.
End friend_ops.

#[local] Existing Instance no_server.

Lemma friend_ops_mutual_witness :
  friends_ok (w_pg (run_friend_op ids (λ _, 1%Z) (OpAgree (yes "n0")) asked).2).
Proof.
  apply (friend_ops_mutual ids (λ _, 1%Z) (OpAgree (yes "n0")) asked). split.
  - intros i j f g Hf Hg _ _.
    assert (H : t_friendships (w_pg asked) = {["n0"%string :=
      mkFriendshipRow "a" "b" FsPending (Some "hi"%string) None None None "search" 0 0 "a" "create"]})
      by (vm_compute; reflexivity).
    rewrite H in Hf, Hg. apply lookup_singleton_Some in Hf as [<- _], Hg as [<- _]. reflexivity.
  - intros a b f. assert (H : t_friends (w_pg asked) = ∅) by (vm_compute; reflexivity).
    rewrite H, lookup_empty. discriminate.
Defined.
