(* ===== verification/FriendFlow.v ===== *)
(** * From a request to a friendship and its end

    What the users' friend lists show across the operations of the friend store:
    the offline list as a set, and the life of a friendship from the request of
    one to the deletion by either. *)

From S2P Require Import Prelude Errors Types Tables World Sql Records FriendStore.

(** The entry of a friend list; the two labels the crate does not decode read
    as pending. *)
Definition listed_status (s : FriendshipStatus) : FriendshipStatus :=
  match s with FsMuted | FsHidden => FsPending | s => s end.
Definition listed_friend (f : FriendRow) (u : User) : Friend :=
  mkFriend (fr_fs_id f) (u_id u) (u_account u) (u_name u) (u_avatar u) (u_gender u) (u_age u)
    (u_region u) (status_i32 (listed_status (fr_status f))) (fr_remark f) (u_email u) (fr_source f)
    (u_signature u) (fr_create_time f) (fr_update_time f) f32_zero [] "" "" false 0.

Lemma friend_decodes f u : friend_from_row (friend_user_cells f u) = Some (listed_friend f u).
Proof.
  unfold friend_from_row, listed_friend, get_or, try_get. f_equal. destruct u, f as [? [] ? ? ? ?]; cbn;
    rewrite ?as_option_cell by done; done.
Qed.

(** The list since a time: exactly the rows of the user changed after it whose
    friend has an account that is not deleted. *)
Lemma get_friend_list_run u s w : healthy w →
  ∃ l, get_friend_list u s w = (Ok l, w)
  ∧ ∀ x, x ∈ l ↔ ∃ v f usr, t_friends (w_pg w) !! (u, v) = Some f ∧ (s < fr_update_time f)%Z
      ∧ t_users (w_pg w) !! v = Some usr ∧ u_is_delete usr = false ∧ x = listed_friend f usr.
Proof.
  intros Hnet. eexists. split; [apply query_all_run; [done|apply fetch_all_pure]|].
  intros x. rewrite list_elem_of_fmap. setoid_rewrite list_elem_of_omap. split.
  - intros (row & -> & [[u' v] f] & Hin & Hrow). apply elem_of_map_to_list in Hin. simpl in Hrow.
    destruct (String.eqb u' u && (s <? fr_update_time f)%Z) eqn:E; [|done].
    apply andb_prop in E as [->%String.eqb_eq E%Z.ltb_lt].
    destruct (t_users (w_pg w) !! v) as [usr|] eqn:Hu; [|done]. simpl in Hrow.
    destruct (u_is_delete usr) eqn:Hd; [done|]. injection Hrow as <-.
    exists v, f, usr. split_and!; try done. apply (inj Some), (friend_decodes f usr).
  - intros (v & f & usr & Hf & Hs & Hu & Hd & ->). exists (friend_user_cells f usr). split.
    + apply (inj Some), eq_sym, (friend_decodes f usr).
    + exists ((u, v), f). split; [by apply elem_of_map_to_list|]. simpl.
      rewrite String.eqb_refl, (proj2 (Z.ltb_lt _ _) Hs). simpl. rewrite Hu. simpl. by rewrite Hd.
Qed.

(** A synchronisation since [s] shows [u] the friend [v] with this status,
    remark and id. *)
Definition sees (w : World) (s : Z) (u v : User) (st : FriendshipStatus) (remark : option string)
    (id : string) : Prop :=
  ∃ l x, get_friend_list (u_id u) s w = (Ok l, w) ∧ x ∈ l
    ∧ fi_friend_id x = u_id v ∧ fi_name x = u_name v ∧ fi_fs_id x = id
    ∧ fi_status x = status_i32 st ∧ fi_remark x = remark.

Lemma sees_row w s u v f : healthy w → t_friends (w_pg w) !! (u_id u, u_id v) = Some f →
  t_users (w_pg w) !! u_id v = Some v → u_is_delete v = false → (s < fr_update_time f)%Z →
  sees w s u v (listed_status (fr_status f)) (fr_remark f) (fr_fs_id f).
Proof.
  intros Hnet Hf Hv Hd Hs. destruct (get_friend_list_run (u_id u) s w Hnet) as (l & Hl & Hin).
  exists l, (listed_friend f v). split_and!; try done. apply Hin. by exists (u_id v), f, v.
Qed.

(** C32. The life of a friendship between two accounts that have none: the request
    succeeds; once it is accepted each sees the other, with the remark of their
    own, in every synchronisation since before; and after either of them ended
    it each sees it ended. *)
Theorem friend_lifecycle (nanoid : nat → string) (fs : FsCreate) (r : AgreeReply) (w : World)
    (a b who : User) (t2 t3 : Z)
    (Hnet : healthy w) (Hk : keyed (w_pg w)) (Hne : u_id a ≠ u_id b) (Hwho : who = a ∨ who = b)
    (Ha : t_users (w_pg w) !! u_id a = Some a) (Hb : t_users (w_pg w) !! u_id b = Some b)
    (Hda : u_is_delete a = false) (Hdb : u_is_delete b = false)
    (Hfa : fc_user_id fs = u_id a) (Hfb : fc_friend_id fs = u_id b)
    (Hno : find_friendship (w_pg w) (u_id a) (u_id b) = None)
    (Hfresh : t_friendships (w_pg w) !! nanoid (w_ids w) = None)
    (Hab : t_friends (w_pg w) !! (u_id a, u_id b) = None)
    (Hba : t_friends (w_pg w) !! (u_id b, u_id a) = None)
    (Hr : ar_fs_id r = nanoid (w_ids w)) :
  let id := nanoid (w_ids w) in
  ∃ x w1, create_fs nanoid fs w = (Ok x, w1)
  ∧ ∃ y w2, agree_friend_apply_request r (at_time t2 w1) = (Ok y, w2)
  ∧ (∀ s, (s < t2)%Z → sees w2 s a b FsAccepted (fc_req_remark fs) id
                     ∧ sees w2 s b a FsAccepted (ar_resp_remark r) id)
  ∧ ∃ w3, delete_friend id (u_id who) (at_time t3 w2) = (Ok tt, w3)
  ∧ (∀ s, (s < t3)%Z → sees w3 s a b FsDeleted (fc_req_remark fs) id
                     ∧ sees w3 s b a FsDeleted (ar_resp_remark r) id).
Proof.
  intros id. set (row := mkFriendshipRow (u_id a) (u_id b) FsPending (fc_apply_msg fs) (fc_req_remark fs)
    None None (fc_source fs) (w_clock w) (w_clock w) (u_id a) "create").
  assert (Hup : upsert_friendship id fs (w_clock w) (w_pg w)
    = Some (id, upd_friendships (insert id row) (w_pg w))).
  { unfold upsert_friendship. by rewrite Hfa, Hfb, Hno, bool_decide_eq_true_2. }
  eexists _, _. split.
  { rewrite (create_fs_run _ _ _ _ _ Hnet Hup). erewrite bind_ok by (by rewrite Hfa, Hfb; apply take_two_users).
    reflexivity. }
  set (w1 := upd_pg _ (upd_ids S w)).
  assert (Hf1 : t_friendships (w_pg (at_time t2 w1)) !! ar_fs_id r = Some row).
  { rewrite Hr. simpl. by rewrite lookup_insert_eq. }
  eexists _, _. split.
  { rewrite (agree_run r (at_time t2 w1) row) by done.
    erewrite bind_ok by (by apply (take_two_users _ (u_id a) (u_id b) a b)). reflexivity. }
  set (w2 := upd_pg _ (at_time t2 w1)).
  assert (H2 : t_friends (w_pg w2) !! (u_id a, u_id b) = Some (mkFriendRow id FsAccepted (fc_req_remark fs) (fc_source fs) t2 t2)
    ∧ t_friends (w_pg w2) !! (u_id b, u_id a) = Some (mkFriendRow id FsAccepted (ar_resp_remark r) (fc_source fs) t2 t2)).
  { simpl. unfold befriend, upsert_friend. simpl. rewrite Hab.
    rewrite (lookup_insert_ne _ (u_id a, u_id b) (u_id b, u_id a)) by congruence. rewrite Hba, Hr.
    rewrite lookup_insert_ne by congruence. by rewrite !lookup_insert_eq. }
  destruct H2 as [Hab2 Hba2]. split.
  { intros s Hs. split; [apply (sees_row w2 s a b _ Hnet Hab2)|apply (sees_row w2 s b a _ Hnet Hba2)]; done. }
  exists (upd_pg (deleted id (u_id who) t3) (at_time t3 w2)). split; [by apply delete_friend_run|].
  assert (Ho : owns_fs (w_pg w2) id (u_id who) = true).
  { apply owns_fs_spec. destruct Hwho as [-> | ->]; eauto. }
  set (w3 := upd_pg _ _).
  assert (H3 : ∀ k f, t_friends (w_pg w2) !! k = Some f → fr_fs_id f = id →
    t_friends (w_pg w3) !! k = Some (delete_friend_row t3 f)).
  { intros k f Hf Hid. unfold w3, deleted. cbn [w_pg upd_pg at_time]. rewrite Ho. simpl.
    rewrite lookup_fmap. change (t_friends (w_pg w2) !! k = Some f) in Hf. simpl in Hf. rewrite Hf. simpl.
    by rewrite Hid, String.eqb_refl. }
  intros s Hs. split.
  - apply (sees_row w3 s a b _ Hnet (H3 _ _ Hab2 eq_refl)); try done.
    unfold w3, deleted. cbn [w_pg upd_pg at_time]. by rewrite Ho.
  - apply (sees_row w3 s b a _ Hnet (H3 _ _ Hba2 eq_refl)); try done.
    unfold w3, deleted. cbn [w_pg upd_pg at_time]. by rewrite Ho.
Qed.

Lemma friend_lifecycle_witness :
  ∃ y w2, agree_friend_apply_request (yes "n0") (at_time 10 (create_fs ids (ask "a" "b") two_people).2) = (Ok y, w2)
  ∧ sees w2 0 (person "a") (person "b") FsAccepted None "n0".
Proof.
  destruct (friend_lifecycle ids (ask "a" "b") (yes "n0") two_people (person "a") (person "b") (person "b") 10 20)
    as (x & w1 & H1 & y & w2 & H2 & Hs & _); try reflexivity.
  - exact two_people_keyed.
  - discriminate.
  - by right.
  - rewrite H1. exists y, w2. split; [exact H2|]. by apply Hs.
Defined.
