(* ===== verification/Stores.v ===== *)
(** * The repositories of the database ([db/src/lib.rs] and its traits)

    The traits of [db] as records of operations, the PostgreSQL repositories
    behind them, and [DbRepo], which bundles them over one pool. What a
    repository promises to the clients of the others is a class of laws: each
    keeps the invariants of all the tables, also of those it does not own. *)

From S2P Require Import Prelude Errors Types Tables World Config Sql Records Cache SeqStore GroupStore GroupData GroupContent GroupInv UserStore FriendStore FriendInv.

(** ** The traits *)

Record MsgStoreRepo : Type := mkMsgStoreRepo { ms_save_message : Msg → IO unit }.

Record SeqRepo : Type := mkSeqRepo {
  sq_save_send_max_seq : string → IO Z;
  sq_save_max_seq : string → IO Z;
  sq_save_max_seq_batch : list string → IO unit;
  sq_get_max_seq : IO (list (string * Z * Z))
}.

Record UserRepo : Type := mkUserRepo {
  us_create_user : User → IO User;
  us_get_user_by_id : string → IO (option User);
  us_get_user_by_email : string → IO (option User);
  us_search_user : string → string → IO (option UserWithMatchType);
  us_update_user : UserUpdate → IO User;
  us_update_region : string → string → IO unit;
  us_verify_pwd : string → string → IO (option User);
  us_modify_pwd : string → string → IO unit;
  us_update_user_status : string → string → option string → IO unit;
  us_update_login_info : string → string → IO unit
}.

Record FriendRepo : Type := mkFriendRepo {
  fd_create_fs : FsCreate → IO (FriendshipWithUser * FriendshipWithUser);
  fd_get_fs_list : string → Z → IO (list FriendshipWithUser);
  fd_update_fs : FsUpdate → IO Friendship;
  fd_update_friend_remark : string → string → string → IO FriendDb;
  fd_update_friend_status : string → string → FriendshipStatus → IO Friendship;
  fd_get_friend_list : string → Z → IO (list Friend);
  fd_agree_friend_apply_request : AgreeReply → IO (Friend * Friend);
  fd_delete_friend : string → string → IO unit;
  fd_create_friend_group : string → string → Z → IO FriendGroup;
  fd_update_friend_group : string → string → Z → IO FriendGroup;
  fd_delete_friend_group : string → IO unit;
  fd_get_friend_groups : string → IO (list FriendGroup);
  fd_assign_friend_to_group : string → string → string → IO FriendDb;
  fd_create_friend_tag : string → string → string → IO FriendTag;
  fd_delete_friend_tag : string → IO unit;
  fd_get_friend_tags : string → IO (list FriendTag);
  fd_add_tags_to_friend : string → string → list string → IO unit;
  fd_remove_tags_from_friend : string → string → list string → IO unit;
  fd_update_friend_privacy : string → string → FriendPrivacySettings → IO unit;
  fd_get_friend_privacy : string → string → IO FriendPrivacySettings;
  fd_update_interaction_score : string → string → f32 → IO f32;
  fd_get_interaction_stats : string → string → IO (f32 * Z * Z)
}.

(** [invite_new_members] is given the group, the inviter and the members of
    its request; [mute_group_member] the fields of its. *)
Record GroupStoreRepo : Type := mkGroupStoreRepo {
  gp_get_group : string → string → IO GroupInfo;
  gp_get_group_and_members : string → string → IO GetGroupAndMembersResp;
  gp_get_members : string → string → list string → IO (list GroupMember);
  gp_create_group_with_members : GroupCreate → IO GroupInvitation;
  gp_invite_new_members : string → string → list string → IO unit;
  gp_remove_member : string → string → list string → IO unit;
  gp_get_group_by_id : string → IO GroupInfo;
  gp_query_group_members_id : string → IO (list string);
  gp_query_group_members_by_group_id : string → IO (list GroupMember);
  gp_update_group : GroupUpdate → IO GroupInfo;
  gp_exit_group : string → string → IO unit;
  gp_delete_group : string → string → IO GroupInfo;
  gp_update_group_settings : UpdateGroupRequest → IO GroupInfo;
  gp_update_member_settings : string → string → string → Z → IO GroupMember;
  gp_create_group_category : CreateGroupCategoryRequest → IO GroupCategory;
  gp_update_group_category : GroupCategory → IO GroupCategory;
  gp_delete_group_category : string → IO unit;
  gp_get_group_categories : IO (list GroupCategory);
  gp_upload_group_file : GroupFileUploadRequest → IO GroupFileInfo;
  gp_delete_group_file : string → string → IO unit;
  gp_get_group_files : string → IO (list GroupFileInfo);
  gp_update_file_pin_status : string → bool → IO GroupFileInfo;
  gp_create_poll : CreatePollRequest → IO Records.GroupPoll;
  gp_vote_poll : VotePollRequest → IO Records.GroupPoll;
  gp_close_poll : string → string → IO Records.GroupPoll;
  gp_get_group_polls : string → IO (list Records.GroupPoll);
  gp_get_poll_details : string → IO Records.GroupPoll;
  gp_mute_group_member : string → string → string → Z → option string → IO GroupMuteRecord;
  gp_unmute_group_member : string → string → string → IO unit;
  gp_get_group_muted_members : string → IO (list GroupMuteRecord);
  gp_create_announcement : CreateAnnouncementRequest → IO GroupAnnouncementInfo;
  gp_delete_announcement : string → string → IO unit;
  gp_get_group_announcements : string → IO (list GroupAnnouncementInfo);
  gp_pin_announcement : string → bool → IO GroupAnnouncementInfo;
  gp_change_member_role : string → string → string → string → IO GroupMember
}.

Record DbRepo : Type := mkDbRepo {
  db_msg : MsgStoreRepo;
  db_group : GroupStoreRepo;
  db_user : UserRepo;
  db_friend : FriendRepo;
  db_seq : SeqRepo
}.

(** ** The repositories over PostgreSQL *)

Section postgres.
Context (nanoid : nat → string) (argon : Argon2) (serial : string * string → Z) {pg_server : PgServer}.
Context (options_of_json : string → option (list PollOption)) (json_of_options : list PollOption → string).

Definition postgres_message : MsgStoreRepo := mkMsgStoreRepo save_message_pg.
Definition postgres_seq (seq_step : Z) : SeqRepo :=
  mkSeqRepo (save_send_max_seq seq_step) (save_max_seq seq_step) (save_max_seq_batch seq_step) get_max_seq.
Definition postgres_user (init_max_seq : Z) : UserRepo :=
  mkUserRepo (create_user init_max_seq) get_user_by_id get_user_by_email search_user update_user
    update_region (verify_pwd argon) (modify_pwd argon) update_user_status update_login_info.
Definition postgres_friend : FriendRepo :=
  mkFriendRepo (create_fs nanoid) get_fs_list update_fs (update_friend_remark serial) update_friend_status
    get_friend_list agree_friend_apply_request delete_friend (create_friend_group nanoid)
    update_friend_group delete_friend_group get_friend_groups assign_friend_to_group
    (create_friend_tag nanoid) delete_friend_tag get_friend_tags add_tags_to_friend
    remove_tags_from_friend update_friend_privacy get_friend_privacy update_interaction_score
    get_interaction_stats.
Definition postgres_group : GroupStoreRepo :=
  mkGroupStoreRepo get_group get_group_and_members get_members create_group_with_members
    invite_new_members remove_member get_group_by_id query_group_members_id_db
    query_group_members_by_group_id update_group exit_group delete_group update_group_settings
    update_member_settings (create_group_category nanoid) update_group_category delete_group_category
    get_group_categories (upload_group_file nanoid) delete_group_file get_group_files
    update_file_pin_status (create_poll nanoid options_of_json) (vote_poll options_of_json json_of_options)
    (close_poll options_of_json) (get_group_polls options_of_json) (get_poll_details options_of_json)
    (mute_group_member nanoid) unmute_group_member get_group_muted_members (create_announcement nanoid)
    delete_announcement get_group_announcements pin_announcement change_member_role.

(** [DbRepo::new]: a pool that cannot be opened is unwrapped; the counters of
    new accounts start at the step of the reservations. *)
Definition DbRepo_new (config : Config) : IO DbRepo :=
  unwrap (remote pg_error (mret tt)) ;;
  let seq_step := rdc_seq_step (cfg_redis config) in
  mret (mkDbRepo postgres_message postgres_group (postgres_user seq_step) postgres_friend (postgres_seq seq_step)).
End postgres.

(** ** Calls *)

(** Every writing call of the five repositories. The account counters of
    [OpCreateUser] are those the repository was made with. *)
Inductive DbOp : Type :=
| DbGroup (op : GroupOp) | DbFriend (op : FriendOp) | DbUser (op : UserOp)
| DbSaveMessage (m : Msg) | DbSaveSendMaxSeq (u : string) | DbSaveMaxSeq (u : string)
| DbSaveMaxSeqBatch (us : list string).

Definition call_group (g : GroupStoreRepo) (op : GroupOp) : IO unit :=
  match op with
  | OpCreateGroup x => void (gp_create_group_with_members g x)
  | OpInvite gid uid us => gp_invite_new_members g gid uid us
  | OpRemove gid uid us => gp_remove_member g gid uid us
  | OpUpdateGroup u => void (gp_update_group g u)
  | OpExit uid gid => gp_exit_group g uid gid
  | OpDeleteGroup gid owner => void (gp_delete_group g gid owner)
  | OpSettings r => void (gp_update_group_settings g r)
  | OpMemberSettings gid uid level order => void (gp_update_member_settings g gid uid level order)
  | OpCreateCategory r => void (gp_create_group_category g r)
  | OpUpdateCategory c => void (gp_update_group_category g c)
  | OpDeleteCategory id => gp_delete_group_category g id
  | OpUpload r => void (gp_upload_group_file g r)
  | OpDeleteFile id uid => gp_delete_group_file g id uid
  | OpPinFile id b => void (gp_update_file_pin_status g id b)
  | OpCreatePoll r => void (gp_create_poll g r)
  | OpVote r => void (gp_vote_poll g r)
  | OpClosePoll id uid => void (gp_close_poll g id uid)
  | OpMute gid uid op until reason => void (gp_mute_group_member g gid uid op until reason)
  | OpUnmute gid uid op => gp_unmute_group_member g gid uid op
  | OpAnnounce r => void (gp_create_announcement g r)
  | OpDeleteAnnouncement id uid => gp_delete_announcement g id uid
  | OpPinAnnouncement id b => void (gp_pin_announcement g id b)
  | OpChangeRole gid uid target role => void (gp_change_member_role g gid uid target role)
  end.

Definition call_friend (f : FriendRepo) (op : FriendOp) : IO unit :=
  match op with
  | OpRequest fs => void (fd_create_fs f fs)
  | OpAgree r => void (fd_agree_friend_apply_request f r)
  | OpDelete fs_id u => fd_delete_friend f fs_id u
  | OpRemark u v r => void (fd_update_friend_remark f u v r)
  | OpUpdateFs fs => void (fd_update_fs f fs)
  | OpFsStatus u v s => void (fd_update_friend_status f u v s)
  | OpCreateFriendGroup u n o => void (fd_create_friend_group f u n o)
  | OpUpdateFriendGroup g n o => void (fd_update_friend_group f g n o)
  | OpDeleteFriendGroup g => fd_delete_friend_group f g
  | OpAssign u v g => void (fd_assign_friend_to_group f u v g)
  | OpCreateTag u n c => void (fd_create_friend_tag f u n c)
  | OpDeleteTag t => fd_delete_friend_tag f t
  | OpAddTags u v ts => fd_add_tags_to_friend f u v ts
  | OpRemoveTags u v ts => fd_remove_tags_from_friend f u v ts
  | OpPrivacy u v p => fd_update_friend_privacy f u v p
  | OpScore u v x => void (fd_update_interaction_score f u v x)
  end.

Definition call_user (r : UserRepo) (op : UserOp) : IO unit :=
  match op with
  | OpCreateUser _ u => us_create_user r u ;; mret tt
  | OpUpdateUser u => us_update_user r u ;; mret tt
  | OpRegion id region => us_update_region r id region
  | OpStatus id status m => us_update_user_status r id status m
  | OpLoginInfo id ip => us_update_login_info r id ip
  | OpModifyPwd id pw => us_modify_pwd r id pw
  end.

Definition call_db (db : DbRepo) (op : DbOp) : IO unit :=
  match op with
  | DbGroup op => call_group (db_group db) op
  | DbFriend op => call_friend (db_friend db) op
  | DbUser op => call_user (db_user db) op
  | DbSaveMessage m => ms_save_message (db_msg db) m
  | DbSaveSendMaxSeq u => void (sq_save_send_max_seq (db_seq db) u)
  | DbSaveMaxSeq u => void (sq_save_max_seq (db_seq db) u)
  | DbSaveMaxSeqBatch us => sq_save_max_seq_batch (db_seq db) us
  end.

(** ** The invariant of the database *)

(** The foreign keys of the groups, mutual friendship, accounts with their
    counters. *)
Record db_ok (p : Pg) : Prop := {
  dk_groups : fk_ok p; dk_friends : friends_ok p; dk_users : users_ok p
}.
Definition db_step (p p' : Pg) : Prop := db_ok p → db_ok p'.
Abbreviation db_frame := (pg_frame db_step).

#[export] Instance db_step_preorder : PreOrder db_step.
Proof. split; [by intros p|]. intros p1 p2 p3 H1 H2 H. by apply H2, H1. Qed.

(** What each repository leaves alone of the others' tables. *)
Definition beside_groups (p : Pg) :=
  (t_sequence p, t_messages p, t_users p, t_friendships p, t_friends p, t_interactions p).
Definition beside_friends (p : Pg) :=
  (t_sequence p, t_messages p, t_users p, t_groups p, t_members p, t_categories p, t_files p, t_polls p,
   t_mutes p, t_announcements p).
Definition beside_users (p : Pg) :=
  (t_messages p, t_groups p, t_members p, t_categories p, t_files p, t_polls p, t_mutes p,
   t_announcements p, t_friendships p, t_friends p, t_interactions p).

Lemma fk_ok_same p p' :
  t_groups p' = t_groups p → t_members p' = t_members p → t_files p' = t_files p → t_polls p' = t_polls p →
  t_mutes p' = t_mutes p → t_announcements p' = t_announcements p → fk_ok p → fk_ok p'.
Proof. intros Hg Hm Hf Hp Hu Ha []. split; rewrite ?Hg, ?Hm, ?Hf, ?Hp, ?Hu, ?Ha; assumption. Qed.

Lemma friends_ok_same p p' :
  t_friendships p' = t_friendships p → t_friends p' = t_friends p → friends_ok p → friends_ok p'.
Proof. intros Hs Hf []. split; by rewrite ?Hs, ?Hf. Qed.

Lemma users_ok_same p p' :
  t_users p' = t_users p → (∀ k, is_Some (t_sequence p !! k) → is_Some (t_sequence p' !! k)) →
  users_ok p → users_ok p'.
Proof. intros Hu Hs Hok id u. rewrite Hu. intros Hid. destruct (Hok id u Hid) as [? ?]. auto. Qed.

Ltac split_same H := unfold same, beside_groups, beside_friends, beside_users in H; simplify_eq.

Lemma db_step_groups p p' : pstep p p' → same beside_groups p p' → db_step p p'.
Proof.
  intros [Hk _] Hs [H1 H2 H3]. unfold same, beside_groups in Hs. injection Hs as Hq _ Hu Hfs Hf _.
  split; [by apply Hk|by apply (friends_ok_same p)|apply (users_ok_same p); [done| |done]].
  intros k. by rewrite Hq.
Qed.

Lemma db_step_friends p p' : friend_step p p' → same beside_friends p p' → db_step p p'.
Proof.
  intros Hk Hs [H1 H2 H3]. unfold same, beside_friends in Hs. injection Hs as Hq _ Hu Hg Hm _ Hfi Hp Hmu Ha.
  split; [by apply (fk_ok_same p)|by apply Hk|apply (users_ok_same p); [done| |done]].
  intros k. by rewrite Hq.
Qed.

Lemma db_step_users argon op p p' : user_step argon op p p' → same beside_users p p' → db_step p p'.
Proof.
  intros [Hk _ _] Hs [H1 H2 H3]. unfold same, beside_users in Hs.
  injection Hs as _ Hg Hm _ Hfi Hp Hmu Ha Hfs Hf _.
  split; [by apply (fk_ok_same p)|by apply (friends_ok_same p)|by apply Hk].
Qed.

Lemma db_step_sequence f p :
  (∀ k, is_Some (t_sequence p !! k) → is_Some (f (t_sequence p) !! k)) → db_step p (upd_sequence f p).
Proof.
  intros Hf [H1 H2 H3]. split; [by apply (fk_ok_same p)|by apply (friends_ok_same p)|].
  by apply (users_ok_same p).
Qed.

(** ** What a repository leaves of the others' tables *)

(** A statement that only replaces tables the projection does not show. *)
Ltac untouched :=
  first [ reflexivity
        | case_match; reflexivity
        | let p := fresh in let rows := fresh in let p' := fresh in let Hq := fresh in
          intros p rows p' Hq;
          unfold update_returning, insert_group, insert_in_group, insert_first_members, insert_friends in Hq;
          simpl in Hq; repeat case_match; simplify_eq; reflexivity ].
Section frames.
Context (nanoid : nat → string) (argon : Argon2) (serial : string * string → Z) {pg_server : PgServer}.
Context (options_of_json : string → option (list PollOption)) (json_of_options : list PollOption → string).
Lemma keeps_draw_options R `{!PreOrder R} opts : keeps (pg_frame R) (draw_options nanoid opts).
Proof.
  induction opts as [|o opts IH]; simpl; frame_split; try done; try apply IH.
 Qed.

Lemma group_op_beside op : keeps (pg_frame (same beside_groups)) (run_group_op nanoid options_of_json json_of_options op).
Proof.
  destruct op; simpl; try (apply frame_void; [apply _|]);
    unfold create_group_with_members, invite_new_members, remove_member, update_group, exit_group,
      delete_group, update_group_settings, update_member_settings, create_group_category,
      update_group_category, delete_group_category, upload_group_file, delete_group_file,
      update_file_pin_status, create_poll, vote_poll, close_poll, mute_group_member, unmute_group_member,
      create_announcement, delete_announcement, pin_announcement, change_member_role; unfold exec_all; frame_split; try untouched.
  - apply keeps_draw_options. apply _.
  - intros p row p' Hq. destruct (role_of_text role); [|done]. simpl in Hq. destruct (t_members p !! _); [|done].
    simpl in Hq. by simplify_eq.
Qed.

Lemma friend_op_beside op : keeps (pg_frame (same beside_friends)) (run_friend_op nanoid serial op).
Proof.
  destruct op; simpl; try (apply frame_void; [apply _|]); try (apply frame_dead; [apply _|dead_op]).
  all: unfold create_fs, agree_friend_apply_request, delete_friend, update_friend_remark;
    frame_split; try (apply frame_take_two; apply _); try untouched.
  intros p id' p1 Hq. unfold upsert_friendship in Hq. repeat case_match; by simplify_eq.
Qed.

Lemma user_op_beside op : keeps (pg_frame (same beside_users)) (run_user_op argon op).
Proof.
  destruct op; simpl.
  all: unfold create_user, update_user, update_region, update_user_status, update_login_info, modify_pwd, alter_user, get_user_by_id;
    frame_split; try untouched.
  - intros w. reflexivity.
  - unfold hash_password. apply keeps_if; [apply keeps_from_option|apply keeps_panic]; apply _.
Qed.

Lemma group_op_db op : keeps db_frame (run_group_op nanoid options_of_json json_of_options op).
Proof.
  intros w. apply db_step_groups; [apply group_op_frame|apply (group_op_beside op w)].
Qed.
Lemma friend_op_db op : keeps db_frame (run_friend_op nanoid serial op).
Proof.
  intros w. apply db_step_friends; [apply friend_op_frame|apply (friend_op_beside op w)].
Qed.
Lemma user_op_db op : keeps db_frame (run_user_op argon op).
Proof.
  intros w. apply (db_step_users argon op); [apply user_op_frame|apply (user_op_beside op w)].
Qed.
Lemma save_message_db m : keeps db_frame (save_message_pg m).
Proof. apply frame_same; [apply _|]. intros w. apply save_message_pg_fails. Qed.
End frames.

Lemma save_send_max_seq_db step u : keeps db_frame (save_send_max_seq step u).
Proof.
  apply frame_pg; [apply _|]. intros p v p'. destruct (t_sequence p !! u); simpl; [|done].
  case_match; intros [= _ <-]; apply db_step_sequence; intros k; rewrite lookup_insert_is_Some'; auto.
Qed.
Lemma save_max_seq_db step u : keeps db_frame (save_max_seq step u).
Proof.
  apply frame_pg; [apply _|]. intros p v p'. destruct (t_sequence p !! u); simpl; [|done].
  case_match; intros [= _ <-]; apply db_step_sequence; intros k; rewrite lookup_insert_is_Some'; auto.
Qed.
Lemma save_max_seq_batch_db step us : keeps db_frame (save_max_seq_batch step us).
Proof.
  apply keeps_if; [apply keeps_ret; apply _|]. apply frame_pg; [apply _|]. intros p v p'. case_bool_decide; [|done].
  intros [= _ <-]. apply db_step_sequence. intros k [row Hk]. unfold batch_update.
  rewrite map_lookup_imap, Hk. by eexists.
Qed.

(** ** Laws of the repositories *)

(** Every call of a repository, whatever fails and whatever it answers, keeps
    the invariant of the whole database. *)
Class GroupRepoLaws (g : GroupStoreRepo) : Prop := group_repo_keeps op : keeps db_frame (call_group g op).
Class FriendRepoLaws (f : FriendRepo) : Prop := friend_repo_keeps op : keeps db_frame (call_friend f op).
Class UserRepoLaws (r : UserRepo) : Prop := user_repo_keeps op : keeps db_frame (call_user r op).
Class MsgStoreLaws (s : MsgStoreRepo) : Prop := msg_store_keeps m : keeps db_frame (ms_save_message s m).
Class SeqRepoLaws (s : SeqRepo) : Prop := {
  seq_repo_send u : keeps db_frame (sq_save_send_max_seq s u);
  seq_repo_max u : keeps db_frame (sq_save_max_seq s u);
  seq_repo_batch us : keeps db_frame (sq_save_max_seq_batch s us)
}.
Class DbRepoLaws (db : DbRepo) : Prop := {
  dl_group :: GroupRepoLaws (db_group db);
  dl_friend :: FriendRepoLaws (db_friend db);
  dl_user :: UserRepoLaws (db_user db);
  dl_msg :: MsgStoreLaws (db_msg db);
  dl_seq :: SeqRepoLaws (db_seq db)
}.

Section laws.
Context (nanoid : nat → string) (argon : Argon2) (serial : string * string → Z) {pg_server : PgServer}.
Context (options_of_json : string → option (list PollOption)) (json_of_options : list PollOption → string).

#[export] Instance postgres_group_laws : GroupRepoLaws (postgres_group nanoid options_of_json json_of_options).
Proof. intros op. pose proof (group_op_db nanoid options_of_json json_of_options op) as H. by destruct op. Qed.
#[export] Instance postgres_friend_laws : FriendRepoLaws (postgres_friend nanoid serial).
Proof. intros op. pose proof (friend_op_db nanoid serial op) as H. by destruct op. Qed.
#[export] Instance postgres_user_laws init : UserRepoLaws (postgres_user argon init).
Proof.
  intros op. destruct op as [i u|u|id region|id status m|id ip|id pw];
    [exact (user_op_db argon (OpCreateUser init u))|..].
  - exact (user_op_db argon (OpUpdateUser u)).
  - exact (user_op_db argon (OpRegion id region)).
  - exact (user_op_db argon (OpStatus id status m)).
  - exact (user_op_db argon (OpLoginInfo id ip)).
  - exact (user_op_db argon (OpModifyPwd id pw)).
Qed.
#[export] Instance postgres_message_laws : MsgStoreLaws postgres_message.
Proof. intros m. apply save_message_db. Qed.
#[export] Instance postgres_seq_laws step : SeqRepoLaws (postgres_seq step).
Proof. split; intros; [apply save_send_max_seq_db|apply save_max_seq_db|apply save_max_seq_batch_db]. Qed.
End laws.

(** A client of the repositories sees only their laws. *)
Section clients.
Context (db : DbRepo) `{!DbRepoLaws db}.

Lemma call_db_keeps op : keeps db_frame (call_db db op).
Proof.
  destruct op; simpl; [apply dl_group|apply dl_friend|apply dl_user|apply dl_msg|..];
    try (apply frame_void; [apply _|]); apply dl_seq.
Qed.

Lemma script_keeps ops : ∀ w, db_frame w (foldl (λ w op, (call_db db op w).2) w ops).
Proof.
  induction ops as [|op ops IH]; intros w; [apply (reflexivity (R := db_step))|].
  simpl. etrans; [apply call_db_keeps|apply IH].
Qed.
End clients.

(** The repositories live together: for every configuration, what
    [DbRepo::new] builds keeps the invariant of the whole database, the foreign
    keys of the groups, mutual friendship and accounts with their counters,
    under every sequence of calls to any of its five repositories, whatever
    fails in them and whatever is answered; [new] itself opens the pool or
    panics. *)
Theorem repositories_keep_database (server : PgServer) (nanoid : nat → string) (argon : Argon2) (serial : string * string → Z)
    (options_of_json : string → option (list PollOption)) (json_of_options : list PollOption → string)
    (config : Config) (w : World) :
  (healthy w → is_ok (DbRepo_new nanoid argon serial options_of_json json_of_options config w).1 = true)
  ∧ match DbRepo_new nanoid argon serial options_of_json json_of_options config w with
    | (Ok db, _) => ∀ ops w1, db_ok (w_pg w1) →
        db_ok (w_pg (foldl (λ w op, (call_db db op w).2) w1 ops))
    | (o, _) => o = Panic
    end.
Proof.
  split.
  { intros Hw. unfold DbRepo_new. erewrite bind_ok; [done|]. unfold unwrap. by rewrite remote_healthy. }
  assert (Hpool : ∀ w, (∃ w', unwrap (remote pg_error (mret tt)) w = (Ok tt, w'))
    ∨ ∃ w', unwrap (remote pg_error (mret tt)) w = (Panic (E := Error) (A := unit), w')).
  { intros v. unfold unwrap, remote, take_fault. mstep.
    destruct (w_faults v) as [|[] fs]; simpl; eauto. }
  unfold DbRepo_new, mbind, M_bind. destruct (Hpool w) as [(w' & ->)|(w' & ->)]; [|done].
  unfold mret, M_ret. intros ops w1. apply script_keeps. split; apply _.
Qed.

Lemma empty_db_ok : db_ok pg_empty.
Proof.
  split; [split|split|]; simpl; repeat intro; simpl in *;
    by match goal with H : ∅ !! _ = Some _ |- _ => rewrite lookup_empty in H end.
Qed.

#[local] Existing Instance no_server.

Lemma repositories_keep_database_witness :
  ∃ db w, DbRepo_new (λ _, "n"%string) toy_argon (λ _, 0%Z) (λ _, None) (λ _, ""%string) dev_config world_empty
            = (Ok db, w)
    ∧ db_ok (w_pg (foldl (λ w op, (call_db db op w).2) w
        [DbUser (OpCreateUser 0 ann); DbFriend (OpDelete "f" "u1"); DbSaveMaxSeq "u1"])).
Proof.
  destruct (repositories_keep_database no_server (λ _, "n"%string) toy_argon (λ _, 0%Z) (λ _, None) (λ _, ""%string)
    dev_config world_empty) as [_ H].
  do 2 eexists. split; [reflexivity|]. apply H. exact empty_db_ok.
Defined.
