(* ===== verification/Consumer.v ===== *)
(** * The message consumer ([msg_server/src/consumer.rs])

    [ConsumerService]: from a Kafka payload to the sequence counters, the
    receive box, the history table and the gateways. [serde_json] and
    [bincode] are parameters. The tasks a handler spawns and joins run one
    after the other here; [Joined] proves that every interleaving of their
    calls is such a run, under another schedule of faults. *)

From S2P Require Import Prelude Errors Types Tables World Cache SeqStore RecBox Pusher GroupStore.

(** [enum MsgType2] *)
Inductive MsgType2 : Type := Single | Group.
Global Instance MsgType2_eq_dec : EqDecision MsgType2.
Proof. solve_decision. Defined.

(** [struct ConsumerService]; of the [DbRepo] the history store, and the step
    its sequence store was built with. *)
Record ConsumerService : Type := mkConsumer {
  cs_save_history : Msg → IO unit;
  cs_box : MsgRecBoxRepo;
  cs_pusher : Pusher;
  cs_cache : RedisCache;
  cs_seq_step : Z
}.

(** [ConsumerService::new]: cache and database get the configured step, which
    the cache replaces by its default when it is 0. *)
Definition consumer_new (config_seq_step : Z) (box : MsgRecBoxRepo) (pusher : Pusher)
    : ConsumerService :=
  mkConsumer save_message_pg box pusher (redis_cache_from_config config_seq_step)
    config_seq_step.

(** (kind, increase the receiver's sequence, keep in the history) *)
Definition classify_msg_type (mt : MsgType) : MsgType2 * bool * bool :=
  match mt with
  | SingleMsg | SingleCallInviteNotAnswer | SingleCallInviteCancel | Hangup
  | ConnectSingleCall | RejectSingleCall | FriendApplyReq | FriendApplyResp
  | FriendDelete => (Single, true, true)
  | GroupMsg | GroupFile | GroupPoll | GroupAnnouncement => (Group, false, true)
  | GroupInvitation | GroupInviteNew | GroupMemberExit | GroupRemoveMember
  | GroupDismiss | GroupUpdate | GroupMute => (Group, false, false)
  | GroupDismissOrExitReceived | GroupInvitationReceived | FriendBlack
  | SingleCallInvite | AgreeSingleCall | SingleCallOffer | Candidate | Read
  | MsgRecResp | Notification | Service | FriendshipReceived => (Single, false, false)
  end.

Definition get_send_to_db_flag (mt : MsgType) : bool :=
  match mt with
  | ConnectSingleCall | AgreeSingleCall | Candidate | SingleCallOffer
  | SingleCallInvite => false
  | _ => true
  end.

(** The message types that acknowledge a delivery. *)
Definition is_received_ack (t : Z) : bool :=
  bool_decide (t = msg_type_i32 GroupDismissOrExitReceived)
  || bool_decide (t = msg_type_i32 GroupInvitationReceived)
  || bool_decide (t = msg_type_i32 FriendshipReceived).

Section consumer.
Context (from_json : string → option Msg)
        (decode_read : bytes → option MsgRead)
        (decode_strings : bytes → option (list string)).
Context (cs : ConsumerService).

Definition json_error : Error := from_external (SerdeJsonError "serde_json").
Definition decode_error : Error := from_external (BincodeDecodeError "bincode").

Definition handle_msg_read (msg : Msg) : IO unit :=
  data ← from_option decode_error (decode_read (content msg));
  msg_read (cs_box cs) (mr_user_id data) (mr_msg_seq data).

Definition query_group_members_id_from_db (group_id : string) : IO (list string) :=
  members_id ← query_group_members_id_db group_id;
  log_err (save_group_members_id group_id members_id) ;;
  mret members_id.

Definition get_members_id (group_id : string) : IO (list string) :=
  l ← query_group_members_id group_id;
  if bool_decide (l = []) then query_group_members_id_from_db group_id else mret l.

Definition handle_send_seq (user_id : string) : IO unit :=
  send_seq ← get_send_seq user_id;
  if bool_decide (send_seq.1 = send_seq.2 - cs_seq_step cs)%Z
  then save_max_seq (cs_seq_step cs) user_id ≫= λ _, mret tt
  else mret tt.

Definition increase_message_seq (user_id : string) : IO Z :=
  r ← increase_seq (cs_cache cs) user_id;
  let '(cur_seq, _, updated) := (r : Z * Z * bool) in
  if updated then save_max_seq (cs_seq_step cs) user_id ≫= λ _, mret cur_seq
  else mret cur_seq.

Definition handle_group_seq (msg_type2 : MsgType2) (msg : Msg) : IO (list GroupMemSeq) :=
  if bool_decide (msg_type2 ≠ Group) then mret []
  else
    members ← get_members_id (receiver_id msg);
    seq ← incr_group_seq (cs_cache cs) (filter (.≠ sender_id msg) members);
    (if bool_decide (msg_type msg = msg_type_i32 GroupDismiss)
     then del_group_members (receiver_id msg)
     else if bool_decide (msg_type msg = msg_type_i32 GroupMemberExit)
     then remove_group_member_id (receiver_id msg) (sender_id msg)
     else if bool_decide (msg_type msg = msg_type_i32 GroupRemoveMember)
     then
       data ← from_option decode_error (decode_strings (content msg));
       remove_group_member_batch (group_id msg) data
     else mret tt) ;;
    mret seq.

Definition handle_message (message : Msg) (need_to_history : bool) : IO unit :=
  db_task ← (if negb need_to_history
             then spawn (log_err (cs_save_history cs message)) else mret (Ok tt));
  msg_rec_box_task ← spawn (
    if is_received_ack (msg_type message)
    then log_err (delete_message (cs_box cs) (server_id message))
    else log_err (save_message (cs_box cs) message));
  join db_task ;; join msg_rec_box_task.

Definition handle_group_message (message : Msg) (need_to_history : bool)
    (members : list GroupMemSeq) : IO unit :=
  let need_update := mem_id <$> filter (λ g, need_update g = true) members in
  db_task ← spawn (
    (if bool_decide (need_update ≠ [])
     then save_max_seq_batch (cs_seq_step cs) need_update else mret tt) ;;
    (if need_to_history then cs_save_history cs message else mret tt));
  msg_rec_box_task ← spawn (save_group_msg (cs_box cs) message members);
  match db_task, msg_rec_box_task with
  | Panic, _ | _, Panic => throw join_error
  | _, _ => join db_task ;; join msg_rec_box_task
  end.

Definition send_to_db (msg : Msg) (msg_type2 : MsgType2) (need_to_history : bool)
    (members : list GroupMemSeq) : IO unit :=
  match msg_type2 with
  | Single => handle_message msg need_to_history
  | Group => handle_group_message msg need_to_history members
  end.

Definition to_pusher (msg : Msg) (msg_type2 : MsgType2) (members : list GroupMemSeq) : IO unit :=
  match msg_type2 with
  | Single => push_single_msg (cs_pusher cs) msg
  | Group => push_group_msg (cs_pusher cs) msg members
  end.

(** The two tasks a numbered message is left to, and the wait for both. *)
Definition dispatch (mt : MsgType) (msg : Msg) (msg_type2 : MsgType2) (need_history : bool)
    (members : list GroupMemSeq) : IO unit :=
  to_db ← (if get_send_to_db_flag mt
           then spawn (log_err (send_to_db msg msg_type2 need_history members))
           else mret (Ok tt));
  pushed ← spawn (log_err (to_pusher msg msg_type2 members));
  join to_db ;; join pushed.

Definition handle_msg (payload : string) : IO unit :=
  msg ← from_option json_error (from_json payload);
  mt ← from_option (internal "unknown enumeration value") (msg_type_try_from (msg_type msg));
  if bool_decide (mt = Read) then handle_msg_read msg
  else
    let '(msg_type2, need_increase_seq, need_history) := classify_msg_type mt in
    handle_send_seq (sender_id msg) ;;
    msg ← (if need_increase_seq
           then cur_seq ← increase_message_seq (receiver_id msg); mret (set_seq_field cur_seq msg)
           else mret msg);
    members ← handle_group_seq msg_type2 msg;
    dispatch mt msg msg_type2 need_history members.

(** ** The consumer loop, over the records [recv] returns *)

Inductive Record_ : Type := RecvError | NotText | Payload (s : string).

Definition kafka_error : Error := internal "kafka".

(** The offset to resume from after a restart is the last committed one. *)
Fixpoint consume (offset : Z) (records : list Record_) (committed : Z) : IO Z :=
  match records with
  | [] => mret committed
  | Payload s :: rest =>
      r ← attempt (handle_msg s);
      match r with
      | inl _ => consume (offset + 1) rest committed
      | inr _ =>
          c ← attempt (remote kafka_error (mret tt));
          consume (offset + 1) rest (match c with inr _ => (offset + 1)%Z | inl _ => committed end)
      end
  | NotText :: rest => consume (offset + 1) rest committed
  | RecvError :: rest => consume offset rest committed
  end.

(** ** Sequence numbers *)

Lemma handle_send_seq_run u w p :
  healthy w → pseq (w_redis w) (send_seq_key u) = Some p →
  seq_ok (cs_seq_step cs) (Some p) → (0 < cs_seq_step cs)%Z →
  handle_send_seq u w = (Ok tt, w).
Proof.
  intros Hnet Hp Hok Hs. unfold handle_send_seq. mstep. rewrite (get_send_seq_run _ _ _ Hnet Hp).
  rewrite bool_decide_eq_false_2; [done|]. simpl.
  destruct p as [[c|] [m|]]; simpl in *; try done; lia.
Qed.

(** The persistence of the send counters is dead code: while the counters
    satisfy their invariant, which every cache operation preserves, the test
    that guards it never holds, and handling the send sequence of a message
    changes nothing. *)
Theorem handle_send_seq_never_saves (u : string) (w : World)
    (Hnet : healthy w) (Hstep : (0 < cs_seq_step cs)%Z) (Hinv : seq_inv (cs_seq_step cs) w) :
  handle_send_seq u w = (Ok tt, w).
Proof.
  destruct (seq_ok_Some _ _ (Hinv (send_seq_key u) (is_seq_key_send u))) as (p & Hp & Hok).
  by eapply handle_send_seq_run.
Qed.

(** The database row after the reservation of [u] grew. *)
Definition grow_row (u : string) (p : Pg) : Pg :=
  upd_sequence (alter (bump_rec (cs_seq_step cs)) u) p.

Definition has_room (u : string) (w : World) : Prop :=
  ∃ row, t_sequence (w_pg w) !! u = Some row ∧ in_i64 (rec_max_seq row + cs_seq_step cs) = true.

Lemma save_max_seq_run u w : healthy w → has_room u w →
  ∃ v, save_max_seq (cs_seq_step cs) u w = (Ok v, upd_pg (grow_row u) w).
Proof.
  intros Hnet (row & Hrow & Hi). unfold save_max_seq. eexists.
  erewrite pg_exec_healthy by (done || (rewrite Hrow; simpl; by rewrite Hi)).
  unfold grow_row, upd_sequence, upd_pg. do 3 f_equal.
  apply map_eq. intros k. destruct (decide (k = u)) as [->|].
  - by rewrite lookup_insert_eq, lookup_alter_eq, Hrow.
  - by rewrite lookup_insert_ne, lookup_alter_ne.
Qed.

Lemma increase_message_seq_run u w p :
  healthy w → pseq (w_redis w) (seq_key u) = Some p →
  in_i64 (default 0 p.1 + 1)%Z = true → has_room u w →
  let b := bump (rc_seq_step (cs_cache cs)) p in
  ∃ r', increase_message_seq u w
          = (Ok b.1.1, upd_pg (if b.2 then grow_row u else id) (upd_redis (λ _, r') w))
      ∧ pseq r' (seq_key u) = Some (pair_of b) ∧ only_key (seq_key u) (w_redis w) r'.
Proof.
  intros Hnet Hp Hi Hroom b.
  destruct (increase_seq_run (cs_cache cs) u w p Hnet Hp Hi) as (r' & Hr & Hp' & Ho).
  exists r'. split_and!; [|done|done]. unfold increase_message_seq, mbind, M_bind. rewrite Hr. fold b.
  destruct b as [[cur mx] []]; simpl.
  - destruct (save_max_seq_run u (upd_redis (λ _, r') w)) as [v Hv]; [done|done|].
    by rewrite Hv.
  - unfold mret, M_ret. by destruct w as [? [] ? ? ? ? ? ? ? ? ? ?].
Qed.

(** ** The loop *)

(** The offsets a list of received records occupies. *)
Definition positions (records : list Record_) : Z :=
  Z.of_nat (length (List.filter (λ r, match r with RecvError => false | _ => true end) records)).

Lemma consume_app rs rs' : ∀ off c w c1 w1,
  consume off rs c w = (Ok c1, w1) →
  consume off (rs ++ rs') c w = consume (off + positions rs) rs' c1 w1.
Proof.
  induction rs as [|r rs IH]; intros off c w c1 w1 H; simpl in *.
  { unfold mret, M_ret in H. simplify_eq. by rewrite Z.add_0_r. }
  assert (Hpos : r ≠ RecvError →
    (off + positions (r :: rs) = off + 1 + positions rs)%Z)
    by (intros ?; unfold positions; destruct r; simpl; try done; lia).
  destruct r; [by apply IH|rewrite Hpos by done; by apply IH|rewrite Hpos by done].
  unfold mbind, M_bind in *. destruct (attempt (handle_msg s) w) as [[[?|?]| | |] w2];
    try done; [by apply IH|].
  destruct (attempt (remote kafka_error (mret tt)) w2) as [[?| | |] w3]; try done. by apply IH.
Qed.

(** Failed messages are not redelivered: after any run of the loop over any
    records, whatever failed in it, one message that is handled moves the
    committed offset past all of them, and a restart resumes after it. *)
Theorem consume_commits_past_failures (records : list Record_) (s : string)
    (off c0 c : Z) (w w1 w2 : World)
    (Hrun : consume off records c0 w = (Ok c, w1))
    (Hlast : handle_msg s w1 = (Ok tt, w2)) (Hnet : healthy w2) :
  consume off (records ++ [Payload s]) c0 w = (Ok (off + positions records + 1)%Z, w2).
Proof.
  rewrite (consume_app _ _ _ _ _ _ _ Hrun). cbn [consume]. unfold mbind, M_bind, attempt.
  rewrite Hlast. by rewrite remote_healthy.
Qed.
End consumer.

(** ** The history flag of single messages *)

Definition with_store (store : Msg → IO unit) (cs : ConsumerService) : ConsumerService :=
  mkConsumer store (cs_box cs) (cs_pusher cs) (cs_cache cs) (cs_seq_step cs).

(** The history flag is read upside down for single messages. Plain single
    messages are classified for the history, yet handling a message with the
    flag set never calls the history store (the result is the same whatever
    the store does), and handling one with the flag clear does exactly what it
    does with the flag set, after storing the message in the history. *)
Theorem single_history_inverted (cs : ConsumerService) (m : Msg) (w : World)
    (store store' : Msg → World → World) :
  let saving f := with_store (λ m w, (Ok tt, f m w)) cs in
  classify_msg_type SingleMsg = (Single, true, true)
  ∧ handle_message (saving store) m true w = handle_message (saving store') m true w
  ∧ handle_message (saving store) m false w = handle_message (saving store) m true (store m w).
Proof. split_and!; reflexivity. Qed.

(** ** Witnesses *)

Definition idle_service : ConsumerService :=
  consumer_new 5 msg_box (push_service Some (λ _, true) id_arrival).

Lemma handle_send_seq_never_saves_witness :
  handle_send_seq idle_service "u" world_empty = (Ok tt, world_empty).
Proof.
  apply (handle_send_seq_never_saves idle_service "u" world_empty).
  - reflexivity.
  - reflexivity.
  - intros k _. exact I.
Defined.

(** A broken record, then a read receipt. *)
Definition read_only_json (s : string) : option Msg :=
  if bool_decide (s = "read"%string) then Some (set_msg_type 27 default_msg) else None.

Lemma consume_commits_past_failures_witness :
  consume read_only_json (λ _, Some (mkMsgRead [] "bob")) (λ _, None) idle_service 7
    ([Payload "broken"] ++ [Payload "read"]) 7 world_empty = (Ok 9%Z, world_empty).
Proof.
  exact (consume_commits_past_failures read_only_json (λ _, Some (mkMsgRead [] "bob"))
    (λ _, None) idle_service [Payload "broken"] "read" 7 7 7 world_empty world_empty world_empty
    eq_refl eq_refl eq_refl).
Defined.
