(* ===== verification/Handling.v ===== *)
(** * Handling a record, call by call ([msg_server/src/consumer.rs])

    [handle_msg] taken apart into the calls it makes to the cache, the
    database, the receive box and the pusher: whatever is known of these calls
    makes the whole handler a script of such calls. *)

From S2P Require Import Prelude Script Errors Types Tables World Cache SeqStore RecBox Pusher GroupStore Consumer.

(** What is known of every call of the consumer [cs]. *)
Record HandlingCalls (P : ∀ A, IO A → Prop) (cs : ConsumerService) : Prop := {
  hc_increase u : P _ (increase_seq (cs_cache cs) u);
  hc_group ms : P _ (incr_group_seq (cs_cache cs) ms);
  hc_reserve u : P _ (save_max_seq (cs_seq_step cs) u);
  hc_reserve_all us : P _ (save_max_seq_batch (cs_seq_step cs) us);
  hc_history m : P _ (cs_save_history cs m);
  hc_send_seq u : P _ (get_send_seq u);
  hc_members g : P _ (query_group_members_id g);
  hc_members_db g : P _ (query_group_members_id_db g);
  hc_save_members g l : P _ (save_group_members_id g l);
  hc_del_members g : P _ (del_group_members g);
  hc_remove_member g u : P _ (remove_group_member_id g u);
  hc_remove_batch g l : P _ (remove_group_member_batch g l);
  hc_box_save m : P _ (save_message (cs_box cs) m);
  hc_box_group m gs : P _ (save_group_msg (cs_box cs) m gs);
  hc_box_delete id : P _ (delete_message (cs_box cs) id);
  hc_box_read u l : P _ (msg_read (cs_box cs) u l);
  hc_push m : P _ (push_single_msg (cs_pusher cs) m);
  hc_push_group m gs : P _ (push_group_msg (cs_pusher cs) m gs)
}.

Section handling.
Context (from_json : string → option Msg) (decode_read : bytes → option MsgRead)
        (decode_strings : bytes → option (list string)).
Context (P : ∀ A, IO A → Prop) (cs : ConsumerService) (Hcalls : HandlingCalls P cs).

(** A call, or what a program is made of. *)
Ltac handling_split :=
  repeat lazymatch goal with
  | |- stepwise P (mbind _ _) => apply stepwise_bind; [|intros ?]
  | |- stepwise P (if ?b then _ else _) => destruct b
  | |- stepwise P (throw _) => apply stepwise_throw
  | |- stepwise P (mret _) => apply stepwise_ret
  | |- stepwise P (from_option _ _) => apply stepwise_from_option
  | |- stepwise P (log_err _) => apply stepwise_log_err
  | |- stepwise P (spawn _) => apply stepwise_spawn
  | |- stepwise P (join ?o) => destruct o; [apply stepwise_ret|apply stepwise_throw|apply stepwise_throw|apply stepwise_hang]
  | |- stepwise P (let '(_, _) := ?x in _) => destruct x
  | |- stepwise P (match ?x with _ => _ end) => destruct x
  end; try (apply stepwise_call; by apply Hcalls).

Lemma handle_group_seq_steps t m : stepwise P (handle_group_seq decode_strings cs t m).
Proof. unfold handle_group_seq, get_members_id, query_group_members_id_from_db. handling_split. Defined.

Lemma send_to_db_steps m t b l : stepwise P (send_to_db cs m t b l).
Proof.
  unfold send_to_db, handle_message, handle_group_message. handling_split.
  match goal with x : outcome Error unit, y : outcome Error unit |- _ => destruct x, y; handling_split end.
Defined.

Lemma handle_msg_steps payload : stepwise P (handle_msg from_json decode_read decode_strings cs payload).
Proof.
  unfold handle_msg, dispatch, handle_msg_read, handle_send_seq, increase_message_seq, to_pusher.
  handling_split; first [apply handle_group_seq_steps|apply send_to_db_steps].
Defined.
End handling.

(** What every call keeps, handling a record keeps. *)
Lemma handle_msg_keeps from_json decode_read decode_strings (R : World → World → Prop) `{!PreOrder R}
    (cs : ConsumerService) payload :
  HandlingCalls (λ A m, keeps R m) cs → keeps R (handle_msg from_json decode_read decode_strings cs payload).
Proof.
  intros Hcalls. destruct (handle_msg_steps from_json decode_read decode_strings _ cs Hcalls payload) as [p Hrun Hp].
  intros w. rewrite <- Hrun. by apply keeps_run.
Qed.
