(* ===== verification/Delivery.v ===== *)
(** * Delivery of a message, end to end

    What one run of [ConsumerService::handle_msg] does to the counters, the
    receive box and the database, for single and for group messages, against
    the interfaces of the box and of the pusher. *)

From S2P Require Import Prelude Errors Types Tables World Cache SeqStore RecBox Pusher GroupStore Consumer.

(** ** The members of a group, through the cache *)

Lemma sadd_all now k ms : ∀ r s, rset now r k = Some s →
  ∃ r', pipeline (map (λ m, SADD now k m) ms) r = (Ok tt, r')
      ∧ rset now r' k = Some (list_to_set ms ∪ s) ∧ only_key k r r'.
Proof.
  induction ms as [|m ms IH]; intros r s Hs.
  - exists r. split_and!; [done| |done]. rewrite Hs. f_equal. set_solver.
  - cbn [map pipeline]. unfold SADD at 1. rewrite Hs.
    destruct (IH (rput now r k (RSet ({[m]} ∪ s))) ({[m]} ∪ s)) as (r' & Hr & Hs' & Ho);
      [apply rset_rput|].
    exists r'. split_and!; [done| |].
    + rewrite Hs'. f_equal. set_solver.
    + etrans; [apply only_key_rput|done].
Qed.

(** The members the consumer addresses: the cached set, or the table when the
    cache has none. *)
Definition group_members (w : World) (gid : string) : list string :=
  match rset (w_clock w) (w_redis w) (members_key gid) with
  | Some s => if bool_decide (elements s = []) then members_of (w_pg w) gid else elements s
  | None => []
  end.

Lemma NoDup_group_members w gid : NoDup (group_members w gid).
Proof.
  unfold group_members. destruct (rset _ _ _) as [s|]; [|constructor].
  case_bool_decide; [apply NoDup_members_of|apply NoDup_elements].
Qed.

Lemma get_members_id_run gid w s :
  healthy w → rset (w_clock w) (w_redis w) (members_key gid) = Some s →
  ∃ r', get_members_id gid w = (Ok (group_members w gid), upd_redis (λ _, r') w)
      ∧ rset (w_clock w) r' (members_key gid) = Some (list_to_set (group_members w gid))
      ∧ only_key (members_key gid) (w_redis w) r'.
Proof.
  intros Hnet Hs. unfold group_members. rewrite Hs.
  unfold get_members_id, query_group_members_id, mbind, M_bind.
  rewrite redis_conn_healthy by done.
  rewrite (redis_run_query _ _ (elements s)) by (done || unfold SMEMBERS; by rewrite Hs).
  case_bool_decide as He.
  - unfold query_group_members_id_from_db, query_group_members_id_db, pg_query, mbind, M_bind.
    erewrite pg_exec_healthy by done. rewrite upd_pg_id.
    apply elements_empty_inv in He. apply leibniz_equiv in He. subst s.
    destruct (sadd_all (w_clock w) (members_key gid) (members_of (w_pg w) gid) _ _ Hs)
      as (r' & Hr & Hs' & Ho).
    exists r'. split_and!; [|by rewrite Hs', (right_id_L _ _)|done].
    unfold log_err, save_group_members_id, mbind, M_bind. rewrite redis_conn_healthy by done.
    by erewrite redis_run_healthy by done.
  - exists (w_redis w). split_and!; [by rewrite upd_redis_id| |done].
    rewrite Hs. by rewrite list_to_set_elements_L.
Qed.

(** The member cache is filled on a miss: whether the cache knows the group
    or not, the consumer gets the cached members, or the rows of the member
    table when there are none cached; afterwards the cached set is exactly
    what it got, no other key changed, and asking again answers the same set
    without the database. *)
Theorem members_cache_aside (gid : string) (w : World) (s : gset string)
    (Hnet : healthy w) (Hset : rset (w_clock w) (w_redis w) (members_key gid) = Some s) :
  ∃ r', get_members_id gid w = (Ok (group_members w gid), upd_redis (λ _, r') w)
    ∧ (∀ k, k ≠ members_key gid → r' !! k = w_redis w !! k)
    ∧ NoDup (group_members w gid)
    ∧ (∀ u, u ∈ group_members w gid ↔
         u ∈ s ∨ (s = ∅ ∧ is_Some (t_members (w_pg w) !! (gid, u))))
    ∧ (group_members w gid ≠ [] → ∀ p,
        ∃ l, get_members_id gid (upd_pg (λ _, p) (upd_redis (λ _, r') w))
               = (Ok l, upd_pg (λ _, p) (upd_redis (λ _, r') w))
           ∧ l ≡ₚ group_members w gid).
Proof.
  destruct (get_members_id_run gid w s Hnet Hset) as (r' & Hr & Hs' & Ho).
  exists r'. split_and!; [done|done|apply NoDup_group_members| |].
  - intros u. unfold group_members. rewrite Hset. case_bool_decide as He.
    + apply elements_empty_inv in He. apply leibniz_equiv in He. subst.
      rewrite elem_of_members_of. set_solver.
    + rewrite elem_of_elements. split; [by left|]. intros [?|[-> _]]; [done|].
      by rewrite elements_empty in He.
  - intros Hne p. exists (elements (list_to_set (group_members w gid) : gset string)). split.
    + unfold get_members_id, query_group_members_id, mbind, M_bind.
      rewrite redis_conn_healthy by done.
      rewrite (redis_run_query _ _ (elements (list_to_set (group_members w gid) : gset string)))
        by (done || unfold SMEMBERS; simpl; by rewrite Hs').
      rewrite bool_decide_eq_false_2; [done|]. intros He%elements_empty_inv.
      destruct (group_members w gid) as [|x l]; [done|]. apply (not_elem_of_empty (C := gset string) x), He. simpl. set_solver.
    + apply elements_list_to_set, NoDup_group_members.
Qed.

Lemma members_cache_aside_witness :
  ∃ r', get_members_id "g" world_empty = (Ok [], upd_redis (λ _, r') world_empty).
Proof.
  destruct (members_cache_aside "g" world_empty ∅ eq_refl eq_refl) as (r' & H & _).
  exists r'. exact H.
Defined.

(** ** Handling one message *)

(** What the consumer makes of the outcome of the push task. *)
Definition push_outcome (o : outcome Error unit) : outcome Error unit :=
  match o with
  | Panic => Err join_error
  | Hang => Hang
  | _ => Ok tt
  end.

Lemma join_push (m : IO unit) w :
  (pushed ← spawn (log_err m); join (Ok tt) ;; join pushed) w = (push_outcome (m w).1, (m w).2).
Proof. mstep. destruct (m w) as [[[]|e| |] w']; done. Qed.

Section delivery.
Context (from_json : string → option Msg)
        (decode_read : bytes → option MsgRead)
        (decode_strings : bytes → option (list string)).
Context (cs : ConsumerService) `{!MsgRecBoxLaws (cs_box cs)} `{!PusherLaws (cs_pusher cs)}.

(** The service runs with one step throughout, and the stores are in order. *)
Record ready (w : World) : Prop := {
  rd_net : healthy w;
  rd_step : (0 < cs_seq_step cs)%Z;
  rd_same : rc_seq_step (cs_cache cs) = cs_seq_step cs;
  rd_seq : seq_inv (cs_seq_step cs) w;
  rd_box : box_inv w
}.

Lemma ready_send_seq u w : ready w → handle_send_seq cs u w = (Ok tt, w).
Proof.
  intros []. destruct (seq_ok_Some _ _ (rd_seq0 (send_seq_key u) (is_seq_key_send u)))
    as (p & Hp & Hok). by eapply handle_send_seq_run.
Qed.

Lemma ready_counter u w : ready w → ∃ p, pseq (w_redis w) (seq_key u) = Some p.
Proof.
  intros []. destruct (seq_ok_Some _ _ (rd_seq0 (seq_key u) (is_seq_key_seq u))) as (p & Hp & _). eauto.
Qed.

(** With the history flag set, storing a single message is one write to the box. *)
Lemma handle_message_run m w w' :
  is_received_ack (msg_type m) = false → save_message (cs_box cs) m w = (Ok tt, w') →
  handle_message cs m true w = (Ok tt, w').
Proof. intros Ha Hs. unfold handle_message. mstep. rewrite Ha. mstep. by rewrite Hs. Qed.

Lemma single_not_ack mt h :
  classify_msg_type mt = (Single, true, h) →
  is_received_ack (msg_type_i32 mt) = false ∧ h = true ∧ mt ≠ Read.
Proof. by destruct mt; intros [= <-]. Qed.




Lemma handle_msg_parsed payload m mt w :
  from_json payload = Some m → msg_type_try_from (msg_type m) = Some mt → mt ≠ Read →
  handle_msg from_json decode_read decode_strings cs payload w
  = (let '(msg_type2, need_increase_seq, need_history) := classify_msg_type mt in
     handle_send_seq cs (sender_id m) ;;
     msg ← (if need_increase_seq
            then cur_seq ← increase_message_seq cs (receiver_id m); mret (set_seq_field cur_seq m)
            else mret m);
     members ← handle_group_seq decode_strings cs msg_type2 msg;
     to_db ← (if get_send_to_db_flag mt
              then spawn (log_err (send_to_db cs msg msg_type2 need_history members))
              else mret (Ok tt));
     pushed ← spawn (log_err (to_pusher cs msg msg_type2 members));
     join to_db ;; join pushed) w.
Proof.
  intros Hj Hm Hr. unfold handle_msg, dispatch. rewrite Hj. erewrite bind_ok by done.
  rewrite Hm. erewrite bind_ok by done. by rewrite bool_decide_eq_false_2.
Qed.

(** Handling a message that is numbered and stored: the world in which the box
    stores it, and then the push. *)
Definition numbered_world (m : Msg) (r' : Redis) (grew : bool) (w : World) : World :=
  upd_pg (if grew then grow_row cs (receiver_id m) else id) (upd_redis (λ _, r') w).

Lemma single_numbered_run payload m mt w p :
  ready w → from_json payload = Some m → msg_type_try_from (msg_type m) = Some mt →
  classify_msg_type mt = (Single, true, true) → get_send_to_db_flag mt = true →
  pseq (w_redis w) (seq_key (receiver_id m)) = Some p →
  in_i64 (default 0 p.1 + 1)%Z = true → has_room cs (receiver_id m) w →
  let b := bump (cs_seq_step cs) p in
  let m' := set_seq_field b.1.1 m in
  ∃ r', pseq r' (seq_key (receiver_id m)) = Some (pair_of b)
    ∧ only_key (seq_key (receiver_id m)) (w_redis w) r'
    ∧ ∀ w1, save_message (cs_box cs) m' (numbered_world m r' b.2 w) = (Ok tt, w1) →
      handle_msg from_json decode_read decode_strings cs payload w
      = (push_outcome (push_single_msg (cs_pusher cs) m' w1).1, (push_single_msg (cs_pusher cs) m' w1).2).
Proof.
  intros Hready Hjson Hmt Hclass Hdb Hp Hi Hrow b m'.
  pose proof Hready as [Hnet Hstep Hsame Hseq Hbox].
  destruct (single_not_ack mt true Hclass) as (Hack & _ & Hread).
  rewrite <- (msg_type_try_from_Some _ _ Hmt) in Hack.
  destruct (increase_message_seq_run cs (receiver_id m) w p Hnet Hp Hi Hrow)
    as (r' & Hinc & Hp' & Ho).
  rewrite Hsame in Hinc, Hp'. fold b in Hinc, Hp'. fold (numbered_world m r' b.2 w) in Hinc.
  exists r'. split_and!; [done|done|]. intros w1 Hs.
  rewrite (handle_msg_parsed payload m mt) by done. rewrite Hclass, Hdb.
  mrun (ready_send_seq (sender_id m) w Hready).
  erewrite bind_ok by (mrun Hinc; reflexivity). fold m'.
  erewrite bind_ok by (unfold handle_group_seq; by rewrite bool_decide_eq_true_2).
  erewrite bind_ok by (apply spawn_ok; eapply log_err_ok; apply handle_message_run;
    [exact Hack|exact Hs]).
  apply (join_push (push_single_msg (cs_pusher cs) m') w1).
Qed.

Lemma handle_single_run payload m mt w p :
  ready w → from_json payload = Some m → msg_type_try_from (msg_type m) = Some mt →
  classify_msg_type mt = (Single, true, true) → get_send_to_db_flag mt = true →
  pseq (w_redis w) (seq_key (receiver_id m)) = Some p →
  in_i64 (default 0 p.1 + 1)%Z = true → has_room cs (receiver_id m) w →
  fresh_id (server_id m) w →
  let b := bump (cs_seq_step cs) p in
  let m' := set_seq_field b.1.1 m in
  ∃ r' w1, save_message (cs_box cs) m' (numbered_world m r' b.2 w) = (Ok tt, w1)
    ∧ handle_msg from_json decode_read decode_strings cs payload w
      = (push_outcome (push_single_msg (cs_pusher cs) m' w1).1, (push_single_msg (cs_pusher cs) m' w1).2)
    ∧ pseq r' (seq_key (receiver_id m)) = Some (pair_of b)
    ∧ only_key (seq_key (receiver_id m)) (w_redis w) r'.
Proof.
  intros Hready Hjson Hmt Hclass Hdb Hp Hi Hrow Hfresh b m'.
  destruct (single_numbered_run payload m mt w p) as (r' & Hp' & Ho & Hrun); try done.
  destruct (box_save_message m' (numbered_world m r' b.2 w)) as (w1 & Hs & _);
    [apply Hready|apply (box_inv_local w); [done|apply Hready]|done|].
  exists r', w1. split_and!; [exact Hs|by apply Hrun|done|done].
Qed.

(** C5. Delivery of a single message. For every message type that advances the
    receiver's sequence and is stored, handling the payload takes the
    receiver's next number, persists the reservation exactly when it grew,
    adds exactly one document to the receive box (the message with that
    number), hands that same message to the gateways, and touches no other
    counter. The stores are updated even when the push fails; only a panic of
    the push task is reported as an error. *)
Theorem deliver_single (payload : string) (m : Msg) (mt : MsgType) (w : World)
    (p : option Z * option Z)
    (Hready : ready w)
    (Hjson : from_json payload = Some m) (Hmt : msg_type_try_from (msg_type m) = Some mt)
    (Hclass : classify_msg_type mt = (Single, true, true)) (Hdb : get_send_to_db_flag mt = true)
    (Hp : pseq (w_redis w) (seq_key (receiver_id m)) = Some p)
    (Hroom : in_i64 (default 0 p.1 + 1)%Z = true) (Hrow : has_room cs (receiver_id m) w)
    (Hfresh : fresh_id (server_id m) w) :
  let b := bump (cs_seq_step cs) p in
  let m' := set_seq_field b.1.1 m in
  ∃ w1 w', handle_msg from_json decode_read decode_strings cs payload w
         = (push_outcome (push_single_msg (cs_pusher cs) m' w1).1, w')
    ∧ w' = (push_single_msg (cs_pusher cs) m' w1).2
    ∧ all_docs w' ≡ₚ to_doc m' :: all_docs w
    ∧ pseq (w_redis w') (seq_key (receiver_id m)) = Some (pair_of b)
    ∧ (∀ k, k ≠ seq_key (receiver_id m) → w_redis w' !! k = w_redis w !! k)
    ∧ w_pg w' = (if b.2 then grow_row cs (receiver_id m) else id) (w_pg w).
Proof.
  intros b m'. pose proof Hready as [Hnet Hstep Hsame Hseq Hbox].
  destruct (handle_single_run payload m mt w p) as (r' & w1 & Hs & Hrun & Hp' & Ho); try done.
  fold b in Hs, Hrun, Hp'. fold m' in Hs, Hrun. set (w0 := numbered_world m r' b.2 w) in *.
  destruct (box_save_message m' w0) as (w1' & Hs' & _ & _ & Hdocs);
    [done|by apply (box_inv_local w)|done|].
  rewrite Hs in Hs'. injection Hs' as <-. exists w1. eexists. split; [exact Hrun|].
  pose proof (push_single_frame m' w1) as Hf. unfold same, stores in Hf. injection Hf as Hf1 Hf2 Hf3 _ _ _ _ _.
  pose proof (box_frame_save m' w0) as Hb. unfold same, outside_box in Hb. rewrite Hs in Hb.
  injection Hb as Hb1 Hb2 _ _ _ _ _ _.
  split_and!; [done| | | |].
  - unfold all_docs. rewrite Hf3. exact Hdocs.
  - rewrite Hf1, Hb1. exact Hp'.
  - intros k Hk. rewrite Hf1, Hb1. by apply Ho.
  - by rewrite Hf2, Hb2.
Qed.

(** ** Group messages *)

(** The message types that change the member cache. *)
Definition changes_members (mt : MsgType) : bool :=
  match mt with GroupDismiss | GroupMemberExit | GroupRemoveMember => true | _ => false end.

(** The members a group message is addressed to, with their numbers. *)
Definition addressees (m : Msg) (w : World) : list string :=
  filter (.≠ sender_id m) (group_members w (receiver_id m)).
Definition numbered (m : Msg) (w : World) : list GroupMemSeq :=
  member_seq (cs_seq_step cs) (w_redis w) <$> addressees m w.
Definition grown (gs : list GroupMemSeq) : list string :=
  mem_id <$> filter (λ g, need_update g = true) gs.

(** No listed reservation is at the end of its range. *)
Definition batch_room (us : list string) (w : World) : Prop :=
  map_Forall (λ u row, u ∈ us → in_i64 (rec_max_seq row + cs_seq_step cs) = true)
    (t_sequence (w_pg w)).

Lemma mem_id_numbered m w : mem_id <$> numbered m w = addressees m w.
Proof. unfold numbered. rewrite <- list_fmap_compose. by apply list_fmap_id. Qed.

Lemma batch_update_nil step t : batch_update step [] t = t.
Proof.
  unfold batch_update. apply map_eq. intros k. rewrite map_lookup_imap.
  by destruct (t !! k).
Qed.

Lemma upd_pg_sequence_id w : upd_pg (upd_sequence (batch_update (cs_seq_step cs) [])) w = w.
Proof. destruct w as [? [] ? ? ? ? ? ? ? ? ? ?]. unfold upd_pg, upd_sequence; simpl. by rewrite batch_update_nil. Qed.

Lemma save_batch_run us w : healthy w → batch_room us w →
  (if bool_decide (us ≠ []) then save_max_seq_batch (cs_seq_step cs) us else mret tt) w
  = (Ok tt, upd_pg (upd_sequence (batch_update (cs_seq_step cs) us)) w).
Proof.
  intros Hnet Hroom. case_bool_decide as Hus.
  - unfold save_max_seq_batch. rewrite bool_decide_eq_false_2 by done.
    by erewrite pg_exec_healthy by (done || by rewrite bool_decide_eq_true_2).
  - subst. by rewrite upd_pg_sequence_id.
Qed.

Lemma member_seq_other r r' u :
  pseq r' (seq_key u) = pseq r (seq_key u) →
  member_seq (cs_seq_step cs) r' u = member_seq (cs_seq_step cs) r u.
Proof. unfold member_seq. by intros ->. Qed.

Lemma handle_group_seq_run m mt w s :
  ready w → msg_type m = msg_type_i32 mt → changes_members mt = false →
  rset (w_clock w) (w_redis w) (members_key (receiver_id m)) = Some s →
  Forall (can_bump (w_redis w)) (addressees m w) →
  ∃ r', handle_group_seq decode_strings cs Group m w = (Ok (numbered m w), upd_redis (λ _, r') w)
    ∧ Forall (λ u, pseq r' (seq_key u)
        = Some (Some (cur_seq (member_seq (cs_seq_step cs) (w_redis w) u)),
                Some (max_seq (member_seq (cs_seq_step cs) (w_redis w) u)))) (addressees m w)
    ∧ (∀ k, k ∉ (seq_key <$> addressees m w) → k ≠ members_key (receiver_id m) →
         r' !! k = w_redis w !! k).
Proof.
  intros [Hnet Hstep Hsame Hseq Hbox] Hty Hch Hs Hall.
  destruct (get_members_id_run (receiver_id m) w s Hnet Hs) as (r1 & Hm & _ & Ho1).
  assert (Hp1 : ∀ u, pseq r1 (seq_key u) = pseq (w_redis w) (seq_key u)).
  { intros u. apply (pseq_other (members_key (receiver_id m))); [done|].
    intros Heq. by apply (members_key_not_seq (receiver_id m)); rewrite <- Heq; apply is_seq_key_seq. }
  destruct (incr_group_seq_run (cs_cache cs) (addressees m w) (upd_redis (λ _, r1) w) Hnet)
    as (r2 & Hr2 & Hf2 & Ho2).
  { apply NoDup_filter, NoDup_group_members. }
  { eapply Forall_impl; [exact Hall|]. intros u (p & Hp & Hi). exists p. by rewrite Hp1. }
  cbn [w_redis upd_redis] in Hr2, Hf2, Ho2. rewrite Hsame in Hr2, Hf2.
  assert (Hms : ∀ u, member_seq (cs_seq_step cs) r1 u = member_seq (cs_seq_step cs) (w_redis w) u)
    by (intros; by apply member_seq_other).
  exists r2. split_and!.
  - unfold handle_group_seq. rewrite bool_decide_eq_false_2 by auto.
    mrun Hm. erewrite bind_ok by exact Hr2. rewrite Hty.
    unfold numbered. rewrite (list_fmap_ext (member_seq (cs_seq_step cs) r1)
      (member_seq (cs_seq_step cs) (w_redis w)) _ (λ _ u _, Hms u)).
    by destruct mt.
  - eapply Forall_impl; [exact Hf2|]. intros u Hu. cbv beta in Hu. by rewrite Hms in Hu.
  - intros k Hk1 Hk2. rewrite Ho2 by done. by apply Ho1.
Qed.

Lemma handle_group_message_run m h gs w w' :
  cs_save_history cs = save_message_pg → healthy w → batch_room (grown gs) w →
  save_group_msg (cs_box cs) m gs (upd_pg (upd_sequence (batch_update (cs_seq_step cs) (grown gs))) w)
    = (Ok tt, w') →
  spawn (log_err (handle_group_message cs m h gs)) w = (Ok (Ok tt), w').
Proof.
  intros Hstore Hnet Hroom Hs. apply spawn_ok. unfold handle_group_message.
  cbv zeta. fold (grown gs).
  pose proof (save_batch_run (grown gs) w Hnet Hroom) as Hb.
  destruct h.
  - eapply log_err_err. erewrite bind_ok.
    2:{ eapply spawn_err. mrun Hb. rewrite Hstore. unfold save_message_pg.
        by rewrite pg_exec_healthy_err. }
    erewrite bind_ok by (apply spawn_ok; exact Hs). by eapply bind_err.
  - eapply log_err_ok. erewrite bind_ok by (apply spawn_ok; by mrun Hb).
    by erewrite bind_ok by (apply spawn_ok; exact Hs).
Qed.

(** Handling a group message: the world in which the box stores it, and then
    the push. *)
Definition numbered_group_world (m : Msg) (r' : Redis) (gs : list GroupMemSeq) (w : World) : World :=
  upd_pg (upd_sequence (batch_update (cs_seq_step cs) (grown gs))) (upd_redis (λ _, r') w).

Lemma addressees_NoDup m w : NoDup (addressees m w) ∧ sender_id m ∉ addressees m w.
Proof. split; [apply NoDup_filter, NoDup_group_members|]. by intros [? _]%list_elem_of_filter. Qed.

Lemma handle_group_run payload m mt h w s :
  ready w → cs_save_history cs = save_message_pg → from_json payload = Some m →
  msg_type_try_from (msg_type m) = Some mt → classify_msg_type mt = (Group, false, h) →
  changes_members mt = false →
  rset (w_clock w) (w_redis w) (members_key (receiver_id m)) = Some s →
  Forall (can_bump (w_redis w)) (addressees m w) → batch_room (grown (numbered m w)) w →
  fresh_id (server_id m) w →
  let gs := numbered m w in
  ∃ r' w1, save_group_msg (cs_box cs) m gs (numbered_group_world m r' gs w) = (Ok tt, w1)
    ∧ handle_msg from_json decode_read decode_strings cs payload w
      = (push_outcome (push_group_msg (cs_pusher cs) m gs w1).1, (push_group_msg (cs_pusher cs) m gs w1).2)
    ∧ Forall (λ g, pseq r' (seq_key (mem_id g)) = Some (Some (cur_seq g), Some (max_seq g))) gs
    ∧ (∀ k, k ∉ (seq_key <$> (mem_id <$> gs)) → k ≠ members_key (receiver_id m) → r' !! k = w_redis w !! k).
Proof.
  intros Hready Hstore Hjson Hmt Hclass Hkeep Hset Hall Hroom Hfresh gs.
  pose proof Hready as [Hnet Hstep Hsame Hseq Hbox].
  assert (Hread : mt ≠ Read) by (intros ->; done).
  assert (Hflag : get_send_to_db_flag mt = true) by (by destruct mt).
  destruct (handle_group_seq_run m mt w s Hready (msg_type_try_from_Some _ _ Hmt) Hkeep Hset Hall)
    as (r' & Hg & Hf & Ho). fold gs in Hg.
  assert (Hids : mem_id <$> gs = addressees m w) by apply mem_id_numbered.
  destruct (addressees_NoDup m w) as [Hnd Hns].
  destruct (box_save_group m gs (numbered_group_world m r' gs w)) as (w1 & Hs & _);
    [done|by apply (box_inv_local w)|done|by rewrite Hids|by rewrite Hids|].
  exists r', w1. split_and!; [exact Hs| | |].
  - rewrite (handle_msg_parsed payload m mt) by done. rewrite Hclass, Hflag.
    mrun (ready_send_seq (sender_id m) w Hready). erewrite bind_ok by done. mrun Hg.
    erewrite bind_ok by (eapply handle_group_message_run; eassumption).
    apply (join_push (push_group_msg (cs_pusher cs) m gs) w1).
  - unfold gs, numbered. apply Forall_fmap. exact Hf.
  - intros k Hk1 Hk2. apply Ho; [by rewrite <- Hids|done].
Qed.

(** C4. Delivery of a group message. For every group message type that leaves
    the membership alone, each member but the sender gets the next number of
    its own counter; the box gains exactly one copy per such member, carrying
    that member's number and address, plus the sender's copy; the gateways get
    the same list; the database reservations grow for exactly the members
    whose counters passed theirs, no other counter moves, and the history
    table does not change. *)
Theorem deliver_group (payload : string) (m : Msg) (mt : MsgType) (h : bool) (w : World)
    (s : gset string)
    (Hready : ready w) (Hstore : cs_save_history cs = save_message_pg)
    (Hjson : from_json payload = Some m) (Hmt : msg_type_try_from (msg_type m) = Some mt)
    (Hclass : classify_msg_type mt = (Group, false, h)) (Hkeep : changes_members mt = false)
    (Hset : rset (w_clock w) (w_redis w) (members_key (receiver_id m)) = Some s)
    (Hall : Forall (can_bump (w_redis w)) (addressees m w))
    (Hroom : batch_room (grown (numbered m w)) w)
    (Hfresh : fresh_id (server_id m) w) :
  let gs := numbered m w in
  ∃ w1 w', handle_msg from_json decode_read decode_strings cs payload w
         = (push_outcome (push_group_msg (cs_pusher cs) m gs w1).1, w')
    ∧ w' = (push_group_msg (cs_pusher cs) m gs w1).2
    ∧ mem_id <$> gs = filter (.≠ sender_id m) (group_members w (receiver_id m))
    ∧ all_docs w' ≡ₚ to_doc (box_sender_copy m) :: (to_doc ∘ member_copy m <$> gs) ++ all_docs w
    ∧ Forall (λ g, pseq (w_redis w') (seq_key (mem_id g)) = Some (Some (cur_seq g), Some (max_seq g))) gs
    ∧ (∀ k, k ∉ (seq_key <$> (mem_id <$> gs)) → k ≠ members_key (receiver_id m) →
         w_redis w' !! k = w_redis w !! k)
    ∧ w_pg w' = upd_sequence (batch_update (cs_seq_step cs) (grown gs)) (w_pg w).
Proof.
  intros gs. pose proof Hready as [Hnet Hstep Hsame Hseq Hbox].
  destruct (handle_group_run payload m mt h w s) as (r' & w1 & Hs & Hrun & Hf & Ho); [done..|].
  fold gs in Hs, Hrun, Hf, Ho. set (w0 := numbered_group_world m r' gs w) in *.
  assert (Hids : mem_id <$> gs = addressees m w) by apply mem_id_numbered.
  destruct (addressees_NoDup m w) as [Hnd Hns].
  destruct (box_save_group m gs w0) as (w1' & Hs' & _ & _ & Hdocs);
    [done|by apply (box_inv_local w)|done|by rewrite Hids|by rewrite Hids|].
  rewrite Hs in Hs'. injection Hs' as <-. exists w1. eexists. split; [exact Hrun|].
  pose proof (push_group_frame m gs w1) as Hpf. unfold same, stores in Hpf.
  injection Hpf as Hf1 Hf2 Hf3 _ _ _ _ _.
  pose proof (box_frame_group m gs w0) as Hb. unfold same, outside_box in Hb. rewrite Hs in Hb.
  injection Hb as Hb1 Hb2 _ _ _ _ _ _.
  split_and!; [done|done| | | |].
  - unfold all_docs. rewrite Hf3. exact Hdocs.
  - rewrite Hf1, Hb1. exact Hf.
  - intros k Hk1 Hk2. rewrite Hf1, Hb1. by apply Ho.
  - by rewrite Hf2, Hb2.
Qed.
End delivery.

(** ** A small deployment: three users, one group, one gateway *)

Definition demo_service : ConsumerService :=
  consumer_new 5 msg_box (push_service Some (λ _, true) id_arrival).

Definition demo_pg : Pg :=
  upd_members (λ _, {[("g"%string, "alice"%string) := mkMemberRow "" Owner 0 false "" 0 0 "";
                      ("g"%string, "bob"%string) := mkMemberRow "" Member 0 false "" 0 0 "";
                      ("g"%string, "carol"%string) := mkMemberRow "" Member 0 false "" 0 0 ""]})
    (upd_sequence (λ _, {["alice"%string := mkSeqRow 5 5; "bob"%string := mkSeqRow 5 5;
                          "carol"%string := mkSeqRow 5 5]}) pg_empty).

Definition demo_world : World :=
  upd_ws_list (λ _, ["gw"%string]) (upd_pg (λ _, demo_pg) mailbox_world).

Definition hello : Msg :=
  set_receiver "bob" (mkMsg "c1" "s1" 0 1000 "alice" "" 0 "" [] 0 0 false 0 "" "" None 1).
Definition hello_group : Msg := set_msg_type 1 (set_receiver "g" hello).

Lemma demo_ready : @ready demo_service msg_box_laws demo_world.
Proof. split; [reflexivity|reflexivity|reflexivity|intros k _; exact I|reflexivity]. Qed.

Lemma deliver_single_witness :
  ∃ w', handle_msg (λ _, Some hello) (λ _, None) (λ _, None) demo_service "" demo_world = (Ok tt, w')
      ∧ all_docs w' ≡ₚ [to_doc (set_seq_field 1 hello)]
      ∧ w_pushed w' = [PushSingle "gw" (set_seq_field 1 hello)].
Proof.
  destruct (@deliver_single (λ _, Some hello) (λ _, None) (λ _, None) demo_service msg_box_laws
    (push_service_laws Some (λ _, true) id_arrival) "" hello SingleMsg demo_world (None, None))
    as (w1 & w' & H & _ & Hdocs & _).
  - exact demo_ready.
  - reflexivity.
  - reflexivity.
  - reflexivity.
  - reflexivity.
  - reflexivity.
  - reflexivity.
  - exists (mkSeqRow 5 5). split; reflexivity.
  - intros d Hd. vm_compute in Hd. inversion Hd.
  - exists w'. split_and!; [|exact Hdocs|].
    + etrans; [exact H|]. f_equal. apply (f_equal fst) in H. exact (eq_trans (eq_sym H) eq_refl).
    + apply (f_equal (λ x, w_pushed x.2)) in H. exact (eq_trans (eq_sym H) eq_refl).
Defined.

Lemma deliver_group_witness :
  ∃ w', handle_msg (λ _, Some hello_group) (λ _, None) (λ _, None) demo_service "" demo_world
          = (Ok tt, w')
      ∧ length (all_docs w') = 3.
Proof.
  destruct (@deliver_group (λ _, Some hello_group) (λ _, None) (λ _, None) demo_service msg_box_laws
    (push_service_laws Some (λ _, true) id_arrival) "" hello_group GroupMsg true demo_world ∅)
    as (w1 & w' & H & _ & _ & Hdocs & _).
  - exact demo_ready.
  - reflexivity.
  - reflexivity.
  - reflexivity.
  - reflexivity.
  - reflexivity.
  - reflexivity.
  - apply Forall_forall. intros u _. exists (None, None). split; reflexivity.
  - intros u row _ Hu. exfalso. vm_compute in Hu. inversion Hu.
  - intros d Hd. vm_compute in Hd. inversion Hd.
  - exists w'. split.
    + etrans; [exact H|]. f_equal. apply (f_equal fst) in H. exact (eq_trans (eq_sym H) eq_refl).
    + exact (Permutation_length Hdocs).
Defined.
