(* ===== verification/EndToEnd.v ===== *)
(** * A message from one client to another

    The services put together: the gateways with their hubs and queues, the
    chat service and its topic, the consumer with the receive box, and the
    pushes back to the gateways. [System] is the state they share, one function
    per service takes its next piece of work, and the theorem follows a message
    from the queue of the sender's gateway to the receiver's connections and
    its synchronisation. *)

From S2P Require Import Prelude Errors Types Tables World Cache SeqStore RecBox Pusher Producer Gateway Consumer Delivery.

(** The gateways are named by the address the pusher calls; the consumer has
    taken [sy_taken] records of the topic and the gateways have served
    [sy_served] pushes. *)
Record System : Type := mkSystem {
  sy_world : World;
  sy_gateways : gmap string Gateway;
  sy_taken : nat;
  sy_served : nat
}.

Section system.
Context (encode : Msg → option bytes) (to_json : Msg → string) (nanoid : nat → string) (cache : RedisCache).
Context (from_json : string → option Msg) (decode_read : bytes → option MsgRead)
        (decode_strings : bytes → option (list string)) (cs : ConsumerService).

(** A client's frame arrives at its gateway: [hub.broadcast(msg)]. *)
Definition client_sends (a : string) (m : Msg) (s : System) : System :=
  mkSystem (sy_world s) (alter (broadcast m) a (sy_gateways s)) (sy_taken s) (sy_served s).

(** The manager of a gateway takes the next message of its queue. *)
Definition gateway_round (a : string) (s : System) : System :=
  match sy_gateways s !! a with
  | Some g =>
      match run_once encode to_json nanoid cache g (sy_world s) with
      | (Ok g', w') => mkSystem w' (<[a := g']> (sy_gateways s)) (sy_taken s) (sy_served s)
      | (_, w') => mkSystem w' (sy_gateways s) (sy_taken s) (sy_served s)
      end
  | None => s
  end.

(** The consumer takes the next record off the topic. *)
Definition consumer_round (s : System) : System :=
  match w_kafka (sy_world s) !! sy_taken s with
  | Some payload =>
      let w' := (handle_msg from_json decode_read decode_strings cs payload (sy_world s)).2 in
      mkSystem w' (sy_gateways s) (S (sy_taken s)) (sy_served s)
  | None => s
  end.

(** A gateway serves a push of the message server. *)
Definition answered (r : outcome Status Gateway) (g : Gateway) : Gateway :=
  match r with Ok g' => g' | _ => g end.
Definition serve (p : Push) (gs : gmap string Gateway) : gmap string Gateway :=
  match p with
  | PushSingle a m => alter (λ g, answered (rpc_send_msg_to_user encode (Some m) g) g) a gs
  | PushGroup a m members => alter (λ g, answered (rpc_send_group_msg_to_user encode (Some m) members g) g) a gs
  end.
Definition serve_pushes (s : System) : System :=
  let new := drop (sy_served s) (w_pushed (sy_world s)) in
  mkSystem (sy_world s) (foldl (λ gs p, serve p gs) (sy_gateways s) new) (sy_taken s)
    (length (w_pushed (sy_world s))).

(** A message sent at gateway [a], followed through all services. *)
Definition relay (a : string) (m : Msg) (s : System) : System :=
  serve_pushes (consumer_round (gateway_round a (client_sends a m s))).

(** ** The pushes of one message *)

(** Serving one push to each of a list of gateways changes each once. *)
Lemma serve_all (push : string → Push) (act : Gateway → Gateway) ws : ∀ gs,
  (∀ a gs, serve (push a) gs = alter act a gs) → NoDup ws →
  foldl (λ gs p, serve p gs) gs (push <$> ws)
  = map_imap (λ a g, Some (if bool_decide (a ∈ ws) then act g else g)) gs.
Proof.
  induction ws as [|a ws IH]; intros gs Hact Hnd; apply map_eq; intros k; rewrite map_lookup_imap.
  - simpl. by destruct (gs !! k).
  - apply NoDup_cons in Hnd as [Ha Hnd]. cbn [fmap list_fmap foldl]. rewrite IH by done.
    rewrite map_lookup_imap, Hact. destruct (decide (k = a)) as [->|Hne].
    + rewrite lookup_alter_eq. destruct (gs !! a) as [g|]; [|done]. simpl.
      rewrite (bool_decide_eq_false_2 (a ∈ ws)) by done. by rewrite bool_decide_eq_true_2 by set_solver.
    + rewrite lookup_alter_ne by done. destruct (gs !! k) as [g|]; [|done]. simpl.
      by rewrite (bool_decide_ext (k ∈ a :: ws) (k ∈ ws)) by set_solver.
Qed.
End system.

(** ** One message, followed *)

(** The deployment with the legacy box and the pusher of the message server. *)
Section relay.
Context (encode : Msg → option bytes) (enc : Msg → bytes).
Context (to_json : Msg → string) (nanoid : nat → string).
Context (from_json : string → option Msg) (decode_read : bytes → option MsgRead)
        (decode_strings : bytes → option (list string)).
Context (parse_socket : string → option string) (endpoint_ok : string → bool)
        (arrival : list (string * bool) → list (string * bool)).
Context (step : Z).
Context (Henc : ∀ m, encode m = Some (enc m)) (Harr : ∀ l, arrival l ≡ₚ l).

Definition deployed : ConsumerService := consumer_new step msg_box (push_service parse_socket endpoint_ok arrival).
Definition relay_msg : string → Msg → System → System :=
  relay encode to_json nanoid (redis_cache_from_config step) from_json decode_read decode_strings deployed.

(** The message as it is queued and as it is delivered, given the numbers the
    two counters hold. *)
Definition queued_msg (w : World) (p : option Z * option Z) (m : Msg) : Msg :=
  stamped nanoid w (set_send_seq_field (bump step p).1.1 m).
Definition final_msg (w : World) (p q : option Z * option Z) (m : Msg) : Msg :=
  set_seq_field (bump step q).1.1 (queued_msg w p m).

(** What a gateway writes for a message to [u]. *)
Definition frames_for (u : string) (m : Msg) (g : Gateway) : list (nat * bytes) :=
  ((λ c, (cl_sender c, enc m)) <$> clients_of (gw_hub g) u) ++ self_frames (gw_hub g) m (enc m).

Lemma send_single_frames u m g :
  send_single_msg encode u m g = upd_frames (λ l, l ++ frames_for u m g) g.
Proof. apply single_msg_recipients, Henc. Qed.

(** Before the message: the stores are in order, nothing waits anywhere, and
    the message is one to be numbered and stored. *)
Record relay_ready (a : string) (m : Msg) (mt : MsgType) (g : Gateway) (s : System) (ms : list Msg)
    (p q : option Z * option Z) : Prop := {
  rr_ready : @ready deployed msg_box_laws (sy_world s);
  rr_type : msg_type_try_from (msg_type m) = Some mt;
  rr_class : classify_msg_type mt = (Single, true, true);
  rr_stored : get_send_to_db_flag mt = true;
  rr_gateway : sy_gateways s !! a = Some g;
  rr_idle : gw_queue g = [] ∧ sy_taken s = length (w_kafka (sy_world s))
            ∧ sy_served s = length (w_pushed (sy_world s));
  rr_listed : w_ws_list (sy_world s) ≠ [] ∧ NoDup (w_ws_list (sy_world s));
  rr_send : pseq (w_redis (sy_world s)) (send_seq_key (sender_id m)) = Some p
            ∧ in_i64 (default 0 p.1 + 1)%Z = true;
  rr_receive : pseq (w_redis (sy_world s)) (seq_key (receiver_id m)) = Some q
            ∧ in_i64 (default 0 q.1 + 1)%Z = true;
  rr_room : has_room deployed (receiver_id m) (sy_world s);
  rr_box : mailbox (sy_world s) ms;
  rr_json : from_json (to_json (queued_msg (sy_world s) p m)) = Some (queued_msg (sy_world s) p m)
}.

(** After the manager's round: the message is queued, and the stores are as
    ready as before. *)
Lemma queued_ready m w p r' (n : nat → nat) payload :
  @ready deployed msg_box_laws w → pseq (w_redis w) (send_seq_key (sender_id m)) = Some p →
  pseq r' (send_seq_key (sender_id m)) = Some (pair_of (bump step p)) →
  only_key (send_seq_key (sender_id m)) (w_redis w) r' →
  @ready deployed msg_box_laws (upd_kafka (λ l, l ++ [payload]) (upd_ids n (upd_redis (λ _, r') w))).
Proof.
  intros [Hnet Hstep Hsame Hseq Hinv] Hp Hp' Ho. split; [exact Hnet|exact Hstep|exact Hsame| |exact Hinv].
  apply (rseq_inv_only_key step (send_seq_key (sender_id m)) _ r' Ho); [|exact Hseq]. left.
  rewrite Hp'. apply bump_ok; [done|]. rewrite <- Hp. apply Hseq, is_seq_key_send.
Qed.

(** The consumer's round on a queued message: the box gains the numbered
    message and the pusher hands it to every listed gateway. *)
Lemma consumed_run payload m mt w ms q :
  @ready deployed msg_box_laws w → from_json payload = Some m →
  msg_type_try_from (msg_type m) = Some mt → classify_msg_type mt = (Single, true, true) →
  get_send_to_db_flag mt = true →
  pseq (w_redis w) (seq_key (receiver_id m)) = Some q → in_i64 (default 0 q.1 + 1)%Z = true →
  has_room deployed (receiver_id m) w → mailbox w ms → w_ws_list w ≠ [] →
  let b := bump step q in
  let m' := set_seq_field b.1.1 m in
  ∃ w', handle_msg from_json decode_read decode_strings deployed payload w = (Ok tt, w')
    ∧ @ready deployed msg_box_laws w' ∧ mailbox w' (ms ++ [m']) ∧ w_kafka w' = w_kafka w
    ∧ w_pushed w' = w_pushed w ++ ((λ a, PushSingle a m') <$> w_ws_list w)
    ∧ w_ws_list w' = w_ws_list w
    ∧ pseq (w_redis w') (seq_key (receiver_id m)) = Some (pair_of b)
    ∧ w_pg w' = (if b.2 then grow_row deployed (receiver_id m) else id) (w_pg w).
Proof.
  intros Hready Hj Hmt Hc Hdb Hq Hi Hroom Hbox Hws b m'.
  destruct (@single_numbered_run from_json decode_read decode_strings deployed msg_box_laws
    payload m mt w q) as (r' & Hp' & Ho & Hrun); try done.
  change (cs_seq_step deployed) with step in Hp', Hrun. fold b in Hp', Hrun. fold m' in Hrun.
  set (w0 := numbered_world deployed m r' b.2 w) in *.
  destruct (run_cmd_refines (CSave m') w0 ms (rd_net _ _ Hready) Hbox) as (w1 & Hs & Hn1 & Hm1).
  change (run_cmd msg_box (CSave m') w0) with (save_message (cs_box deployed) m' w0) in Hs.
  specialize (Hrun w1 Hs).
  pose proof (@box_frame_save _ msg_box_laws m' w0) as Hf. unfold same, outside_box in Hf.
  change (save_message msg_box m' w0) with (save_message (cs_box deployed) m' w0) in Hf.
  rewrite Hs in Hf. injection Hf as Hr Hpg Hk Hpu Hw _ _ _.
  change (cs_pusher deployed) with (push_service parse_socket endpoint_ok arrival) in Hrun.
  rewrite push_single_healthy in Hrun by (done || by rewrite Hw).
  eexists. split; [exact Hrun|]. simpl.
  split_and!; [|exact Hm1|exact Hk|by f_equal; [exact Hpu|rewrite Hw]|exact Hw|by rewrite <- Hp', <- Hr|exact Hpg].
  destruct Hready as [_ Hstep Hsame Hseq _]. split; [exact Hn1|exact Hstep|exact Hsame| |].
  - assert (Hrw : w_redis w1 = r') by exact Hr. unfold seq_inv. simpl. rewrite Hrw.
    apply (rseq_inv_only_key step (seq_key (receiver_id m)) _ r' Ho); [|exact Hseq]. left.
    rewrite Hp'. apply bump_ok; [done|]. rewrite <- Hq. apply Hseq, is_seq_key_seq.
  - change (c_unique (coll_of (w_mongo w1) COLL_SINGLE_BOX) = false). unfold mailbox in Hm1. by rewrite Hm1.
Qed.

Lemma insert_alter_same {A} (f : A → A) k x (m : gmap string A) : <[k := x]> (alter f k m) = <[k := x]> m.
Proof.
  apply map_eq. intros i. destruct (decide (i = k)) as [->|].
  - by rewrite !lookup_insert_eq.
  - by rewrite !lookup_insert_ne, lookup_alter_ne by done.
Qed.

(** The manager's round on the sender's gateway. *)
Lemma gateway_round_run a m g s reply w1 :
  sy_gateways s !! a = Some g → gw_queue g = [] → sender_id reply = sender_id m →
  process_message to_json nanoid (redis_cache_from_config step) m (sy_world s) = (Ok reply, w1) →
  gateway_round encode to_json nanoid (redis_cache_from_config step) a (client_sends a m s)
  = mkSystem w1 (<[a := upd_frames (λ l, l ++ frames_for (sender_id m) reply g) g]> (sy_gateways s))
      (sy_taken s) (sy_served s).
Proof.
  intros Hg Hq Hsender Hrun. unfold gateway_round, client_sends. simpl.
  rewrite lookup_alter_eq, Hg. simpl. unfold run_once, broadcast. simpl. rewrite Hq. simpl.
  unfold mbind, M_bind. rewrite Hrun. unfold mret, M_ret. rewrite send_single_frames, Hsender.
  rewrite insert_alter_same. do 3 f_equal. destruct g. simpl in *. by subst.
Qed.

(** The consumer's round on the one record that waits, and the service of the
    pushes that follow. *)
Lemma consumer_round_run gs payload w1 w2 ks l ws (push : string → Push) (frames : Gateway → list (nat * bytes)) :
  w_kafka w1 = ks ++ [payload] → NoDup ws →
  (∀ a gs, serve encode (push a) gs = alter (λ g, upd_frames (λ l, l ++ frames g) g) a gs) →
  handle_msg from_json decode_read decode_strings deployed payload w1 = (Ok tt, w2) →
  w_pushed w2 = l ++ (push <$> ws) →
  serve_pushes encode (consumer_round from_json decode_read decode_strings deployed
    (mkSystem w1 gs (length ks) (length l)))
  = mkSystem w2 (map_imap (λ b gb, Some (if bool_decide (b ∈ ws)
      then upd_frames (λ l, l ++ frames gb) gb else gb)) gs)
      (S (length ks)) (length (w_pushed w2)).
Proof.
  intros Hk Hnd Hact Hrun Hpu. unfold consumer_round. simpl. rewrite Hk, lookup_app_r, Nat.sub_diag by done.
  simpl. rewrite Hrun. unfold serve_pushes. simpl. rewrite Hpu, drop_app_length. f_equal.
  by eapply serve_all.
Qed.

(** What a gateway has written in the end: the answer to the sender, if it is
    the sender's, and the push, if it is listed. *)
Lemma relayed_frames (a : string) (g : Gateway) (gs : gmap string Gateway) (ws : list string) (answer push : Gateway → list (nat * bytes)) :
  gs !! a = Some g → (∀ g, push (upd_frames (λ l, l ++ answer g) g) = push g) →
  ∀ b gb, gs !! b = Some gb → ∃ gb',
    map_imap (λ b gb, Some (if bool_decide (b ∈ ws) then upd_frames (λ l, l ++ push gb) gb else gb))
      (<[a := upd_frames (λ l, l ++ answer g) g]> gs) !! b = Some gb'
    ∧ gw_hub gb' = gw_hub gb
    ∧ gw_frames gb' = gw_frames gb ++ (if bool_decide (b = a) then answer gb else [])
                        ++ (if bool_decide (b ∈ ws) then push gb else []).
Proof.
  intros Hg Hpush b gb Hb. rewrite map_lookup_imap. destruct (decide (b = a)) as [->|Hne].
  - rewrite lookup_insert_eq. rewrite Hb in Hg. injection Hg as ->. eexists. split; [reflexivity|].
    rewrite (bool_decide_eq_true_2 (a = a)) by done. specialize (Hpush g).
    case_bool_decide; (split; [done|]); simpl; rewrite ?Hpush; by rewrite ?app_nil_r, ?app_assoc.
  - rewrite lookup_insert_ne, Hb by done. eexists. split; [reflexivity|].
    rewrite (bool_decide_eq_false_2 (b = a)) by done.
    case_bool_decide; (split; [done|]); simpl; by rewrite ?app_nil_r.
Qed.

Lemma queued_fields w p m :
  msg_type (queued_msg w p m) = msg_type m ∧ receiver_id (queued_msg w p m) = receiver_id m
  ∧ sender_id (queued_msg w p m) = sender_id m ∧ content (queued_msg w p m) = content m.
Proof. unfold queued_msg, stamped. by destruct (keeps_server_id _). Qed.

(** A push of a single message, at any gateway. *)
Lemma serve_single m a gs :
  serve encode (PushSingle a m) gs = alter (λ g, upd_frames (λ l, l ++ frames_for (receiver_id m) m g) g) a gs.
Proof. apply alter_ext. intros g _. simpl. by rewrite send_single_frames. Qed.

(** What is in the box is found by a pull of a range that holds its number. *)
Lemma pulled w ms m lo hi :
  healthy w → mailbox w ms → m ∈ ms → (lo < seq m ≤ hi)%Z → capacity_ok (0 - 0 + (hi - lo)) →
  ∃ out, pull_offline_messages msg_box (mkGetDbMessages (receiver_id m) lo hi 0 0) w = (Ok out, w)
    ∧ MsgBox.blank_own (receiver_id m) (stored_part m) ∈ out.
Proof.
  intros Hn Hbox Hin Hlo Hcap.
  destruct (pull_offline_run (mkGetDbMessages (receiver_id m) lo hi 0 0) w ms Hn Hbox Hcap)
    as (out & Hout & Hperm & _).
  exists out. split; [exact Hout|]. rewrite Hperm. simpl. apply (list_elem_of_fmap_2' _ _ m); [|done].
  apply list_elem_of_In, filter_In. split; [by apply list_elem_of_In|].
  unfold synced. rewrite bool_decide_eq_true_2 by done.
  unfold in_half_open. simpl. rewrite (proj2 (Z.ltb_lt _ _)), (proj2 (Z.leb_le _ _)) by lia. done.
Qed.

(** C9. A message reaches its receiver. From a state in which the stores are in
    order and nothing waits, a single message that a client hands to any
    gateway, followed through the manager, the chat service, the consumer, the
    pusher and the gateways, ends up once in the receive box, with its content
    and the next numbers of its sender and its receiver; the sender's gateway
    answers the receipt, and every listed gateway writes the numbered message
    to each of the receiver's connections (and the sender's other device) and
    changes nothing else; and the receiver finds it when it pulls a range that
    holds its number. *)
Theorem message_reaches_receiver (a : string) (m : Msg) (mt : MsgType) (g : Gateway) (s : System)
    (ms : list Msg) (p q : option Z * option Z)
    (Hr : relay_ready a m mt g s ms p q) :
  let queued := queued_msg (sy_world s) p m in
  let final := final_msg (sy_world s) p q m in
  let reply := receipt (w_clock (sy_world s)) queued (set_send_seq_field (bump step p).1.1 m) in
  let s' := relay_msg a m s in
  mailbox (sy_world s') (ms ++ [final]) ∧ content final = content m
  ∧ (∀ b gb, sy_gateways s !! b = Some gb → ∃ gb', sy_gateways s' !! b = Some gb'
       ∧ gw_hub gb' = gw_hub gb
       ∧ gw_frames gb' = gw_frames gb
           ++ (if bool_decide (b = a) then frames_for (sender_id m) reply gb else [])
           ++ (if bool_decide (b ∈ w_ws_list (sy_world s)) then frames_for (receiver_id m) final gb else []))
  ∧ (∀ lo hi, (lo < seq final ≤ hi)%Z → capacity_ok (0 - 0 + (hi - lo)) →
       ∃ out, pull_offline_messages msg_box (mkGetDbMessages (receiver_id m) lo hi 0 0) (sy_world s')
                = (Ok out, sy_world s')
         ∧ MsgBox.blank_own (receiver_id m) (stored_part final) ∈ out).
Proof.
  intros queued final reply s'. pose proof Hr as [Hready Hmt Hc Hdb Hg (Hidle & Htaken & Hserved) [Hws Hnd] [Hp Hpi] [Hq Hqi] Hroom Hbox Hjson].
  set (w := sy_world s) in *.
  destruct (process_message_run to_json nanoid (redis_cache_from_config step) m w p)
    as (r' & Hrun & Hp' & Ho); [apply Hready|done|done|].
  rewrite (rd_same _ _ Hready : rc_seq_step (redis_cache_from_config step) = step) in Hrun, Hp'.
  pose proof (queued_ready m w p r' (λ n, if keeps_server_id (msg_type m) then n else S n) (to_json queued)
    Hready Hp Hp' Ho) as Hready1.
  change (stamped nanoid w _) with queued in Hrun. fold reply in Hrun.
  match type of Hrun with _ = (_, ?x) => set (w1 := x) in * end.
  destruct (queued_fields w p m) as (Hty & Hrc & _ & Hct). fold queued in Hty, Hrc, Hct.
  assert (Hq1 : pseq (w_redis w1) (seq_key (receiver_id m)) = Some q) by (simpl; by erewrite pseq_other).
  destruct (consumed_run (to_json queued) queued mt w1 ms q) as (w2 & Hrun2 & [Hn2 _ _ _ _] & Hbox2 & Hk2 & Hpu2 & _);
    rewrite ?Hty, ?Hrc; try done.
  change (set_seq_field (bump step q).1.1 queued) with final in *.
  pose proof (gateway_round_run a m g s reply w1 Hg Hidle eq_refl Hrun) as Hgr.
  pose proof (consumer_round_run (<[a := upd_frames (λ l, l ++ frames_for (sender_id m) reply g) g]> (sy_gateways s))
    (to_json queued) w1 w2 (w_kafka w) (w_pushed w) (w_ws_list w) _ _ eq_refl Hnd (serve_single final) Hrun2 Hpu2) as Hcr.
  assert (Hrf : receiver_id final = receiver_id m) by exact Hrc. rewrite Hrf in Hcr.
  unfold s', relay_msg, relay. rewrite Hgr, Htaken, Hserved, Hcr. clear Hgr Hcr.
  simpl. split_and!; [exact Hbox2|exact Hct|by apply (relayed_frames a g)|].
  intros lo hi Hlo Hcap. destruct (pulled w2 (ms ++ [final]) final lo hi Hn2 Hbox2) as (out & H1 & H2);
    [set_solver|done|done|]. rewrite Hrf in H1, H2. by exists out.
Qed.

(** ** A message to a group, followed *)

(** Before the message: as for a single one, and the members are known, each
    with a counter and a reservation that have room. *)
Record group_relay_ready (a : string) (m : Msg) (mt : MsgType) (h : bool) (g : Gateway) (s : System)
    (ms : list Msg) (p : option Z * option Z) (members : gset string) : Prop := {
  gr_ready : @ready deployed msg_box_laws (sy_world s);
  gr_type : msg_type_try_from (msg_type m) = Some mt;
  gr_class : classify_msg_type mt = (Group, false, h);
  gr_keep : changes_members mt = false;
  gr_gateway : sy_gateways s !! a = Some g;
  gr_idle : gw_queue g = [] ∧ sy_taken s = length (w_kafka (sy_world s))
            ∧ sy_served s = length (w_pushed (sy_world s));
  gr_listed : w_ws_list (sy_world s) ≠ [] ∧ NoDup (w_ws_list (sy_world s));
  gr_send : pseq (w_redis (sy_world s)) (send_seq_key (sender_id m)) = Some p
            ∧ in_i64 (default 0 p.1 + 1)%Z = true;
  gr_members : rset (w_clock (sy_world s)) (w_redis (sy_world s)) (members_key (receiver_id m)) = Some members;
  gr_receive : Forall (can_bump (w_redis (sy_world s))) (addressees m (sy_world s));
  gr_room : batch_room deployed (grown (numbered deployed m (sy_world s))) (sy_world s);
  gr_box : mailbox (sy_world s) ms;
  gr_json : from_json (to_json (queued_msg (sy_world s) p m)) = Some (queued_msg (sy_world s) p m);
  gr_fresh : fresh_id (server_id (queued_msg (sy_world s) p m)) (sy_world s)
}.

(** Queuing a message changes a send counter only: who is addressed, and under
    which numbers, stays. *)
Lemma addressees_queued m m' w w' u :
  receiver_id m' = receiver_id m → sender_id m' = sender_id m →
  w_clock w' = w_clock w → w_pg w' = w_pg w → only_key (send_seq_key u) (w_redis w) (w_redis w') →
  addressees m' w' = addressees m w ∧ numbered deployed m' w' = numbered deployed m w.
Proof.
  intros Hr Hs Hc Hp Ho.
  assert (Ha : addressees m' w' = addressees m w).
  { unfold addressees, group_members. rewrite Hr, Hs, Hc, Hp.
    by rewrite (rset_only_key _ _ _ _ _ Ho) by apply members_not_send. }
  split; [exact Ha|]. unfold numbered. rewrite Ha. apply list_fmap_ext. intros _ x _.
  apply member_seq_other. apply (pseq_other _ _ _ _ Ho), seq_send_key_ne.
Qed.

(** The consumer's round on a queued group message. *)
Lemma consumed_group_run payload m mt h w ms members :
  @ready deployed msg_box_laws w → from_json payload = Some m →
  msg_type_try_from (msg_type m) = Some mt → classify_msg_type mt = (Group, false, h) →
  changes_members mt = false →
  rset (w_clock w) (w_redis w) (members_key (receiver_id m)) = Some members →
  Forall (can_bump (w_redis w)) (addressees m w) → batch_room deployed (grown (numbered deployed m w)) w →
  mailbox w ms → fresh_id (server_id m) w → w_ws_list w ≠ [] →
  let gs := numbered deployed m w in
  ∃ w', handle_msg from_json decode_read decode_strings deployed payload w = (Ok tt, w')
    ∧ healthy w' ∧ mailbox w' (ms ++ m :: (member_copy m <$> gs)) ∧ w_kafka w' = w_kafka w
    ∧ w_pushed w' = w_pushed w ++ ((λ a, PushGroup a m gs) <$> w_ws_list w).
Proof.
  intros Hready Hj Hmt Hc Hk Hset Hall Hroom Hbox Hfresh Hws gs.
  destruct (@handle_group_run from_json decode_read decode_strings deployed msg_box_laws
    payload m mt h w members) as (r' & w1 & Hs & Hrun & _ & _); try done. fold gs in Hs, Hrun.
  set (w0 := numbered_group_world deployed m r' gs w) in *.
  destruct (run_cmd_refines (CSaveGroup m gs) w0 ms (rd_net _ _ Hready) Hbox) as (w1' & Hs' & Hn1 & Hm1).
  change (run_cmd msg_box (CSaveGroup m gs) w0) with (save_group_msg (cs_box deployed) m gs w0) in Hs'.
  rewrite Hs in Hs'. injection Hs' as <-.
  pose proof (@box_frame_group _ msg_box_laws m gs w0) as Hf. unfold same, outside_box in Hf.
  change (save_group_msg msg_box m gs w0) with (save_group_msg (cs_box deployed) m gs w0) in Hf.
  rewrite Hs in Hf. injection Hf as _ _ Hkf Hpu Hw _ _ _.
  change (cs_pusher deployed) with (push_service parse_socket endpoint_ok arrival) in Hrun.
  rewrite push_group_healthy in Hrun by (done || by rewrite Hw).
  eexists. split_and!; [exact Hrun|exact Hn1|exact Hm1|exact Hkf|].
  simpl. by rewrite Hpu, Hw.
Qed.

(** What a gateway writes for a message to a group. *)
Definition group_frames_for (m : Msg) (gs : list GroupMemSeq) (g : Gateway) : list (nat * bytes) :=
  self_frames (gw_hub g) m (enc m) ++ (gs ≫= member_frames (gw_hub g) enc m).

Lemma serve_group m gs a gws :
  serve encode (PushGroup a m gs) gws = alter (λ g, upd_frames (λ l, l ++ group_frames_for m gs g) g) a gws.
Proof.
  apply alter_ext. intros g _. simpl. unfold group_frames_for.
  by rewrite (send_group_run _ _ _ enc _ Henc).
Qed.

(** C10. A message to a group reaches its members. From a state in which the
    stores are in order and nothing waits, a message of a kind that leaves the
    membership alone, handed to any gateway and followed through the manager,
    the chat service, the consumer, the pusher and the gateways, is numbered
    once for every member but its sender; the box gains the sender's copy and
    one copy per member under the member's number; the sender's gateway answers
    the receipt and every listed gateway writes to each connection of each
    member the message with that member's number; and every member finds its
    copy when it pulls a range that holds its number. *)
Theorem group_message_reaches_members (a : string) (m : Msg) (mt : MsgType) (h : bool) (g : Gateway)
    (s : System) (ms : list Msg) (p : option Z * option Z) (members : gset string)
    (Hr : group_relay_ready a m mt h g s ms p members) :
  let queued := queued_msg (sy_world s) p m in
  let gs := numbered deployed m (sy_world s) in
  let reply := receipt (w_clock (sy_world s)) queued (set_send_seq_field (bump step p).1.1 m) in
  let s' := relay_msg a m s in
  mem_id <$> gs = filter (.≠ sender_id m) (group_members (sy_world s) (receiver_id m))
  ∧ mailbox (sy_world s') (ms ++ queued :: (member_copy queued <$> gs)) ∧ content queued = content m
  ∧ (∀ b gb, sy_gateways s !! b = Some gb → ∃ gb', sy_gateways s' !! b = Some gb'
       ∧ gw_hub gb' = gw_hub gb
       ∧ gw_frames gb' = gw_frames gb
           ++ (if bool_decide (b = a) then frames_for (sender_id m) reply gb else [])
           ++ (if bool_decide (b ∈ w_ws_list (sy_world s)) then group_frames_for queued gs gb else []))
  ∧ (∀ x, x ∈ gs → ∀ lo hi, (lo < cur_seq x ≤ hi)%Z → capacity_ok (0 - 0 + (hi - lo)) →
       ∃ out, pull_offline_messages msg_box (mkGetDbMessages (mem_id x) lo hi 0 0) (sy_world s')
                = (Ok out, sy_world s')
         ∧ MsgBox.blank_own (mem_id x) (stored_part (member_copy queued x)) ∈ out).
Proof.
  intros queued gs reply s'. pose proof Hr as [Hready Hmt Hc Hkeep Hg (Hidle & Htaken & Hserved) [Hws Hnd] [Hp Hpi] Hset Hall Hroom Hbox Hjson Hfresh].
  set (w := sy_world s) in *.
  destruct (process_message_run to_json nanoid (redis_cache_from_config step) m w p)
    as (r' & Hrun & Hp' & Ho); [apply Hready|done|done|].
  rewrite (rd_same _ _ Hready : rc_seq_step (redis_cache_from_config step) = step) in Hrun, Hp'.
  pose proof (queued_ready m w p r' (λ n, if keeps_server_id (msg_type m) then n else S n) (to_json queued)
    Hready Hp Hp' Ho) as Hready1.
  change (stamped nanoid w _) with queued in Hrun. fold reply in Hrun.
  match type of Hrun with _ = (_, ?x) => set (w1 := x) in * end.
  destruct (queued_fields w p m) as (Hty & Hrc & Hsd & Hct). fold queued in Hty, Hrc, Hsd, Hct.
  destruct (addressees_queued m queued w w1 (sender_id m) Hrc Hsd eq_refl eq_refl Ho) as [Ha1 Hn1].
  destruct (consumed_group_run (to_json queued) queued mt h w1 ms members)
    as (w2 & Hrun2 & Hnet2 & Hbox2 & Hk2 & Hpu2); rewrite ?Hty, ?Hrc, ?Ha1, ?Hn1; try done.
  { simpl. by rewrite (rset_only_key _ _ _ _ _ Ho) by apply members_not_send. }
  { eapply Forall_impl; [exact Hall|]. intros u. by apply can_bump_other with (send_seq_key (sender_id m)). }
  rewrite Hn1 in Hbox2, Hpu2. fold gs in Hbox2, Hpu2.
  pose proof (gateway_round_run a m g s reply w1 Hg Hidle eq_refl Hrun) as Hgr.
  pose proof (consumer_round_run (<[a := upd_frames (λ l, l ++ frames_for (sender_id m) reply g) g]> (sy_gateways s))
    (to_json queued) w1 w2 (w_kafka w) (w_pushed w) (w_ws_list w) _ _ eq_refl Hnd (serve_group queued gs) Hrun2 Hpu2) as Hcr.
  unfold s', relay_msg, relay. rewrite Hgr, Htaken, Hserved, Hcr. clear Hgr Hcr.
  simpl. split_and!; [apply mem_id_numbered|exact Hbox2|exact Hct|by apply (relayed_frames a g)|].
  intros x Hx lo hi Hlo Hcap.
  apply (pulled w2 (ms ++ queued :: (member_copy queued <$> gs)) (member_copy queued x)); [done|done| |done|done].
  apply elem_of_app. right. apply list_elem_of_further. by apply (list_elem_of_fmap_2' _ _ x).
Qed.
End relay.

(** Alice on one gateway writes to Bob on another. *)
Definition alice_gateway : Gateway := mkGateway {["alice"%string := {[Desktop := mkClient 0 "alice" "laptop" Desktop]}]} [] [].
Definition bob_gateway : Gateway := mkGateway {["bob"%string := {[Mobile := mkClient 1 "bob" "phone" Mobile]}]} [] [].
Definition two_users : System :=
  mkSystem (upd_ws_list (λ _, ["gw1"; "gw2"]%string) demo_world)
    {["gw1"%string := alice_gateway; "gw2"%string := bob_gateway]} 0 0.
Definition hi_bob : Msg := mkMsg "c1" "" 0 0 "alice" "bob" 0 "" [Byte.x68; Byte.x69] 0 0 false 0 "" "" None 0.
Definition hi_queued : Msg := queued_msg (λ _, "s1"%string) 5 (sy_world two_users) (None, None) hi_bob.
Definition relay_two : System :=
  relay_msg (λ _, Some []) (λ _, "json"%string) (λ _, "s1"%string) (λ _, Some hi_queued) (λ _, None) (λ _, None)
    Some (λ _, true) id_arrival 5 "gw1" hi_bob two_users.

Lemma message_reaches_receiver_witness :
  (∃ ms, mailbox (sy_world relay_two) ms ∧ length ms = 1)
  ∧ ∃ out, pull_offline_messages msg_box (mkGetDbMessages "bob" 0 1 0 0) (sy_world relay_two)
             = (Ok out, sy_world relay_two) ∧ out ≠ [].
Proof.
  destruct (message_reaches_receiver (λ _, Some []) (λ _, []) (λ _, "json"%string) (λ _, "s1"%string)
    (λ _, Some hi_queued) (λ _, None) (λ _, None) Some (λ _, true) id_arrival 5 (λ _, eq_refl) (λ _, Permutation_refl _)
    "gw1" hi_bob SingleMsg alice_gateway two_users [] (None, None) (None, None)) as (H1 & _ & _ & H2).
  - split; try reflexivity.
    + split; [reflexivity|reflexivity|reflexivity|intros k _; exact I|reflexivity].
    + split_and!; reflexivity.
    + split; [discriminate|]. apply (bool_decide_unpack _); vm_compute; exact I.
    + split; reflexivity.
    + split; reflexivity.
    + exists (mkSeqRow 5 5). split; reflexivity.
  - split; [eexists; split; [exact H1|reflexivity]|].
    destruct (H2 0 1)%Z as (out & Ho & Hin); [vm_compute; split; [reflexivity|discriminate]|vm_compute; discriminate|].
    exists out. split; [exact Ho|]. intros ->. inversion Hin.
Defined.

(** Alice writes to the group she shares with Bob and Carol. *)
Definition hi_all : Msg := set_msg_type 1 (set_receiver "g" hi_bob).
Definition all_queued : Msg := queued_msg (λ _, "s1"%string) 5 (sy_world two_users) (None, None) hi_all.
Definition relay_group : System :=
  relay_msg (λ _, Some []) (λ _, "json"%string) (λ _, "s1"%string) (λ _, Some all_queued) (λ _, None) (λ _, None)
    Some (λ _, true) id_arrival 5 "gw1" hi_all two_users.

Lemma group_message_reaches_members_witness :
  (∃ ms, mailbox (sy_world relay_group) ms ∧ length ms = 3)
  ∧ ∃ gb', sy_gateways relay_group !! "gw2"%string = Some gb' ∧ length (gw_frames gb') = 1.
Proof.
  destruct (group_message_reaches_members (λ _, Some []) (λ _, []) (λ _, "json"%string) (λ _, "s1"%string)
    (λ _, Some all_queued) (λ _, None) (λ _, None) Some (λ _, true) id_arrival 5 (λ _, eq_refl)
    (λ _, Permutation_refl _) "gw1" hi_all GroupMsg true alice_gateway two_users [] (None, None) ∅)
    as (_ & H1 & _ & H2 & _).
  - split; try reflexivity.
    + split; [reflexivity|reflexivity|reflexivity|intros k _; exact I|reflexivity].
    + split_and!; reflexivity.
    + split; [discriminate|]. apply (bool_decide_unpack _); vm_compute; exact I.
    + split; reflexivity.
    + apply Forall_forall. intros u _. exists (None, None). split; reflexivity.
    + intros u row _ Hu. exfalso. vm_compute in Hu. inversion Hu.
    + intros d Hd. vm_compute in Hd. inversion Hd.
  - split; [eexists; split; [exact H1|reflexivity]|].
    destruct (H2 "gw2"%string bob_gateway eq_refl) as (gb' & Hb & _ & Hf).
    exists gb'. split; [exact Hb|]. rewrite Hf. reflexivity.
Defined.
