(* ===== verification/Rpc.v ===== *)
(** * The generated gRPC stubs ([abi/src/pb/message.rs])

    The clients and servers of [ChatService] and [MsgService]: which path a
    client's method asks for, which method of the service a server runs for a
    path, what it answers to any other, and the settings both are built with.
    Tonic, the library below them, is a parameter with its laws. *)

From S2P Require Import Prelude Errors Types Tables World Producer Gateway.

(** ** Tonic *)

(** [prost::Message], derived for every message. *)
Class Prost (A : Type) := { prost_encode : A → bytes; prost_decode : bytes → option A }.

Record HttpRequest : Type := mkHttpRequest { uri_path : string; req_body : bytes }.

(** The compression encodings by their names and the limits on the size of a
    message, of a client or a server; no limit set means the default. *)
Record Settings : Type := mkSettings {
  accept_encodings : list string; send_encodings : list string;
  max_decoding : option Z; max_encoding : option Z
}.
Definition settings_default : Settings := mkSettings [] [] None None.

(** "Default: 4MB" for decoding, none ([usize::MAX]) for encoding *)
Definition decoding_limit (s : Settings) : Z := default (4 * 1024 * 1024)%Z (max_decoding s).
Definition may_decode (s : Settings) (b : bytes) : Prop := (Z.of_nat (length b) ≤ decoding_limit s)%Z.
Definition may_encode (s : Settings) (b : bytes) : Prop :=
  match max_encoding s with Some n => (Z.of_nat (length b) ≤ n)%Z | None => True end.

(** A server answers every request; its own error type is uninhabited. *)
Abbreviation Answer S R := (M S Empty_set R).

Record Tonic : Type := mkTonic {
  tn_response : Type;
  (* [Response::builder().status(n).header(..).body(empty_body())] *)
  tn_builder : Z → list (string * string) → tn_response;
  (* [tonic::server::Grpc::unary], [tonic::client::Grpc::unary] *)
  tn_server_unary {S Q R : Type} {pq : Prost Q} {pr : Prost R} :
    Settings → (Q → M S Status R) → HttpRequest → Answer S tn_response;
  tn_client_unary {S Q R : Type} {pq : Prost Q} {pr : Prost R} :
    Settings → (HttpRequest → Answer S tn_response) → string → Q → M S Status R
}.

Definition unimplemented : Status := mkStatus Code_Unimplemented "" "".
Definition unimplemented_headers : list (string * string) :=
  [("grpc-status", "12"); ("content-type", "application/grpc")]%string.

(** A unary call between a client and a server that can encode and decode the
    messages returns what the method returns, value or status, and an empty
    answer with status 12 is [Unimplemented]. *)
Class TonicLaws (t : Tonic) : Prop := {
  unary_delivers {S Q R} {pq : Prost Q} {pr : Prost R} cl sv transport (method : Q → M S Status R) path (q : Q) s r s' :
    prost_decode (prost_encode q) = Some q → may_encode cl (prost_encode q) → may_decode sv (prost_encode q) →
    prost_decode (prost_encode r) = Some r → may_encode sv (prost_encode r) → may_decode cl (prost_encode r) →
    transport (mkHttpRequest path (prost_encode q)) s
      = tn_server_unary t sv method (mkHttpRequest path (prost_encode q)) s →
    method q s = (Ok r, s') →
    tn_client_unary t cl transport path q s = (Ok r, s');
  unary_refuses {S Q R} {pq : Prost Q} {pr : Prost R} cl sv transport (method : Q → M S Status R) path (q : Q) s st s' :
    prost_decode (prost_encode q) = Some q → may_encode cl (prost_encode q) → may_decode sv (prost_encode q) →
    transport (mkHttpRequest path (prost_encode q)) s
      = tn_server_unary t sv method (mkHttpRequest path (prost_encode q)) s →
    method q s = (Err st, s') →
    tn_client_unary t cl transport path q s = (Err st, s');
  unary_unimplemented {S Q R} {pq : Prost Q} {pr : Prost R} cl transport path (q : Q) (s s' : S) :
    may_encode cl (prost_encode q) →
    transport (mkHttpRequest path (prost_encode q)) s = (Ok (tn_builder t 200 unimplemented_headers), s') →
    tn_client_unary (S := S) (R := R) t cl transport path q s = (Err unimplemented, s')
}.

(** ** The services *)

Record SendGroupMsgRequest : Type := mkSendGroupMsg { sg_message : option Msg; sg_members : list GroupMemSeq }.

Record MsgService (S : Type) : Type := mkMsgService {
  send_message : SendMsgRequest → M S Status unit;
  send_msg_to_user : SendMsgRequest → M S Status unit;
  send_group_msg_to_user : SendGroupMsgRequest → M S Status unit
}.
Arguments send_message {S}.
Arguments send_msg_to_user {S}.
Arguments send_group_msg_to_user {S}.

Record ChatService (S : Type) : Type := mkChatService { chat_send_msg : SendMsgRequest → M S Status MsgResponse }.
Arguments chat_send_msg {S}.

(** A server or a client around what it serves or sends through. *)
Record Configured (T : Type) : Type := mkConfigured { inner : T; settings : Settings }.
Arguments inner {T}.
Arguments settings {T}.
Arguments mkConfigured {T}.

Section builders.
Context {T : Type}.

Definition from_arc (x : T) : Configured T := mkConfigured x settings_default.
Definition new (x : T) : Configured T := from_arc x.

Definition upd_settings (f : Settings → Settings) (c : Configured T) : Configured T :=
  mkConfigured (inner c) (f (settings c)).
Definition enable (e : string) (l : list string) : list string := if bool_decide (e ∈ l) then l else l ++ [e].

Definition accept_compressed (e : string) : Configured T → Configured T := upd_settings (λ s,
  mkSettings (enable e (accept_encodings s)) (send_encodings s) (max_decoding s) (max_encoding s)).
Definition send_compressed (e : string) : Configured T → Configured T := upd_settings (λ s,
  mkSettings (accept_encodings s) (enable e (send_encodings s)) (max_decoding s) (max_encoding s)).
Definition max_decoding_message_size (limit : Z) : Configured T → Configured T := upd_settings (λ s,
  mkSettings (accept_encodings s) (send_encodings s) (Some limit) (max_encoding s)).
Definition max_encoding_message_size (limit : Z) : Configured T → Configured T := upd_settings (λ s,
  mkSettings (accept_encodings s) (send_encodings s) (max_decoding s) (Some limit)).
End builders.

Abbreviation MsgServiceServer S := (Configured (MsgService S)).
Abbreviation ChatServiceServer S := (Configured (ChatService S)).

Section stubs.
Context (t : Tonic) {S : Type}.
Context `{!Prost SendMsgRequest} `{!Prost SendGroupMsgRequest} `{!Prost MsgResponse} `{!Prost unit}.

(** ** Servers *)

(** The arm of an unknown path. *)
Definition unknown_path : Answer S (tn_response t) := mret (tn_builder t 200 unimplemented_headers).

Definition MSG_NAME : string := "message.MsgService".
Definition CHAT_NAME : string := "message.ChatService".

Definition msg_call (server : MsgServiceServer S) (req : HttpRequest) : Answer S (tn_response t) :=
  if String.eqb (uri_path req) "/message.MsgService/SendMessage"
  then tn_server_unary t (settings server) (send_message (inner server)) req
  else if String.eqb (uri_path req) "/message.MsgService/SendMsgToUser"
  then tn_server_unary t (settings server) (send_msg_to_user (inner server)) req
  else if String.eqb (uri_path req) "/message.MsgService/SendGroupMsgToUser"
  then tn_server_unary t (settings server) (send_group_msg_to_user (inner server)) req
  else unknown_path.

Definition chat_call (server : ChatServiceServer S) (req : HttpRequest) : Answer S (tn_response t) :=
  if String.eqb (uri_path req) "/message.ChatService/SendMsg"
  then tn_server_unary t (settings server) (chat_send_msg (inner server)) req
  else unknown_path.

(** ** Clients *)

(** A channel: whether it becomes ready, and the service at its other end. *)
Record Channel : Type := mkChannel {
  ch_ready : M S string unit; ch_service : HttpRequest → Answer S (tn_response t)
}.

Definition not_ready (e : string) : Status := mkStatus Code_Unknown ("Service was not ready: " +:+ e) "".

(** [self.inner.ready().await.map_err(..)?; self.inner.unary(req, path, codec).await] *)
Definition stub {Q R} `{!Prost Q} `{!Prost R} (path : string) (client : Configured Channel) (q : Q)
    : M S Status R := λ s,
  match ch_ready (inner client) s with
  | (Ok _, s') => tn_client_unary t (settings client) (ch_service (inner client)) path q s'
  | (Err e, s') => (Err (not_ready e), s')
  | (Panic, s') => (Panic, s')
  | (Hang, s') => (Hang, s')
  end.

Definition client_send_message (c : Configured Channel) : SendMsgRequest → M S Status unit :=
  stub "/message.MsgService/SendMessage" c.
Definition client_send_msg_to_user (c : Configured Channel) : SendMsgRequest → M S Status unit :=
  stub "/message.MsgService/SendMsgToUser" c.
Definition client_send_group_msg_to_user (c : Configured Channel) : SendGroupMsgRequest → M S Status unit :=
  stub "/message.MsgService/SendGroupMsgToUser" c.
Definition client_send_msg (c : Configured Channel) : SendMsgRequest → M S Status MsgResponse :=
  stub "/message.ChatService/SendMsg" c.

(** ** Calls that arrive *)

(** The message survives its coding, within both sides' limits. *)
Definition carried {Q} `{!Prost Q} (from to : Settings) (q : Q) : Prop :=
  prost_decode (prost_encode q) = Some q ∧ may_encode from (prost_encode q) ∧ may_decode to (prost_encode q).

(** What the method did is what the caller sees: the same reply or status, from
    the same state, unless the reply cannot be carried back. *)
Definition answers_like {Q R} `{!Prost R} (cl sv : Settings) (method : Q → M S Status R) (call : Q → M S Status R)
    (q : Q) (s : S) : Prop :=
  match method q s with
  | (Ok r, s') => carried sv cl r → call q s = (Ok r, s')
  | (Err st, s') => call q s = (Err st, s')
  | _ => True
  end.

Context `{!TonicLaws t}.

Lemma stub_arrives {Q R} `{!Prost Q} `{!Prost R} path (c : Configured Channel) sv (method : Q → M S Status R) q s :
  ch_ready (inner c) s = (Ok tt, s) →
  ch_service (inner c) (mkHttpRequest path (prost_encode q))
    = tn_server_unary t sv method (mkHttpRequest path (prost_encode q)) →
  carried (settings c) sv q →
  answers_like (settings c) sv method (stub path c) q s.
Proof.
  intros Hr Hs (H1 & H2 & H3). unfold answers_like, stub. rewrite Hr.
  destruct (method q s) as [[r|st| |] s'] eqn:Hm; [|..|done|done].
  - intros (H4 & H5 & H6). by eapply unary_delivers; [..|rewrite Hs|].
  - by eapply unary_refuses; [..|rewrite Hs|].
Qed.

Lemma stub_unknown {Q R} `{!Prost Q} `{!Prost R} path (c : Configured Channel) (q : Q) s :
  ch_ready (inner c) s = (Ok tt, s) →
  ch_service (inner c) (mkHttpRequest path (prost_encode q)) = unknown_path →
  may_encode (settings c) (prost_encode q) →
  stub (R := R) path c q s = (Err unimplemented, s).
Proof.
  intros Hr Hs He. unfold stub. rewrite Hr.
  eapply unary_unimplemented; [done|by rewrite Hs].
Qed.

(** Every method of a client runs the method of its name at the server it is
    connected to, whatever the settings of both, as long as the messages fit
    them: what the method returns, value or status, is what the call returns,
    and the service is left as the method leaves it. A client connected to the
    other service, as a name looked up wrongly would have it, gets
    [Unimplemented] and reaches nothing. *)
Theorem stubs_reach_methods (chat : ChatServiceServer S) (msg : MsgServiceServer S) (c : Configured Channel) (s : S)
    (Hready : ch_ready (inner c) s = (Ok tt, s)) :
  (ch_service (inner c) = chat_call chat →
     (∀ q, carried (settings c) (settings chat) q →
        answers_like (settings c) (settings chat) (chat_send_msg (inner chat)) (client_send_msg c) q s)
     ∧ ∀ q, may_encode (settings c) (prost_encode q) →
        client_send_message c q s = (Err unimplemented, s)
        ∧ client_send_msg_to_user c q s = (Err unimplemented, s))
  ∧ (ch_service (inner c) = msg_call msg →
     (∀ q, carried (settings c) (settings msg) q →
        answers_like (settings c) (settings msg) (send_message (inner msg)) (client_send_message c) q s
        ∧ answers_like (settings c) (settings msg) (send_msg_to_user (inner msg)) (client_send_msg_to_user c) q s)
     ∧ (∀ q, carried (settings c) (settings msg) q →
        answers_like (settings c) (settings msg) (send_group_msg_to_user (inner msg))
          (client_send_group_msg_to_user c) q s)
     ∧ ∀ q, may_encode (settings c) (prost_encode q) → client_send_msg c q s = (Err unimplemented, s)).
Proof.
  split; intros Hs; split_and!; intros q Hq; try (split); try (apply stub_arrives); try (apply stub_unknown);
    first [done | by rewrite Hs].
Qed.

(** A client's path begins with the name its server registers under. *)
Lemma paths_named :
  String.prefix ("/" +:+ CHAT_NAME +:+ "/") "/message.ChatService/SendMsg" = true
  ∧ Forall (λ p, String.prefix ("/" +:+ MSG_NAME +:+ "/") p = true)
      ["/message.MsgService/SendMessage"; "/message.MsgService/SendMsgToUser";
       "/message.MsgService/SendGroupMsgToUser"]%string.
Proof. split; [reflexivity|repeat constructor]. Qed.
End stubs.

(** ** The services of this repository *)

(** [Status::invalid_argument(..)] and the like: the kind as its code, the
    details as the message. *)
Definition as_status {A} (m : IO A) : M World Status A := λ w,
  match m w with
  | (Ok a, w') => (Ok a, w')
  | (Err e, w') => (Err (mkStatus (code_of_kind (kind e)) (default ""%string (details e)) ""), w')
  | (Panic, w') => (Panic, w')
  | (Hang, w') => (Hang, w')
  end.

Definition chat_rpc_service (to_json : Msg → string) (nanoid : nat → string) : ChatService World :=
  mkChatService World (λ request, as_status (send_msg to_json nanoid request)).

Definition replied (f : Gateway → outcome Status Gateway) : M Gateway Status unit := λ g,
  match f g with
  | Ok g' => (Ok tt, g')
  | Err st => (Err st, g)
  | Panic => (Panic, g)
  | Hang => (Hang, g)
  end.

Definition msg_rpc_service (encode : Msg → option bytes) : MsgService Gateway :=
  mkMsgService Gateway (λ request, replied (rpc_send_message request))
    (λ request, replied (rpc_send_msg_to_user encode request))
    (λ req, replied (rpc_send_group_msg_to_user encode (sg_message req) (sg_members req))).

(** ** A library that obeys its laws *)

Definition toy_response : Type := (Z * list (string * string)) + (Status + bytes).

Definition toy_tonic : Tonic := {|
  tn_response := toy_response;
  tn_builder n headers := inl (n, headers);
  tn_server_unary S Q R pq pr sv method req := λ s,
    match prost_decode (req_body req) with
    | None => (Ok (inr (inl (mkStatus Code_Internal "" ""))), s)
    | Some q =>
        match method q s with
        | (Ok r, s') => (Ok (inr (inr (prost_encode r))), s')
        | (Err st, s') => (Ok (inr (inl st)), s')
        | (Panic, s') => (Panic, s')
        | (Hang, s') => (Hang, s')
        end
    end;
  tn_client_unary S Q R pq pr cl transport path q := λ s,
    match transport (mkHttpRequest path (prost_encode q)) s with
    | (Ok (inl _), s') => (Err unimplemented, s')
    | (Ok (inr (inl st)), s') => (Err st, s')
    | (Ok (inr (inr b)), s') =>
        match prost_decode b with Some r => (Ok r, s') | None => (Err (mkStatus Code_Internal "" ""), s') end
    | (Err _, s') => (Err (mkStatus Code_Unknown "" ""), s')
    | (Panic, s') => (Panic, s')
    | (Hang, s') => (Hang, s')
    end
|}.

#[export] Instance toy_tonic_laws : TonicLaws toy_tonic.
Proof.
  split; intros; cbn -[prost_encode prost_decode].
  - match goal with H : _ = tn_server_unary _ _ _ _ _ |- _ => rewrite H end. cbn -[prost_encode prost_decode].
    match goal with H : prost_decode (prost_encode q) = _ |- _ => rewrite H end.
    match goal with H : method q s = _ |- _ => rewrite H end.
    by match goal with H : prost_decode (prost_encode r) = _ |- _ => rewrite H end.
  - match goal with H : _ = tn_server_unary _ _ _ _ _ |- _ => rewrite H end. cbn -[prost_encode prost_decode].
    match goal with H : prost_decode (prost_encode q) = _ |- _ => rewrite H end.
    by match goal with H : method q s = _ |- _ => rewrite H end.
  - by match goal with H : transport _ _ = _ |- _ => rewrite H end.
Qed.

(** A coding that carries one message, which is enough for one call. *)
Definition only {A} (a : A) : Prost A := {| prost_encode := λ _, []; prost_decode := λ _, Some a |}.

Definition no_message : SendMsgRequest := None.
Definition empty_club : SendGroupMsgRequest := mkSendGroupMsg None [].
Definition toy_chat : ChatServiceServer World := new (chat_rpc_service (λ _, "j"%string) (λ _, "n"%string)).
Definition toy_msg : MsgServiceServer World := new (mkMsgService World (λ _, mret tt) (λ _, mret tt) (λ _, mret tt)).
Definition chat_channel : Channel toy_tonic :=
  mkChannel toy_tonic (mret tt)
    (chat_call toy_tonic (Prost0 := only no_message) (Prost2 := only (mkMsgResponse "" "" 0 "")) toy_chat).

(** An empty request is refused by the chat service through the stubs. *)
Lemma stubs_reach_methods_witness :
  client_send_msg toy_tonic (Prost0 := only no_message) (Prost2 := only (mkMsgResponse "" "" 0 ""))
      (new chat_channel) no_message world_empty
    = (Err (mkStatus Code_InvalidArgument "message is empty" ""), world_empty).
Proof.
  destruct (stubs_reach_methods toy_tonic (Prost0 := only no_message) (Prost1 := only empty_club)
    (Prost2 := only (mkMsgResponse "" "" 0 "")) (Prost3 := only tt) toy_chat toy_msg (new chat_channel)
    world_empty eq_refl) as [H _].
  destruct (H eq_refl) as [H1 _]. apply (H1 no_message). split_and!; [reflexivity|exact I|by vm_compute].
Defined.
