(* ===== verification/SeqProtocol.v ===== *)
(** * The sequence protocol across the cache and the database

    The receive counters live in Redis and are backed by block reservations in
    PostgreSQL; when the cache is lost it is reloaded from the reservations.
    This file states the protocol as a step relation over the operations of
    the consumer and the loader and proves that no number is ever issued twice
    to a receiver; and it shows that the send counters lack the same
    protection. *)

From S2P Require Import Prelude Errors Types Tables World Cache SeqStore RecBox Pusher GroupStore Consumer Delivery.

(** Redis restarts empty. *)
Definition lose_cache (w : World) : World := upd_redis (λ _, ∅) w.

Section protocol.
Context (cs : ConsumerService).
Abbreviation step := (cs_seq_step cs).

(** The numbers issued so far, newest first. *)
Abbreviation Issued := (list (string * Z)).

Definition registered (u : string) (w : World) : Prop := is_Some (t_sequence (w_pg w) !! u).

(** The database half of a group message: [save_max_seq_batch] when some
    member's reservation grew. *)
Definition persist_group (gs : list GroupMemSeq) : IO unit :=
  if bool_decide (grown gs ≠ []) then save_max_seq_batch step (grown gs) else mret tt.

(** One step: a number is issued for a single message, numbers are issued for
    a group message, the cache is lost and loaded again, or something else
    happens that touches neither receive counters nor reservations. *)
Inductive seq_step : World * Issued → World * Issued → Prop :=
| issue_single u n w w' l :
    registered u w → increase_message_seq cs u w = (Ok n, w') →
    seq_step (w, l) (w', (u, n) :: l)
| issue_group ms gs w w1 w2 l :
    NoDup ms → Forall (λ u, registered u w) ms →
    incr_group_seq (cs_cache cs) ms w = (Ok gs, w1) → persist_group gs w1 = (Ok tt, w2) →
    seq_step (w, l) (w2, ((λ g, (mem_id g, cur_seq g)) <$> gs) ++ l)
| cache_loss w w' l :
    load_seq (lose_cache w) = (Ok tt, w') → seq_step (w, l) (w', l)
| elsewhere w w' l :
    healthy w' → (∀ u, pseq (w_redis w') (seq_key u) = pseq (w_redis w) (seq_key u)) →
    t_sequence (w_pg w') = t_sequence (w_pg w) → seq_step (w, l) (w', l).

(** Every number is larger than all numbers issued to that user before. *)
Fixpoint increasing (l : Issued) : Prop :=
  match l with
  | [] => True
  | (u, n) :: l' => (∀ n', (u, n') ∈ l' → (n' < n)%Z) ∧ increasing l'
  end.

(** The counter of a registered user against its reservation. *)
Definition counter_inv (row : SeqRow) (p : option (option Z * option Z)) (l : Issued) (u : string)
    : Prop :=
  match p with
  | Some (None, None) => (step ≤ rec_max_seq row)%Z ∧ ∀ n, (u, n) ∉ l
  | Some (Some c, Some mx) =>
      (c ≤ mx)%Z ∧ (mx ≤ rec_max_seq row)%Z ∧ ∀ n, (u, n) ∈ l → (n ≤ c)%Z
  | _ => False
  end.

Record protocol_inv (x : World * Issued) : Prop := {
  pi_net : healthy x.1;
  pi_inc : increasing x.2;
  pi_reg : ∀ u n, (u, n) ∈ x.2 → registered u x.1;
  pi_cnt : ∀ u row, t_sequence (w_pg x.1) !! u = Some row →
             counter_inv row (pseq (w_redis x.1) (seq_key u)) x.2 u
}.

Lemma counter_inv_pseq row p l u : counter_inv row p l u → ∃ q, p = Some q.
Proof. destruct p; naive_solver. Qed.

(** Advancing one counter keeps its invariant and issues a new number. *)
Lemma counter_bump row row' p l u :
  (0 < step)%Z → counter_inv row (Some p) l u →
  (rec_max_seq row' = rec_max_seq row + if (bump step p).2 then step else 0)%Z →
  counter_inv row' (Some (pair_of (bump step p))) ((u, (bump step p).1.1) :: l) u
  ∧ (∀ n, (u, n) ∈ l → (n < (bump step p).1.1)%Z).
Proof.
  intros Hs Hc Hrow. destruct p as [[c|] [mx|]]; simpl in Hc; try done; unfold bump in *; simpl in *.
  - destruct Hc as (H1 & H2 & H3).
    destruct (Z.ltb_spec mx (c + 1)); simpl in *; rewrite Hrow; split_and!; try lia;
      intros n; rewrite ?elem_of_cons; intros Hn; destruct_or?; simplify_eq; try lia;
      specialize (H3 _ Hn); lia.
  - destruct Hc as (H1 & H2). rewrite (proj2 (Z.ltb_ge _ _)) in * by lia. simpl in *. rewrite Hrow.
    split_and!; try lia; intros n; rewrite ?elem_of_cons; intros Hn; [|by destruct (H2 n)].
    destruct Hn as [|Hn]; [simplify_eq; lia|]. by destruct (H2 n).
Qed.

Lemma counter_inv_other row p l l' u :
  (∀ n, (u, n) ∈ l' ↔ (u, n) ∈ l) → counter_inv row p l u → counter_inv row p l' u.
Proof. intros H. destruct p as [[[] []]|]; simpl; try done; setoid_rewrite H; done. Qed.

Lemma increasing_app (f : string → Z) ms l :
  NoDup ms → (∀ u n, u ∈ ms → (u, n) ∈ l → (n < f u)%Z) → increasing l →
  increasing (((λ u, (u, f u)) <$> ms) ++ l).
Proof.
  intros Hnd Hlt Hl. induction Hnd as [|u ms Hu Hnd IH]; [done|]. simpl. split.
  - intros n [(v & [= <- <-] & Hv)%list_elem_of_fmap|Hn]%elem_of_app; [done|]. apply Hlt; [by left|done].
  - apply IH. intros v n Hv. apply Hlt. by right.
Qed.

Lemma elem_of_issued (f : string → Z) ms l u n :
  (u, n) ∈ ((λ u, (u, f u)) <$> ms) ++ l ↔ (u ∈ ms ∧ n = f u) ∨ (u, n) ∈ l.
Proof.
  rewrite elem_of_app, list_elem_of_fmap. split.
  - intros [(v & [= <- <-] & Hv)|H]; auto.
  - intros [[H ->]|H]; [left; by exists u|by right].
Qed.

(** The number a user gets next. *)
Definition next_number (w : World) (u : string) : Z :=
  (bump step (default (None, None) (pseq (w_redis w) (seq_key u)))).1.1.

(** One user's counter and reservation move together from [w] to [w']. *)
Definition advanced (w w' : World) (u : string) : Prop :=
  ∃ row row' p, t_sequence (w_pg w) !! u = Some row ∧ t_sequence (w_pg w') !! u = Some row'
    ∧ pseq (w_redis w) (seq_key u) = Some p
    ∧ pseq (w_redis w') (seq_key u) = Some (pair_of (bump step p))
    ∧ (rec_max_seq row' = rec_max_seq row + if (bump step p).2 then step else 0)%Z.

Definition unmoved (w w' : World) (u : string) : Prop :=
  t_sequence (w_pg w') !! u = t_sequence (w_pg w) !! u
  ∧ pseq (w_redis w') (seq_key u) = pseq (w_redis w) (seq_key u).

Lemma advance_inv w w' l ms :
  (0 < step)%Z → protocol_inv (w, l) → healthy w' → NoDup ms →
  (∀ u, u ∈ ms → advanced w w' u) → (∀ u, u ∉ ms → unmoved w w' u) →
  protocol_inv (w', ((λ u, (u, next_number w u)) <$> ms) ++ l).
Proof.
  intros Hs [Hnet Hinc Hreg Hcnt] Hnet' Hnd Hadv Hun. simpl in *.
  assert (Hnew : ∀ u, u ∈ ms → ∃ row', t_sequence (w_pg w') !! u = Some row'
    ∧ counter_inv row' (pseq (w_redis w') (seq_key u)) ((u, next_number w u) :: l) u
    ∧ ∀ n, (u, n) ∈ l → (n < next_number w u)%Z).
  { intros u Hu. destruct (Hadv u Hu) as (row & row' & p & H1 & H2 & H3 & H4 & H5).
    exists row'. specialize (Hcnt u row H1). unfold next_number. rewrite H3 in Hcnt |- *. rewrite H4. simpl.
    split; [done|]. by eapply counter_bump. }
  split; simpl; [done| | |].
  - apply increasing_app; [done| |done]. intros u n Hu. by destruct (Hnew u Hu) as (? & _ & _ & ?); auto.
  - intros u n [[Hu _]|Hn]%elem_of_issued.
    + destruct (Hnew u Hu) as (row' & H & _). by eexists.
    + destruct (decide (u ∈ ms)) as [Hu|Hu]; [destruct (Hnew u Hu) as (? & ? & _); by eexists|].
      unfold registered. rewrite (proj1 (Hun u Hu)). by eapply Hreg.
  - intros u row Hrow. destruct (decide (u ∈ ms)) as [Hu|Hu].
    + destruct (Hnew u Hu) as (row' & H & Hc & _). simplify_eq.
      eapply counter_inv_other; [|exact Hc]. intros n. rewrite elem_of_issued, elem_of_cons.
      naive_solver.
    + destruct (Hun u Hu) as [H1 H2]. rewrite H2. rewrite H1 in Hrow.
      eapply counter_inv_other; [|by apply Hcnt]. intros n. rewrite elem_of_issued. naive_solver.
Qed.

(** ** Issuing for a single message *)

Lemma increase_seq_ok c u w p x w' :
  healthy w → pseq (w_redis w) (seq_key u) = Some p → increase_seq c u w = (Ok x, w') →
  ∃ r', x = bump (rc_seq_step c) p ∧ w' = upd_redis (λ _, r') w
    ∧ pseq r' (seq_key u) = Some (pair_of x) ∧ only_key (seq_key u) (w_redis w) r'.
Proof.
  intros Hnet Hp Hrun. destruct (in_i64 (default 0 p.1 + 1)%Z) eqn:Hi.
  - destruct (increase_seq_run c u w p Hnet Hp Hi) as (r' & Hr & Hp' & Ho).
    rewrite Hr in Hrun. simplify_eq. by exists r'.
  - exfalso. revert Hrun. unfold increase_seq. mstep. rewrite redis_conn_healthy by done.
    unfold redis_run. rewrite remote_healthy by done. by rewrite (single_script_overflow _ _ _ _ _ Hp Hi).
Qed.

Lemma save_max_seq_ok u w v w' :
  healthy w → save_max_seq step u w = (Ok v, w') →
  has_room cs u w ∧ w' = upd_pg (grow_row cs u) w.
Proof.
  intros Hnet Hrun. assert (Hroom : has_room cs u w).
  { revert Hrun. unfold save_max_seq, pg_exec. rewrite remote_healthy by done.
    destruct (t_sequence (w_pg w) !! u) as [row|] eqn:Hrow; simpl; [|done].
    destruct (in_i64 _) eqn:Hi; [|done]. by exists row. }
  split; [done|]. destruct (save_max_seq_run cs u w Hnet Hroom) as [v' Hv]. rewrite Hv in Hrun. by simplify_eq.
Qed.

Lemma grow_row_advanced u w r' p :
  registered u w → pseq (w_redis w) (seq_key u) = Some p →
  pseq r' (seq_key u) = Some (pair_of (bump step p)) →
  advanced w (upd_pg (if (bump step p).2 then grow_row cs u else id) (upd_redis (λ _, r') w)) u.
Proof.
  intros [row Hrow] Hp Hp'. exists row. destruct (bump step p) as [[c mx] []] eqn:E; simpl in *.
  - exists (bump_rec step row), p. rewrite E. simpl.
    split_and!; try done. unfold grow_row, upd_sequence; simpl. by rewrite lookup_alter_eq, Hrow.
  - exists row, p. rewrite E. simpl. split_and!; try done. lia.
Qed.

Lemma issue_single_inv u n w w' l :
  (0 < step)%Z → rc_seq_step (cs_cache cs) = step → protocol_inv (w, l) →
  registered u w → increase_message_seq cs u w = (Ok n, w') → protocol_inv (w', (u, n) :: l).
Proof.
  intros Hs Hsame Hinv [row Hrow] Hrun. pose proof Hinv as [Hnet _ _ Hcnt]. simpl in *.
  destruct (counter_inv_pseq _ _ _ _ (Hcnt u row Hrow)) as [p Hp].
  unfold increase_message_seq, mbind, M_bind in Hrun.
  destruct (increase_seq (cs_cache cs) u w) as [[x| | |] w0] eqn:Hi; try done.
  destruct (increase_seq_ok _ _ _ _ _ _ Hnet Hp Hi) as (r' & -> & -> & Hp' & Ho).
  rewrite Hsame in Hp', Hrun.
  assert (Hw' : n = next_number w u
    ∧ w' = upd_pg (if (bump step p).2 then grow_row cs u else id) (upd_redis (λ _, r') w)).
  { unfold next_number. rewrite Hp. simpl. destruct (bump step p) as [[c mx] []]; simpl in *.
    - destruct (save_max_seq step u _) as [[v| | |] w2] eqn:Hsv; try done.
      destruct (save_max_seq_ok u (upd_redis (λ _, r') w) v w2 Hnet Hsv) as [_ ->]. unfold mret, M_ret in Hrun. by simplify_eq.
    - unfold mret, M_ret in Hrun. simplify_eq. split; [done|]. by destruct w as [? [] ? ? ? ? ? ? ? ? ? ?]. }
  destruct Hw' as [-> ->].
  apply (advance_inv w _ l [u] Hs Hinv); [done|repeat constructor; set_solver| |].
  - intros v ->%list_elem_of_singleton. apply grow_row_advanced; [by eexists|done|done].
  - intros v Hv. rewrite list_elem_of_singleton in Hv. split.
    + destruct (bump step p).2; [|done]. unfold grow_row, upd_sequence; simpl. by rewrite lookup_alter_ne.
    + simpl. eapply pseq_other; [exact Ho|]. by intros ?%seq_key_inj.
Qed.

(** ** Losing the cache *)

(** A load after a loss puts every registered counter at its reservation. *)
Lemma reloaded_counters w w' :
  healthy w → load_seq (lose_cache w) = (Ok tt, w') →
  w_pg w' = w_pg w ∧ healthy w' ∧ ∀ u row, t_sequence (w_pg w) !! u = Some row →
    pseq (w_redis w') (seq_key u) = Some (Some (rec_max_seq row), Some (rec_max_seq row)).
Proof.
  intros Hnet Hload. unfold lose_cache in Hload. set (w0 := upd_redis (λ _, ∅) w) in *.
  assert (Hsz : (size (t_sequence (w_pg w)) ≤ 1024)%nat).
  { apply dec_stable. intros Hsz. revert Hload. unfold load_seq. mstep.
    rewrite (check_seq_loaded_run w0) by done. simpl.
    assert (get_max_seq w0 = (Hang, w0)) as ->; [|done].
    unfold get_max_seq. mstep. erewrite pg_exec_healthy by done.
    rewrite length_map_to_list, bool_decide_eq_false_2 by done. by rewrite upd_pg_id. }
  rewrite (load_seq_run w0) in Hload by done. injection Hload as <-. split_and!; [done|done|].
  intros u row Hrow.
  destruct (apply_rows_run (w_clock w0) (seq_rows (w_pg w0)) (w_redis w0)
    (rows_users_seq_rows _)) as [Hrows _]; [by intros; split; eexists|].
  destruct (Hrows _ _ _ (elem_of_seq_rows _ _ _ Hrow)) as [H1 _]. simpl in H1. rewrite <- H1.
  apply pseq_lookup. simpl. by rewrite lookup_insert_ne.
Qed.

Lemma cache_loss_inv w w' l :
  protocol_inv (w, l) → load_seq (lose_cache w) = (Ok tt, w') → protocol_inv (w', l).
Proof.
  intros [Hnet Hinc Hreg Hcnt] Hload. simpl in *.
  destruct (reloaded_counters w w' Hnet Hload) as (Hpg & Hnet' & Hloaded).
  split; simpl; [done|done|unfold registered; by rewrite Hpg|]. rewrite Hpg. intros u row Hrow.
  rewrite (Hloaded u row Hrow). simpl. split_and!; [lia|lia|]. intros n Hn.
  specialize (Hcnt u row Hrow). destruct (pseq (w_redis w) (seq_key u)) as [[[c|] [mx|]]|]; simpl in Hcnt;
    try done; [|by destruct Hcnt as [_ Hno]; destruct (Hno n)].
  destruct Hcnt as (? & ? & H). specialize (H n Hn). lia.
Qed.

(** ** Issuing for a group message *)

Lemma iterate_single_ok now ms : ∀ r rows r',
  NoDup ms → Forall (λ u, is_Some (pseq r (seq_key u))) ms →
  iterate_single step ms now r = (Ok rows, r') → Forall (can_bump r) ms.
Proof.
  induction ms as [|u ms IH]; intros r rows r' Hnd Hall Hrun; [constructor|].
  apply NoDup_cons in Hnd as [Hu Hnd]. apply Forall_cons in Hall as [[p Hp] Hall].
  cbn [iterate_single] in Hrun. unfold mbind, M_bind in Hrun.
  destruct (in_i64 (default 0 p.1 + 1)%Z) eqn:Hi;
    [|by rewrite (single_script_overflow _ _ _ _ _ Hp Hi) in Hrun].
  destruct (single_script_run now r (seq_key u) step p Hp Hi) as (r1 & Hr1 & _ & Ho).
  rewrite Hr1 in Hrun. destruct (bump step p) as [[c mx] up].
  destruct (iterate_single step ms now r1) as [[rows1| | |] r2] eqn:Hrest; try done.
  assert (Hk : ∀ v, v ∈ ms → seq_key v ≠ seq_key u) by (intros v Hv ->%seq_key_inj; done).
  constructor; [by exists p|].
  assert (Hb : Forall (can_bump r1) ms).
  { apply (IH r1 rows1 r2 Hnd); [|done]. rewrite Forall_forall in Hall |- *. intros v Hv.
    rewrite (pseq_other (seq_key u) r r1); auto. }
  rewrite Forall_forall in Hb |- *. intros v Hv. destruct (Hb v Hv) as (q & Hq & ?).
  exists q. by rewrite <- (pseq_other (seq_key u) r r1); auto.
Qed.

Lemma incr_group_seq_ok ms w gs w1 :
  healthy w → rc_seq_step (cs_cache cs) = step → NoDup ms →
  Forall (λ u, is_Some (pseq (w_redis w) (seq_key u))) ms →
  incr_group_seq (cs_cache cs) ms w = (Ok gs, w1) → Forall (can_bump (w_redis w)) ms.
Proof.
  intros Hnet Hsame Hnd Hall Hrun. unfold incr_group_seq in Hrun. rewrite Hsame in Hrun.
  unfold mbind, M_bind in Hrun. rewrite redis_conn_healthy in Hrun by done.
  unfold redis_run in Hrun. rewrite remote_healthy in Hrun by done.
  rewrite group_script_iterate in Hrun.
  destruct (iterate_single _ _ _ _) as [[rows| | |] r1] eqn:E; try done. by eapply iterate_single_ok.
Qed.

Lemma persist_group_ok gs w w' :
  healthy w → persist_group gs w = (Ok tt, w') →
  w' = upd_pg (upd_sequence (batch_update step (grown gs))) w.
Proof.
  intros Hnet Hrun. unfold persist_group in Hrun.
  assert (Hroom : grown gs = [] ∨ batch_room cs (grown gs) w).
  { case_bool_decide as Hg; [|by left]. right. revert Hrun.
    unfold save_max_seq_batch. rewrite bool_decide_eq_false_2 by done.
    unfold pg_exec. rewrite remote_healthy by done. case_bool_decide; [done|done]. }
  destruct Hroom as [He|Hroom].
  - rewrite He in *. unfold mret, M_ret in Hrun. simpl in Hrun. simplify_eq. by rewrite upd_pg_sequence_id.
  - rewrite (save_batch_run cs (grown gs) w Hnet Hroom) in Hrun. by simplify_eq.
Qed.

Lemma elem_of_grown r ms u : u ∈ ms →
  u ∈ grown (member_seq step r <$> ms)
  ↔ (bump step (default (None, None) (pseq r (seq_key u)))).2 = true.
Proof.
  intros Hu. unfold grown. rewrite list_elem_of_fmap. split.
  - intros (g & -> & [Hg (v & -> & Hv)%list_elem_of_fmap]%list_elem_of_filter). done.
  - intros Hb. exists (member_seq step r u). split; [done|]. apply list_elem_of_filter.
    split; [done|]. apply list_elem_of_fmap. by exists u.
Qed.

Lemma grown_subset r ms u : u ∈ grown (member_seq step r <$> ms) → u ∈ ms.
Proof.
  unfold grown. intros (g & -> & [_ (v & -> & Hv)%list_elem_of_fmap]%list_elem_of_filter)%list_elem_of_fmap.
  done.
Qed.

Lemma issue_group_inv ms gs w w1 w2 l :
  (0 < step)%Z → rc_seq_step (cs_cache cs) = step → protocol_inv (w, l) → NoDup ms →
  Forall (λ u, registered u w) ms →
  incr_group_seq (cs_cache cs) ms w = (Ok gs, w1) → persist_group gs w1 = (Ok tt, w2) →
  protocol_inv (w2, ((λ g, (mem_id g, cur_seq g)) <$> gs) ++ l).
Proof.
  intros Hs Hsame Hinv Hnd Hreg Hrun Hper. pose proof Hinv as [Hnet _ _ Hcnt]. simpl in *.
  rewrite Forall_forall in Hreg.
  assert (Hps : ∀ u, u ∈ ms → ∃ p, pseq (w_redis w) (seq_key u) = Some p)
    by (intros u [row Hrow]%Hreg; by eapply counter_inv_pseq, Hcnt).
  assert (Hcan : Forall (can_bump (w_redis w)) ms)
    by (eapply incr_group_seq_ok; try done; apply Forall_forall; exact Hps).
  destruct (incr_group_seq_run (cs_cache cs) ms w Hnet Hnd Hcan) as (r' & Hr & Hf & Ho).
  rewrite Hr in Hrun. injection Hrun as <- <-. rewrite Hsame in *.
  apply persist_group_ok in Hper as ->; [|done]. rewrite Forall_forall in Hf.
  rewrite <- list_fmap_compose. change ((λ g, (mem_id g, cur_seq g)) ∘ member_seq step (w_redis w))
    with (λ u, (u, next_number w u)).
  apply (advance_inv w); try done.
  - intros u Hu. destruct (Hreg u Hu) as [row Hrow]. destruct (Hps u Hu) as [p Hp].
    pose proof (elem_of_grown (w_redis w) ms u Hu) as Hg. rewrite Hp in Hg. simpl in Hg.
    specialize (Hf u Hu). unfold member_seq in Hf. rewrite Hp in Hf. simpl in Hf.
    exists row, (if (bump step p).2 then bump_rec step row else row), p.
    split_and!; [done| |done|done|].
    + simpl. unfold batch_update. rewrite map_lookup_imap, Hrow. simpl.
      destruct (bump step p).2; [by rewrite bool_decide_eq_true_2 by (by apply Hg)|].
      rewrite bool_decide_eq_false_2; [done|]. by intros ?%Hg.
    + destruct (bump step p).2; simpl; lia.
  - intros u Hu. split; simpl.
    + unfold batch_update. rewrite map_lookup_imap. destruct (t_sequence (w_pg w) !! u); [|done]. simpl.
      rewrite bool_decide_eq_false_2; [done|]. by intros ?%grown_subset.
    + apply pseq_lookup, Ho. by intros (v & ->%seq_key_inj & Hv)%list_elem_of_fmap.
Qed.

Lemma seq_step_inv x y :
  (0 < step)%Z → rc_seq_step (cs_cache cs) = step → protocol_inv x → seq_step x y → protocol_inv y.
Proof.
  intros Hs Hsame Hinv Hstep. destruct Hstep as
    [u n w w' l Hreg Hrun|ms gs w w1 w2 l Hnd Hreg Hrun Hper|w w' l Hload|w w' l Hnet' Hp Hseq].
  - by eapply issue_single_inv.
  - by eapply issue_group_inv.
  - by eapply cache_loss_inv.
  - destruct Hinv as [Hnet Hinc Hreg Hcnt]. simpl in *. split; simpl; [done|done| |].
    + intros u n Hn. unfold registered. rewrite Hseq. by eapply Hreg.
    + intros u row. rewrite Hseq, Hp. apply Hcnt.
Qed.

(** Where the protocol starts: every registered user has a reservation of at
    least one step and no counter yet. *)
Definition protocol_start (w : World) : Prop :=
  healthy w ∧ ∀ u row, t_sequence (w_pg w) !! u = Some row →
    (step ≤ rec_max_seq row)%Z ∧ pseq (w_redis w) (seq_key u) = Some (None, None).

(** C1. Receive numbers are never reused. Over every sequence of single and
    group deliveries, losses and reloads of the cache and unrelated activity,
    each number issued to a registered user is larger than every number issued
    to that user before, although the cache that counts is volatile and the
    database is written only once per block. *)
Theorem receive_seq_never_reused (w w' : World) (l : Issued)
    (Hstep : (0 < step)%Z) (Hsame : rc_seq_step (cs_cache cs) = step)
    (Hstart : protocol_start w) (Hreach : rtc seq_step (w, []) (w', l)) :
  increasing l.
Proof.
  assert (Hinv : protocol_inv (w, [])).
  { destruct Hstart as [Hnet Hrows]. split; simpl; [done|done|by intros ?? ?%not_elem_of_nil|].
    intros u row Hrow. destruct (Hrows u row Hrow) as [Hr ->]. simpl. split; [done|].
    intros n. apply not_elem_of_nil. }
  enough (protocol_inv (w', l)) as [] by done.
  remember (w, []) as x. remember (w', l) as y. clear Heqx Heqy Hstart w w' l.
  induction Hreach as [|x y z Hxy _ IH]; [done|]. apply IH. by eapply seq_step_inv.
Qed.
End protocol.

(** One delivery to bob, the cache lost and reloaded, another delivery. *)
Definition bob_once : World := (increase_message_seq demo_service "bob" demo_world).2.
Definition bob_reloaded : World := (load_seq (lose_cache bob_once)).2.
Definition bob_twice : World := (increase_message_seq demo_service "bob" bob_reloaded).2.

Lemma receive_seq_never_reused_witness : increasing [("bob"%string, 6%Z); ("bob"%string, 1%Z)].
Proof.
  apply (receive_seq_never_reused demo_service demo_world bob_twice).
  - reflexivity.
  - reflexivity.
  - split; [reflexivity|]. intros u row Hrow. split; [|reflexivity].
    apply elem_of_map_to_list in Hrow. vm_compute in Hrow.
    repeat (apply elem_of_cons in Hrow as [[= -> ->]|Hrow]; [vm_compute; discriminate|]).
    inversion Hrow.
  - eapply rtc_l; [apply (issue_single demo_service "bob" 1 demo_world bob_once [])|].
    { by eexists. }
    { vm_compute. reflexivity. }
    eapply rtc_l; [apply (cache_loss demo_service bob_once bob_reloaded)|].
    { vm_compute. reflexivity. }
    eapply rtc_l; [|apply rtc_refl].
    apply (issue_single demo_service "bob" 6 bob_reloaded bob_twice).
    { by eexists. }
    { vm_compute. reflexivity. }
Defined.

(** ** The send counters *)

Lemma loaded_send_counter w u row :
  healthy w → (size (t_sequence (w_pg w)) ≤ 1024)%nat → t_sequence (w_pg w) !! u = Some row →
  ∃ r', load_seq (lose_cache w) = (Ok tt, upd_redis (λ _, r') w)
      ∧ pseq r' (send_seq_key u) = Some (Some (send_max_seq row), Some (send_max_seq row)).
Proof.
  intros Hnet Hsz Hrow. unfold lose_cache. set (w0 := upd_redis (λ _, ∅) w).
  destruct (apply_rows_run (w_clock w0) (seq_rows (w_pg w0)) (w_redis w0)
    (rows_users_seq_rows _)) as [Hrows _]; [by intros; split; eexists|].
  rewrite (load_seq_run w0) by done. eexists. split; [reflexivity|].
  destruct (Hrows _ _ _ (elem_of_seq_rows _ _ _ Hrow)) as [_ H2]. rewrite <- H2.
  apply pseq_lookup. simpl. by rewrite lookup_insert_ne.
Qed.

(** Send numbers are reused after a loss of the cache. Once a user has sent
    more messages than the number reserved at registration, a loss and reload
    of the cache makes the next send number one that was given out before:
    the reload starts from the reservation, which nothing ever moved. *)
Theorem send_seq_reused (c : RedisCache) (u : string) (w : World) (row : SeqRow)
    (cur : Z) (mx : option Z)
    (Hnet : healthy w) (Hsz : (size (t_sequence (w_pg w)) ≤ 1024)%nat)
    (Hrow : t_sequence (w_pg w) !! u = Some row)
    (Hcur : pseq (w_redis w) (send_seq_key u) = Some (Some cur, mx))
    (Hsent : (send_max_seq row < cur)%Z) (Hcur64 : in_i64 cur = true)
    (Hrow64 : in_i64 (send_max_seq row) = true) :
  ∃ w1, load_seq (lose_cache w) = (Ok tt, w1)
    ∧ (incr_send_seq c u w1).1
      = Ok ((send_max_seq row + 1)%Z, (send_max_seq row + rc_seq_step c)%Z, true)
    ∧ (send_max_seq row + 1 ≤ cur)%Z.
Proof.
  destruct (loaded_send_counter w u row Hnet Hsz Hrow) as (r' & Hload & Hp).
  exists (upd_redis (λ _, r') w). split_and!; [done| |lia].
  assert (Hi : in_i64 (default 0 (Some (send_max_seq row)) + 1)%Z = true).
  { unfold in_i64 in *. rewrite andb_true_iff, !bool_decide_eq_true in *. simpl. lia. }
  destruct (single_script_run (w_clock w) r' _ (rc_seq_step c) _ Hp Hi) as (r2 & Hr2 & _).
  unfold incr_send_seq. mstep. rewrite redis_conn_healthy by done.
  erewrite redis_run_healthy; [|done|exact Hr2]. unfold bump; simpl.
  by rewrite (proj2 (Z.ltb_lt _ _)) by lia.
Qed.

(** Six messages sent with a step of five. *)
Definition six_sent : World :=
  (for_each [(); (); (); (); (); ()] (λ _, incr_send_seq (cs_cache demo_service) "alice" ≫= λ _, mret tt)
    demo_world).2.

Lemma send_seq_reused_witness :
  ∃ w1, load_seq (lose_cache six_sent) = (Ok tt, w1)
    ∧ (incr_send_seq (cs_cache demo_service) "alice" w1).1 = Ok (6, 10, true)%Z.
Proof.
  destruct (send_seq_reused (cs_cache demo_service) "alice" six_sent (mkSeqRow 5 5) 6 (Some 10%Z))
    as (w1 & H1 & H2 & _).
  - reflexivity.
  - vm_compute. lia.
  - reflexivity.
  - vm_compute. reflexivity.
  - reflexivity.
  - reflexivity.
  - reflexivity.
  - exists w1. split; [exact H1|exact H2].
Defined.
