(* ===== verification/SeqFaults.v ===== *)
(** * The sequence protocol under faults

    [SeqProtocol] follows deliveries that succeed. Here the calls of any number
    of consumers interleave one by one, each of them may fail before or after
    its effect, and a handler may stop between the call that counts in the
    cache and the call that reserves in the database. What is left of the
    promise is measured: the exposure of a user is how far the cache counts
    ahead of the reservation, and no number falls behind an earlier one by more
    than the exposure at the losses of the cache. *)

From S2P Require Import Prelude Script Errors Types Tables World Cache SeqStore RecBox Pusher GroupStore Consumer Handling Delivery SeqProtocol.

(** ** Calls to the cache under faults *)

(** A command of the cache has no effect, or all of it; it answers only if it
    had it. *)
Lemma redis_call_cases {A} (c : Z → RM A) w o w' :
  (redis_conn ;; redis_run c) w = (o, w') →
  w_pg w' = w_pg w ∧
  ((w_redis w' = w_redis w ∧ ∀ x, o ≠ Ok x)
   ∨ (w_redis w' = (c (w_clock w) (w_redis w)).2 ∧ ∀ x, o = Ok x → (c (w_clock w) (w_redis w)).1 = Ok x)).
Proof.
  unfold redis_conn, redis_run, remote, take_fault. mstep. intros H.
  destruct (w_faults w) as [|[] [|[] fs]] eqn:Hf; simpl in H;
    rewrite ?Hf in H; simpl in H;
    try (destruct (c _ _) as [[] r] eqn:Hc); simplify_eq/=; split; try done;
    first [by right; rewrite ?Hc; split; [done|intros ? [=]; subst]
          |by left; split; [done|intros ? [=]]].
Qed.

(** A statement has no effect, or all of it. *)
Lemma pg_call_cases {A} (q : Pg → option (A * Pg)) w o w' :
  pg_exec q w = (o, w') →
  w_redis w' = w_redis w ∧
  ((w_pg w' = w_pg w ∧ ∀ x, o ≠ Ok x)
   ∨ ∃ a p, q (w_pg w) = Some (a, p) ∧ w_pg w' = p ∧ ∀ x, o = Ok x → x = a).
Proof.
  unfold pg_exec, remote, take_fault. mstep. intros H.
  destruct (w_faults w) as [|[] fs] eqn:Hf; simpl in H; try (destruct (q (w_pg w)) as [[a p]|] eqn:Hq);
    simplify_eq/=; split; try done;
    first [by left; split; [done|intros ? [=]]|right; exists a, p; split_and!; try done; congruence].
Qed.

(** ** The promise, with its slack *)

(** Every number handed out to a user in [us] is larger, up to [D], than the
    numbers handed out to that user before. *)
Definition overlaps_within (D : string → Z) (us : string → Prop) (l : list (string * Z)) : Prop :=
  ∀ l1 u n l2 n', l = l1 ++ (u, n) :: l2 → us u → (u, n') ∈ l2 → (n' < n + D u)%Z.

Lemma overlaps_nil D us : overlaps_within D us [].
Proof. by intros [] u n l2 n' [=]. Qed.

Lemma overlaps_cons D us u n l :
  (us u → ∀ n', (u, n') ∈ l → (n' < n + D u)%Z) → overlaps_within D us l →
  overlaps_within D us ((u, n) :: l).
Proof.
  intros Hu Hl [|x l1] v m l2 n' [= ]; simplify_eq; intros Hv Hn; [by apply Hu|by eapply (Hl l1)].
Qed.

Lemma overlaps_weaken D (us us' : string → Prop) l :
  (∀ u, us' u → us u) → overlaps_within D us l → overlaps_within D us' l.
Proof. intros Hs Hl l1 u n l2 n' He Hu Hn. eapply Hl; eauto. Qed.

(** The value of a counter and the number up to which it may count. *)
Definition counted (p : option Z * option Z) : Z := default 0%Z p.1.
Definition limit (step : Z) (p : option Z * option Z) : Z := default step p.2.

Section protocol.
Context (step : Z) (cache : RedisCache) (D : string → Z).

(** How far the cache may count beyond what the database has reserved. *)
Definition exposure (w : World) (u : string) : Z :=
  match pseq (w_redis w) (seq_key u), t_sequence (w_pg w) !! u with
  | Some p, Some row => (limit step p - rec_max_seq row)%Z
  | _, _ => 0%Z
  end.

(** What no call beside the protocol touches. *)
Definition same_counters (w w' : World) : Prop :=
  (∀ u, pseq (w_redis w') (seq_key u) = pseq (w_redis w) (seq_key u))
  ∧ t_sequence (w_pg w') = t_sequence (w_pg w).
#[global] Instance same_counters_preorder : PreOrder same_counters.
Proof.
  split; unfold same_counters; [done|]. intros w1 w2 w3 [H1 H2] [H3 H4].
  split; [intros u; by rewrite H3, H1|by rewrite H4, H2].
Qed.

(** The numbers an answer hands out, newest first. *)
Definition single_number (u : string) (o : outcome Error (Z * Z * bool)) : list (string * Z) :=
  match o with Ok x => [(u, x.1.1)] | _ => [] end.
Definition group_numbers (o : outcome Error (list GroupMemSeq)) : list (string * Z) :=
  match o with Ok gs => reverse ((λ g, (mem_id g, cur_seq g)) <$> gs) | _ => [] end.

(** One call. Every call to the cache or to the reservations may fail, with or
    without its effect; the cache is lost, and loaded while the network works,
    when no registered user is exposed by more than [D]. *)
Inductive seq_call : World * list (string * Z) → World * list (string * Z) → Prop :=
| call_increase u o w w' l :
    increase_seq cache u w = (o, w') → seq_call (w, l) (w', single_number u o ++ l)
| call_group ms o w w' l :
    incr_group_seq cache ms w = (o, w') → seq_call (w, l) (w', group_numbers o ++ l)
| call_save u o w w' l :
    save_max_seq step u w = (o, w') → seq_call (w, l) (w', l)
| call_save_all us o w w' l :
    save_max_seq_batch step us w = (o, w') → seq_call (w, l) (w', l)
| call_loss w w' l :
    healthy w → (∀ u, registered u w → (exposure w u ≤ D u)%Z) →
    load_seq (lose_cache w) = (Ok tt, w') → seq_call (w, l) (w', l)
| call_beside w w' l :
    same_counters w w' → seq_call (w, l) (w', l).

(** A registered user: the counter within its limit, and what was handed out
    before is not above it by more than [D], counted from the value [b] that
    was loaded last. *)
Definition user_ok (r : Redis) (row : SeqRow) (l : list (string * Z)) (u : string) : Prop :=
  ∃ p b, pseq r (seq_key u) = Some p ∧ (counted p ≤ limit step p)%Z
    ∧ (b ≤ counted p)%Z ∧ (b ≤ rec_max_seq row)%Z
    ∧ ∀ n, (u, n) ∈ l → (n ≤ Z.max (counted p) (b + D u))%Z.

Record counts_ok (t : gmap string SeqRow) (r : Redis) (l : list (string * Z)) : Prop := {
  co_users u row : t !! u = Some row → user_ok r row l u;
  co_order : overlaps_within D (λ u, is_Some (t !! u)) l
}.
Context (Hstep : (0 < step)%Z) (Hsame : rc_seq_step cache = step) (HD : ∀ u, (0 ≤ D u)%Z).

Lemma bump_counts p : (counted p ≤ limit step p)%Z →
  let q := pair_of (bump step p) in
  (bump step p).1.1 = (counted p + 1)%Z ∧ counted q = (counted p + 1)%Z
  ∧ (counted q ≤ limit step q)%Z ∧ limit step q = (limit step p + if (bump step p).2 then step else 0)%Z.
Proof.
  unfold counted, limit, bump, pair_of. destruct p as [c m]. simpl. intros H.
  destruct (Z.ltb_spec (default step m) (default 0%Z c + 1)); simpl; lia.
Qed.

Lemma user_ok_other r r' row l u v n :
  u ≠ v → only_key (seq_key v) r r' → user_ok r row l u →
  user_ok r' row l u ∧ user_ok r' row ((v, n) :: l) u.
Proof.
  intros Hne Ho (p & b & Hp & H1 & H2 & H3 & H4).
  assert (Hp' : pseq r' (seq_key u) = Some p)
    by (rewrite (pseq_other (seq_key v) r r'); [done|done|by intros ?%seq_key_inj]).
  split; exists p, b; split_and!; try done. intros m. rewrite elem_of_cons. intros [[=]|?]; [done|auto].
Qed.

(** The increment of one counter, whether its number is handed out or lost. *)
Lemma single_counts t now u r o r' l :
  counts_ok t r l → single_script (seq_key u) step now r = (o, r') →
  counts_ok t r' l ∧ ∀ x, o = Ok x → counts_ok t r' ((u, x.1.1) :: l).
Proof.
  intros [Hus Hord] Hrun.
  assert (Ho : only_key (seq_key u) r r').
  { pose proof (only_key_single_script (seq_key u) step now r) as Ho. by rewrite Hrun in Ho. }
  assert (Hother : ∀ v row n, v ≠ u → t !! v = Some row → user_ok r' row l v ∧ user_ok r' row ((u, n) :: l) v)
    by (intros; eapply user_ok_other; eauto).
  destruct (t !! u) as [row|] eqn:Hrow.
  2: { assert (Hne : ∀ v row', t !! v = Some row' → v ≠ u) by (intros v row' Hv ->; congruence).
       split; [|intros x _]; (split; [intros v row' Hv; eapply (Hother v row'); eauto|]); [done|].
       apply overlaps_cons; [|done]. rewrite Hrow. by intros [? [=]]. }
  destruct (Hus u row Hrow) as (p & b & Hp & H1 & H2 & H3 & H4).
  destruct (in_i64 (default 0 p.1 + 1)%Z) eqn:Hi.
  2: { rewrite (single_script_overflow _ _ _ _ _ Hp Hi) in Hrun. simplify_eq. split; [by split|done]. }
  destruct (single_script_run now r _ step p Hp Hi) as (r1 & Hr1 & Hp1 & _). rewrite Hr1 in Hrun. simplify_eq.
  destruct (bump_counts p H1) as (E1 & E2 & E3 & _).
  assert (Hnew : ∀ l', (∀ n, (u, n) ∈ l' → (n ≤ Z.max (counted p + 1) (b + D u))%Z) → user_ok r' row l' u).
  { intros l' Hl'. exists (pair_of (bump step p)), b. rewrite E2. split_and!; try done; lia. }
  split; [|intros x [= <-]]; split.
  - intros v row' Hv. destruct (decide (v = u)) as [->|]; [|by eapply (Hother v row' 0%Z)]. simplify_eq.
    apply Hnew. intros n Hn. specialize (H4 n Hn). lia.
  - done.
  - intros v row' Hv. destruct (decide (v = u)) as [->|]; [|by eapply Hother]. simplify_eq. rewrite E1.
    apply Hnew. intros n [[= ->]|Hn]%elem_of_cons; [lia|]. specialize (H4 n Hn). lia.
  - apply overlaps_cons; [|done]. intros _ n' Hn'. rewrite E1. specialize (H4 n' Hn'). specialize (HD u). lia.
Qed.

(** A group, member by member, up to where the script stops. *)
Lemma group_counts t now ms : ∀ r o r' l,
  counts_ok t r l → iterate_single step ms now r = (o, r') →
  counts_ok t r' l ∧ ∀ rows, o = Ok rows → ∃ gs, rows = seq_row <$> gs ∧ ms = mem_id <$> gs
    ∧ counts_ok t r' (reverse ((λ g, (mem_id g, cur_seq g)) <$> gs) ++ l).
Proof.
  induction ms as [|u ms IH]; intros r o r' l Hc Hrun; cbn [iterate_single] in Hrun.
  { unfold mret, M_ret in Hrun. simplify_eq. split; [done|]. intros rows [= <-]. by exists []. }
  unfold mbind, M_bind in Hrun. destruct (single_script _ _ _ r) as [o1 r1] eqn:H1.
  destruct (single_counts _ _ _ _ _ _ _ Hc H1) as [Hc1 Hx].
  destruct o1 as [[[c m] b]| | |]; [|by simplify_eq..].
  destruct (iterate_single step ms now r1) as [o2 r2] eqn:H2.
  specialize (Hx _ eq_refl). simpl in Hx.
  destruct (IH _ _ _ _ Hc1 H2) as [Hc2 _]. destruct (IH _ _ _ _ Hx H2) as [_ Hrows].
  destruct o2 as [rows| | |]; simpl in Hrun; unfold mret, M_ret in Hrun; simplify_eq; split; try done.
  intros rows' [= <-]. destruct (Hrows rows eq_refl) as (gs & -> & -> & Hgs).
  exists (mkGroupMemSeq u c m b :: gs). split_and!; [done|done|].
  rewrite fmap_cons, reverse_cons, <- app_assoc. done.
Qed.

(** Reservations that only grow keep the counts. *)
Lemma grown_counts t t' r l :
  (∀ u, is_Some (t' !! u) → is_Some (t !! u)) →
  (∀ u row row', t !! u = Some row → t' !! u = Some row' → (rec_max_seq row ≤ rec_max_seq row')%Z) →
  counts_ok t r l → counts_ok t' r l.
Proof.
  intros Hdom Hge [Hus Hord]. split; [|exact (overlaps_weaken _ _ _ _ Hdom Hord)].
  intros u row' Hu'. destruct (Hdom u (mk_is_Some _ _ Hu')) as [row Hu].
  destruct (Hus u row Hu) as (p & b & Hp & H1 & H2 & H3 & H4). exists p, b. split_and!; try done.
  specialize (Hge u row row' Hu Hu'). lia.
Qed.

Lemma save_counts u w o w' l :
  save_max_seq step u w = (o, w') →
  counts_ok (t_sequence (w_pg w)) (w_redis w) l → counts_ok (t_sequence (w_pg w')) (w_redis w') l.
Proof.
  intros (-> & [[-> _]|(a & p & Hq & -> & _)])%pg_call_cases; [done|].
  simpl in Hq. destruct (t_sequence (w_pg w) !! u) as [row|] eqn:Hu; simpl in Hq; [|done].
  destruct (in_i64 _); simplify_eq/=. apply grown_counts.
  - intros v. rewrite lookup_insert_is_Some. intros [<-|[_ ?]]; [by eexists|done].
  - intros v row1 row2 H1 [[<- <-]|[_ H2]]%lookup_insert_Some; simplify_eq/=; lia.
Qed.

Lemma save_all_counts us w o w' l :
  save_max_seq_batch step us w = (o, w') →
  counts_ok (t_sequence (w_pg w)) (w_redis w) l → counts_ok (t_sequence (w_pg w')) (w_redis w') l.
Proof.
  unfold save_max_seq_batch. case_bool_decide; [by intros [= <- <-]|].
  intros (-> & [[-> _]|(a & p & Hq & -> & _)])%pg_call_cases; [done|].
  case_bool_decide; simplify_eq/=. unfold batch_update. apply grown_counts.
  - intros v. rewrite map_lookup_imap. by destruct (t_sequence (w_pg w) !! v) as [|].
  - intros v row1 row2 H1. rewrite map_lookup_imap, H1. simpl. intros [= <-].
    case_bool_decide; simpl; lia.
Qed.

Lemma loss_counts w w' l :
  healthy w → (∀ u, registered u w → (exposure w u ≤ D u)%Z) →
  load_seq (lose_cache w) = (Ok tt, w') →
  counts_ok (t_sequence (w_pg w)) (w_redis w) l → counts_ok (t_sequence (w_pg w')) (w_redis w') l.
Proof.
  intros Hnet Hexp Hload [Hus Hord].
  destruct (reloaded_counters w w' Hnet Hload) as (Hpg & _ & Hloaded). rewrite Hpg. split; [|done].
  intros u row Hu. destruct (Hus u row Hu) as (p & b & Hp & H1 & H2 & H3 & H4).
  specialize (Hexp u (mk_is_Some _ _ Hu)). unfold exposure in Hexp. rewrite Hp, Hu in Hexp.
  exists (Some (rec_max_seq row), Some (rec_max_seq row)), (rec_max_seq row).
  split_and!; [by apply Hloaded|done|done|done|]. simpl.
  intros n Hn. specialize (H4 n Hn). lia.
Qed.

Lemma seq_call_counts x y :
  seq_call x y → counts_ok (t_sequence (w_pg x.1)) (w_redis x.1) x.2 →
  counts_ok (t_sequence (w_pg y.1)) (w_redis y.1) y.2.
Proof.
  intros [u o w w' l Hrun|ms o w w' l Hrun|u o w w' l Hrun|us o w w' l Hrun|w w' l Hnet Hexp Hload|w w' l [Hp Ht]];
    simpl; intros Hc.
  - unfold increase_seq in Hrun. rewrite Hsame in Hrun.
    destruct (redis_call_cases _ _ _ _ Hrun) as (-> & [[-> Ho]|[-> Ho]]).
    { destruct o; try done. by destruct (Ho a). }
    destruct (single_script _ _ _ _) as [o1 r1] eqn:H1.
    destruct (single_counts _ _ _ _ _ _ _ Hc H1) as [Hc1 Hx]. simpl in *.
    destruct o as [v| | |]; simpl; [|done..]. by apply Hx, Ho.
  - unfold incr_group_seq in Hrun. rewrite Hsame in Hrun. 
    assert (Hbind : ((redis_conn ;; redis_run (group_script step ms)) ≫= λ rs, collect_members rs ms) w = (o, w')).
    { rewrite <- Hrun. unfold mbind, M_bind. by destruct (redis_conn w) as [[] ?]. }
    clear Hrun. unfold mbind at 1, M_bind at 1 in Hbind.
    destruct ((redis_conn ;; redis_run (group_script step ms)) w) as [o1 w1] eqn:Hcall.
    destruct (redis_call_cases _ _ _ _ Hcall) as [Hpg Hcases].
    assert (Hw : w_redis w' = w_redis w1 ∧ w_pg w' = w_pg w1).
    { destruct o1 as [rs| | |]; simplify_eq; try done.
      pose proof (keeps_collect (same (λ w, (w_redis w, w_pg w))) rs ms w1) as Hk. rewrite Hbind in Hk.
      unfold same in Hk. simpl in Hk. by simplify_eq. }
    destruct Hw as [-> ->]. rewrite Hpg. destruct Hcases as [[-> Ho]|[-> Ho]].
    { destruct o1 as [rs| | |]; simplify_eq; try done. by destruct (Ho rs). }
    rewrite group_script_iterate in Ho |- *.
    destruct (iterate_single _ _ _ _) as [o2 r2] eqn:H2.
    destruct (group_counts _ _ _ _ _ _ _ Hc H2) as [Hc2 Hrows]. simpl in *.
    destruct o1 as [rs| | |]; simplify_eq; try done.
    destruct (Hrows rs (Ho rs eq_refl)) as (gs & -> & -> & Hgs).
    rewrite collect_members_rows in Hbind. by simplify_eq.
  - by eapply save_counts.
  - by eapply save_all_counts.
  - by eapply loss_counts.
  - rewrite Ht. destruct Hc as [Hus Hord]. split; [|done]. intros u row Hu.
    destruct (Hus u row Hu) as (p & b & ? & ?). exists p, b. by rewrite Hp.
Qed.

Lemma seq_calls_counts x y :
  rtc seq_call x y → counts_ok (t_sequence (w_pg x.1)) (w_redis x.1) x.2 →
  counts_ok (t_sequence (w_pg y.1)) (w_redis y.1) y.2.
Proof. induction 1 as [|x y z Hxy _ IH]; [done|]. intros Hx. by eapply IH, seq_call_counts. Qed.

Lemma exposure_eq w w' u p p' row row' :
  pseq (w_redis w) (seq_key u) = Some p → pseq (w_redis w') (seq_key u) = Some p' →
  t_sequence (w_pg w) !! u = Some row → t_sequence (w_pg w') !! u = Some row' →
  (exposure w' u = exposure w u + (limit step p' - limit step p) - (rec_max_seq row' - rec_max_seq row))%Z.
Proof. intros H1 H2 H3 H4. unfold exposure. rewrite H1, H2, H3, H4. lia. Qed.

(** A run of calls from counters in order. *)
Lemma seq_calls_overlap w w' l :
  seq_inv step w → rtc seq_call (w, []) (w', l) → overlaps_within D (λ u, registered u w') l.
Proof.
  intros Hinv Hrun.
  assert (Hstart : counts_ok (t_sequence (w_pg w)) (w_redis w) []).
  { split; [|apply overlaps_nil]. intros u row _.
    destruct (seq_ok_Some _ _ (Hinv (seq_key u) (is_seq_key_seq u))) as (p & Hp & Hok).
    exists p, (Z.min (counted p) (rec_max_seq row)).
    split_and!; [done| |lia|lia|by intros n ?%not_elem_of_nil].
    unfold counted, limit. destruct p as [[c|] [m|]]; simpl in *; lia || done. }
  exact (co_order _ _ _ (seq_calls_counts _ _ Hrun Hstart)).
Qed.
End protocol.

(** ** The consumers as scripts of these calls *)

Section consumers.
Context (from_json : string → option Msg) (decode_read : bytes → option MsgRead)
        (decode_strings : bytes → option (list string)).
Context (cs : ConsumerService) (box : MsgRecBoxLaws (cs_box cs)) `{!PusherLaws (cs_pusher cs)}.
Context (Hhistory : ∀ m, keeps same_counters (cs_save_history cs m)).

(** What a consumer does between two points where others may come in: an
    increment, a reservation, or something beside the protocol. *)
Inductive consumer_call : ∀ A, IO A → Prop :=
| CIncrease u : consumer_call _ (increase_seq (cs_cache cs) u)
| CGroup ms : consumer_call _ (incr_group_seq (cs_cache cs) ms)
| CSave u : consumer_call _ (save_max_seq (cs_seq_step cs) u)
| CSaveAll us : consumer_call _ (save_max_seq_batch (cs_seq_step cs) us)
| CBeside A (m : IO A) : keeps same_counters m → consumer_call A m.

Lemma consumer_call_step D A (m : IO A) w l :
  consumer_call A m → ∃ l', seq_call (cs_seq_step cs) (cs_cache cs) D (w, l) ((m w).2, l').
Proof.
  intros [u|ms|u|us|B m' Hm].
  - destruct (increase_seq _ u w) as [o w'] eqn:H. by eexists; eapply call_increase.
  - destruct (incr_group_seq _ ms w) as [o w'] eqn:H. by eexists; eapply call_group.
  - destruct (save_max_seq _ u w) as [o w'] eqn:H. by eexists; eapply call_save.
  - destruct (save_max_seq_batch _ us w) as [o w'] eqn:H. by eexists; eapply call_save_all.
  - exists l. apply call_beside, Hm.
Qed.

Abbreviation stepwise := (stepwise consumer_call).

(** Calls beside the protocol. *)
Lemma beside_redis {A} k (c : Z → RM A) :
  (∀ u, seq_key u ≠ k) → (∀ now, keeps (only_key k) (c now)) → keeps same_counters (redis_conn ;; redis_run c).
Proof.
  intros Hk Hc w. destruct ((redis_conn ;; redis_run c) w) as [o w'] eqn:H.
  destruct (redis_call_cases _ _ _ _ H) as [Hpg [[Hr _]|[Hr _]]]; (split; simpl; [|by rewrite Hpg]); intros u.
  - by rewrite Hr.
  - rewrite Hr. by apply (pseq_other k); [apply Hc|].
Qed.
Lemma beside_same {A X} (f : World → X) (m : IO A) :
  (∀ w w', f w' = f w → w_redis w' = w_redis w ∧ w_pg w' = w_pg w) → keeps (same f) m → keeps same_counters m.
Proof. intros Hf Hm w. destruct (Hf _ _ (Hm w)) as [H1 H2]. split; [by rewrite H1|by rewrite H2]. Qed.
Lemma beside_box {A} (m : IO A) : keeps (same outside_box) m → keeps same_counters m.
Proof. apply beside_same. unfold outside_box. intros w w' H. by simplify_eq. Qed.
Lemma beside_stores {A} (m : IO A) : keeps (same stores) m → keeps same_counters m.
Proof. apply beside_same. unfold stores. intros w w' H. by simplify_eq. Qed.
Lemma beside_query {A} (q : Pg → option A) : keeps same_counters (pg_query q).
Proof.
  intros w. destruct (pg_query q w) as [o w'] eqn:H.
  destruct (pg_call_cases (λ p, a ← q p; Some (a, p)) _ _ _ H) as (Hr & [[Hp _]|(a & p & Hq & Hp & _)]);
    (split; simpl; [by rewrite Hr|]).
  - by rewrite Hp.
  - destruct (q (w_pg w)) as [a'|]; simpl in Hq; [|done]. injection Hq as _ <-. by rewrite Hp.
Qed.

Lemma only_key_send_seq u now : keeps (only_key (send_seq_key u))
  (v1 ← HGET now (send_seq_key u) CUR_SEQ_KEY; v2 ← HGET now (send_seq_key u) MAX_SEQ_KEY;
   s1 ← as_opt_i64 v1; s2 ← as_opt_i64 v2; mret (default 0%Z s1, default 0%Z s2)).
Proof.
  assert (Hv : ∀ v, keeps (only_key (send_seq_key u)) (as_opt_i64 v))
    by (intros [[]|]; (apply keeps_ret || apply keeps_throw); apply _).
  do 2 (apply keeps_bind; [apply _|apply only_key_HGET|intros ?]).
  do 2 (apply keeps_bind; [apply _|apply Hv|intros ?]). apply keeps_ret, _.
Qed.

Lemma beside_send_seq u : keeps same_counters (get_send_seq u).
Proof. eapply beside_redis; [|apply only_key_send_seq]. intros. apply seq_send_key_ne. Qed.
Lemma beside_save_members g l : keeps same_counters (save_group_members_id g l).
Proof.
  eapply (beside_redis (members_key g)); [intros; apply seq_not_members|].
  intros now. apply keeps_pipeline; [apply _|]. apply Forall_forall.
  intros c (m & <- & _)%list_elem_of_In%in_map_iff. auto with frames.
Qed.

Lemma consumer_calls : HandlingCalls consumer_call cs.
Proof.
  split; intros; try (by constructor); apply CBeside; try apply beside_query; try apply beside_send_seq;
    try apply beside_save_members;
    try (apply beside_stores; first [apply push_single_frame|apply push_group_frame]);
    try (apply beside_box; first [apply (@box_frame_save _ box)|apply (@box_frame_group _ box)
      |apply (@box_frame_delete _ box)|apply (@box_frame_read _ box)]);
    try apply Hhistory;
    (eapply beside_redis; [|solve [eauto with frames]]; intros; apply seq_not_members).
Qed.

Lemma handle_msg_counted payload : stepwise (handle_msg from_json decode_read decode_strings cs payload).
Proof. apply handle_msg_steps, consumer_calls. Defined.
End consumers.

(** ** Runs of consumers *)

(** Beside the consumers: the cache is lost and loaded again when nobody is
    exposed by more than [D], or something happens that touches neither receive
    counters nor reservations. *)
Definition around (step : Z) (D : string → Z) (w w' : World) : Prop :=
  same_counters w w'
  ∨ healthy w ∧ (∀ u, registered u w → (exposure step w u ≤ D u)%Z) ∧ load_seq (lose_cache w) = (Ok tt, w').

(** C2. How far receive numbers can fall back. Whatever calls the consumers
    make to the counters and reservations, in whatever order, whichever of them
    fail, before or after their effect, and however often the cache is lost and
    loaded again: a number handed out to a registered user is larger, up to
    [D u], than every number handed out to that user before, if at each loss
    the counter of [u] was at most [D u] ahead of its reservation. Where the
    reservations had caught up at every loss, no number is ever reused. *)
Theorem receive_seq_overlap_bounded (step : Z) (cache : RedisCache) (D : string → Z) (w w' : World)
    (l : list (string * Z)) (Hstep : (0 < step)%Z) (Hsame : rc_seq_step cache = step)
    (HD : ∀ u, (0 ≤ D u)%Z) (Hinv : seq_inv step w)
    (Hrun : rtc (seq_call step cache D) (w, []) (w', l)) :
  ∀ l1 u n l2 n', l = l1 ++ (u, n) :: l2 → registered u w' → (u, n') ∈ l2 → (n' < n + D u)%Z.
Proof. by eapply seq_calls_overlap. Qed.

(** C3. The consumers follow the protocol. Any number of handled records, whose
    calls to cache, database, box and gateways interleave one by one, fail and
    are cut short anywhere, is a run of the protocol's calls: handling a record
    is a script of increments, reservations and calls beside the counters. *)
Theorem consumers_follow_protocol (from_json : string → option Msg) (decode_read : bytes → option MsgRead)
    (decode_strings : bytes → option (list string)) (cs : ConsumerService) (box : MsgRecBoxLaws (cs_box cs))
    `{!PusherLaws (cs_pusher cs)} (Hhistory : ∀ m, keeps same_counters (cs_save_history cs m))
    (D : string → Z) (w : World) :
  ∃ script_of : string → script unit,
    (∀ payload v, run (script_of payload) v = handle_msg from_json decode_read decode_strings cs payload v)
    ∧ (∀ payload, calls (consumer_call cs) (script_of payload))
    ∧ ∀ w' ps, rtc (sched_step script_of (around (cs_seq_step cs) D)) (w, []) (w', ps) →
        ∃ l, rtc (seq_call (cs_seq_step cs) (cs_cache cs) D) (w, []) (w', l).
Proof.
  pose (steps := handle_msg_counted from_json decode_read decode_strings cs box Hhistory).
  exists (λ payload, sw_script (steps payload)).
  assert (Hcalls : ∀ payload, calls (consumer_call cs) (sw_script (steps payload))) by (intros; apply sw_calls).
  split_and!; [intros; apply sw_run|done|]. intros w' ps Hrun.
  refine (proj2 (sched_lifts _ _ (consumer_call cs) (seq_call (cs_seq_step cs) (cs_cache cs) D) [] w w' ps Hcalls _ _ Hrun)).
  - intros X op v l Hop. by apply consumer_call_step.
  - intros v v' l [Hs|(H1 & H2 & H3)]; exists l; [by apply call_beside|by apply call_loss].
Qed.

(** ** What a lost reservation does *)

(** A delivery that answers reserves what it counts, so it exposes nobody; one
    that fails exposes its own user by one block at most. *)
Section exposed.
Context (cs : ConsumerService) (Hstep : (0 < cs_seq_step cs)%Z)
        (Hsame : rc_seq_step (cs_cache cs) = cs_seq_step cs).
Abbreviation step := (cs_seq_step cs).

Lemma increase_effect u w o w' p :
  increase_seq (cs_cache cs) u w = (o, w') → pseq (w_redis w) (seq_key u) = Some p →
  w_pg w' = w_pg w ∧ only_key (seq_key u) (w_redis w) (w_redis w') ∧
  ((pseq (w_redis w') (seq_key u) = Some p ∧ ∀ x, o ≠ Ok x)
   ∨ (pseq (w_redis w') (seq_key u) = Some (pair_of (bump step p)) ∧ ∀ x, o = Ok x → x = bump step p)).
Proof.
  intros Hrun Hp. unfold increase_seq in Hrun. rewrite Hsame in Hrun.
  destruct (redis_call_cases _ _ _ _ Hrun) as (Hpg & [[Hr Ho]|[Hr Ho]]); (split; [done|]).
  { rewrite Hr. split; [done|by left]. }
  destruct (in_i64 (default 0 p.1 + 1)%Z) eqn:Hi.
  - destruct (single_script_run (w_clock w) _ _ step p Hp Hi) as (r' & E & Hp' & Hk).
    rewrite E in Hr, Ho. simpl in *. rewrite Hr. split; [done|]. right. split; [done|].
    intros x Hx. specialize (Ho x Hx). by simplify_eq.
  - rewrite (single_script_overflow _ _ _ _ _ Hp Hi) in Hr, Ho. simpl in *. rewrite Hr.
    split; [done|]. left. split; [done|]. intros x ->. by specialize (Ho x eq_refl).
Qed.

Lemma save_effect u w o w' row :
  save_max_seq step u w = (o, w') → t_sequence (w_pg w) !! u = Some row →
  w_redis w' = w_redis w ∧ (∀ v, v ≠ u → t_sequence (w_pg w') !! v = t_sequence (w_pg w) !! v) ∧
  ((t_sequence (w_pg w') !! u = Some row ∧ ∀ x, o ≠ Ok x)
   ∨ t_sequence (w_pg w') !! u = Some (bump_rec step row)).
Proof.
  intros (Hr & [[Hpg Ho]|(a & p & Hq & Hpg & _)])%pg_call_cases Hrow; (split; [done|]); rewrite Hpg.
  { split; [done|by left]. }
  rewrite Hrow in Hq. simpl in Hq. destruct (in_i64 _); [|done]. injection Hq as _ <-. simpl.
  split; [intros v Hv; by rewrite lookup_insert_ne|]. right. by rewrite lookup_insert_eq.
Qed.
End exposed.

(** Only a lost reservation exposes a user. Whatever fails while the
    consumer numbers a message for a registered user, every other user is
    exposed as before; the user itself is exposed by at most one more block,
    and not at all if the numbering answers. *)
Theorem delivery_exposure (cs : ConsumerService) (u : string) (w w' : World) (o : outcome Error Z)
    (p : option Z * option Z) (row : SeqRow)
    (Hstep : (0 < cs_seq_step cs)%Z) (Hsame : rc_seq_step (cs_cache cs) = cs_seq_step cs)
    (Hp : pseq (w_redis w) (seq_key u) = Some p) (Hle : (counted p ≤ limit (cs_seq_step cs) p)%Z)
    (Hrow : t_sequence (w_pg w) !! u = Some row)
    (Hrun : increase_message_seq cs u w = (o, w')) :
  (∀ v, v ≠ u → exposure (cs_seq_step cs) w' v = exposure (cs_seq_step cs) w v)
  ∧ (exposure (cs_seq_step cs) w' u ≤ exposure (cs_seq_step cs) w u + cs_seq_step cs)%Z
  ∧ (∀ n, o = Ok n → n = (counted p + 1)%Z ∧ exposure (cs_seq_step cs) w' u = exposure (cs_seq_step cs) w u).
Proof.
  unfold increase_message_seq, mbind, M_bind in Hrun.
  destruct (increase_seq (cs_cache cs) u w) as [o1 w1] eqn:H1.
  destruct (increase_effect cs Hsame u w o1 w1 p H1 Hp) as (Hpg & Hk & Hcases).
  destruct (bump_counts (cs_seq_step cs) Hstep p Hle) as (E1 & _ & _ & E4).
  assert (Hother1 : ∀ v, v ≠ u → pseq (w_redis w1) (seq_key v) = pseq (w_redis w) (seq_key v))
    by (intros v Hv; apply (pseq_other (seq_key u)); [done|by intros ?%seq_key_inj]).
  destruct o1 as [[[c m] grew]| | |].
  2-4: simplify_eq; assert (Ht : t_sequence (w_pg w') !! u = Some row) by (by rewrite Hpg);
    (split_and!; [intros v Hv; unfold exposure; by rewrite Hother1, Hpg| |by intros n [=]]);
    destruct Hcases as [[Hp1 _]|[Hp1 _]];
    pose proof (exposure_eq (cs_seq_step cs) _ _ u _ _ row _ Hp Hp1 Hrow Ht);
    destruct (bump _ p).2; simpl in *; lia.
  - destruct Hcases as [[_ Ho]|[Hp1 Hx]]; [by destruct (Ho (c, m, grew))|]. specialize (Hx _ eq_refl).
    rewrite <- Hx in *. simpl in *. subst c. destruct grew.
    + destruct (save_max_seq (cs_seq_step cs) u w1) as [o2 w2] eqn:H2.
      destruct (save_effect cs u w1 o2 w2 row H2 ltac:(by rewrite Hpg)) as (Hr2 & Hv2 & Hcases2).
      assert (Hw2 : w' = w2) by (destruct o2; simpl in Hrun; unfold mret, M_ret in Hrun; congruence). subst w'.
      assert (Hp2 : pseq (w_redis w2) (seq_key u) = Some (pair_of (counted p + 1, m, true)%Z)) by by rewrite Hr2.
      split_and!.
      * intros v Hv. unfold exposure. by rewrite Hr2, Hother1, Hv2, Hpg.
      * destruct Hcases2 as [[Ht _]|Ht]; pose proof (exposure_eq (cs_seq_step cs) _ _ u _ _ row _ Hp Hp2 Hrow Ht); simpl in *; lia.
      * intros n ->. destruct o2 as [x| | |]; [|discriminate Hrun..].
        unfold mret, M_ret in Hrun. simpl in Hrun. injection Hrun as <-. destruct Hcases2 as [[_ Ho]|Ht]; [by destruct (Ho x)|].
        pose proof (exposure_eq (cs_seq_step cs) _ _ u _ _ row _ Hp Hp2 Hrow Ht). split; [done|]. simpl in *. lia.
    + unfold mret, M_ret in Hrun. simplify_eq.
      assert (Ht : t_sequence (w_pg w') !! u = Some row) by by rewrite Hpg.
      pose proof (exposure_eq (cs_seq_step cs) _ _ u _ _ row _ Hp Hp1 Hrow Ht). simpl in *.
      split_and!; [|lia|intros n [= <-]; lia]. intros v Hv. unfold exposure. by rewrite Hother1, Hpg.
Qed.

(** C39. A lost reservation makes numbers come twice. When the block of a user
    is used up and the database misses the reservation of the next one, the
    message at hand is given up; the next message to the user is delivered all
    the same, with a number nobody has reserved, since the cache asks for a
    reservation once per block. If the cache is then lost, numbering resumes at
    the old reservation, and the number of the delivered message is given to
    another message. *)
Theorem lost_reservation_reissues (cs : ConsumerService) (u : string) (w : World) (row : SeqRow) (c : Z)
    (Hnet : healthy w) (Hstep : (2 ≤ cs_seq_step cs)%Z) (Hsame : rc_seq_step (cs_cache cs) = cs_seq_step cs)
    (Hsz : (size (t_sequence (w_pg w)) ≤ 1024)%nat)
    (Hrow : t_sequence (w_pg w) !! u = Some row) (Hrec : rec_max_seq row = c)
    (Hfull : pseq (w_redis w) (seq_key u) = Some (Some c, Some c))
    (Hc : (0 ≤ c)%Z) (H64 : (c + 2 * cs_seq_step cs ≤ i64_max)%Z) :
  ∃ w1 w2 w3 w4 w5,
    increase_message_seq cs u (upd_faults (λ _, [Pass; Pass; FailBefore]) w) = (Err pg_error, w1)
    ∧ increase_message_seq cs u w1 = (Ok (c + 2)%Z, w2)
    ∧ load_seq (lose_cache w2) = (Ok tt, w3)
    ∧ increase_message_seq cs u w3 = (Ok (c + 1)%Z, w4)
    ∧ increase_message_seq cs u w4 = (Ok (c + 2)%Z, w5).
Proof.
  set (st := cs_seq_step cs) in *.
  assert (Hin : ∀ z, (0 ≤ z ≤ c + 2 * st)%Z → in_i64 z = true).
  { intros z Hz. unfold in_i64, i64_min. rewrite andb_true_iff, !bool_decide_eq_true. lia. }
  assert (Hroom : ∀ v, t_sequence (w_pg v) = t_sequence (w_pg w) → has_room cs u v).
  { intros v Hv. exists row. rewrite Hv. split; [done|]. apply Hin. lia. }
  destruct (single_script_run (w_clock w) _ _ st _ Hfull (Hin (c + 1)%Z ltac:(lia))) as (r1 & E1 & P1 & _).
  set (w1 := upd_redis (λ _, r1) w).
  assert (B : bump st (Some c, Some c) = (c + 1, c + st, true)%Z)
    by (unfold bump; simpl; by rewrite (proj2 (Z.ltb_lt _ _)) by lia).
  rewrite B in E1, P1.
  assert (R1 : increase_message_seq cs u (upd_faults (λ _, [Pass; Pass; FailBefore]) w) = (Err pg_error, w1)).
  { unfold increase_message_seq, increase_seq, redis_conn, redis_run, save_max_seq, pg_exec, remote, take_fault.
    mstep. simpl. rewrite Hsame. fold st. rewrite E1. simpl. unfold w1. destruct w. unfold healthy in Hnet. simpl in *. by subst. }
  destruct (increase_message_seq_run cs u w1 _ Hnet P1 (Hin (c + 1 + 1)%Z ltac:(lia)) (Hroom w1 eq_refl))
    as (r2 & R2 & P2 & _).
  rewrite Hsame in R2, P2. fold st in R2, P2. unfold pair_of, bump in R2, P2. simpl in R2, P2.
  rewrite (proj2 (Z.ltb_ge _ _)) in R2, P2 by lia. simpl in R2, P2.
  set (w2 := upd_pg id (upd_redis (λ _, r2) w1)) in *.
  assert (L : ∃ w3, load_seq (lose_cache w2) = (Ok tt, w3)) by (eexists; by apply load_seq_run).
  destruct L as [w3 R3]. destruct (reloaded_counters w2 w3 Hnet R3) as (Hpg3 & Hnet3 & Hl3).
  specialize (Hl3 u row Hrow). rewrite Hrec in Hl3.
  assert (Ht3 : t_sequence (w_pg w3) = t_sequence (w_pg w)) by (by rewrite Hpg3).
  destruct (increase_message_seq_run cs u w3 _ Hnet3 Hl3 (Hin (c + 1)%Z ltac:(lia)) (Hroom w3 Ht3))
    as (r4 & R4 & P4 & _).
  rewrite Hsame in R4, P4. fold st in R4, P4. rewrite B in R4, P4. simpl in R4, P4.
  set (w4 := upd_pg (grow_row cs u) (upd_redis (λ _, r4) w3)) in *.
  assert (Hroom4 : has_room cs u w4).
  { exists (bump_rec st row). split; [unfold w4, grow_row, upd_sequence; simpl; by rewrite lookup_alter_eq, Ht3, Hrow|].
    simpl. apply Hin. lia. }
  destruct (increase_message_seq_run cs u w4 _ Hnet3 P4 (Hin (c + 1 + 1)%Z ltac:(lia)) Hroom4) as (r5 & R5 & _).
  rewrite Hsame in R5. fold st in R5. unfold pair_of, bump in R5. simpl in R5.
  rewrite (proj2 (Z.ltb_ge _ _)) in R5 by lia. simpl in R5.
  replace (c + 1 + 1)%Z with (c + 2)%Z in R2, R5 by lia.
  exists w1, w2, w3, w4. eexists. split_and!; [exact R1|exact R2|exact R3|exact R4|exact R5].
Qed.

(** *** The load that leaves counters out *)

Lemma load_loop_short rows : ∀ acc w, length (acc ++ rows) < BATCH_SIZE → load_loop rows acc w = (Ok (acc ++ rows), w).
Proof.
  induction rows as [|item rows IH]; intros acc w Hlen; simpl; [by rewrite app_nil_r|].
  assert (Hl : length (acc ++ [item]) < BATCH_SIZE) by (rewrite length_app in *; simpl in *; lia).
  rewrite bool_decide_eq_false_2 by lia. rewrite IH by (by rewrite <- app_assoc). by rewrite <- app_assoc.
Qed.

(** C40. A load that loses its rows counts as loaded. With fewer than fifty
    users the loader writes all counters in one flush; when that flush is lost
    the loader logs it and marks the cache as loaded. It succeeds, no later
    start loads anything, and every user is numbered from 1 again, whatever the
    reservations say. *)
Theorem lost_flush_restarts_numbers (cs : ConsumerService) (w : World)
    (Hnet : healthy w) (Hstep : (0 < cs_seq_step cs)%Z) (Hsame : rc_seq_step (cs_cache cs) = cs_seq_step cs)
    (Hsome : t_sequence (w_pg w) ≠ ∅) (Hfew : (size (t_sequence (w_pg w)) < 50)%nat) :
  ∃ w1, load_seq (upd_faults (λ _, [Pass; Pass; Pass; FailBefore]) (lose_cache w)) = (Ok tt, w1)
    ∧ healthy w1 ∧ w_pg w1 = w_pg w ∧ load_seq w1 = (Ok tt, w1)
    ∧ ∀ u, has_room cs u w1 → ∃ w2, increase_message_seq cs u w1 = (Ok 1%Z, w2).
Proof.
  set (w1 := upd_redis (λ _, {[IS_LOADED := (RString SEQ_NO_NEED_LOAD, None)]}) w).
  assert (Hrows : seq_rows (w_pg w) ≠ []).
  { unfold seq_rows. intros H%fmap_nil_inv%map_to_list_empty_iff. done. }
  assert (Hlen : length (seq_rows (w_pg w)) = size (t_sequence (w_pg w)))
    by (unfold seq_rows; by rewrite length_fmap, length_map_to_list).
  exists w1. split_and!; [|done|done| |].
  - unfold load_seq, check_seq_loaded, get_max_seq, set_seq, set_seq_loaded, redis_conn, redis_run, pg_exec, remote,
      take_fault, unwrap, attempt, log_err. mstep. simpl. unfold GET, rget. rewrite lookup_empty. simpl.
    rewrite length_map_to_list, bool_decide_eq_true_2 by (unfold CHANNEL_CAPACITY; lia). simpl.
    change ((λ '(u, row), (u, send_max_seq row, rec_max_seq row)) <$> map_to_list (t_sequence (w_pg w)))
      with (seq_rows (w_pg w)).
    rewrite load_loop_short by (simpl; rewrite Hlen; unfold BATCH_SIZE; lia). simpl.
    rewrite bool_decide_eq_false_2 by done. simpl. unfold w1. destruct w. unfold healthy in Hnet. simpl in *. by subst.
  - unfold load_seq, check_seq_loaded. mstep. rewrite redis_conn_healthy by done.
    rewrite (redis_run_query _ _ (Some SEQ_NO_NEED_LOAD)); [done|done|].
    unfold GET, rget. simpl. by rewrite lookup_singleton_eq.
  - intros u Hroom. assert (Hp : pseq (w_redis w1) (seq_key u) = Some (None, None)).
    { unfold pseq, hash_at. simpl. rewrite lookup_singleton_ne; [done|].
      intros E. apply loaded_key_not_seq. rewrite E. apply is_seq_key_seq. }
    destruct (increase_message_seq_run cs u w1 _ Hnet Hp eq_refl Hroom) as (r & R & _).
    rewrite Hsame in R. unfold bump in R. simpl in R. rewrite (proj2 (Z.ltb_ge _ _)) in R by lia. by eexists.
Qed.


(** ** Witnesses *)

(** Bob gets 1, the cache is lost; he gets 6, whose reservation never comes;
    the cache is lost again, and he gets 6 once more. *)
Definition after_increase (w : World) : World := (increase_seq (cs_cache demo_service) "bob" w).2.
Definition after_loss (w : World) : World := (load_seq (lose_cache w)).2.
Definition bob_1 : World := after_increase demo_world.
Definition bob_2 : World := after_loss bob_1.
Definition bob_3 : World := after_increase bob_2.
Definition bob_4 : World := after_loss bob_3.
Definition bob_5 : World := after_increase bob_4.

Definition one_block : string → Z := λ _, 5%Z.

Lemma bob_increases w l o :
  (increase_seq (cs_cache demo_service) "bob" w).1 = o →
  seq_call 5 (cs_cache demo_service) one_block (w, l) (after_increase w, single_number "bob" o ++ l).
Proof. intros <-. apply call_increase. unfold after_increase. by destruct (increase_seq _ _ w). Qed.

Lemma demo_rows u row : t_sequence (w_pg demo_world) !! u = Some row → rec_max_seq row = 5%Z.
Proof.
  intros Hrow. apply elem_of_map_to_list in Hrow. vm_compute in Hrow.
  repeat (apply elem_of_cons in Hrow as [[= -> ->]|Hrow]; [reflexivity|]). inversion Hrow.
Qed.

(** Everybody registered is exposed by a block at most. *)
Definition exposed_one (w : World) : bool :=
  bool_decide (map_Forall (λ u (_ : SeqRow), exposure 5 w u ≤ 5)%Z (t_sequence (w_pg w))).

Lemma loss_one w l :
  healthy w → exposed_one w = true → (load_seq (lose_cache w)).1 = Ok tt →
  seq_call 5 (cs_cache demo_service) one_block (w, l) (after_loss w, l).
Proof.
  intros Hnet Hexp Hload. apply call_loss; [done| |].
  - intros u [row Hu]. apply (bool_decide_eq_true_1 _ Hexp u row Hu).
  - unfold after_loss. destruct (load_seq _) as [o w']. simpl in *. by subst.
Qed.

Definition bob_numbers : list (string * Z) := [("bob", 6%Z); ("bob", 6%Z); ("bob", 1%Z)]%string.

Lemma bob_run : rtc (seq_call 5 (cs_cache demo_service) one_block) (demo_world, []) (bob_5, bob_numbers).
Proof.
  eapply rtc_l; [apply (bob_increases demo_world [] (Ok (1, 5, false)%Z)); vm_compute; reflexivity|].
  eapply rtc_l; [apply (loss_one bob_1); vm_compute; reflexivity|].
  eapply rtc_l; [apply (bob_increases bob_2 _ (Ok (6, 10, true)%Z)); vm_compute; reflexivity|].
  eapply rtc_l; [apply (loss_one bob_3); vm_compute; reflexivity|].
  eapply rtc_l; [apply (bob_increases bob_4 _ (Ok (6, 10, true)%Z)); vm_compute; reflexivity|].
  apply rtc_refl.
Qed.

Lemma bob_registered : registered "bob" bob_5.
Proof. apply (bool_decide_eq_true_1 (is_Some _)). vm_compute. reflexivity. Qed.

Lemma receive_seq_overlap_bounded_witness : (6 < 6 + one_block "bob")%Z.
Proof.
  apply (receive_seq_overlap_bounded 5 (cs_cache demo_service) one_block demo_world bob_5 bob_numbers
    eq_refl eq_refl ltac:(intros u; discriminate) (λ k _, I) bob_run [] "bob" 6 [("bob", 6%Z); ("bob", 1%Z)]%string 6
    eq_refl bob_registered (list_elem_of_here _ _)).
Defined.

Lemma history_beside m : keeps same_counters (cs_save_history demo_service m).
Proof.
  intros w. destruct (save_message_pg_fails m w) as (_ & H1 & H2 & _). unfold same in *.
  change (cs_save_history demo_service m) with (save_message_pg m). split; [intros u; by rewrite H2|by rewrite H1].
Qed.

Lemma consumers_follow_protocol_witness :
  ∃ script_of : string → script unit, calls (consumer_call demo_service) (script_of "j"%string).
Proof.
  destruct (consumers_follow_protocol (λ _, Some hello) (λ _, None) (λ _, None) demo_service msg_box_laws
    history_beside one_block demo_world) as (script_of & _ & H & _).
  exists script_of. apply H.
Defined.

Lemma delivery_exposure_witness :
  exposure 5 (increase_message_seq demo_service "bob" demo_world).2 "bob" = 0%Z.
Proof.
  assert (Hrow : t_sequence (w_pg demo_world) !! "bob"%string = Some (mkSeqRow 5 5)) by reflexivity.
  refine (proj2 (proj2 (proj2 (delivery_exposure demo_service "bob" demo_world _ _ (None, None) _ eq_refl eq_refl
    eq_refl _ Hrow (surjective_pairing _))) 1%Z _)).
  - vm_compute. discriminate.
  - vm_compute. reflexivity.
Defined.

(** Bob's block is used up. *)
Definition bob_full : World := after_loss demo_world.

Lemma lost_reservation_reissues_witness :
  ∃ w1 w2, increase_message_seq demo_service "bob" w1 = (Ok 7%Z, w2).
Proof.
  destruct (lost_reservation_reissues demo_service "bob" bob_full (mkSeqRow 5 5) 5) as (w1 & w2 & _ & _ & _ & _ & H & _).
  - reflexivity.
  - vm_compute. discriminate.
  - reflexivity.
  - vm_compute. lia.
  - vm_compute. reflexivity.
  - reflexivity.
  - vm_compute. reflexivity.
  - lia.
  - vm_compute. discriminate.
  - exists w1, w2. exact H.
Defined.

Lemma lost_flush_restarts_numbers_witness :
  ∃ w1 w2, increase_message_seq demo_service "bob" w1 = (Ok 1%Z, w2).
Proof.
  destruct (lost_flush_restarts_numbers demo_service demo_world) as (w1 & _ & _ & Hpg & _ & H).
  - reflexivity.
  - reflexivity.
  - reflexivity.
  - intros H. apply (f_equal size) in H. vm_compute in H. discriminate.
  - vm_compute. lia.
  - destruct (H "bob"%string) as [w2 H2].
    + exists (mkSeqRow 5 5). rewrite Hpg. split; reflexivity.
    + exists w1, w2. exact H2.
Defined.
