(* ===== verification/Parts.v ===== *)
(** * Tasks that keep to a part of the world

    The tasks a handler spawns and joins run side by side. When each keeps to a
    part of the world of its own, the order in which their calls are made does
    not matter: [in_order_sound] turns any interleaving into the run of one task
    after the other, with the faults met in another order. *)

From S2P Require Import Prelude Script Errors Types Tables World.

(** ** Parts *)

(** The database, the receive box with the collections its process knows, and
    the gateways with the pushes they got. *)
Inductive Part : Type := PTables | PBox | PGateways.
#[export] Instance Part_eq_dec : EqDecision Part.
Proof. solve_decision. Defined.

Definition Parts : Type := Part → bool.
Definition only (q : Part) : Parts := λ x, bool_decide (x = q).
Definition none : Parts := λ _, false.
Definition union (A B : Parts) : Parts := λ x, A x || B x.
Definition within (A B : Parts) : Prop := ∀ x, A x = true → B x = true.
Definition apart (A B : Parts) : Prop := ∀ x, A x = true → B x = true → False.

(** The parts [A] of [v] put into [w], and another schedule of faults. *)
Definition put (A : Parts) (v w : World) : World :=
  mkWorld (w_redis w) (if A PTables then w_pg v else w_pg w)
    (if A PBox then w_mongo v else w_mongo w) (w_kafka w)
    (if A PGateways then w_pushed v else w_pushed w) (if A PGateways then w_ws_list v else w_ws_list w)
    (if A PGateways then w_registry v else w_registry w)
    (if A PBox then w_active v else w_active w) (if A PBox then w_cached v else w_cached w)
    (w_faults w) (w_clock w) (w_ids w) (w_objects w).
Definition with_faults (fs : list fault) (w : World) : World := upd_faults (λ _, fs) w.

(** Alike in the parts [A], at the same time. *)
Record alike (A : Parts) (w w' : World) : Prop := {
  al_tables : A PTables = true → w_pg w' = w_pg w;
  al_box : A PBox = true → w_mongo w' = w_mongo w ∧ w_active w' = w_active w ∧ w_cached w' = w_cached w;
  al_gateways : A PGateways = true →
    w_pushed w' = w_pushed w ∧ w_ws_list w' = w_ws_list w ∧ w_registry w' = w_registry w;
  al_clock : w_clock w' = w_clock w
}.

#[export] Instance alike_refl A : Reflexive (alike A).
Proof. by split. Qed.
Lemma alike_sym A w w' : alike A w w' → alike A w' w.
Proof. intros [H1 H2 H3 H4]. split; [intros ?; by rewrite H1| | |done]; intros E; [destruct (H2 E) as (-> & -> & ->)|destruct (H3 E) as (-> & -> & ->)]; done. Qed.
Lemma alike_trans A w1 w2 w3 : alike A w1 w2 → alike A w2 w3 → alike A w1 w3.
Proof.
  intros [H1 H2 H3 H4] [K1 K2 K3 K4].
  split; [intros E; by rewrite K1, H1| | |by rewrite K4, H4]; intros E;
    [destruct (H2 E) as (<- & <- & <-); auto|destruct (H3 E) as (<- & <- & <-); auto].
Qed.
Lemma alike_within A B w w' : within A B → alike B w w' → alike A w w'.
Proof. intros HAB [H1 H2 H3 H4]. split; auto. Qed.

Ltac parts_split := repeat match goal with |- context [if ?b then _ else _] => destruct b eqn:? end.

Lemma put_faults A v fs w : put A v (with_faults fs w) = with_faults fs (put A v w).
Proof. done. Qed.
Lemma with_faults_twice fs fs' w : with_faults fs (with_faults fs' w) = with_faults fs w.
Proof. done. Qed.
Lemma with_faults_same w : with_faults (w_faults w) w = w.
Proof. by destruct w. Qed.
Lemma put_none v w : put none v w = w.
Proof. by destruct w. Qed.
Lemma put_twice A v v' w : put A v (put A v' w) = put A v w.
Proof. unfold put. simpl. f_equal; by parts_split. Qed.
Lemma put_swap A B v v' w : apart A B → put A v (put B v' w) = put B v' (put A v w).
Proof. intros Hap. unfold put. simpl. f_equal; parts_split; try done; by destruct (Hap _ ltac:(eassumption) ltac:(eassumption)). Qed.

Lemma alike_put A v w w' : alike A w w' → alike A (put A v w) (put A v w').
Proof. intros [H1 H2 H3 H4]. split; simpl; try done; intros ->; done. Qed.
Lemma alike_put_other A B v w : apart A B → alike A w (put B v w).
Proof.
  intros Hap. assert (H : ∀ x, A x = true → B x = false) by (intros x Hx; destruct (B x) eqn:E; [by destruct (Hap x)|done]).
  split; simpl; intros; rewrite ?H by done; done.
Qed.
Lemma alike_faults A w fs : alike A w (with_faults fs w).
Proof. by split. Qed.

(** The parts [A] changed to [v] are the parts [B] changed, if [A] is within. *)
Lemma put_widen A B v w w' : within A B → alike B w w' → put A v w' = put B (put A v w) w'.
Proof.
  intros HAB Hal. unfold put. simpl.
  assert (Hf : ∀ x, B x = false → A x = false)
    by (intros x Hx; destruct (A x) eqn:E; [apply HAB in E; congruence|done]).
  f_equal; (match goal with |- context [B ?x] => destruct (B x) eqn:E end);
    try (by rewrite (Hf _ E)); (match goal with |- context [A ?x] => destruct (A x) end); try done;
    first [by rewrite (al_tables _ _ _ Hal)|destruct (al_box _ _ _ Hal E) as (? & ? & ?); congruence
    |destruct (al_gateways _ _ _ Hal E) as (? & ? & ?); congruence].
Qed.

Lemma put_alike A w w' : alike A w w' → put A w w' = w'.
Proof.
  intros [H1 H2 H3 H4]. destruct w'. unfold put. simpl in *.
  destruct (A PTables), (A PBox), (A PGateways);
    try (specialize (H1 eq_refl)); try (destruct (H2 eq_refl) as (? & ? & ?));
    try (destruct (H3 eq_refl) as (? & ? & ?)); congruence.
Qed.

(** ** Local programs *)

(** [used] is what is consumed of the schedule [fs], of which [rest] is left:
    behind its end the schedule is a row of [Pass]. *)
Definition consumes (fs used rest : list fault) : Prop :=
  fs = used ++ rest ∨ rest = [] ∧ ∃ n, used = fs ++ replicate n Pass.

Lemma consumes_nil fs : consumes fs [] fs.
Proof. by left. Qed.
Lemma consumes_app fs u1 r1 u2 r2 : consumes fs u1 r1 → consumes r1 u2 r2 → consumes fs (u1 ++ u2) r2.
Proof.
  intros [->|[-> [n ->]]] [H|[-> [k H]]].
  - subst. left. by rewrite <- app_assoc.
  - subst. right. split; [done|]. exists k. by rewrite <- app_assoc.
  - destruct u2, r2; try done. rewrite app_nil_r. right. split; [done|by exists n].
  - simpl in H. subst. right. split; [done|]. exists (n + k). by rewrite <- app_assoc, replicate_add.
Qed.

(** A program that reads and changes the parts [A] only, reads the clock, and
    takes the faults [used] off the schedule. *)
Definition local (A : Parts) {X} (m : IO X) : Prop := ∀ w, ∃ used rest o v,
  consumes (w_faults w) used rest ∧ ∀ w', alike A w w' →
    (w_faults w' = w_faults w → m w' = (o, put A v (with_faults rest w')))
    ∧ (∀ rest', w_faults w' = used ++ rest' → m w' = (o, put A v (with_faults rest' w'))).

Lemma local_widen A B {X} (m : IO X) : within A B → local A m → local B m.
Proof.
  intros HAB Hm w. destruct (Hm w) as (used & rest & o & v & Hc & H).
  exists used, rest, o, (put A v w). split; [done|]. intros w' Hal.
  destruct (H w' (alike_within _ _ _ _ HAB Hal)) as [H1 H2].
  rewrite !put_faults, <- (put_widen A B v w w') by done. split; [done|].
  intros rest'. rewrite put_faults, <- (put_widen A B v w w') by done. apply H2.
Qed.

Lemma local_then A {X Y} (m : IO X) (f : outcome Error X → IO Y) :
  local A m → (∀ o, local A (f o)) → local A (λ w, let '(o, w') := m w in f o w').
Proof.
  intros Hm Hf w. destruct (Hm w) as (u1 & r1 & o1 & v1 & Hc1 & H1).
  set (w1 := put A v1 (with_faults r1 w)). destruct (Hf o1 w1) as (u2 & r2 & o2 & v2 & Hc2 & H2).
  exists (u1 ++ u2), r2, o2, v2. split; [by eapply consumes_app|]. intros w' Hal.
  destruct (H1 w' Hal) as [K1 K2].
  assert (Hal1 : ∀ r, alike A w1 (put A v1 (with_faults r w'))).
  { intros r. apply alike_put. eapply alike_trans; [apply alike_sym, alike_faults|].
    eapply alike_trans; [exact Hal|apply alike_faults]. }
  split.
  - intros E. rewrite (K1 E). rewrite (proj1 (H2 _ (Hal1 r1)) eq_refl).
    by rewrite !put_faults, put_twice, with_faults_twice.
  - intros r E. rewrite (K2 (u2 ++ r)) by (by rewrite E, app_assoc).
    rewrite (proj2 (H2 _ (Hal1 (u2 ++ r))) r eq_refl). by rewrite !put_faults, put_twice, with_faults_twice.
Qed.

(** A program without remote calls. *)
Lemma local_step A {X} (m : IO X) :
  (∀ w, ∃ o v, ∀ w', alike A w w' → m w' = (o, put A v w')) → local A m.
Proof.
  intros Hm w. destruct (Hm w) as (o & v & H). exists [], (w_faults w), o, v.
  split; [apply consumes_nil|]. intros w' Hal. split.
  - intros <-. by rewrite with_faults_same, H.
  - intros r E. simpl in E. subst r. by rewrite with_faults_same, H.
Qed.

Lemma local_pure A {X} (m : IO X) o : (∀ w, m w = (o, w)) → local A m.
Proof.
  intros H. apply (local_widen none); [done|]. apply local_step. intros w. exists o, w. intros w' _.
  by rewrite H, put_none.
Qed.
Lemma local_ret A {X} (x : X) : local A (mret x : IO X).
Proof. by apply (local_pure _ _ (Ok x)). Qed.
Lemma local_throw A {X} e : local A (throw e : IO X).
Proof. by apply (local_pure _ _ (Err e)). Qed.
Lemma local_panic A {X} : local A (panic : IO X).
Proof. by apply (local_pure _ _ Panic). Qed.
Lemma local_hang A {X} : local A (hang : IO X).
Proof. by apply (local_pure _ _ Hang). Qed.

Lemma local_bind A {X Y} (m : IO X) (k : X → IO Y) :
  local A m → (∀ x, local A (k x)) → local A (m ≫= k).
Proof.
  intros Hm Hk. pose (f := λ o : outcome Error X, match o with
    | Ok x => k x | Err e => throw e | Panic => panic | Hang => hang end).
  assert (H := local_then A m f Hm). intros w. destruct (H ltac:(intros []; [apply Hk|apply local_throw|apply local_panic|apply local_hang]) w)
    as (u & r & o & v & Hc & Hl).
  exists u, r, o, v. split; [done|]. intros w' Hal. destruct (Hl w' Hal) as [H1 H2].
  assert (E : (m ≫= k) w' = let '(o, w'') := m w' in f o w'') by (unfold mbind, M_bind; by destruct (m w') as [[] ?]).
  rewrite E. by split.
Qed.

Lemma local_gets A {X} (f : World → X) : (∀ w w', alike A w w' → f w' = f w) → local A (gets f).
Proof.
  intros Hf. apply local_step. intros w. exists (Ok (f w)), w. intros w' Hal. unfold gets.
  by rewrite (Hf w w' Hal), put_alike.
Qed.

(** A change of the parts [A] that looks at nothing else. *)
Lemma local_change A {X} (m : IO X) :
  (∀ w w', alike A w w' → m w' = ((m w).1, put A (m w).2 w')) → local A m.
Proof. intros H. apply local_step. intros w. exists (m w).1, (m w).2. intros w'. apply H. Qed.

Lemma local_take_fault A : local A take_fault.
Proof.
  intros w. unfold take_fault. destruct (w_faults w) as [|f fs] eqn:E.
  - exists [Pass], [], (Ok Pass), w. split; [right; split; [done|by exists 1]|]. intros w' Hal.
    assert (Hid : ∀ r, put A w (with_faults r w') = with_faults r w')
      by (intros r; apply put_alike; eapply alike_trans; [exact Hal|apply alike_faults]).
    split; [intros E'|intros r E']; rewrite E', Hid; [|done]. by rewrite <- E', with_faults_same.
  - exists [f], fs, (Ok f), w. split; [by left|]. intros w' Hal.
    assert (Hid : ∀ r, put A w (with_faults r w') = with_faults r w')
      by (intros r; apply put_alike; eapply alike_trans; [exact Hal|apply alike_faults]).
    split; [intros E'|intros r E']; rewrite E', Hid; done.
Qed.

Lemma local_remote A {X} e (op : IO X) : local A op → local A (remote e op).
Proof.
  intros Hop. unfold remote. apply local_bind; [apply local_take_fault|]. intros [].
  - done.
  - apply local_throw.
  - apply local_bind; [done|]. intros _. apply local_throw.
Qed.

(** ** One task past another *)

Lemma local_run_at A {X} (m : IO X) w : local A m → ∃ u r v,
  consumes (w_faults w) u r ∧ m w = ((m w).1, put A v (with_faults r w))
  ∧ ∀ w', alike A w w' →
    (w_faults w' = w_faults w → m w' = ((m w).1, put A v (with_faults r w')))
    ∧ ∀ r', w_faults w' = u ++ r' → m w' = ((m w).1, put A v (with_faults r' w')).
Proof.
  intros Hm. destruct (Hm w) as (u & r & o & v & Hc & L). exists u, r, v.
  assert (E := proj1 (L w (alike_refl _ _)) eq_refl). rewrite E. by split_and!.
Qed.

Lemma consumes_calm u r : consumes [] u r → r = [].
Proof. intros [E|[E _]]; [by destruct u, r|done]. Qed.

(** If [n] and then [m] are run, and they keep to parts apart, [m] could have
    been run first, having met the same faults; on a healthy network, none. *)
Lemma local_swap A B {X Y} (m : IO X) (n : IO Y) w :
  local A m → local B n → apart A B →
  ∃ fs wa, (healthy w → fs = []) ∧ m (with_faults fs w) = ((m (n w).2).1, wa)
    ∧ n wa = ((n w).1, (m (n w).2).2).
Proof.
  intros Hm Hn Hap.
  destruct (local_run_at B n w Hn) as (un & rn & vn & Cn & En & Ln). rewrite En. cbn [fst snd].
  set (w1 := put B vn (with_faults rn w)) in *.
  destruct (local_run_at A m w1 Hm) as (um & rm & vm & Cm & Em & Lm). rewrite Em. cbn [fst snd].
  assert (Hal : ∀ fs, alike A w1 (with_faults fs w)).
  { intros fs. eapply alike_trans; [|apply alike_faults]. unfold w1. rewrite put_faults.
    eapply alike_trans; [apply alike_sym, alike_faults|]. by apply alike_sym, alike_put_other. }
  assert (Hal2 : ∀ fs, alike B w (put A vm (with_faults fs w))).
  { intros fs. rewrite put_faults. eapply alike_trans; [|apply alike_faults]. apply alike_put_other.
    intros x HB HA. by apply (Hap x). }
  destruct (decide (w_faults w = [])) as [E|E].
  - rewrite E in Cn. pose proof (consumes_calm _ _ Cn). subst rn.
    assert (E1 : w_faults w1 = []) by done. rewrite E1 in Cm. pose proof (consumes_calm _ _ Cm). subst rm.
    exists [], (put A vm (with_faults [] w)). split_and!; [done|apply (proj1 (Lm _ (Hal []))); by rewrite E1|].
    rewrite (proj1 (Ln _ (Hal2 [])) ltac:(by rewrite E)). unfold w1.
    rewrite !put_faults, !with_faults_twice. by rewrite (put_swap A B).
  - exists (um ++ un ++ rm), (put A vm (with_faults (un ++ rm) w)).
    split_and!; [done|by apply (proj2 (Lm _ (Hal _)) (un ++ rm))|].
    rewrite (proj2 (Ln _ (Hal2 _)) rm eq_refl). unfold w1.
    rewrite !put_faults, !with_faults_twice. by rewrite (put_swap A B).
Qed.

(** The same program under the schedule it uses up, followed by another. *)
Lemma local_prefix A {X} (m : IO X) w fs :
  local A m → ∃ fs', (healthy w → fs = [] → fs' = []) ∧ m (with_faults fs' w) = ((m w).1, with_faults fs (m w).2).
Proof.
  intros Hm. destruct (local_run_at A m w Hm) as (u & r & v & C & E & L). rewrite E. cbn [fst snd].
  destruct (decide (w_faults w = [] ∧ fs = [])) as [[Hw ->]|H].
  - rewrite Hw in C. pose proof (consumes_calm _ _ C). subst r. exists []. split; [done|].
    apply (proj1 (L _ (alike_faults A w []))). by rewrite Hw.
  - exists (u ++ fs). split; [intros ??; by destruct H|].
    by apply (proj2 (L _ (alike_faults A w _)) fs).
Qed.

(** ** Scripts side by side, and one after the other *)

Definition local_call (q : Part) : ∀ X, IO X → Prop := λ X m, local (only q) m.

Lemma local_run A {X} (p : script X) : calls (λ Y m, local A m) p → local A (run p).
Proof.
  induction p as [o|Y op k IH]; simpl; intros Hc.
  - by apply (local_pure _ _ o).
  - destruct Hc as [Hop Hk]. apply (local_then A op (λ o, run (k o))); [done|]. intros o. by apply IH.
Qed.

Fixpoint in_order (ps : list (script unit)) : IO (list (outcome Error unit)) := λ w,
  match ps with
  | [] => (Ok [], w)
  | p :: ps' =>
      let '(o, w1) := run p w in
      let '(r, w2) := in_order ps' w1 in
      (match r with Ok os => Ok (o :: os) | _ => r end, w2)
  end.

(** One call of one of the tasks. *)
Inductive call_step : World * list (script unit) → World * list (script unit) → Prop :=
| call_of {X} i (op : IO X) k w ps :
    ps !! i = Some (Call op k) → call_step (w, ps) ((op w).2, <[i := k (op w).1]> ps).

(** A schedule names the task of each call; a task that has ended is passed over. *)
Fixpoint play (sched : list nat) (c : World * list (script (S := World) (E := Error) unit))
    : World * list (script unit) :=
  match sched with
  | [] => c
  | i :: sched' => play sched' (match c.2 !! i with
      | Some (Call op k) => ((op c.1).2, <[i := k (op c.1).1]> c.2)
      | _ => c
      end)
  end.

Lemma play_runs sched : ∀ c, rtc call_step c (play sched c).
Proof.
  induction sched as [|i sched IH]; intros [w ps]; simpl; [done|].
  destruct (ps !! i) as [[o|X op k]|] eqn:Hi; [apply IH| |apply IH].
  eapply rtc_l; [by apply (call_of i op k)|apply IH].
Qed.

Fixpoint parts_of (qs : list Part) : Parts :=
  match qs with [] => none | q :: qs' => union (only q) (parts_of qs') end.

Lemma parts_of_elem qs x : parts_of qs x = true ↔ x ∈ qs.
Proof.
  induction qs as [|q qs IH]; simpl; [split; [done|by intros ?%not_elem_of_nil]|].
  unfold union, only. rewrite orb_true_iff, bool_decide_eq_true, elem_of_cons, IH. done.
Qed.

Lemma local_in_order qs ps :
  Forall2 (λ q p, calls (local_call q) p) qs ps → local (parts_of qs) (in_order ps).
Proof.
  induction 1 as [|q p qs ps Hp _ IH]; simpl; [by apply (local_pure _ _ (Ok []))|].
  apply (local_then _ (run p) (λ o w1, let '(r, w2) := in_order ps w1 in
    (match r with Ok os => Ok (o :: os) | _ => r end, w2))).
  - apply (local_widen (only q)); [|by apply local_run]. intros x Hx. simpl. unfold union. by rewrite Hx.
  - intros o. apply (local_then _ (in_order ps) (λ r w2, (match r with Ok os => Ok (o :: os) | _ => r end, w2))).
    + apply (local_widen (parts_of qs)); [|done]. intros x Hx. simpl. unfold union. rewrite Hx. apply orb_true_r.
    + intros r. by eapply local_pure.
Qed.

Lemma in_order_app ps1 ps2 w :
  in_order (ps1 ++ ps2) w =
    let '(r1, w1) := in_order ps1 w in let '(r2, w2) := in_order ps2 w1 in
    (match r1, r2 with Ok os1, Ok os2 => Ok (os1 ++ os2) | Ok _, r => r | r, _ => r end, w2).
Proof.
  revert w. induction ps1 as [|p ps1 IH]; intros w; simpl.
  - by destruct (in_order ps2 w) as [[] ?].
  - destruct (run p w) as [o w1]. rewrite IH.
    destruct (in_order ps1 w1) as [r1 w2], (in_order ps2 w2) as [r2 w3]. by destruct r1, r2.
Qed.

Lemma in_order_done os w : in_order (Done <$> os) w = (Ok os, w).
Proof. induction os as [|o os IH]; [done|]. rewrite fmap_cons. cbn [in_order run]. by rewrite IH. Qed.

Lemma parts_of_apart qs q : q ∉ qs → apart (parts_of qs) (only q).
Proof. intros Hq x Hx%parts_of_elem Hx'. unfold only in Hx'. apply bool_decide_eq_true in Hx'. by subst. Qed.

Lemma local_healthy A {X} (m : IO X) w : local A m → healthy w → healthy (m w).2.
Proof.
  intros Hm Hw. destruct (local_run_at A m w Hm) as (u & r & v & C & -> & _).
  unfold healthy in *. rewrite Hw in C. simpl. by apply (consumes_calm u).
Qed.

(** A call of one task, moved behind everything the tasks before it do. *)
Lemma in_order_call qs q l {X} (op : IO X) k r w fs1 :
  Forall2 (λ q p, calls (local_call q) p) qs l → q ∉ qs → local (only q) op →
  ∃ fs, (healthy w → fs1 = [] → fs = [])
    ∧ in_order (l ++ Call op k :: r) (with_faults fs w) = in_order (l ++ k (op w).1 :: r) (with_faults fs1 (op w).2).
Proof.
  intros Hl Hq Hop.
  destruct (local_prefix (only q) op w fs1 Hop) as (fs' & Hcalm & E1).
  destruct (local_swap (parts_of qs) (only q) (in_order l) op (with_faults fs' w) (local_in_order _ _ Hl) Hop
    (parts_of_apart _ _ Hq)) as (fs & wa & Hcalm' & E2 & E3).
  rewrite E1 in E2, E3. cbn [fst snd] in E2, E3. rewrite with_faults_twice in E2.
  exists fs. split; [intros Hw Hfs; apply Hcalm'; unfold healthy; simpl; auto|].
  rewrite !in_order_app, E2. destruct (in_order l (with_faults fs1 (op w).2)) as [r1 w1]. cbn [fst snd] in E3 |- *.
  assert (E4 : in_order (Call op k :: r) wa = in_order (k (op w).1 :: r) w1) by (simpl; by rewrite E3).
  by rewrite E4.
Qed.

(** Tasks that keep to parts apart, interleaved call by call to their ends, do
    what they do one after the other, under some schedule of the same kind:
    none, if no fault was due. *)
Lemma in_order_sound qs ps w os w' :
  NoDup qs → Forall2 (λ q p, calls (local_call q) p) qs ps →
  rtc call_step (w, ps) (w', Done <$> os) →
  ∃ fs, (healthy w → fs = []) ∧ in_order ps (with_faults fs w) = (Ok os, w').
Proof.
  intros Hnd Hps Hrun. remember (w, ps) as x eqn:Ex. remember (w', Done <$> os) as y eqn:Ey.
  revert w ps Ex Hps. induction Hrun as [x|x y z Hxy _ IH]; intros w ps -> Hps.
  - injection Ey as -> ->. exists (w_faults w'). split; [done|]. by rewrite with_faults_same, in_order_done.
  - inversion Hxy as [X i op k v qs' Hi]; subst.
    destruct (list_elem_of_split_length _ _ _ Hi) as (l & r & -> & ->).
    apply Forall2_app_inv_r in Hps as (ql & qr' & Hl & Hr & ->).
    apply Forall2_cons_inv_r in Hr as (q & qr & [Hop Hk] & Hr & ->).
    apply NoDup_app in Hnd as (_ & Hdis & _).
    rewrite insert_app_r_alt, Nat.sub_diag in IH by done. simpl in IH.
    destruct (IH eq_refl (op w).2 (l ++ k (op w).1 :: r) eq_refl) as (fs1 & Hcalm & E).
    { apply Forall2_app; [done|]. constructor; [apply Hk|done]. }
    destruct (in_order_call ql q l op k r w fs1 Hl) as (fs & Hcalm' & E'); [|done|].
    { intros Hin. by apply (Hdis q Hin), list_elem_of_here. }
    exists fs. split; [|by rewrite E'].
    intros Hw. apply Hcalm'; [done|]. apply Hcalm. by apply (local_healthy (only q)).
Qed.
