(* ===== verification/Joined.v ===== *)
(** * The tasks of one message, side by side ([msg_server/src/consumer.rs])

    A numbered message is left to tasks that run side by side: the history and
    reservations of the database, the receive box, and the pushes to the
    gateways. [Consumer] runs them one after the other; here their calls
    interleave freely, and the outcome is shown to be the same. *)

From S2P Require Import Prelude Script Errors Types Tables World Cache SeqStore RecBox ShardedBox Pusher GroupStore Consumer Delivery Parts.

(** ** The calls of the tasks keep to their parts *)

Abbreviation on q := (stepwise (local_call q)).

Lemma local_pg_exec {A} (q : Pg → option (A * Pg)) : local (only PTables) (pg_exec q).
Proof.
  apply local_remote, local_change. intros w w' Hal. rewrite (al_tables _ _ _ Hal eq_refl).
  destruct (q (w_pg w)) as [[a p]|]; [by destruct w'|]. by rewrite put_alike.
Qed.

Lemma local_mongo_run {A} name (q : Coll → option (A * Coll)) : local (only PBox) (mongo_run name q).
Proof.
  apply local_remote, local_change. intros w w' Hal. destruct (al_box _ _ _ Hal eq_refl) as (Hm & Ha & Hc).
  rewrite Hm. destruct (q _) as [[a c]|]; [|by rewrite put_alike].
  destruct w', w. simpl in *. unfold put, upd_mongo. simpl. congruence.
Qed.

Lemma on_call {A} q (m : IO A) : local (only q) m → on q m.
Proof. apply stepwise_call. Defined.
Lemma on_gets {A} q (f : World → A) : (∀ w w', alike (only q) w w' → f w' = f w) → on q (gets f).
Proof. intros H. by apply on_call, local_gets. Defined.
Lemma on_table {A} (q : Pg → option (A * Pg)) : on PTables (pg_exec q).
Proof. apply on_call, local_pg_exec. Defined.
Lemma on_mongo {A} name (q : Coll → option (A * Coll)) : on PBox (mongo_run name q).
Proof. apply on_call, local_mongo_run. Defined.

(** *** What a box and a pusher promise *)

Class BoxTasks (b : MsgRecBoxRepo) : Type := {
  bt_save m : on PBox (save_message b m);
  bt_group m gs : on PBox (save_group_msg b m gs);
  bt_delete id : on PBox (delete_message b id)
}.
Class PusherTasks (p : Pusher) : Type := {
  pt_single m : on PGateways (push_single_msg p m);
  pt_group m gs : on PGateways (push_group_msg p m gs)
}.

#[export] Instance msg_box_tasks : BoxTasks msg_box.
Proof.
  split; intros; simpl.
  - apply on_mongo.
  - apply stepwise_bind; [apply on_mongo|]. intros [|]; [apply stepwise_ret|apply stepwise_throw].
  - apply stepwise_bind; [apply on_mongo|]. intros _. apply stepwise_ret.
Defined.

Lemma on_change_cached f : on PBox (modify (upd_cached f)).
Proof.
  apply on_call, local_change. intros w w' Hal. destruct (al_box _ _ _ Hal eq_refl) as (Hm & Ha & Hc).
  destruct w', w. unfold modify, upd_cached, put. simpl in *. congruence.
Defined.
Lemma on_change_list f : on PGateways (modify (upd_ws_list f)).
Proof.
  apply on_call, local_change. intros w w' Hal. destruct (al_gateways _ _ _ Hal eq_refl) as (Hp & Hl & Hr).
  destruct w', w. unfold modify, upd_ws_list, put. simpl in *. congruence.
Defined.

Ltac on_split :=
  repeat lazymatch goal with
  | |- stepwise _ (mbind _ _) => apply stepwise_bind; [|intros ?]
  | |- stepwise _ (attempt _) => apply stepwise_attempt
  | |- stepwise _ (log_err _) => apply stepwise_log_err
  | |- stepwise _ (spawn _) => apply stepwise_spawn
  | |- stepwise _ (mret _) => apply stepwise_ret
  | |- stepwise _ (throw _) => apply stepwise_throw
  | |- stepwise _ panic => apply stepwise_panic
  | |- stepwise _ hang => apply stepwise_hang
  | |- stepwise _ (for_each _ _) => apply stepwise_for_each; intros ?
  | |- stepwise _ (mongo_run _ _) => apply on_mongo
  | |- stepwise _ (pg_exec _) => apply on_table
  | |- stepwise _ (modify (upd_cached _)) => apply on_change_cached
  | |- stepwise _ (modify (upd_ws_list _)) => apply on_change_list
  | |- stepwise _ (gets _) => apply on_gets; intros w w' []; simpl in *; intuition congruence
  | |- stepwise _ (if ?b then _ else _) => destruct b
  | |- stepwise _ (match ?x with _ => _ end) => destruct x
  end.

Lemma on_get_collection name : on PBox (get_collection name).
Proof. unfold get_collection, ensure_collection_indexed, create_index. on_split. Defined.
Lemma on_get_range hash shards u : on PBox (get_user_range hash shards u).
Proof. unfold get_user_range. on_split. Defined.

Section sharded.
Context (hash : string → Z) (year_month : Z → option string) (add_months sub_months : Z → Z → option Z) (shards : Z).

Lemma on_collection_name t u : on PBox (get_collection_name year_month t u).
Proof. unfold get_collection_name, now_secs, now_ms. on_split. Defined.

Lemma on_member_inserts gs : ∀ m, on PBox (member_inserts hash year_month shards m gs).
Proof.
  induction gs as [|g gs IH]; intros m; simpl; on_split;
    first [apply on_get_range|apply on_collection_name|apply on_get_collection|apply IH].
Defined.

Lemma on_spawn_inserts l : on PBox (spawn_inserts l).
Proof. induction l as [|[coll d] l IH]; simpl; unfold insert_one; on_split. apply IH. Defined.

Lemma on_await_all os : on PBox (await_all os).
Proof. induction os as [|[] os IH]; simpl; on_split. apply IH. Defined.

Lemma on_delete_in id colls : on PBox (delete_in colls id).
Proof.
  induction colls as [|c colls IH]; simpl; unfold delete_one; on_split;
    first [apply on_get_collection|apply IH].
Defined.

#[export] Instance sharded_box_tasks : BoxTasks (sharded_box hash year_month sub_months shards).
Proof.
  split; intros; simpl;
    unfold sharded_save_message, sharded_save_group_msg, sharded_delete_message, insert_one; on_split;
    first [apply on_get_range|apply on_collection_name|apply on_get_collection|apply on_member_inserts
          |apply on_spawn_inserts|apply on_await_all|apply on_delete_in].
Defined.
End sharded.

Section push.
Context (parse_socket : string → option string) (endpoint_ok : string → bool)
        (arrival : list (string * bool) → list (string * bool)).

Lemma on_refresh : on PGateways (refresh_if_empty parse_socket endpoint_ok).
Proof.
  unfold refresh_if_empty, handle_sub_services, handle_sub_service. on_split.
  - apply on_call, local_remote, local_gets. by intros w w' Hal; destruct (al_gateways _ _ _ Hal eq_refl) as (_ & _ & ->).
  - apply on_call, local_remote, local_ret.
Defined.

Lemma on_send_all push ws : on PGateways (send_all push ws).
Proof.
  induction ws as [|a ws IH]; simpl; on_split; [|apply IH].
  apply on_call, local_remote, local_change. intros w w' Hal.
  destruct (al_gateways _ _ _ Hal eq_refl) as (Hp & Hl & Hr).
  destruct w', w. unfold modify, upd_pushed, put. simpl in *. congruence.
Defined.

#[export] Instance push_service_tasks : PusherTasks (push_service parse_socket endpoint_ok arrival).
Proof.
  split; intros; simpl; unfold service_push_single_msg, service_push_group_msg, channel, remove_all; on_split;
    first [apply on_refresh|apply on_send_all].
Defined.
End push.

(** ** The tasks of a message *)

Section tasks.
Context (cs : ConsumerService) `{!BoxTasks (cs_box cs)} `{!PusherTasks (cs_pusher cs)}.
Context (on_history : ∀ m, on PTables (cs_save_history cs m)).

(** What the tasks do: the database's, if there is one, the box's and the
    pusher's. An error of the first two is met by the task that joined them. *)
Definition database_task (stored : bool) (msg : Msg) (t : MsgType2) (need_history : bool)
    (members : list GroupMemSeq) : IO unit :=
  if negb stored then mret tt
  else match t with
  | Single => if negb need_history then log_err (cs_save_history cs msg) else mret tt
  | Group =>
      let need_update := mem_id <$> filter (λ g, need_update g = true) members in
      (if bool_decide (need_update ≠ []) then save_max_seq_batch (cs_seq_step cs) need_update else mret tt) ;;
      (if need_history then cs_save_history cs msg else mret tt)
  end.
Definition box_task (stored : bool) (msg : Msg) (t : MsgType2) (members : list GroupMemSeq) : IO unit :=
  if negb stored then mret tt
  else match t with
  | Single =>
      if is_received_ack (msg_type msg) then log_err (delete_message (cs_box cs) (server_id msg))
      else log_err (save_message (cs_box cs) msg)
  | Group => save_group_msg (cs_box cs) msg members
  end.
Definition push_task (msg : Msg) (t : MsgType2) (members : list GroupMemSeq) : IO unit :=
  log_err (to_pusher cs msg t members).

Lemma database_steps stored msg t h members : on PTables (database_task stored msg t h members).
Proof.
  unfold database_task, save_max_seq_batch. on_split; apply on_history.
Defined.
Lemma box_steps stored msg t members : on PBox (box_task stored msg t members).
Proof. unfold box_task. on_split; [apply bt_delete|apply bt_save|apply bt_group]. Defined.
Lemma push_steps msg t members : on PGateways (push_task msg t members).
Proof. unfold push_task, to_pusher. on_split; [apply pt_single|apply pt_group]. Defined.

(** The three scripts of a message. *)
Definition tasks_of (mt : MsgType) (msg : Msg) (t : MsgType2) (h : bool) (members : list GroupMemSeq)
    : list (script unit) :=
  [sw_script (database_steps (get_send_to_db_flag mt) msg t h members);
   sw_script (box_steps (get_send_to_db_flag mt) msg t members);
   sw_script (push_steps msg t members)].

Lemma spawn_run {A} (m : IO A) w o w' : m w = (o, w') → o ≠ Hang → spawn m w = (Ok o, w').
Proof. unfold spawn. intros ->. by destruct o. Qed.

(** One after the other they are what [dispatch] runs in place: the first two
    are joined by a task that logs what they answer. *)
Lemma stored_in_order msg t h members w o1 w1 o2 w2 :
  database_task true msg t h members w = (o1, w1) → box_task true msg t members w1 = (o2, w2) →
  o1 ≠ Hang → o2 ≠ Hang → log_err (send_to_db cs msg t h members) w = (Ok tt, w2).
Proof.
  unfold database_task, box_task, send_to_db. cbn [negb]. intros E1 E2 H1 H2. destruct t.
  - assert (E : (if negb h then spawn (log_err (cs_save_history cs msg)) else mret (Ok tt)) w = (Ok o1, w1)).
    { destruct h; simpl in *; [|by apply spawn_run]. unfold mret, M_ret in *. by simplify_eq. }
    unfold log_err at 1, handle_message. rewrite (bind_ok _ _ _ _ _ E).
    erewrite bind_ok by (by apply spawn_run). by destruct o1, o2.
  - unfold log_err at 1, handle_group_message. cbv zeta.
    erewrite bind_ok by (by apply spawn_run). erewrite bind_ok by (by apply spawn_run). by destruct o1, o2.
Qed.

Lemma dispatch_in_order mt msg t h members w o1 o2 o3 w' :
  in_order (tasks_of mt msg t h members) w = (Ok [o1; o2; o3], w') →
  o1 ≠ Hang → o2 ≠ Hang → o3 ≠ Hang →
  dispatch cs mt msg t h members w = (push_outcome o3, w').
Proof.
  unfold tasks_of. cbn [in_order]. rewrite !sw_run.
  destruct (database_task _ _ _ _ _ w) as [p1 w1] eqn:E1. rewrite !sw_run.
  destruct (box_task _ _ _ _ w1) as [p2 w2] eqn:E2. rewrite !sw_run.
  destruct (push_task _ _ _ w2) as [p3 w3] eqn:E3. intros [= -> -> -> ->] H1 H2 H3.
  assert (Edb : (if get_send_to_db_flag mt then spawn (log_err (send_to_db cs msg t h members)) else mret (Ok tt)) w
    = (Ok (Ok tt), w2)).
  { destruct (get_send_to_db_flag mt).
    - unfold spawn. by rewrite (stored_in_order msg t h members w o1 w1 o2 w2).
    - unfold database_task, box_task, mret, M_ret in *. simpl in *. by simplify_eq. }
  assert (Hlogged : ∀ e, o3 ≠ Err e).
  { unfold push_task, log_err in E3. intros e ->. by destruct (to_pusher cs msg t members w2) as [[] ?]. }
  unfold dispatch. rewrite (bind_ok _ _ _ _ _ Edb). erewrite bind_ok by (by apply spawn_run).
  destruct o3 as [[]|e| |]; try done. by destruct (Hlogged e).
Qed.

Lemma tasks_on_parts mt msg t h members :
  Forall2 (λ q p, calls (local_call q) p) [PTables; PBox; PGateways] (tasks_of mt msg t h members).
Proof. repeat constructor; apply sw_calls. Qed.
End tasks.

(** ** Every interleaving *)

Lemma all_parts : NoDup [PTables; PBox; PGateways].
Proof. apply (bool_decide_unpack _). exact I. Qed.

Lemma fewer_hangs (os : list (outcome Error unit)) : Hang ∉ os → Forall (λ o, o ≠ Hang) os.
Proof. intros H. apply Forall_forall. by intros o Ho ->. Qed.

(** C6. The tasks of a message may run in any order. Whatever box and pusher
    whose calls keep to their own part, and however the calls of the database
    task, the box task and the push task of a numbered message interleave, fail
    or take effect unanswered: when all tasks have ended, the world is the one
    that running them in place leaves, and handling the message answers the
    same, the faults having been met in another order; where no fault was due,
    every interleaving ends the same way. *)
Theorem joined_tasks_in_place (cs : ConsumerService) (box_tasks : BoxTasks (cs_box cs))
    (pusher_tasks : PusherTasks (cs_pusher cs))
    (on_history : ∀ m, stepwise (local_call PTables) (cs_save_history cs m))
    (mt : MsgType) (msg : Msg) (t : MsgType2) (need_history : bool) (members : list GroupMemSeq)
    (w w' : World) (o1 o2 o3 : outcome Error unit)
    (Hrun : rtc call_step (w, tasks_of cs on_history mt msg t need_history members) (w', Done <$> [o1; o2; o3]))
    (Hends : Hang ∉ [o1; o2; o3]) :
  ∃ fs, (healthy w → fs = [])
    ∧ dispatch cs mt msg t need_history members (with_faults fs w) = (push_outcome o3, w').
Proof.
  destruct (in_order_sound [PTables; PBox; PGateways] _ w [o1; o2; o3] w' all_parts
    (tasks_on_parts cs on_history mt msg t need_history members) Hrun) as (fs & Hcalm & Hord).
  apply fewer_hangs in Hends. rewrite !Forall_cons in Hends. destruct Hends as (H1 & H2 & H3 & _).
  exists fs. split; [done|]. by eapply dispatch_in_order.
Qed.

(** A message to bob; the gateways are read before the box has it, and pushed
    to after. *)
Lemma demo_history m : stepwise (local_call PTables) (cs_save_history demo_service m).
Proof. apply on_table. Defined.

Definition demo_tasks : list (script unit) :=
  @tasks_of demo_service msg_box_tasks (push_service_tasks _ _ _) demo_history SingleMsg hello Single true [].
Definition demo_play := play [2; 2; 1; 2; 2; 2] (demo_world, demo_tasks).

Lemma joined_tasks_in_place_witness :
  dispatch demo_service SingleMsg hello Single true [] demo_world = (Ok tt, demo_play.1).
Proof.
  destruct (joined_tasks_in_place demo_service msg_box_tasks (push_service_tasks _ _ _) demo_history
    SingleMsg hello Single true [] demo_world demo_play.1 (Ok tt) (Ok tt) (Ok tt)) as (fs & Hfs & H).
  - assert (E : demo_play.2 = Done <$> [Ok tt; Ok tt; Ok tt]) by (vm_compute; reflexivity).
    rewrite <- E, <- surjective_pairing. apply play_runs.
  - set_solver.
  - rewrite (Hfs eq_refl) in H. exact H.
Defined.
