(* ===== verification/Topic.v ===== *)
(** * Reading the topic ([msg_server/src/consumer.rs])

    The consumer commits the offset of a record when its handling has answered,
    and reads on from the last committed offset when it is started again. What
    this promises of every record, and what it does to a message whose commit
    was lost. *)

From S2P Require Import Prelude Script Errors Types Tables World Cache SeqStore RecBox Pusher GroupStore Consumer Handling Delivery EndToEnd.

Lemma elem_of_snoc {A} (x y : A) l : x ∈ l ++ [y] ↔ x ∈ l ∨ x = y.
Proof. by rewrite elem_of_app, list_elem_of_singleton. Qed.

(** ** The reader as a step relation *)

(** The position in the topic, the committed offset, the answers given so far
    (offset, record, and whether it was handled without an error) and the
    number of starts after the first. *)
Record Reader : Type := mkReader {
  rd_world : World;
  rd_pos : nat;
  rd_committed : nat;
  rd_answers : list (nat * string * bool);
  rd_restarts : nat
}.

(** The topic only grows. *)
Definition topic_grows (w w' : World) : Prop := w_kafka w `prefix_of` w_kafka w'.
#[export] Instance topic_grows_preorder : PreOrder topic_grows.
Proof. split; unfold topic_grows; [intros w; reflexivity|]. intros w1 w2 w3 H1 H2. by etrans. Qed.

(** Nobody else acts. *)
Definition nobody (w w' : World) : Prop := w' = w.

(** A new process: the memory of the old one is gone, the gateways it has
    learnt of are those of its own first polls, the stores and the topic are
    what they were. *)
Definition reboot (gateways : list string) (w : World) : World :=
  upd_ws_list (λ _, gateways) (upd_active (λ _, ∅) (upd_cached (λ _, ∅) w)).

(** [others] is what other processes may do to the stores and the topic. *)
Section reader.
Context (others : World → World → Prop) (from_json : string → option Msg) (decode_read : bytes → option MsgRead)
        (decode_strings : bytes → option (list string)) (cs : ConsumerService).
Abbreviation handle := (handle_msg from_json decode_read decode_strings cs).

(** The offset after the asynchronous commit of a record: the commit may fail. *)
Definition commit (s : Reader) : IO nat :=
  c ← attempt (remote kafka_error (mret tt));
  mret (match c with inr _ => S (rd_pos s) | inl _ => rd_committed s end).

(** A record is handled and answers; a record's handling answers an error; the
    process ends after a handling, whatever that came to, and before the
    offset is committed, or between records, and another process reads on from
    the committed offset; or others act meanwhile. *)
Inductive reader_step : Reader → Reader → Prop :=
| reader_handles s payload w1 c w2 :
    w_kafka (rd_world s) !! rd_pos s = Some payload → handle payload (rd_world s) = (Ok tt, w1) →
    commit s w1 = (Ok c, w2) →
    reader_step s (mkReader w2 (S (rd_pos s)) c (rd_answers s ++ [(rd_pos s, payload, true)]) (rd_restarts s))
| reader_fails s payload e w1 :
    w_kafka (rd_world s) !! rd_pos s = Some payload → handle payload (rd_world s) = (Err e, w1) →
    reader_step s (mkReader w1 (S (rd_pos s)) (rd_committed s)
      (rd_answers s ++ [(rd_pos s, payload, false)]) (rd_restarts s))
| reader_dies s payload o w1 gateways :
    w_kafka (rd_world s) !! rd_pos s = Some payload → handle payload (rd_world s) = (o, w1) →
    reader_step s (mkReader (reboot gateways w1) (rd_committed s) (rd_committed s) (rd_answers s) (S (rd_restarts s)))
| reader_restarts s gateways :
    reader_step s (mkReader (reboot gateways (rd_world s)) (rd_committed s) (rd_committed s) (rd_answers s)
      (S (rd_restarts s)))
| reader_waits s w1 :
    others (rd_world s) w1 →
    reader_step s (mkReader w1 (rd_pos s) (rd_committed s) (rd_answers s) (rd_restarts s)).

Definition answered (s : Reader) (i : nat) (payload : string) : Prop := ∃ b, (i, payload, b) ∈ rd_answers s.
Definition times_answered (s : Reader) (i : nat) : nat := length (filter (λ a : nat * string * bool, a.1.1 = i) (rd_answers s)).

Record reader_inv (n0 : nat) (s : Reader) : Prop := {
  ri_order : n0 ≤ rd_committed s ≤ rd_pos s;
  ri_answered i : n0 ≤ i < rd_pos s → ∃ payload, w_kafka (rd_world s) !! i = Some payload ∧ answered s i payload;
  ri_true i payload b : (i, payload, b) ∈ rd_answers s → w_kafka (rd_world s) !! i = Some payload;
  ri_committed : rd_committed s = n0 ∨ ∃ i payload, rd_committed s = S i ∧ (i, payload, true) ∈ rd_answers s;
  ri_times i : times_answered s i ≤ rd_restarts s + (if bool_decide (i < rd_pos s) then 1 else 0)
}.

Context (Htopic : HandlingCalls (λ A m, keeps topic_grows m) cs) (Hothers : ∀ w w', others w w' → topic_grows w w').

Lemma commit_cases s w c w' : commit s w = (Ok c, w') →
  w_kafka w' = w_kafka w ∧ (c = S (rd_pos s) ∨ c = rd_committed s).
Proof.
  unfold commit, remote, take_fault. mstep. intros H.
  destruct (w_faults w) as [|[] fs]; simpl in H; simplify_eq; split; auto.
Qed.

Lemma commit_total s w : ∃ c w', commit s w = (Ok c, w')
  ∧ ∀ (k : Z → IO Z), (c' ← attempt (remote kafka_error (mret tt));
        k (match c' with inr _ => (Z.of_nat (rd_pos s) + 1)%Z | inl _ => Z.of_nat (rd_committed s) end)) w
      = k (Z.of_nat c) w'.
Proof.
  unfold commit, remote, take_fault. mstep.
  destruct (w_faults w) as [|[] fs]; simpl; do 2 eexists; (split; [done|]); intros k;
    repeat f_equal; lia.
Qed.

Lemma times_snoc s' s i payload b :
  rd_answers s' = rd_answers s ++ [(rd_pos s, payload, b)] →
  times_answered s' i = times_answered s i + (if bool_decide (i = rd_pos s) then 1 else 0).
Proof.
  intros E. unfold times_answered. rewrite E, filter_app, length_app, filter_cons. simpl.
  case_bool_decide; case_decide; subst; simpl; congruence || lia.
Qed.

(** An answer, whatever it commits. *)
Lemma answer_inv n0 s s' payload b :
  reader_inv n0 s → w_kafka (rd_world s) !! rd_pos s = Some payload → topic_grows (rd_world s) (rd_world s') →
  rd_pos s' = S (rd_pos s) → rd_answers s' = rd_answers s ++ [(rd_pos s, payload, b)] →
  rd_restarts s' = rd_restarts s → rd_committed s' = rd_committed s ∨ (rd_committed s' = S (rd_pos s) ∧ b = true) →
  reader_inv n0 s'.
Proof.
  intros [H1 H2 H3 H4 H5] Hp [log Hlog] Ep Ea Er Ec.
  assert (Hkeep : ∀ i p, w_kafka (rd_world s) !! i = Some p → w_kafka (rd_world s') !! i = Some p)
    by (intros i p Hi; rewrite Hlog; by apply lookup_app_l_Some).
  split.
  - rewrite Ep. destruct Ec as [->|[-> _]]; lia.
  - intros i Hi. rewrite Ep in Hi. destruct (decide (i = rd_pos s)) as [->|].
    + exists payload. split; [by apply Hkeep|]. exists b. rewrite Ea. apply elem_of_snoc. by right.
    + destruct (H2 i ltac:(lia)) as (p & Hi' & b' & Hb'). exists p. split; [by apply Hkeep|]. exists b'. rewrite Ea. apply elem_of_snoc. by left.
  - intros i p b'. rewrite Ea. intros [Hin|Hin]%elem_of_snoc; [by apply Hkeep; eapply H3|].
    injection Hin as -> -> ->. by apply Hkeep.
  - destruct Ec as [->|[-> ->]]; [|right; exists (rd_pos s), payload; rewrite Ea; split; [done|apply elem_of_snoc; by right]].
    destruct H4 as [?|(i & p & ? & ?)]; [by left|right]. exists i, p. rewrite Ea. split; [done|]. apply elem_of_snoc. by left.
  - intros i. rewrite (times_snoc s' s i payload b Ea), Er, Ep. specialize (H5 i).
    repeat case_bool_decide; lia.
Qed.

Lemma handle_grows payload w o w1 : handle payload w = (o, w1) → topic_grows w w1.
Proof.
  intros Hrun. pose proof (handle_msg_keeps from_json decode_read decode_strings _ _ payload Htopic w) as H.
  by rewrite Hrun in H.
Qed.

(** Nothing is answered: the position stays, or goes back to the offset. *)
Lemma move_inv n0 s w1 pos restarts :
  reader_inv n0 s → topic_grows (rd_world s) w1 →
  (pos = rd_pos s ∧ restarts = rd_restarts s) ∨ (pos = rd_committed s ∧ restarts = S (rd_restarts s)) →
  reader_inv n0 (mkReader w1 pos (rd_committed s) (rd_answers s) restarts).
Proof.
  intros [H1 H2 H3 H4 H5] [log Hlog] Hmove. split; simpl; [lia| | |done|]; rewrite ?Hlog.
  - intros i Hi. destruct (H2 i ltac:(lia)) as (p & Hp & Ha). exists p. split; [by apply lookup_app_l_Some|done].
  - intros i p b Hb. apply lookup_app_l_Some. by eapply H3.
  - intros i. specialize (H5 i). unfold times_answered in *. simpl. repeat case_bool_decide; lia.
Qed.

Lemma reader_step_inv n0 s s' : reader_inv n0 s → reader_step s s' → reader_inv n0 s'.
Proof.
  intros Hi Hstep. destruct Hstep as [s payload w1 c w2 Hp Hrun Hc|s payload e w1 Hp Hrun
    |s payload o w1 gs Hp Hrun|s gs|s w1 Hg].
  - destruct (commit_cases _ _ _ _ Hc) as [Hk Hcases].
    assert (Hg : topic_grows (rd_world s) w2)
      by (pose proof (handle_grows _ _ _ _ Hrun) as H; unfold topic_grows in *; by rewrite Hk).
    eapply answer_inv; try done. simpl. destruct Hcases as [-> | ->]; auto.
  - eapply answer_inv; try done; [by eapply handle_grows|by left].
  - apply move_inv; [done|exact (handle_grows _ _ _ _ Hrun)|by right].
  - apply move_inv; [done|exact (reflexivity (w_kafka (rd_world s)))|by right].
  - apply move_inv; [done|by apply Hothers|by left].
Qed.
(** The loop of the process is such a run, for as long as it lasts. *)
Lemma consume_reads ps : ∀ s c w',
  (∀ k p, ps !! k = Some p → w_kafka (rd_world s) !! (rd_pos s + k) = Some p) →
  consume from_json decode_read decode_strings cs (Z.of_nat (rd_pos s)) (Payload <$> ps)
    (Z.of_nat (rd_committed s)) (rd_world s) = (Ok c, w') →
  ∃ answers, rtc reader_step s (mkReader w' (rd_pos s + length ps) (Z.to_nat c) answers (rd_restarts s)).
Proof.
  induction ps as [|p ps IH]; intros s c w' Hps Hrun.
  - destruct s as [w pos co an re]. simpl in *. injection Hrun as <- <-.
    exists an. by rewrite Nat.add_0_r, Nat2Z.id.
  - pose proof (Hps 0 p eq_refl) as Hp. rewrite Nat.add_0_r in Hp.
    assert (Hrest : ∀ w1, topic_grows (rd_world s) w1 →
      ∀ k q, ps !! k = Some q → w_kafka w1 !! (S (rd_pos s) + k) = Some q).
    { intros w1 [log ->] k q Hk. apply lookup_app_l_Some.
      replace (S (rd_pos s) + k) with (rd_pos s + S k) by lia. by apply Hps. }
    pose proof (handle_msg_keeps from_json decode_read decode_strings _ _ p Htopic (rd_world s)) as Hg.
    rewrite fmap_cons in Hrun. cbn [consume] in Hrun.
    destruct (handle p (rd_world s)) as [o w1] eqn:Hh. simpl in Hg.
    assert (Ha : attempt (handle p) (rd_world s) = match o with
      | Ok a => (Ok (inr a), w1) | Err e => (Ok (inl e), w1) | Panic => (Panic, w1) | Hang => (Hang, w1) end)
      by (unfold attempt; by rewrite Hh).
    destruct o as [[]|e| |]; try (by unfold mbind, M_bind at 1 in Hrun; rewrite Ha in Hrun);
      rewrite (bind_ok _ _ _ _ _ Ha) in Hrun.
    + destruct (commit_total s w1) as (co & w2 & Hc & Hloop).
      specialize (Hloop (consume from_json decode_read decode_strings cs (Z.of_nat (rd_pos s) + 1) (Payload <$> ps))).
      assert (Hrun' : consume from_json decode_read decode_strings cs (Z.of_nat (S (rd_pos s))) (Payload <$> ps)
        (Z.of_nat co) w2 = (Ok c, w')).
      { rewrite Nat2Z.inj_succ. unfold Z.succ. rewrite <- Hloop. exact Hrun. }
      destruct (IH (mkReader w2 (S (rd_pos s)) co (rd_answers s ++ [(rd_pos s, p, true)]) (rd_restarts s)) c w')
        as [answers Hrtc]; [|done|].
      * apply (Hrest w2). unfold topic_grows in *. by destruct (commit_cases _ _ _ _ Hc) as [-> _].
      * exists answers. simpl in *. rewrite Nat.add_succ_r. eapply rtc_l; [by eapply reader_handles|done].
    + destruct (IH (mkReader w1 (S (rd_pos s)) (rd_committed s) (rd_answers s ++ [(rd_pos s, p, false)]) (rd_restarts s)) c w')
        as [answers Hrtc]; [by apply Hrest|simpl; by rewrite Nat2Z.inj_succ|].
      exists answers. simpl in *. rewrite Nat.add_succ_r. eapply rtc_l; [by eapply reader_fails|done].
Qed.
End reader.

(** The calls of the deployed consumers leave the topic alone. *)
Lemma grows_same {A X} (f : World → X) (m : IO A) :
  (∀ w w', f w' = f w → w_kafka w' = w_kafka w) → keeps (same f) m → keeps topic_grows m.
Proof. intros Hf Hm w. unfold topic_grows. by rewrite (Hf _ _ (Hm w)). Qed.
Lemma grows_remote {A} e (op : IO A) : keeps topic_grows op → keeps topic_grows (remote e op).
Proof. apply keeps_remote; [apply _|]. intros w fs. exact (reflexivity (w_kafka w)). Qed.
Lemma grows_pg {A} (q : Pg → option (A * Pg)) : keeps topic_grows (pg_exec q).
Proof. apply grows_remote. intros w. destruct (q (w_pg w)) as [[]|]; exact (reflexivity (w_kafka w)). Qed.
Lemma grows_redis {A} (c : Z → RM A) : keeps topic_grows (redis_conn ;; redis_run c).
Proof.
  apply keeps_bind; [apply _|apply grows_remote, keeps_ret, _|intros _]. apply grows_remote.
  intros w. destruct (c (w_clock w) (w_redis w)) as [[] ?]; exact (reflexivity (w_kafka w)).
Qed.

Lemma consumer_topic step box (box_laws : MsgRecBoxLaws box) pusher `{!PusherLaws pusher} :
  HandlingCalls (λ A m, keeps topic_grows m) (consumer_new step box pusher).
Proof.
  split; intros; simpl; try apply grows_redis; try apply grows_pg;
    try (apply (grows_same outside_box);
         [unfold outside_box; intros w w' E; by simplify_eq
         |first [apply (@box_frame_save _ box_laws)|apply (@box_frame_group _ box_laws)
                |apply (@box_frame_delete _ box_laws)|apply (@box_frame_read _ box_laws)]]);
    try (apply (grows_same stores);
         [unfold stores; intros w w' E; by simplify_eq|first [apply push_single_frame|apply push_group_frame]]).
  - unfold incr_group_seq. apply keeps_bind; [apply _|apply grows_remote, keeps_ret, _|intros _].
    apply keeps_bind; [apply _| |intros r; apply keeps_collect, _]. apply grows_remote.
    intros w. destruct (group_script _ _ _ _) as [[] ?]; exact (reflexivity (w_kafka w)).
  - unfold save_max_seq_batch. case_bool_decide; [apply keeps_ret, _|apply grows_pg].
Qed.

(** C7. Every record is answered at least once. Whatever fails while records
    are handled or committed, however often the process ends, in the middle of
    a record or not (what it did of that record counts as the others'), and
    starts again from the last committed offset, and whatever others do
    meanwhile, as long as the topic only grows: every record before the position of the
    reader, and so every record before the committed offset, was handled to an
    answer; what is committed was handled without an error; and no record is
    answered more often than the process was started. *)
Theorem records_answered_at_least_once (from_json : string → option Msg) (decode_read : bytes → option MsgRead)
    (decode_strings : bytes → option (list string)) (cs : ConsumerService)
    (Htopic : HandlingCalls (λ A m, keeps topic_grows m) cs) (n0 : nat) (w : World) (s : Reader)
    (Hrun : rtc (reader_step topic_grows from_json decode_read decode_strings cs) (mkReader w n0 n0 [] 0) s) :
  n0 ≤ rd_committed s ≤ rd_pos s
  ∧ (∀ i, n0 ≤ i < rd_pos s → ∃ payload b, w_kafka (rd_world s) !! i = Some payload ∧ (i, payload, b) ∈ rd_answers s)
  ∧ (rd_committed s = n0 ∨ ∃ i payload, rd_committed s = S i ∧ (i, payload, true) ∈ rd_answers s)
  ∧ ∀ i, times_answered s i ≤ S (rd_restarts s).
Proof.
  assert (Hinv : reader_inv n0 s).
  { assert (H0 : reader_inv n0 (mkReader w n0 n0 [] 0)).
    { split; simpl; [lia|intros i Hi; lia|by intros i p b ?%not_elem_of_nil|by left|].
      intros i. unfold times_answered. simpl. case_bool_decide; lia. }
    revert H0. induction Hrun as [|x y z Hxy _ IH]; [done|]. intros Hx. by eapply IH, (reader_step_inv topic_grows). }
  destruct Hinv as [H1 H2 _ H4 H5]. split_and!; [lia|lia| |done|].
  - intros i Hi. destruct (H2 i Hi) as (p & Hp & b & Hb). eauto.
  - intros i. specialize (H5 i). case_bool_decide; lia.
Qed.

(** ** A lost commit *)

Section redelivery.
Context (from_json : string → option Msg) (decode_read : bytes → option MsgRead)
        (decode_strings : bytes → option (list string)).
Context (parse_socket : string → option string) (endpoint_ok : string → bool)
        (arrival : list (string * bool) → list (string * bool)) (step : Z) (Harr : ∀ l, arrival l ≡ₚ l).
Abbreviation cs := (deployed parse_socket endpoint_ok arrival step).

(** C8. A message handled before a crash is handled twice. When the process ends
    after it handled a single message and before the offset is committed, and
    nobody else acts, the next process reads the record again and handles it
    like a new one: the first handling stored the message under the receiver's
    next number and pushed it to every gateway the first process knew, the
    second one stores it again, under the number after that, and pushes it again,
    to every gateway the second process knows; only then is the offset
    committed, and the receiver finds both copies when it pulls. Nothing
    compares the server ids. *)
Theorem redelivery_doubles (s : Reader) (payload : string) (m : Msg) (mt : MsgType) (ms : list Msg)
    (q : option Z * option Z) (row : SeqRow) (gateways : list string)
    (Hrec : w_kafka (rd_world s) !! rd_pos s = Some payload) (Hpos : rd_committed s = rd_pos s)
    (Hready : @ready cs msg_box_laws (rd_world s))
    (Hjson : from_json payload = Some m) (Hmt : msg_type_try_from (msg_type m) = Some mt)
    (Hclass : classify_msg_type mt = (Single, true, true)) (Hdb : get_send_to_db_flag mt = true)
    (Hq : pseq (w_redis (rd_world s)) (seq_key (receiver_id m)) = Some q)
    (Hrow : t_sequence (w_pg (rd_world s)) !! receiver_id m = Some row)
    (H64 : (0 ≤ default 0 q.1)%Z ∧ (default 0 q.1 + 2 ≤ i64_max)%Z
           ∧ (0 ≤ rec_max_seq row)%Z ∧ (rec_max_seq row + 2 * step ≤ i64_max)%Z)
    (Hbox : mailbox (rd_world s) ms) (Hws : w_ws_list (rd_world s) ≠ []) (Hgws : gateways ≠ []) :
  let handle := handle_msg from_json decode_read decode_strings cs payload in
  let first := set_seq_field (default 0 q.1 + 1)%Z m in
  let second := set_seq_field (default 0 q.1 + 2)%Z m in
  ∃ w1 w2, handle (rd_world s) = (Ok tt, w1) ∧ handle (reboot gateways w1) = (Ok tt, w2)
    ∧ mailbox w1 (ms ++ [first]) ∧ mailbox w2 (ms ++ [first; second])
    ∧ w_pushed w1 = w_pushed (rd_world s) ++ ((λ a, PushSingle a first) <$> w_ws_list (rd_world s))
    ∧ w_pushed w2 = w_pushed w1 ++ ((λ a, PushSingle a second) <$> gateways)
    ∧ rtc (reader_step nobody from_json decode_read decode_strings cs) s
        (mkReader w2 (S (rd_pos s)) (S (rd_pos s)) (rd_answers s ++ [(rd_pos s, payload, true)])
           (S (rd_restarts s)))
    ∧ ∀ lo hi, (lo < seq first)%Z → (seq second ≤ hi)%Z → capacity_ok (0 - 0 + (hi - lo)) →
        ∃ out, pull_offline_messages msg_box (mkGetDbMessages (receiver_id m) lo hi 0 0) w2 = (Ok out, w2)
          ∧ MsgBox.blank_own (receiver_id m) (stored_part first) ∈ out
          ∧ MsgBox.blank_own (receiver_id m) (stored_part second) ∈ out.
Proof.
  intros handle first second. pose proof (rd_step _ _ Hready : (0 < step)%Z) as Hstep.
  assert (Hin : ∀ z, (0 ≤ z ≤ i64_max)%Z → in_i64 z = true).
  { intros z Hz. unfold in_i64, i64_min. rewrite andb_true_iff, !bool_decide_eq_true. lia. }
  assert (Hb : ∀ p, (bump step p).1.1 = (default 0 p.1 + 1)%Z) by (intros p; unfold bump; by case_match).
  destruct (consumed_run from_json decode_read decode_strings parse_socket endpoint_ok arrival step Harr
    payload m mt (rd_world s) ms q) as (w1 & R1 & Hready1 & Hbox1 & Hk1 & Hpu1 & Hws1 & Hq1 & Hpg1); try done.
  { apply Hin. lia. }
  { exists row. split; [done|]. apply Hin. simpl. lia. }
  rewrite Hb in Hbox1, Hpu1. fold first in Hbox1, Hpu1.
  assert (Hroom1 : has_room cs (receiver_id m) (reboot gateways w1)).
  { exists (if (bump step q).2 then bump_rec step row else row). simpl. rewrite Hpg1.
    destruct (bump step q).2; simpl; [rewrite lookup_alter_eq|]; rewrite Hrow; (split; [done|]); apply Hin; simpl; lia. }
  assert (Hready1' : @ready cs msg_box_laws (reboot gateways w1)) by (by destruct Hready1; split).
  destruct (consumed_run from_json decode_read decode_strings parse_socket endpoint_ok arrival step Harr
    payload m mt (reboot gateways w1) (ms ++ [first]) (pair_of (bump step q)))
    as (w2 & R2 & Hready2 & Hbox2 & Hk2 & Hpu2 & _); try done.
  { apply Hin. unfold pair_of. simpl. rewrite Hb. lia. }
  rewrite Hb in Hbox2, Hpu2. unfold pair_of in Hbox2, Hpu2. simpl in Hbox2, Hpu2. rewrite Hb in Hbox2, Hpu2.
  replace (default 0 q.1 + 1 + 1)%Z with (default 0 q.1 + 2)%Z in Hbox2, Hpu2 by lia. fold second in Hbox2, Hpu2.
  rewrite <- app_assoc in Hbox2.
  assert (Hcommit : commit (mkReader (reboot gateways w1) (rd_pos s) (rd_pos s) (rd_answers s) (S (rd_restarts s))) w2
    = (Ok (S (rd_pos s)), w2)).
  { unfold commit. mstep. by rewrite remote_healthy by apply Hready2. }
  exists w1, w2. split_and!; [exact R1|exact R2|exact Hbox1|exact Hbox2|exact Hpu1|exact Hpu2| |].
  - eapply rtc_l; [by apply (reader_dies _ _ _ _ _ s payload (Ok tt) w1 gateways)|]. rewrite Hpos.
    eapply rtc_l; [|apply rtc_refl].
    apply (reader_handles _ _ _ _ _ (mkReader (reboot gateways w1) (rd_pos s) (rd_pos s) (rd_answers s)
      (S (rd_restarts s))) payload w2 _ w2); [simpl; by rewrite Hk1|exact R2|exact Hcommit].
  - intros lo hi Hlo Hhi Hcap.
    assert (Hlt : (seq first < seq second)%Z).
    { change (default 0 q.1 + 1 < default 0 q.1 + 2)%Z. lia. }
    destruct (pulled w2 _ first lo hi (rd_net _ _ Hready2) Hbox2) as (out & Hout & Hin1); [|lia|done|].
    { apply elem_of_app. right. by left. }
    destruct (pulled w2 _ second lo hi (rd_net _ _ Hready2) Hbox2) as (out' & Hout' & Hin2); [|lia|done|].
    { apply elem_of_app. right. by right; left. }
    exists out. split_and!; [exact Hout|exact Hin1|]. change (receiver_id second) with (receiver_id first) in Hout'.
    rewrite Hout in Hout'. injection Hout' as <-. exact Hin2.
Qed.
End redelivery.

(** ** Witnesses *)

Definition hello_topic : World := upd_kafka (λ _, ["j"]%string) demo_world.
Definition hello_reader : Reader := mkReader hello_topic 0 0 [] 0.

Lemma records_answered_at_least_once_witness :
  ∃ s, rtc (reader_step topic_grows (λ _, Some hello) (λ _, None) (λ _, None) demo_service) hello_reader s
    ∧ rd_committed s = 1 ∧ ∃ payload b, w_kafka (rd_world s) !! 0 = Some payload ∧ (0, payload, b) ∈ rd_answers s.
Proof.
  set (h := handle_msg (λ _, Some hello) (λ _, None) (λ _, None) demo_service "j" hello_topic).
  assert (E : h = (Ok tt, h.2)) by (vm_compute; reflexivity).
  assert (Ec : commit hello_reader h.2 = (Ok 1, h.2)) by (vm_compute; reflexivity).
  pose (s := mkReader h.2 1 1 [(0, "j"%string, true)] 0).
  assert (Hrun : rtc (reader_step topic_grows (λ _, Some hello) (λ _, None) (λ _, None) demo_service) hello_reader s).
  { eapply rtc_l; [|apply rtc_refl]. exact (reader_handles _ _ _ _ demo_service hello_reader "j" h.2 1 h.2 eq_refl E Ec). }
  exists s. split_and!; [exact Hrun|reflexivity|].
  destruct (records_answered_at_least_once (λ _, Some hello) (λ _, None) (λ _, None) demo_service
    (consumer_topic 5 msg_box msg_box_laws _) 0 hello_topic s Hrun) as (_ & H & _).
  apply (H 0). simpl. lia.
Defined.

Lemma redelivery_doubles_witness :
  ∃ w2, rtc (reader_step nobody (λ _, Some hello) (λ _, None) (λ _, None) demo_service) hello_reader
          (mkReader w2 1 1 [(0, "j"%string, true)] 1)
    ∧ mailbox w2 [set_seq_field 1 hello; set_seq_field 2 hello]
    ∧ last (w_pushed w2) = Some (PushSingle "gw9" (set_seq_field 2 hello)).
Proof.
  destruct (redelivery_doubles (λ _, Some hello) (λ _, None) (λ _, None) Some (λ _, true) id_arrival 5
    (λ _, Permutation_refl _) hello_reader "j" hello SingleMsg [] (None, None) (mkSeqRow 5 5) ["gw9"%string])
    as (w1 & w2 & _ & _ & _ & Hbox & _ & Hpushed & Hrun & _); try reflexivity.
  - split; [reflexivity|reflexivity|reflexivity|intros k _; exact I|reflexivity].
  - vm_compute. split_and!; discriminate.
  - discriminate.
  - discriminate.
  - exists w2. split; [exact Hrun|]. split; [exact Hbox|]. rewrite Hpushed. apply last_snoc.
Defined.
