(* ===== verification/Migrate.v ===== *)
(** * The message migrator ([cmd/src/migrate.rs])

    It copies the legacy receive box into the box the configuration chooses:
    the documents are read in order and cut into batches, one task per batch
    parses and saves its documents, and the tasks run side by side. The order in
    which the runtime lets the tasks advance is a parameter, an interleaving of
    the batches. The cursor reads the documents the box holds when it is opened;
    every further server batch is a call that may fail. *)

From stdpp Require Import pretty.
From S2P Require Import Prelude Errors Types Tables World RecBox ShardedBox.

(** ** Interleavings of tasks *)

Inductive interleaves {A} : list (list A) → list A → Prop :=
| interleaves_done ts : Forall (.= []) ts → interleaves ts []
| interleaves_step ts1 x t ts2 l :
    interleaves (ts1 ++ t :: ts2) l → interleaves (ts1 ++ (x :: t) :: ts2) (x :: l).

(** ** Batches *)

(** [batch.push(doc); if batch.len() >= self.batch_size { .. }]: the batches
    that were filled and what is left over. *)
Fixpoint fill (batch_size : nat) (batch docs : list Document) : list (list Document) * list Document :=
  match docs with
  | [] => ([], batch)
  | doc :: docs =>
      if (batch_size <=? length (batch ++ [doc]))%nat
      then ((batch ++ [doc]) :: (fill batch_size [] docs).1, (fill batch_size [] docs).2)
      else fill batch_size (batch ++ [doc]) docs
  end.

(** The left-over batch is processed after the cursor is exhausted. *)
Definition batches (batch_size : nat) (docs : list Document) (exhausted : bool) : list (list Document) :=
  let '(full, rest) := fill batch_size [] docs in
  if exhausted then full ++ (match rest with [] => [] | _ :: _ => [rest] end) else full.

Section migrator.
Context (target_repo : MsgRecBoxRepo).
Context (schedule : list (list (nat * Document)) → list (nat * Document)).

(** A message that cannot be saved is logged and skipped. *)
Definition process_batch (batch : list Document) : IO unit :=
  for_each batch (λ doc, log_err (save_message target_repo (msg_of_doc doc))).

(** The tasks advance one document at a time; a task that panicked is gone. *)
Fixpoint run_tasks (panicked : list nat) (steps : list (nat * Document)) : IO (list nat) :=
  match steps with
  | [] => mret panicked
  | (task, doc) :: steps =>
      if bool_decide (task ∈ panicked) then run_tasks panicked steps
      else
        result ← spawn (process_batch [doc]);
        run_tasks (match result with Panic => task :: panicked | _ => panicked end) steps
  end.

(** [cursor.try_next().await?]: the documents before the first failing call. *)
Fixpoint get_more (chunks : list (list Document)) : IO (list Document * option Error) :=
  match chunks with
  | [] => mret ([], None)
  | chunk :: chunks =>
      answer ← attempt (remote mongo_error (mret tt));
      match answer with
      | inl e => mret ([], Some e)
      | inr _ => rest ← get_more chunks; mret (chunk ++ rest.1, rest.2)
      end
  end.

Definition find_all (batch_size : nat) : IO (list Document * option Error) :=
  docs ← mongo_read COLL_SINGLE_BOX c_docs;
  match batches batch_size docs true with
  | [] => mret ([], None)
  | chunk :: chunks => rest ← get_more chunks; mret (chunk ++ rest.1, rest.2)
  end.

Definition tagged (tasks : list (list Document)) : list (list (nat * Document)) :=
  imap (λ task batch, pair task <$> batch) tasks.

(** Without permits the first task is waited for forever; a failing cursor and
    a panicked task end the migration with an error. *)
Definition migrate (batch_size concurrency : nat) : IO unit :=
  total_count ← mongo_read COLL_SINGLE_BOX (λ c, length (c_docs c));
  found ← find_all batch_size;
  let tasks := batches batch_size found.1 (bool_decide (found.2 = None)) in
  if bool_decide (concurrency = 0%nat) && negb (bool_decide (tasks = [])) then hang
  else
    panicked ← run_tasks [] (schedule (tagged tasks));
    match found.2 with
    | Some e => throw e
    | None => if bool_decide (panicked = []) then mret tt else throw join_error
    end.
End migrator.

(** [run_migration]: the target is chosen by the configuration, where missing
    entries select the sharded box with ten ranges. *)
Section run.
Context (hash : string → Z) (year_month : Z → option string)
        (checked_add_months checked_sub_months : Z → Z → option Z)
        (schedule : list (list (nat * Document)) → list (nat * Document)).

Definition target_config (use_sharding : option bool) (user_shards : option Z) : option bool * option Z :=
  (Some (default true use_sharding), Some (default 10%Z user_shards)).

Definition run_migration (use_sharding : option bool) (user_shards : option Z) : IO unit :=
  let '(use_sharding, user_shards) := target_config use_sharding user_shards in
  let target_repo := msg_rec_box_repo hash year_month checked_sub_months use_sharding user_shards in
  (if bool_decide (use_sharding = Some true)
   then log_err (initialize_system year_month checked_add_months (shards_of_config user_shards))
   else mret tt) ;;
  migrate target_repo schedule 500 5.
End run.

Example fill_two : fill 2 [] [∅; ∅; ∅] = ([[∅; ∅]], [∅]).
Proof. reflexivity. Qed.

(** ** Every order of the tasks saves every document once *)

Definition docs_at (w : World) (name : string) : list Document := c_docs (coll_of (w_mongo w) name).
Definition moved (d : Document) : Document := to_doc (msg_of_doc d).

Lemma interleaves_perm {A} (ts : list (list A)) l : interleaves ts l → l ≡ₚ concat ts.
Proof.
  induction 1 as [ts Hts|ts1 x t ts2 l _ IH].
  - induction Hts as [|t ts -> _ IH]; [done|exact IH].
  - rewrite IH, !concat_app. simpl. by rewrite Permutation_middle.
Qed.

Lemma fill_concat n : ∀ docs batch, concat (fill n batch docs).1 ++ (fill n batch docs).2 = batch ++ docs.
Proof.
  induction docs as [|d docs IH]; intros batch; simpl; [by rewrite app_nil_r|].
  destruct (_ <=? _)%nat; simpl.
  - rewrite <- !app_assoc, IH. done.
  - by rewrite IH, <- app_assoc.
Qed.

Lemma batches_concat n docs : concat (batches n docs true) = docs.
Proof.
  pose proof (fill_concat n docs []) as H. unfold batches. destruct (fill n [] docs) as [full rest].
  simpl in *. rewrite concat_app. destruct rest; simpl in *; by rewrite ?app_nil_r in *.
Qed.

Lemma tags_concat (ts : list (list Document)) : ∀ k : nat,
  (concat (imap (λ task batch, pair (k + task)%nat <$> batch) ts)).*2 = concat ts.
Proof.
  induction ts as [|t ts IH]; intros k; [done|]. cbn [imap concat].
  rewrite fmap_app, <- list_fmap_compose. f_equal; [apply list_fmap_id|].
  rewrite <- (IH (S k)). f_equal. f_equal. apply imap_ext. intros i b _. unfold compose.
  by rewrite <- Nat.add_succ_comm.
Qed.

Lemma tagged_concat (ts : list (list Document)) : (concat (tagged ts)).*2 = concat ts.
Proof. apply (tags_concat ts 0). Qed.

Section migration.
Context (repo : MsgRecBoxRepo) (schedule : list (list (nat * Document)) → list (nat * Document)).
Hypothesis fair : ∀ ts, interleaves ts (schedule ts).

Lemma run_tasks_run steps w w' :
  process_batch repo (steps.*2) w = (Ok tt, w') → run_tasks repo [] steps w = (Ok [], w').
Proof.
  revert w. induction steps as [|[t d] steps IH]; intros w H; cbn in H |- *.
  { by injection H as <-. }
  rewrite bool_decide_eq_false_2 by apply not_elem_of_nil.
  unfold process_batch. cbn [for_each].
  destruct (log_err (save_message repo (msg_of_doc d)) w) as [[[]|e| |] w1] eqn:E;
    unfold mbind, M_bind in H; rewrite E in H; try done.
  erewrite bind_ok by (apply spawn_ok; erewrite bind_ok by exact E; reflexivity). by apply IH.
Qed.

Lemma get_more_run chunks w : healthy w → get_more chunks w = (Ok (concat chunks, None), w).
Proof.
  intros Hnet. induction chunks as [|c chunks IH]; [done|]. cbn [get_more].
  assert (Ha : attempt (remote mongo_error (mret tt)) w = (Ok (inr tt), w)).
  { unfold attempt. by rewrite remote_healthy. }
  mrun Ha. mrun IH. done.
Qed.

Lemma find_all_run n w : healthy w → find_all n w = (Ok (docs_at w COLL_SINGLE_BOX, None), w).
Proof.
  intros Hnet. unfold find_all. mrun (mongo_read_healthy COLL_SINGLE_BOX c_docs w Hnet).
  fold (docs_at w COLL_SINGLE_BOX).
  pose proof (batches_concat n (docs_at w COLL_SINGLE_BOX)) as Hb.
  destruct (batches n _ true) as [|c cs]; rewrite <- Hb; [done|]. by mrun (get_more_run cs w Hnet).
Qed.

(** Whatever the runtime does, a migration is a run through the documents one
    after the other, in some order. *)
Lemma migrate_run n c w : healthy w → c ≠ 0%nat →
  ∃ order, order ≡ₚ docs_at w COLL_SINGLE_BOX
    ∧ ∀ w', process_batch repo order w = (Ok tt, w') → migrate repo schedule n c w = (Ok tt, w').
Proof.
  intros Hnet Hc. set (ts := tagged (batches n (docs_at w COLL_SINGLE_BOX) true)).
  exists ((schedule ts).*2). split.
  - rewrite (interleaves_perm _ _ (fair ts)). unfold ts. by rewrite tagged_concat, batches_concat.
  - intros w' Hp. unfold migrate.
    mrun (mongo_read_healthy COLL_SINGLE_BOX (λ c, length (c_docs c)) w Hnet).
    mrun (find_all_run n w Hnet). simpl. rewrite (bool_decide_eq_false_2 (c = 0%nat)) by done. simpl.
    by mrun (run_tasks_run _ w w' Hp).
Qed.
End migration.

(** ** Into the sharded box *)

(** A document of the collection has the key the document will have. *)
Definition taken (w : World) (n : string) (d : Document) : Prop :=
  doc_key (moved d) ∈ (doc_key <$> docs_at w n).
Global Instance taken_dec w n d : Decision (taken w n d).
Proof. unfold taken. apply _. Defined.

Section sharded_target.
Context (hash : string → Z) (year_month : Z → option string) (sub_months : Z → Z → option Z).
Context (user_shards : Z) (Hshards : user_shards ≠ 0%Z).

(** The collection a document belongs to. *)
Definition place (now : Z) (d : Document) : string :=
  ("msg_box_" +:+ match year_month (send_time (msg_of_doc d)) with
                  | Some s => s | None => default "" (year_month (now / 1000)) end
   +:+ "_" +:+ pretty (as_u8 (hash (receiver_id (msg_of_doc d)) mod user_shards)))%string.

(** The shards hold no two documents with one key, and the collections at hand
    have their unique index. The legacy box need not. *)
Record shards_ok (w : World) : Prop := {
  so_keys name : name ≠ COLL_SINGLE_BOX → NoDup (doc_key <$> docs_at w name);
  so_unique name : name ∈ w_cached w → c_unique (coll_of (w_mongo w) name) = true
}.

Lemma place_shard now d : place now d ≠ COLL_SINGLE_BOX.
Proof. discriminate. Qed.

Lemma get_collection_unique name w :
  healthy w → shards_ok w → name ≠ COLL_SINGLE_BOX →
  ∃ w', get_collection name w = (Ok tt, w') ∧ healthy w' ∧ shards_ok w'
    ∧ w_clock w' = w_clock w ∧ (∀ n, docs_at w' n = docs_at w n)
    ∧ c_unique (coll_of (w_mongo w') name) = true.
Proof.
  intros Hnet [Hk Hu] Hne. unfold get_collection. erewrite bind_ok by done.
  case_bool_decide as Hin; [exists w; split_and!; try done; auto|].
  set (docs := c_docs (coll_of (w_mongo w) name)).
  assert (Hci : ∀ u v, healthy v → c_docs (coll_of (w_mongo v) name) = docs →
    create_index name u v = (Ok tt, upd_mongo (put_coll name
      (mkColl docs (u || c_unique (coll_of (w_mongo v) name)))) v)).
  { intros u v Hv Hd. unfold create_index. eapply mongo_run_healthy; [done|].
    rewrite Hd, (bool_decide_eq_true_2 (NoDup _)) by (by apply Hk). simpl. by rewrite andb_false_r. }
  unfold ensure_collection_indexed.
  erewrite bind_ok; [|do 4 (erewrite bind_ok by (apply Hci; [done|simpl; by rewrite ?coll_of_put])); reflexivity].
  simpl. erewrite bind_ok by done. rewrite bool_decide_eq_true_2 by (simpl; set_solver).
  eexists. split_and!; [reflexivity|done| |done| |simpl; by rewrite coll_of_put]; simpl.
  - split; intros n; unfold docs_at; simpl; rewrite !put_coll_twice.
    + intros Hn. destruct (decide (name = n)) as [<-|]; [rewrite coll_of_put; by apply Hk|].
      rewrite coll_of_put_ne by done. by apply Hk.
    + destruct (decide (name = n)) as [<-|]; [by rewrite coll_of_put|].
      rewrite coll_of_put_ne by done. intros ?. apply Hu. set_solver.
  - intros n. unfold docs_at. simpl. rewrite !put_coll_twice.
    destruct (decide (name = n)) as [<-|]; [by rewrite coll_of_put|]. by rewrite coll_of_put_ne.
Qed.

Abbreviation sharded := (sharded_box hash year_month sub_months user_shards).

(** Saving a document appends it to its collection, unless its key is there;
    the refusal is logged. *)
Lemma save_at d w : healthy w → shards_ok w →
  ∃ w', process_batch sharded [d] w = (Ok tt, w') ∧ healthy w' ∧ shards_ok w' ∧ w_clock w' = w_clock w
    ∧ ∀ n, docs_at w' n = if decide (n = place (w_clock w) d ∧ ¬ taken w n d)
                          then docs_at w n ++ [moved d] else docs_at w n.
Proof.
  intros Hnet Hok. set (name := place (w_clock w) d).
  destruct (get_collection_unique name w Hnet Hok) as (w1 & H1 & Hn1 & Hok1 & Hc1 & Hd1 & Hu1);
    [apply place_shard|].
  assert (Hsave : save_message sharded (msg_of_doc d) w = insert_one name (moved d) w1).
  { cbn [RecBox.save_message sharded_box]. unfold sharded_save_message, get_user_range.
    rewrite bool_decide_eq_false_2 by done. erewrite bind_ok by done. erewrite bind_ok by done.
    by mrun H1. }
  unfold process_batch. cbn [for_each]. destruct (decide (taken w name d)) as [Ht|Ht].
  - assert (Hi : insert_one name (moved d) w1 = (Err mongo_error, w1)).
    { unfold insert_one, mongo_run. rewrite remote_healthy by done. unfold coll_insert.
      rewrite Hu1, bool_decide_eq_true_2; [done|]. unfold taken in Ht. fold (docs_at w1 name). by rewrite Hd1. }
    exists w1. split_and!; try done.
    + erewrite bind_ok by (eapply log_err_err; rewrite Hsave; exact Hi). done.
    + intros n. rewrite Hd1. destruct (decide _) as [[-> ?]|]; done.
  - assert (Hi : coll_insert (moved d) (coll_of (w_mongo w1) name)
        = Some (mkColl (docs_at w1 name ++ [moved d]) true)).
    { rewrite coll_insert_ok; [by rewrite Hu1|]. right. fold (docs_at w1 name). by rewrite Hd1. }
    eexists. split_and!.
    + erewrite bind_ok; [reflexivity|]. eapply log_err_ok. rewrite Hsave. unfold insert_one.
      apply mongo_run_healthy; [done|]. rewrite Hi. reflexivity.
    + done.
    + split; intros n; unfold docs_at; simpl.
      * intros Hn. destruct (decide (name = n)) as [<-|]; [|rewrite coll_of_put_ne by done; by apply Hok1].
        rewrite coll_of_put. simpl. fold (docs_at w1 name). rewrite fmap_app, Hd1. apply NoDup_app. split_and!.
        -- by apply Hok.
        -- intros k Hk ->%list_elem_of_singleton. by apply Ht.
        -- apply NoDup_singleton.
      * destruct (decide (name = n)) as [<-|]; [by rewrite coll_of_put|].
        rewrite coll_of_put_ne by done. intros ?. by apply Hok1.
    + done.
    + intros n. unfold docs_at at 1. simpl. destruct (decide (name = n)) as [<-|Hne].
      * rewrite coll_of_put. simpl. rewrite decide_True by done. by rewrite Hd1.
      * rewrite coll_of_put_ne by done. fold (docs_at w1 n). rewrite Hd1, decide_False; [done|].
        by intros [-> _].
Qed.

(** What saving documents adds to a collection. *)
Record added (ds : list Document) (w w' : World) (n : string) (new : list Document) : Prop := {
  ad_docs : docs_at w' n = docs_at w n ++ new;
  ad_from x : x ∈ new → ∃ d, d ∈ ds ∧ place (w_clock w) d = n ∧ x = moved d;
  ad_all d : d ∈ ds → place (w_clock w) d = n → taken w' n d;
  ad_none : (∀ d, d ∈ ds → place (w_clock w) d = n → taken w n d) → new = []
}.

Lemma process_sharded ds : ∀ w, healthy w → shards_ok w →
  ∃ w', process_batch sharded ds w = (Ok tt, w') ∧ healthy w' ∧ shards_ok w' ∧ w_clock w' = w_clock w
    ∧ ∀ n, ∃ new, added ds w w' n new.
Proof.
  induction ds as [|d ds IH]; intros w Hnet Hok.
  { exists w. split_and!; try done. intros n. exists []. split; [by rewrite app_nil_r| | |done].
    - by intros x ?%not_elem_of_nil.
    - by intros d ?%not_elem_of_nil. }
  destruct (save_at d w Hnet Hok) as (w1 & H1 & Hn1 & Hok1 & Hc1 & Hd1).
  destruct (IH w1 Hn1 Hok1) as (w2 & H2 & Hn2 & Hok2 & Hc2 & Hd2).
  exists w2. split_and!; [|done|done|congruence|].
  { unfold process_batch in H1, H2 |- *. cbn [for_each] in H1 |- *.
    unfold mbind, M_bind in H1 |- *. destruct (log_err _ w) as [[[]|e| |] w'] eqn:E; try done.
    injection H1 as ->. exact H2. }
  intros n. destruct (Hd2 n) as [new [Ha Hf Hall Hnone]]. rewrite Hc1 in Hf, Hall, Hnone.
  specialize (Hd1 n).
  unfold taken in Hnone. rewrite Hd1 in Ha, Hnone.
  destruct (decide (n = place (w_clock w) d ∧ ¬ taken w n d)) as [[Hn Ht]|Hno].
  - exists (moved d :: new). split.
    + by rewrite Ha, <- app_assoc.
    + intros x [->|(d' & ? & ? & ->)%Hf]%elem_of_cons; [exists d|exists d']; rewrite elem_of_cons; auto.
    + intros d' [->|Hin]%elem_of_cons Hp; [|by apply Hall]. unfold taken. rewrite Ha, !fmap_app. simpl. set_solver.
    + intros Hx. destruct Ht. apply Hx; [apply elem_of_cons; by left|done].
  - exists new. split; [done| | |].
    + intros x (d' & ? & ? & ->)%Hf. exists d'. rewrite elem_of_cons; auto.
    + intros d' [->|Hin]%elem_of_cons Hp; [|by apply Hall]. unfold taken. rewrite Ha, fmap_app. apply elem_of_app. left.
      apply dec_stable. intros Hnt. apply Hno. by split.
    + intros Hx. apply Hnone. intros d' Hd' Hp. apply (Hx d'); [apply elem_of_cons; by right|done].
Qed.
End sharded_target.

Lemma moved_stored m : moved (to_doc m) = to_doc m.
Proof. unfold moved. rewrite msg_of_doc_to_doc. by destruct m. Qed.

(** C37. Migrating into the sharded box, whatever order the tasks run in: every
    message of the legacy box is in the collection of its month and range
    afterwards, nothing else was added there, no key is there twice, what the
    collections held is still there, and the legacy box is untouched. Migrating
    once more, in any other order or with other batches, changes no document. *)
Theorem migration_exact (hash : string → Z) (year_month : Z → option string)
    (sub_months : Z → Z → option Z) (user_shards : Z)
    (schedule : list (list (nat * Document)) → list (nat * Document)) (n c : nat) (w : World) (ms : list Msg)
    (Hshards : user_shards ≠ 0%Z) (fair : ∀ ts, interleaves ts (schedule ts)) (Hc : c ≠ 0%nat)
    (Hnet : healthy w) (Hok : shards_ok w) (Hsrc : docs_at w COLL_SINGLE_BOX = to_doc <$> ms) :
  let box := sharded_box hash year_month sub_months user_shards in
  let home m := place hash year_month user_shards (w_clock w) (to_doc m) in
  ∃ w', migrate box schedule n c w = (Ok tt, w')
  ∧ docs_at w' COLL_SINGLE_BOX = to_doc <$> ms
  ∧ (∀ m, m ∈ ms → doc_key (to_doc m) ∈ (doc_key <$> docs_at w' (home m)))
  ∧ (∀ name x, x ∈ docs_at w' name →
       x ∈ docs_at w name ∨ ∃ m, m ∈ ms ∧ home m = name ∧ x = to_doc m)
  ∧ (∀ name, docs_at w name `prefix_of` docs_at w' name
       ∧ (name ≠ COLL_SINGLE_BOX → NoDup (doc_key <$> docs_at w' name)))
  ∧ ∀ schedule' n' c', (∀ ts, interleaves ts (schedule' ts)) → c' ≠ 0%nat →
      ∃ w'', migrate box schedule' n' c' w' = (Ok tt, w'') ∧ ∀ name, docs_at w'' name = docs_at w' name.
Proof.
  intros box home.
  destruct (migrate_run box schedule fair n c w Hnet Hc) as (ds & Hds & Hm).
  destruct (process_sharded hash year_month sub_months user_shards Hshards ds w Hnet Hok)
    as (w' & Hp & Hn' & Hok' & Hc' & Ha).
  assert (Hin : ∀ m, m ∈ ms → to_doc m ∈ ds).
  { intros m Hin. rewrite Hds, Hsrc. by apply list_elem_of_fmap_2. }
  assert (Hold : docs_at w' COLL_SINGLE_BOX = docs_at w COLL_SINGLE_BOX).
  { destruct (Ha COLL_SINGLE_BOX) as ([|x new] & [-> Hf _ _]); [by rewrite app_nil_r|].
    destruct (Hf x) as (d & _ & []%place_shard & _). apply elem_of_cons. by left. }
  exists w'. split_and!.
  - by apply Hm.
  - by rewrite Hold.
  - intros m Hm'. destruct (Ha (home m)) as (new & [_ _ Hall _]).
    specialize (Hall _ (Hin m Hm') eq_refl). unfold taken in Hall. by rewrite moved_stored in Hall.
  - intros name x. destruct (Ha name) as (new & [-> Hf _ _]).
    intros [Hx|(d & Hd & Hp' & ->)%Hf]%elem_of_app; [by left|right].
    rewrite Hds, Hsrc in Hd. apply list_elem_of_fmap in Hd as (m & -> & Hm').
    exists m. by rewrite moved_stored.
  - intros name. split; [|by apply Hok']. destruct (Ha name) as (new & [-> _ _ _]). by exists new.
  - intros sch n' c' fair' Hc''.
    destruct (migrate_run box sch fair' n' c' w' Hn' Hc'') as (ds' & Hds' & Hm'').
    destruct (process_sharded hash year_month sub_months user_shards Hshards ds' w' Hn' Hok')
      as (w'' & Hp'' & _ & _ & _ & Ha''). exists w''. split; [by apply Hm''|].
    intros name. destruct (Ha'' name) as (new & [-> _ _ Hnone]). rewrite Hnone; [apply app_nil_r|].
    intros d Hd Hpl. rewrite Hds', Hold, <- Hds in Hd. rewrite Hc' in Hpl.
    destruct (Ha name) as (? & [_ _ Hall _]). by apply Hall.
Qed.

(** ** Into the legacy box *)

Lemma process_legacy ds : ∀ w, healthy w → c_unique (coll_of (w_mongo w) COLL_SINGLE_BOX) = false →
  ∃ w', process_batch msg_box ds w = (Ok tt, w') ∧ healthy w'
    ∧ docs_at w' COLL_SINGLE_BOX = docs_at w COLL_SINGLE_BOX ++ (moved <$> ds).
Proof.
  induction ds as [|d ds IH]; intros w Hnet Hu.
  { exists w. by rewrite app_nil_r. }
  set (w1 := upd_mongo (put_coll COLL_SINGLE_BOX
    (mkColl (docs_at w COLL_SINGLE_BOX ++ [moved d]) false)) w).
  assert (H1 : log_err (save_message msg_box (msg_of_doc d)) w = (Ok tt, w1)).
  { eapply log_err_ok. cbn [RecBox.save_message msg_box]. unfold MsgBox.save_message, insert_one.
    apply mongo_run_healthy; [done|]. rewrite coll_insert_ok by auto. by rewrite Hu. }
  destruct (IH w1) as (w2 & H2 & Hn2 & Hd2); [done|simpl; by rewrite coll_of_put|].
  exists w2. split_and!; [|done|].
  - unfold process_batch in *. cbn [for_each]. by mrun H1.
  - rewrite Hd2. unfold w1, docs_at at 1. simpl. rewrite coll_of_put. simpl. by rewrite <- app_assoc.
Qed.

(** A configuration that switches sharding off makes the migration copy the
    legacy box into itself: it reports success and every message is there
    twice. *)
Theorem migration_into_itself (hash : string → Z) (year_month : Z → option string)
    (add_months sub_months : Z → Z → option Z) (user_shards : option Z)
    (schedule : list (list (nat * Document)) → list (nat * Document)) (w : World) (ms : list Msg)
    (fair : ∀ ts, interleaves ts (schedule ts)) (Hnet : healthy w)
    (Hu : c_unique (coll_of (w_mongo w) COLL_SINGLE_BOX) = false)
    (Hsrc : docs_at w COLL_SINGLE_BOX = to_doc <$> ms) :
  ∃ w', run_migration hash year_month add_months sub_months schedule (Some false) user_shards w = (Ok tt, w')
  ∧ docs_at w' COLL_SINGLE_BOX ≡ₚ (to_doc <$> ms) ++ (to_doc <$> ms).
Proof.
  destruct (migrate_run msg_box schedule fair 500 5 w Hnet) as (ds & Hds & Hm); [done|].
  destruct (process_legacy ds w Hnet Hu) as (w' & Hp & _ & Hd).
  exists w'. split; [by apply Hm|]. rewrite Hd, Hds, Hsrc, <- list_fmap_compose.
  f_equiv. apply reflexive_eq, list_fmap_ext. intros i m _. apply moved_stored.
Qed.

(** ** Witnesses *)

Lemma interleaves_skip {A} (ts : list (list A)) l : interleaves ts l → interleaves ([] :: ts) l.
Proof.
  induction 1 as [ts Hts|ts1 x t ts2 l _ IH].
  - apply interleaves_done. by constructor.
  - apply (interleaves_step ([] :: ts1)), IH.
Qed.

(** One task after the other. *)
Lemma interleaves_concat {A} (ts : list (list A)) : interleaves ts (concat ts).
Proof.
  induction ts as [|t ts IH]; [by apply interleaves_done|]. cbn [concat].
  induction t as [|x t IHt]; [by apply interleaves_skip|]. by apply (interleaves_step []).
Qed.

Definition two_msgs : list Msg :=
  [set_receiver "ann" (set_seq_field 1 default_msg); set_receiver "bob" (set_seq_field 1 default_msg)].
Definition full_box : World :=
  upd_mongo (put_coll COLL_SINGLE_BOX (mkColl (to_doc <$> two_msgs) false)) noon_2024.

Lemma full_box_shards_ok : shards_ok full_box.
Proof.
  split; intros name.
  - intros Hne. unfold docs_at, full_box. simpl. rewrite coll_of_put_ne by done. constructor.
  - intros []%not_elem_of_empty.
Qed.

Lemma migration_exact_witness :
  (migrate (sharded_box (λ _, 3%Z) flat_month flat_sub 10) (@concat _) 1 5 full_box).1 = Ok tt.
Proof.
  destruct (migration_exact (λ _, 3%Z) flat_month flat_sub 10 (@concat _) 1 5 full_box two_msgs)
    as (w' & H & _).
  - lia.
  - intros ts. apply interleaves_concat.
  - discriminate.
  - reflexivity.
  - exact full_box_shards_ok.
  - reflexivity.
  - rewrite H. reflexivity.
Defined.

Lemma migration_into_itself_witness :
  ∃ w', run_migration (λ _, 3%Z) flat_month flat_sub flat_sub (@concat _) (Some false) None full_box = (Ok tt, w')
  ∧ docs_at w' COLL_SINGLE_BOX ≡ₚ (to_doc <$> two_msgs) ++ (to_doc <$> two_msgs).
Proof.
  apply (migration_into_itself (λ _, 3%Z) flat_month flat_sub flat_sub None (@concat _) full_box two_msgs).
  - intros ts. apply interleaves_concat.
  - reflexivity.
  - reflexivity.
  - reflexivity.
Defined.
