(* ===== verification/Startup.v ===== *)
(** * Start-up ([cmd/src/main.rs] and the [start]s of the services)

    The command line, the reading of the configuration, and what each component
    starts, as tasks of [Process]: the actions in the order of the code, the
    tasks they spawn and how these are waited for. What an action does is its
    component's definition where there is one; clients, listeners and servers
    of libraries are a parameter, a server being an action that never returns. *)

From stdpp Require Import pretty.
From S2P Require Import Prelude Process Errors Types Tables Config World Oss Discovery Records Cache SeqStore RecBox ShardedBox WsServer ConnTasks UserStore Stores Migrate.

Local Open Scope string_scope.

(** ** The configuration ([Config::load], the command line) *)

(** [serde(rename_all = "lowercase")] *)
Definition component_name (c : Component) : string :=
  match c with
  | CApi => "api" | CMessageServer => "messageserver" | CMessageGateway => "messagegateway" | CAll => "all"
  end.
Definition component_of_name (s : string) : option Component :=
  find (λ c, bool_decide (component_name c = s)) [CApi; CMessageServer; CMessageGateway; CAll].

(** [fs::read_to_string(path)?], then [serde_yaml::from_str(..)?] *)
Definition Config_load (read_file : string → string + string) (parse : string → string + Config)
    (path : string) : outcome Error Config :=
  match read_file path with
  | inl e => Err (from_external (StdIoError e))
  | inr content =>
      match parse content with
      | inl e => Err (from_external (SerdeYamlError e))
      | inr config => Ok config
      end
  end.

Definition DEFAULT_CONFIG_PATH : string := "./config.yml".

(** The arguments [-p] and [--migrate-messages]. *)
Record Args : Type := mkArgs { ar_configuration : option string; ar_migrate_messages : bool }.
Definition configuration (a : Args) : string := default DEFAULT_CONFIG_PATH (ar_configuration a).

(** Where the log goes: a directory, or the console. *)
Definition log_target (c : Config) : option string :=
  if bool_decide (log_output (cfg_log c) ≠ "console") then Some (log_output (cfg_log c)) else None.

(** ** Tasks and actions *)

Inductive Task : Type :=
| TMain | TWsServer | TManager | TWsListener | TWsRpc | TCleaner | TApi | TMsgServer | TProducer | TConsumer.
Inductive Action : Type :=
| RunMigration
| LoadSeq
| NewManager (chat : string)              (* [Manager::new]: cache and chat client *)
| ManagerRun
| Bind (addr : string)                    (* [TcpListener::bind] *)
| Serve (addr : string)                   (* [axum::serve], [Server::serve] *)
| RegisterWebsocket
| RegisterService (c : Component)
| OpenMsgBox
| CleanRounds
| SearcherInit (xdb : string)
| OpenDb
| ChatClient (name : string)
| OpenCache
| OpenOss
| CenterClient
| NewBalancer (name strategy : string)
| InitOAuth2
| CreateProducer (settings : list (string * string))
| EnsureTopic (topic broker : string) (timeout : Z)
| CreateConsumer (settings : list (string * string))
| Subscribe (topic : string)
| NewPusher (name : string)
| Consume.

Global Instance Task_eq_dec : EqDecision Task.
Proof. solve_decision. Defined.
Definition all_tasks : list Task :=
  [TMain; TWsServer; TManager; TWsListener; TWsRpc; TCleaner; TApi; TMsgServer; TProducer; TConsumer].
Definition task_index (t : Task) : nat :=
  match t with
  | TMain => 0 | TWsServer => 1 | TManager => 2 | TWsListener => 3 | TWsRpc => 4 | TCleaner => 5
  | TApi => 6 | TMsgServer => 7 | TProducer => 8 | TConsumer => 9
  end.
Global Instance Task_countable : Countable Task.
Proof.
  apply (inj_countable' task_index (λ n, nth n all_tasks TMain)). by intros [].
Defined.

Section code.
Context (config : Config) (migrate_messages : bool).
Abbreviation chat := (rpc_chat (cfg_rpc config)).
Abbreviation ws := (rpc_ws (cfg_rpc config)).
Abbreviation kafka := (cfg_kafka config).

Definition broker : string := String.concat "," (kfc_hosts kafka).
Definition producer_settings : list (string * string) :=
  [("bootstrap.servers", broker);
   ("message.timeout.ms", pretty (kpr_timeout (kfc_producer kafka)));
   ("socket.timeout.ms", pretty (kfc_connect_timeout kafka));
   ("acks", kpr_acks (kfc_producer kafka));
   ("enable.idempotence", "true");
   ("retries", pretty (kpr_max_retry (kfc_producer kafka)));
   ("retry.backoff.ms", pretty (kpr_retry_interval (kfc_producer kafka)))].
Definition consumer_settings : list (string * string) :=
  [("group.id", kfc_group kafka);
   ("bootstrap.servers", broker);
   ("enable.auto.commit", "false");
   ("session.timeout.ms", pretty (kco_session_timeout (kfc_consumer kafka)));
   ("socket.timeout.ms", pretty (kfc_connect_timeout kafka));
   ("enable.partition.eof", "false");
   ("auto.offset.reset", kco_auto_offset_reset (kfc_consumer kafka))].

(** [WsServer::start] *)
Definition ws_server_start : list (Instr Task Action) :=
  [Do (NewManager (rsc_name chat)); Spawn TManager; Do (Bind (ws_rpc_server_url (cfg_websocket config)));
   Spawn TWsListener; Do RegisterWebsocket; Spawn TWsRpc; Select [TWsListener; TWsRpc]].
(** [MsgRpcService::start] *)
Definition msg_rpc_start : list (Instr Task Action) :=
  [Do (RegisterService CMessageGateway); Do (Serve (rpc_server_url ws))].

(** [AppState::new] and [api::start] *)
Definition app_state_new : list (Instr Task Action) :=
  [Do OpenDb; Do OpenMsgBox; Do (ChatClient (rsc_name chat)); Do OpenCache; Do OpenOss; Do CenterClient;
   Do (NewBalancer (wsc_name (cfg_websocket config)) (svc_ws_lb_strategy (cfg_server config))); Do InitOAuth2].
Definition api_start : list (Instr Task Action) :=
  Do (SearcherInit (dbc_xdb (cfg_db config))) :: app_state_new
  ++ [Do (Bind (server_url (cfg_server config))); Do (Serve (server_url (cfg_server config)))].

(** [ChatRpcService::start], [ConsumerService::new] with [consume], [msg_server::start] *)
Definition chat_rpc_start : list (Instr Task Action) :=
  [Do (CreateProducer producer_settings); Do (EnsureTopic (kfc_topic kafka) broker (kfc_connect_timeout kafka));
   Do (RegisterService CMessageServer); Do (Serve (rpc_server_url chat))].
Definition consumer_start : list (Instr Task Action) :=
  [Do (CreateConsumer consumer_settings); Do (Subscribe (kfc_topic kafka)); Do (NewPusher (rsc_name ws));
   Do OpenDb; Do OpenCache; Do OpenMsgBox; Do Consume].
Definition msg_server_start : list (Instr Task Action) :=
  [Spawn TProducer; Spawn TConsumer; TryJoin [TProducer; TConsumer]].

(** [start_all] and [main] *)
Definition start_all : list (Instr Task Action) :=
  [Spawn TWsServer; Do OpenMsgBox; Spawn TCleaner; Spawn TApi; Spawn TMsgServer;
   Select [TWsServer; TApi; TMsgServer]].
Definition main : list (Instr Task Action) :=
  if migrate_messages then [Do RunMigration]
  else Do LoadSeq :: match cfg_component config with
                     | CApi => api_start
                     | CMessageGateway => ws_server_start
                     | CMessageServer => msg_server_start
                     | CAll => start_all
                     end.

(** The tasks a component runs, besides its main task. *)
Definition gateway_tasks : list Task := [TManager; TWsListener; TWsRpc].
Definition message_tasks : list Task := [TProducer; TConsumer].
Definition tasks_of : list Task :=
  if migrate_messages then []
  else match cfg_component config with
       | CApi => []
       | CMessageGateway => gateway_tasks
       | CMessageServer => message_tasks
       | CAll => [TWsServer; TCleaner; TApi; TMsgServer] ++ gateway_tasks ++ message_tasks
       end.

Definition body (t : Task) : list (Instr Task Action) :=
  match t with
  | TMain => main
  | TWsServer => ws_server_start
  | TManager => [Do ManagerRun]
  | TWsListener => [Do (Serve (ws_rpc_server_url (cfg_websocket config)))]
  | TWsRpc => msg_rpc_start
  | TCleaner => [Do CleanRounds]
  | TApi => api_start
  | TMsgServer => msg_server_start
  | TProducer => chat_rpc_start
  | TConsumer => consumer_start
  end.
Definition code (t : Task) : list (Instr Task Action) :=
  if existsb (λ u, Nat.eqb (task_index u) (task_index t)) (TMain :: tasks_of) then body t else [].
End code.

(** ** What the actions do *)

(** [ensure_topic_exists]: the topic is created twice, and the results for the
    single topics, which are inside an [Ok], are not looked at. *)
Inductive KafkaError : Type := AdminOpCreation (s : string) | OtherKafkaError (s : string).
Definition ensure_topic_exists (create_client : KafkaError + unit)
    (create_topics : nat → KafkaError + list (string + string)) : KafkaError + unit :=
  match create_client, create_topics 0, create_topics 1 with
  | inl e, _, _ => inl e
  | _, inl e, _ => inl e
  | _, _, inr _ => inr tt
  | _, _, inl (AdminOpCreation _) => inr tt
  | _, _, inl e => inl e
  end.

Record BasicClient : Type := mkBasicClient {
  bc_client_id : string; bc_client_secret : string; bc_auth_url : string; bc_token_url : string;
  bc_redirect_url : string
}.
(** [init_oauth2_client]: every URL that does not parse is unwrapped. *)
Definition init_oauth2_client (url_ok : string → bool) (o : OAuth2Item) : option BasicClient :=
  if url_ok (oa_auth_url o) && url_ok (oa_token_url o) && url_ok (oa_redirect_url o)
  then Some (mkBasicClient (oa_client_id o) (oa_client_secret o) (oa_auth_url o) (oa_token_url o) (oa_redirect_url o))
  else None.
Record OAuth2Clients : Type := mkOAuth2Clients { oc_github : BasicClient; oc_google : BasicClient }.
Definition init_oauth2 (url_ok : string → bool) (config : Config) : option OAuth2Clients :=
  google ← init_oauth2_client url_ok (oa_google (svc_oauth2 (cfg_server config)));
  github ← init_oauth2_client url_ok (oa_github (svc_oauth2 (cfg_server config)));
  Some (mkOAuth2Clients github google).

Definition outcome_of {A} (o : outcome Error A) : IO unit := λ w,
  (match o with Ok _ => Ok tt | Err e => Err e | Panic => Panic | Hang => Hang end, w).
Definition void {A} (m : IO A) : IO unit := m ≫= λ _, mret tt.

Section perform.
Context (config : Config).
(* hash, calendar and order of the tasks, for the boxes and the migration *)
Context (hash : string → Z) (year_month : Z → option string)
        (checked_add_months checked_sub_months : Z → Z → option Z)
        (schedule : list (list (nat * Document)) → list (nat * Document)).
(* the repositories' libraries *)
Context (nanoid : nat → string) (argon : Argon2) (serial : string * string → Z) {pg_server : Sql.PgServer}
        (options_of_json : string → option (list PollOption)) (json_of_options : list PollOption → string).
(* the object store's account, the local files and the order of the avatars *)
Context (foreign : string → bool) (local_file : string → option bytes) (avatar_order : list (string * string)).
(* the service centre and the URL parser *)
Context (scheme_i32 : string → Z) (host_name : outcome Error string) (from_shared url_ok : string → bool)
        (connect register : outcome Error unit).
(* Kafka's administration *)
Context (create_client : KafkaError + unit) (create_topics : nat → KafkaError + list (string + string)).
(* clients, listeners and servers *)
Context (library : Action → IO unit).

Abbreviation mongo := (dbc_mongodb (cfg_db config)).

(** [HybridShardedMsgBox::from_config] with [new]: an error of the
    initialisation is logged. *)
Definition hybrid_from_config : IO unit :=
  unwrap (remote mongo_error (mret tt)) ;;
  log_err (initialize_system year_month checked_add_months (shards_of_config (mgc_user_shards mongo))).
(** [MsgBox::from_config]: connection and the two indexes are unwrapped. *)
Definition msg_box_from_config : IO unit :=
  unwrap (remote mongo_error (mret tt)) ;;
  unwrap (create_index COLL_SINGLE_BOX false) ;; unwrap (create_index COLL_SINGLE_BOX false).
(** [msg_rec_box_repo], [msg_rec_box_cleaner] *)
Definition open_msg_box : IO unit :=
  match mgc_use_sharding mongo with
  | Some true => hybrid_from_config
  | _ => msg_box_from_config
  end.

(** Every error that an action leaves is unwrapped by its caller. The cleaner's
    loop does not return; its first round is shown. *)
Definition perform (a : Action) : IO unit :=
  match a with
  | RunMigration => run_migration hash year_month checked_add_months checked_sub_months schedule
      (mgc_use_sharding mongo) (mgc_user_shards mongo)
  | LoadSeq => load_seq
  | OpenDb => void (DbRepo_new nanoid argon serial options_of_json json_of_options config)
  | OpenMsgBox => open_msg_box
  | OpenOss => s3_new foreign local_file avatar_order
      (mkS3Client (oss_bucket (cfg_oss config)) (oss_avatar_bucket (cfg_oss config)))
  | CleanRounds => clean_receive_box year_month checked_sub_months (mgc_use_sharding mongo)
      (crb_period (mgc_clean mongo)) (crb_except_types (mgc_clean mongo)) ;; hang
  | InitOAuth2 => match init_oauth2 url_ok config with Some _ => mret tt | None => panic end
  | RegisterService c => outcome_of (register_service scheme_i32 host_name from_shared connect register config c)
  | RegisterWebsocket => outcome_of (ws_register_service scheme_i32 host_name from_shared connect register config)
  | EnsureTopic _ _ _ => match ensure_topic_exists create_client create_topics with inr _ => mret tt | inl _ => panic end
  | a => library a
  end.

(** [main]: without a configuration it panics before it starts anything. *)
Definition boot (load : string → outcome Error Config) (a : Args) (w : World) : option (Proc (W := World) (T := Task)) :=
  match load (configuration a) with
  | Ok _ => Some (start TMain w)
  | _ => None
  end.
End perform.

(** ** The programs are well formed *)

Lemma find_spawn {A} (l : list (Instr Task A)) k t : l !! k = Some (Spawn t) →
  (k, t) ∈ (omap (λ x, match x with (k, Spawn t) => Some (k, t) | _ => None end) (imap pair l)).
Proof.
  intros Hk. apply list_elem_of_omap. exists (k, Spawn t). split; [|done].
  apply list_elem_of_lookup. exists k. by rewrite list_lookup_imap, Hk.
Qed.

Ltac spawn_cases H :=
  apply find_spawn in H; cbn in H;
  repeat (apply elem_of_cons in H as [H|H]; [simplify_eq|]); try (by apply not_elem_of_nil in H).

Section programs.
Context (config : Config) (migrate_messages : bool).
Abbreviation code := (code config migrate_messages).
Abbreviation spawned p k t := (spawns code p k t).


Lemma code_ok : program_ok code TMain.
Proof.
  unfold code. destruct config as [comp ? ? ? ? ? ? ? ? ? ?].
  split.
  - intros p k Hs. unfold spawns in Hs. destruct migrate_messages, comp, p; spawn_cases Hs.
  - intros p k p' k' t Hs Hs'. unfold spawns in *.
    destruct migrate_messages, comp, p; spawn_cases Hs; destruct p'; by spawn_cases Hs'.
  - intros t k l Hl.
    destruct migrate_messages, comp, t; cbn in *;
      do 13 (destruct k as [|k]; [cbn in Hl; destruct Hl; simplify_eq; done|]);
      cbn in Hl; destruct Hl; done.
  - intros p k t Hs. unfold spawns in Hs. unfold waits_for.
    destruct migrate_messages, comp, p; spawn_cases Hs; cbn; first [by right; eexists|left].
    all: eexists; split; [|by eauto]; set_solver.
  - intros p k t Hs. unfold spawns in Hs.
    destruct migrate_messages, comp, p; spawn_cases Hs.
    all: first [left; eexists; split; [reflexivity|set_solver]|right; intros k' t' Hs'; unfold spawns in Hs'; spawn_cases Hs'].
Qed.
End programs.

(** ** What holds in every run of a start-up *)

Section runs.
Context (config : Config) (migrate_messages : bool) (perform : Action → IO unit).
Abbreviation code := (code config migrate_messages).
Abbreviation step := (step code perform TMain).
Abbreviation boot w := (start (W := World) TMain w).

(** Action [a] was performed by the first [n] entries of the log. *)
Definition before (s : Proc (W := World) (T := Task)) (n : nat) (a : Action) : Prop :=
  ∃ t i, (t, i) ∈ take n (pr_log s) ∧ code t !! i = Some (Do a).

(** Task [t]'s [i]th instruction comes after action [b]. *)
Definition follows (t : Task) (i : nat) (b : Action) : Prop :=
  ∃ u j, code u !! j = Some (Do b) ∧ ((u = t ∧ j < i) ∨ before_task code (u, j) t).

Lemma follows_before w s n t i b : rtc step (boot w) s → pr_log s !! n = Some (t, i) → follows t i b → before s n b.
Proof.
  intros Hr Hn (u & j & Hb & Ho). exists u, j. split; [|done].
  apply (reach_ordered _ perform _ (code_ok config migrate_messages) w s Hr n (t, i) Hn (u, j)).
  split; [by exists b|done].
Qed.

Lemma log_action w s n t i : rtc step (boot w) s → pr_log s !! n = Some (t, i) → ∃ a, code t !! i = Some (Do a).
Proof.
  intros Hr Hn. apply (pi_log _ _ _ (reach_inv _ perform _ (code_ok config migrate_messages) w s Hr)).
  by eapply list_elem_of_lookup_2.
Qed.
End runs.

(** Search for the task and place of an earlier action. *)
Ltac with_k tac := first [tac 0 | tac 1 | tac 2 | tac 3 | tac 4 | tac 5 | tac 6 | tac 7 | tac 8 | tac 9 | tac 10].
Ltac solve_spawned :=
  first [ with_k ltac:(fun k => apply (bt_here _ _ k); [reflexivity|cbn; lia])
        | with_k ltac:(fun k => apply (bt_up _ _ TWsServer k); [reflexivity|solve_spawned])
        | with_k ltac:(fun k => apply (bt_up _ _ TMsgServer k); [reflexivity|solve_spawned]) ].
Ltac solve_order := first [left; split; [reflexivity|lia] | right; solve_spawned].
Ltac solve_follows :=
  match goal with
  | |- follows _ _ ?t _ _ =>
      first [ with_k ltac:(fun j => exists t, j; split; [reflexivity|solve_order])
            | with_k ltac:(fun j => exists TMain, j; split; [reflexivity|solve_order])
            | with_k ltac:(fun j => exists TWsServer, j; split; [reflexivity|solve_order]) ]
  end.

(** What each action comes after, as the programs are written. *)
Definition after (config : Config) (migrate_messages : bool) (t : Task) (i : nat) (a : Action) : Prop :=
  let follows := follows config migrate_messages t i in
  (migrate_messages = true → a = RunMigration)
  ∧ (migrate_messages = false → a = LoadSeq ∨ follows LoadSeq)
  ∧ (∀ addr, a = Serve addr →
       match t with
       | TWsRpc => follows (RegisterService CMessageGateway)
       | TProducer => follows (RegisterService CMessageServer)
           ∧ follows (EnsureTopic (kfc_topic (cfg_kafka config)) (broker config) (kfc_connect_timeout (cfg_kafka config)))
       | _ => follows (Bind addr)
       end)
  ∧ (a = RegisterWebsocket → follows (Bind (ws_rpc_server_url (cfg_websocket config))))
  ∧ (a = ManagerRun → follows (NewManager (rsc_name (rpc_chat (cfg_rpc config)))))
  ∧ (a = Consume → follows (Subscribe (kfc_topic (cfg_kafka config))) ∧ follows OpenDb ∧ follows OpenCache
       ∧ follows OpenMsgBox ∧ follows (NewPusher (rsc_name (rpc_ws (cfg_rpc config)))))
  ∧ (a = CleanRounds → cfg_component config = CAll ∧ follows OpenMsgBox).

(** Case analysis on the place of an instruction. *)
Ltac places Ha :=
  cbn in Ha; try discriminate Ha;
  lazymatch goal with
  | k : nat |- _ => destruct k as [|k]; places Ha
  | _ => idtac
  end.

Lemma code_after config migrate_messages t i a :
  code config migrate_messages t !! i = Some (Do a) → after config migrate_messages t i a.
Proof.
  destruct config as [comp ? ? ? ? ? ? ? ? ? ?]. unfold after.
  destruct migrate_messages, comp, t; intros Ha; places Ha; simplify_eq.
  all: split_and!; intros; simplify_eq; try done; try (by left).
  all: try (right; solve_follows). all: split_and?; try done. all: try solve_follows.
Qed.

Section theorems.
Context (config : Config) (migrate_messages : bool) (perform : Action → IO unit).
Abbreviation code := (code config migrate_messages).
Abbreviation step := (step code perform TMain).
Abbreviation boot w := (start (W := World) TMain w).

(** C21. The order of the start-up. In every run of any component, under any
    interleaving of its tasks and any outcome of its actions: a migration does
    nothing else; otherwise the counters are loaded before anything happens;
    a listener is bound before it is served, the websocket service registered
    when its listener is bound already, but the two rpc services are registered
    before they can be reached; the topic exists before the chat service
    answers; messages are consumed when stores, cache and pusher are open; and
    only the component [all] cleans the receive box. *)
Theorem startup_order (w : World) (s : Proc) (n : nat) (t : Task) (i : nat) (a : Action)
    (Hreach : rtc step (boot w) s) (Hlog : pr_log s !! n = Some (t, i)) (Ha : code t !! i = Some (Do a)) :
  let before := before config migrate_messages s n in
  (migrate_messages = true → a = RunMigration)
  ∧ (migrate_messages = false → a = LoadSeq ∨ before LoadSeq)
  ∧ (∀ addr, a = Serve addr →
       match t with
       | TWsRpc => before (RegisterService CMessageGateway)
       | TProducer => before (RegisterService CMessageServer)
           ∧ before (EnsureTopic (kfc_topic (cfg_kafka config)) (broker config) (kfc_connect_timeout (cfg_kafka config)))
       | _ => before (Bind addr)
       end)
  ∧ (a = RegisterWebsocket → before (Bind (ws_rpc_server_url (cfg_websocket config))))
  ∧ (a = ManagerRun → before (NewManager (rsc_name (rpc_chat (cfg_rpc config)))))
  ∧ (a = Consume → before (Subscribe (kfc_topic (cfg_kafka config))) ∧ before OpenDb ∧ before OpenCache
       ∧ before OpenMsgBox ∧ before (NewPusher (rsc_name (rpc_ws (cfg_rpc config)))))
  ∧ (a = CleanRounds → cfg_component config = CAll ∧ before OpenMsgBox).
Proof.
  pose proof (follows_before config migrate_messages perform w s n t i) as Hf.
  assert (H : ∀ b, follows config migrate_messages t i b → before config migrate_messages s n b) by (intros b; by apply Hf).
  destruct (code_after config migrate_messages t i a Ha) as (H1 & H2 & H3 & H4 & H5 & H6 & H7). cbv zeta.
  split_and!; [done| | |auto|auto|intros Hc; destruct (H6 Hc) as (? & ? & ? & ? & ?); auto 10
    |intros Hc; destruct (H7 Hc); auto].
  - intros Hm. destruct (H2 Hm); auto.
  - intros addr Hs. specialize (H3 addr Hs). destruct t; auto. destruct H3; auto.
Qed.

Lemma belongs_tasks t : t ∈ TMain :: tasks_of config migrate_messages → belongs code TMain t.
Proof.
  destruct config as [comp ? ? ? ? ? ? ? ? ? ?]. unfold belongs.
  assert (Hup : ∀ p u (c : Task → list (Instr Task Action)), (∃ k, spawns c p k u) →
    rtc (λ p t, ∃ k, spawns c p k t) TMain p → rtc (λ p t, ∃ k, spawns c p k t) TMain u).
  { intros p u c Hk Hr. by eapply rtc_r. }
  intros Ht. destruct migrate_messages, comp; cbn in Ht;
    repeat (apply elem_of_cons in Ht as [->|Ht]); try (by apply not_elem_of_nil in Ht); try apply rtc_refl.
  all: first
    [ apply (Hup TMain); [with_k ltac:(fun k => exists k; reflexivity)|apply rtc_refl]
    | apply (Hup TWsServer); [with_k ltac:(fun k => exists k; reflexivity)|];
      apply (Hup TMain); [with_k ltac:(fun k => exists k; reflexivity)|apply rtc_refl]
    | apply (Hup TMsgServer); [with_k ltac:(fun k => exists k; reflexivity)|];
      apply (Hup TMain); [with_k ltac:(fun k => exists k; reflexivity)|apply rtc_refl] ].
Qed.

(** The servers of a component: tasks whose end ends the process. *)
Definition selected : list Task :=
  filter (λ t, t ∈ [TWsServer; TWsListener; TWsRpc; TApi; TMsgServer]) (tasks_of config migrate_messages).

Lemma selected_by t : t ∈ selected →
  ∃ p k l, belongs code TMain p ∧ spawns code p k t ∧ last (code p) = Some (Select l) ∧ t ∈ l.
Proof.
  intros [Hsel Ht]%list_elem_of_filter.
  assert (Hb : ∀ p, p ∈ TMain :: tasks_of config migrate_messages → belongs code TMain p) by apply belongs_tasks.
  assert (Hp : ∃ p, p ∈ TMain :: tasks_of config migrate_messages ∧ ∃ k l, code p !! k = Some (Spawn t)
    ∧ last (code p) = Some (Select l) ∧ t ∈ l).
  { clear Hb. destruct config as [comp ? ? ? ? ? ? ? ? ? ?].
    destruct migrate_messages, comp; cbn in Ht;
      repeat (apply elem_of_cons in Ht as [->|Ht]); try (by apply not_elem_of_nil in Ht);
      try (exfalso; clear -Hsel; set_solver).
    all: first [exists TMain; split; [set_solver|]; with_k ltac:(fun k => exists k; eexists; split; [reflexivity|split; [reflexivity|set_solver]])
               |exists TWsServer; split; [set_solver|]; with_k ltac:(fun k => exists k; eexists; split; [reflexivity|split; [reflexivity|set_solver]])]. }
  destruct Hp as (p & Hin & k & l & ?). exists p, k, l. split; [by apply Hb|done].
Qed.

Lemma start_measure w : (measure code all_tasks (boot w) ≤ 98)%nat.
Proof.
  unfold measure, weight, start, code. destruct config as [comp ? ? ? ? ? ? ? ? ? ?].
  destruct migrate_messages, comp; vm_compute; lia.
Qed.

(** C22. A start-up comes to an end. A run has at most 98 steps, whatever the
    actions do; and when no task can go on, either the process has ended, or a
    task hangs in a step of its set-up, or the component is up: all its tasks
    have done all they have to do, and none of its servers has ended. There is
    no other way to get stuck. *)
Theorem startup_completes (w : World) :
  (∀ n s, nsteps step n (boot w) s → (n ≤ 98)%nat)
  ∧ ∀ s, rtc step (boot w) s → quiescent code perform TMain s →
      ended s TMain = true
      ∨ (∃ t pc, pr_tasks s !! t = Some (pc, Blocked) ∧ (pc < length (code t))%nat)
      ∨ (∀ t i a, t ∈ TMain :: tasks_of config migrate_messages → code t !! i = Some (Do a) → (t, i) ∈ pr_log s)
        ∧ (∀ t, t ∈ selected → ended s t = false).
Proof.
  pose proof (code_ok config migrate_messages) as Hok. split.
  - intros n s Hn.
    pose proof (run_bounded code perform TMain Hok all_tasks n ltac:(by intros []; set_solver) _ _ (start_inv code TMain Hok w) Hn).
    pose proof (start_measure w). lia.
  - intros s Hr Hq. pose proof (reach_inv code perform TMain Hok w s Hr) as Hi.
    destruct (ended s TMain) eqn:Hend; [by left|right].
    destruct (decide (Exists (λ x : Task * (nat * Mode), x.2.2 = Blocked ∧ (x.2.1 < length (code x.1))%nat) (map_to_list (pr_tasks s))))
      as [Hex|Hex].
    { left. apply Exists_exists in Hex as ([t [pc m]] & Hin & Hb & Hlt). simpl in *. subst.
      exists t, pc. split; [by apply elem_of_map_to_list|done]. }
    right. apply not_Exists_Forall in Hex; [|solve_decision]. rewrite Forall_forall in Hex.
    assert (Hfull : ∀ t pc, pr_tasks s !! t = Some (pc, Blocked) → pc = length (code t)).
    { intros t pc Ht. pose proof (pi_pc _ _ _ Hi _ _ _ Ht).
      specialize (Hex (t, (pc, Blocked)) ltac:(by apply elem_of_map_to_list)). simpl in Hex.
      destruct (decide (pc < length (code t))%nat); [tauto|lia]. }
    pose proof (rest_complete code perform TMain Hok s Hi Hq Hend Hfull) as Hrest. split.
    + intros t i a Ht Hc. apply (Hrest t (belongs_tasks t Ht)). by exists a.
    + intros t (p & k & l & Hp & Hk & Hl & Hin)%selected_by.
      assert (Ht : belongs code TMain t) by (eapply rtc_r; eauto).
      destruct (Hrest t Ht) as (_ & _ & Haw). apply (Haw p k Hp Hk); [exists l; auto|eauto].
Qed.
End theorems.

(** ** Witnesses: everything started with the shipped configuration *)

(** Clients, listeners and the service centre answer; servers run on. *)
Definition quiet_library (a : Action) : IO unit :=
  match a with ManagerRun | Serve _ | Consume => hang | _ => mret tt end.
#[local] Existing Instance Sql.no_server.

Definition dev_perform : Action → IO unit :=
  perform dev_config (λ _, 0%Z) (λ _, Some "2024_01") (λ _ t, Some t) (λ _ t, Some t) (λ _, [])
    (λ _, "n") toy_argon (λ _, 0%Z) (λ _, None) (λ _, "") (λ _, false) (λ _, None) []
    (λ _, 0%Z) (Ok "host") (λ _, true) (λ _, true) (Ok tt) (Ok tt) (inr tt) (λ _, inr []) quiet_library.
Definition dev_run : Proc (W := World) (T := Task) :=
  run_schedule (code dev_config false) dev_perform TMain (concat (repeat all_tasks 16)) (start TMain world_empty).

Lemma dev_reach : rtc (step (code dev_config false) dev_perform TMain) (start TMain world_empty) dev_run.
Proof. apply run_schedule_rtc. Qed.

Lemma dev_quiescent : quiescent (code dev_config false) dev_perform TMain dev_run.
Proof. intros t. destruct t; vm_compute; reflexivity. Qed.

Lemma dev_running : ended dev_run TMain = false.
Proof. vm_compute. reflexivity. Qed.

Lemma dev_not_hung t pc : pr_tasks dev_run !! t = Some (pc, Blocked) →
  ¬ (pc < length (code dev_config false t))%nat.
Proof. destruct t; vm_compute; intros [= <-]; lia. Qed.

Lemma startup_completes_witness :
  (TConsumer, 6%nat) ∈ pr_log dev_run ∧ ended dev_run TApi = false.
Proof.
  destruct (startup_completes dev_config false dev_perform world_empty) as [_ H].
  destruct (H dev_run dev_reach dev_quiescent) as [Hm|[(t & pc & Hb & Hlt)|[Hlog Hsel]]].
  - rewrite dev_running in Hm. discriminate Hm.
  - destruct (dev_not_hung t pc Hb Hlt).
  - split; [|apply Hsel; apply (bool_decide_unpack _); vm_compute; exact I].
    apply (Hlog TConsumer 6%nat Consume); [apply (bool_decide_unpack _); vm_compute; exact I|reflexivity].
Defined.

(** The chat service answers at place [n] of the log. *)
Definition serve_place : nat := default 0%nat (fst <$> list_find (λ x, x = (TProducer, 3%nat)) (pr_log dev_run)).

Lemma serve_logged : pr_log dev_run !! serve_place = Some (TProducer, 3%nat).
Proof. vm_compute. reflexivity. Qed.

Lemma startup_order_witness :
  before dev_config false dev_run serve_place LoadSeq
  ∧ before dev_config false dev_run serve_place (RegisterService CMessageServer).
Proof.
  destruct (startup_order dev_config false dev_perform world_empty dev_run serve_place TProducer 3
    (Serve (rpc_server_url (rpc_chat (cfg_rpc dev_config)))) dev_reach serve_logged eq_refl)
    as (_ & H2 & H3 & _).
  split; [|apply (H3 _ eq_refl)]. destruct (H2 eq_refl) as [Ha|Hb]; [discriminate Ha|exact Hb].
Defined.
