(* ===== verification/OAuth.v ===== *)
(** * Signing in through a provider ([api/src/handlers/users/oauth2.rs])

    The redirects to the providers, the exchange of the code a provider sends
    back, the requests to GitHub's API, and the callbacks over
    [UserApi.github_callback]. The OAuth2 library and the HTTP client are
    parameters. *)

From S2P Require Import Prelude Errors Types Tables World Config Oss UserStore Auth UserApi Startup.

Definition AUTHORIZATION_HEADER_PREFIX : string := "Bearer ".
Definition USER_AGENT : string := "SandCat-Auth".

(** [struct AuthResp], the query of a callback *)
Record AuthResp : Type := mkAuthResp { au_code : string; au_state : string }.

(** What the library is asked to put into the URL of a redirect. *)
Record AuthorizeUrl : Type := mkAuthorizeUrl {
  az_client : BasicClient; az_csrf : string; az_scopes : list string
}.
Record WebRequest : Type := mkWebRequest { wr_url : string; wr_headers : list (string * string) }.
Record Redirect : Type := mkRedirect { rd_status : Z; rd_location : string }.

Section oauth.
Context (new_random : nat → string) (authorize_url : AuthorizeUrl → string)
        (request_async : BasicClient → string → M World string string).
Context (get_emails : WebRequest → IO (list GitHubEmail)) (get_user : WebRequest → IO GitHubUser)
        (http_get : string → IO bytes) (guess_extension : bytes → option string).
Context (clients : OAuth2Clients) (oauth2_config : OAuth2).
Context (jwt : Jwt) (jwt_secret : string) (nanoid : nat → string) (init_max_seq : Z)
        (get_service : IO (option string)) (ws_protocol : string) (search_by_ip : string → option string)
        (oss : S3Client).

(** The random state goes into the URL; the copy that is returned is dropped. *)
Definition get_auth_url (client : BasicClient) : IO string :=
  csrf ← draw_nanoid new_random;
  mret (authorize_url (mkAuthorizeUrl client csrf ["read:user"; "user:email"]%string)).

Definition get_token_result (client : BasicClient) (code : string) : IO string := λ w,
  match request_async client code w with
  | (Ok access_token, w') => (Ok access_token, w')
  | (Err e, w') => (Err (internal e), w')
  | (Panic, w') => (Panic, w')
  | (Hang, w') => (Hang, w')
  end.

(** [Redirect::temporary] *)
Definition temporary (url : string) : Redirect := mkRedirect 307 url.

Definition github_login : IO Redirect := url ← get_auth_url (oc_github clients); mret (temporary url).
Definition google_login : IO Redirect := url ← get_auth_url (oc_google clients); mret (temporary url).

(** A request to GitHub's API in the user's name. *)
Definition github_request (url access_token : string) : WebRequest :=
  mkWebRequest url
    [("authorization", AUTHORIZATION_HEADER_PREFIX +:+ " " +:+ access_token); ("user-agent", USER_AGENT)]%string.

Definition github_callback_handler (auth : AuthResp) (addr : IpAddr) : IO Token :=
  github_callback jwt jwt_secret nanoid init_max_seq get_service ws_protocol search_by_ip
    (get_token_result (oc_github clients)) (λ token, get_emails (github_request (oa_email_url (oa_github oauth2_config)) token))
    (λ token, get_user (github_request (oa_user_info_url (oa_github oauth2_config)) token)) http_get guess_extension oss (au_code auth) addr.

(** The result is only logged. *)
Definition google_callback (auth : AuthResp) : IO unit :=
  _ ← attempt (get_token_result (oc_google clients) (au_code auth)); mret tt.

(** ** Properties *)

(** The header of such a request holds two blanks between the scheme and the
    token. *)
Lemma github_request_header url token :
  wr_headers (github_request url token)
  = [("authorization", "Bearer  " +:+ token); ("user-agent", "SandCat-Auth")]%string.
Proof. reflexivity. Qed.

(** Nothing ties a callback to the redirect that asked for it: a redirect
    leaves the world as it was but for one more id drawn, so its state is kept
    nowhere, and the callback does the same whatever state comes back. Anybody's
    code signs its bearer in as the account of that code. *)
Theorem oauth_state_unchecked (auth : AuthResp) (state : string) (addr : IpAddr) (w : World) :
  (∃ url, github_login w = (Ok (temporary url), upd_ids S w))
  ∧ github_callback_handler auth addr w = github_callback_handler (mkAuthResp (au_code auth) state) addr w.
Proof. split; [by eexists|reflexivity]. Qed.

(** A code the provider does not take is an internal error, and nothing else
    happens. *)
Theorem refused_code (auth : AuthResp) (addr : IpAddr) (w w' : World) (e : string)
    (Href : request_async (oc_github clients) (au_code auth) w = (Err e, w')) :
  github_callback_handler auth addr w = (Err (internal e), w').
Proof.
  unfold github_callback_handler, github_callback, get_token_result.
  unfold mbind, M_bind. by rewrite Href.
Qed.

(** Google's callback signs nobody in: it answers the same, and touches nothing
    but what the exchange touches. *)
Theorem google_signs_nobody_in (auth : AuthResp) (w w' : World) (o : outcome string string)
    (Hex : request_async (oc_google clients) (au_code auth) w = (o, w'))
    (Hret : match o with Ok _ | Err _ => True | _ => False end) :
  google_callback auth w = (Ok tt, w').
Proof.
  unfold google_callback, get_token_result, attempt, mbind, M_bind. rewrite Hex. by destruct o.
Qed.
End oauth.

Lemma refused_code_witness :
  github_callback_handler (λ _ _ w, (Err "bad_verification_code"%string, w)) (λ _, mret []) (λ _, throw not_found)
    (λ _, mret []) (λ _, None) (mkOAuth2Clients (mkBasicClient "i" "s" "a" "t" "r") (mkBasicClient "i" "s" "a" "t" "r"))
    (mkOAuth2 (dev_oauth "a" "t") (dev_oauth "a" "t")) claims_jwt "k" (λ _, "n"%string) 5 (mret None) "ws" (λ _, None) (mkS3Client "b" "a")
    (mkAuthResp "c" "s") (V6 "::1") world_empty = (Err (internal "bad_verification_code"), world_empty).
Proof. by apply refused_code. Defined.

Lemma google_signs_nobody_in_witness :
  google_callback (λ _ _ w, (Ok "token"%string, w))
    (mkOAuth2Clients (mkBasicClient "i" "s" "a" "t" "r") (mkBasicClient "i" "s" "a" "t" "r"))
    (mkAuthResp "c" "s") world_empty = (Ok tt, world_empty).
Proof. by eapply google_signs_nobody_in; [reflexivity|]. Defined.
