(* ===== verification/ApiNotify.v ===== *)
(** * How the API handlers notify ([api/src/handlers])

    The tail the handlers of friends and groups share: take a number from the
    caller's send counter, build a message and hand it to the chat service.
    What is sent is encoded by [bincode], an interface here. *)

From S2P Require Import Prelude Errors Types Tables World Sql Cache Producer Gateway.

(** [bincode::encode_to_vec(&a, standard())] for the types that are sent. *)
Class Bincode (A : Type) := bincode_encode : A → option bytes.

Definition encode_error : Error := from_external (BincodeEncodeError "bincode").
Definition encode_to_vec {A} `{Bincode A} (a : A) : IO bytes := from_option encode_error (bincode_encode a).

Section notify.
Context (to_json : Msg → string) (nanoid : nat → string) (cache : RedisCache).

(** [chat_rpc.send_msg(msg).await?]: the reply, with the error it may carry, is
    dropped. *)
Definition chat_send (req : SendMsgRequest) : IO unit :=
  _ ← remote status_error (send_msg to_json nanoid req); mret tt.

(** [let (seq, _, _) = cache.incr_send_seq(u).await?; chat_rpc.send_msg(mk(seq)).await?],
    where the constructor also reads the clock. *)
Definition announce (user_id : string) (mk : Z → Z → SendMsgRequest) : IO unit :=
  seq ← incr_send_seq cache user_id;
  now ← now_ms;
  chat_send (mk now seq.1.1).

(** ** Laws *)

(** The queue grows by these records, and the tables stay. *)
Definition only_queues (w w' : World) : Prop :=
  w_pg w' = w_pg w ∧ ∃ l, w_kafka w' = w_kafka w ++ l.
#[export] Instance only_queues_preorder : PreOrder only_queues.
Proof.
  split; [intros w; split; [done|exists []; by rewrite app_nil_r]|].
  intros w1 w2 w3 [H1 [l1 H2]] [H3 [l2 H4]]. split; [congruence|].
  exists (l1 ++ l2). by rewrite H4, H2, app_assoc.
Qed.

Lemma queues_nothing w w' : w_pg w' = w_pg w → w_kafka w' = w_kafka w → only_queues w w'.
Proof. intros H1 H2. split; [done|]. exists []. by rewrite H2, app_nil_r. Qed.

Lemma keeps_chat_send req : keeps only_queues (chat_send req).
Proof.
  apply keeps_bind; [apply _| |intros _; apply keeps_ret; apply _].
  apply keeps_remote; [apply _|intros w fs; by apply queues_nothing|].
  apply keeps_bind; [apply _|apply keeps_from_option; apply _|]. intros msg.
  apply keeps_bind; [apply _| |intros m].
  { apply keeps_if; [apply keeps_ret; apply _|].
    apply keeps_bind; [apply _|intros w; by apply queues_nothing|intros id; apply keeps_ret; apply _]. }
  apply keeps_bind; [apply _|apply keeps_gets; apply _|]. intros now.
  apply keeps_bind; [apply _| |intros sent; apply keeps_ret; apply _].
  apply keeps_attempt. apply keeps_remote; [apply _|intros w fs; by apply queues_nothing|].
  intros w. split; [done|]. by eexists.
Qed.

Lemma keeps_announce u mk : keeps only_queues (announce u mk).
Proof.
  apply keeps_bind; [apply _| |intros seq].
  - apply keeps_bind; [apply _| |intros _].
    + apply keeps_remote; [apply _|intros w fs; by apply queues_nothing|apply keeps_ret; apply _].
    + apply keeps_redis_run; [apply _|intros w fs; by apply queues_nothing|intros w; by apply queues_nothing].
  - apply keeps_bind; [apply _|apply keeps_gets; apply _|]. intros now. apply keeps_chat_send.
Qed.

Lemma keeps_encode {A} `{Bincode A} (a : A) : keeps only_queues (encode_to_vec a).
Proof. apply keeps_from_option. apply _. Qed.

Lemma chat_send_run m w :
  healthy w → chat_send (Some m) w
  = (Ok tt, upd_kafka (λ q, q ++ [to_json (stamped nanoid w m)])
              (upd_ids (λ n, if keeps_server_id (msg_type m) then n else S n) w)).
Proof.
  intros Hw. unfold chat_send. erewrite bind_ok; [reflexivity|].
  rewrite remote_healthy by done. by rewrite send_msg_healthy.
Qed.

(** The tables stay, and at most one message goes on the queue, with [P]. *)
Definition one_notice (P : Msg → Prop) (w w' : World) : Prop :=
  w_pg w' = w_pg w ∧ (w_kafka w' = w_kafka w ∨ ∃ m, P m ∧ w_kafka w' = w_kafka w ++ [to_json m]).

(** Messages that differ only in what the chat service stamps on them. *)
Definition stamp_invariant (P : Msg → Prop) : Prop :=
  ∀ m id t, P m → P (set_send_time t m) ∧ P (set_server_id id m).

Lemma stamped_keeps (P : Msg → Prop) w m : stamp_invariant P → P m → P (stamped nanoid w m).
Proof.
  intros HP Hm. unfold stamped. apply (HP _ ""%string). case_match; [done|]. by apply (HP _ _ 0%Z).
Qed.

Lemma chat_send_notice (P : Msg → Prop) req w :
  stamp_invariant P → (∀ m, req = Some m → P m) → one_notice P w (chat_send req w).2.
Proof.
  intros HP Hreq.
  assert (Hsend : ∀ v, one_notice P v (send_msg to_json nanoid req v).2).
  { intros v. destruct req as [m|]; [|by split; [|left]].
    destruct (send_msg_functional to_json nanoid m v) as (v' & err & -> & Hk & _ & _ & Hpg & _).
    split; [exact Hpg|]. simpl. rewrite Hk. specialize (Hreq m eq_refl).
    destruct (default Pass _); [right|left; apply app_nil_r|right]; exists (stamped nanoid v m);
      (split; [by apply stamped_keeps|done]). }
  unfold chat_send, remote, mbind, M_bind, take_fault.
  destruct (w_faults w) as [|[] fs]; simpl; try (by split; [|left]);
    match goal with |- context [send_msg _ _ _ ?v] => specialize (Hsend v);
      by destruct (send_msg to_json nanoid req v) as [[] v'] end.
Qed.

Lemma announce_notice (P : Msg → Prop) u mk w :
  stamp_invariant P → (∀ now seq m, mk now seq = Some m → P m) → one_notice P w (announce u mk w).2.
Proof.
  intros HP Hmk. unfold announce.
  assert (Hs : keeps (λ v v', w_pg v' = w_pg v ∧ w_kafka v' = w_kafka v) (incr_send_seq cache u)).
  { assert (PreOrder (λ v v', w_pg v' = w_pg v ∧ w_kafka v' = w_kafka v)).
    { split; [done|]. intros ? ? ? [] []. split; congruence. }
    apply keeps_bind; [apply _|by apply keeps_remote; [apply _|..|apply keeps_ret; apply _]|].
    intros _. by apply keeps_redis_run; [apply _|..]. }
  specialize (Hs w). unfold mbind, M_bind. destruct (incr_send_seq cache u w) as [[seq|e| |] w1];
    simpl in *; destruct Hs as [Hp Hk]; try (by split; [|left]).
  destruct (chat_send_notice P (mk (w_clock w1) seq.1.1) w1 HP) as [H1 H2]; [eauto|].
  unfold one_notice. by rewrite <- Hp, <- Hk.
Qed.

(** How a handler follows its store call: the call itself queues nothing; when
    it fails, or never answers, so does the handler, in the same way and in the
    same state; when it succeeds its tables stay, at most the one notice [P]
    is queued, and only [answer] is ever answered. *)
Definition commits_first {A B} (P : A → Msg → Prop) (answer : A → B) (store : IO A) (handler : IO B)
    (w : World) : Prop :=
  let '(o, w1) := store w in
  quiet w w1 ∧
  match o with
  | Ok x => one_notice (P x) w1 (handler w).2
            ∧ ((handler w).1 = Ok (answer x) ∨ ∃ e, (handler w).1 = Err e)
  | Err e => handler w = (Err e, w1)
  | Panic => handler w = (Panic, w1)
  | Hang => handler w = (Hang, w1)
  end.

Lemma commit_then_notify {A B} (P : A → Msg → Prop) (answer : A → B) (store : IO A) (tail : A → IO B) w :
  keeps quiet store →
  (∀ x w1, one_notice (P x) w1 (tail x w1).2
           ∧ ((tail x w1).1 = Ok (answer x) ∨ ∃ e, (tail x w1).1 = Err e)) →
  commits_first P answer store (store ≫= tail) w.
Proof.
  intros Hq Ht. specialize (Hq w). unfold commits_first, mbind, M_bind.
  destruct (store w) as [[x|e| |] w1]; simpl in *; split; auto; apply Ht.
Qed.

(** A notice answers or fails; it neither panics nor hangs. *)
Definition settles {A} (m : IO A) : Prop := ∀ w, (∃ a, (m w).1 = Ok a) ∨ ∃ e, (m w).1 = Err e.

Lemma settles_bind {A B} (m : IO A) (f : A → IO B) : settles m → (∀ a, settles (f a)) → settles (m ≫= f).
Proof.
  intros Hm Hf w. unfold mbind, M_bind. specialize (Hm w).
  destruct (m w) as [[a|e| |] w1]; [apply Hf|eauto|by destruct Hm as [[]|[]]..].
Qed.
Lemma settles_ret {A} (a : A) : settles (mret a).
Proof. intros w. left. by exists a. Qed.
Lemma settles_from_option {A} e (o : option A) : settles (from_option e o).
Proof. intros w. destruct o; [left|right]; by eexists. Qed.
Lemma settles_remote {A} e (m : IO A) : settles m → settles (remote e m).
Proof.
  intros Hm w. unfold remote, mbind, M_bind, take_fault.
  destruct (w_faults w) as [|[] fs]; simpl; eauto;
    match goal with |- context [m ?v] => specialize (Hm v); destruct (m v) as [[]]; simpl in *; eauto end.
Qed.
Lemma settles_chat_send req : settles (chat_send req).
Proof.
  apply settles_bind; [|intros; apply settles_ret]. apply settles_remote. intros w.
  destruct req as [m|]; [|right; by eexists].
  destruct (send_msg_functional to_json nanoid m w) as (v' & err & -> & _). left. by eexists.
Qed.
Lemma settles_announce u mk : settles (announce u mk).
Proof.
  apply settles_bind; [|intros seq; apply settles_bind; [|intros now; apply settles_chat_send]].
  - apply settles_bind; [apply settles_remote, settles_ret|]. intros _. apply settles_remote. intros w.
    destruct (single_script _ _ _ _) as [[] r]; [left|right..]; by eexists.
  - intros w. left. by eexists.
Qed.

(** A user whose send counter can move. *)
Definition can_send (u : string) (w : World) (p : option Z * option Z) : Prop :=
  pseq (w_redis w) (send_seq_key u) = Some p ∧ in_i64 (default 0 p.1 + 1)%Z = true.

Lemma announce_run u mk m w p :
  healthy w → can_send u w p →
  mk (w_clock w) (default 0 p.1 + 1)%Z = Some m → keeps_server_id (msg_type m) = false →
  ∃ r', announce u mk w
    = (Ok tt, upd_kafka (λ q, q ++ [to_json (stamped nanoid w m)]) (upd_ids S (upd_redis (λ _, r') w)))
  ∧ pseq r' (send_seq_key u) = Some (pair_of (bump (rc_seq_step cache) p))
  ∧ only_key (send_seq_key u) (w_redis w) r'.
Proof.
  intros Hw [Hp Hi] Hmk Hk. destruct (incr_send_seq_run cache u w p Hw Hp Hi) as (r' & Hr & Hp' & Ho).
  exists r'. split_and!; [|done|done]. unfold announce. mrun Hr. erewrite bind_ok by done.
  assert (Hb : (bump (rc_seq_step cache) p).1.1 = (default 0 p.1 + 1)%Z)
    by (unfold bump; by repeat case_match).
  cbn [w_clock upd_redis]. rewrite Hb, Hmk, chat_send_run by done. rewrite Hk.
  unfold stamped. by rewrite Hk.
Qed.
End notify.
