(* ===== verification/FriendApi.v ===== *)
(** * The friend handlers of the API ([api/src/handlers/friends])

    Each handler as its store call, its checks and its notice. A handler is
    given the request its extractor produced; nothing binds the user it names
    to the token that admitted it. *)

From stdpp Require Import pretty.
From S2P Require Import Prelude Errors Types Tables World Sql Records Cache Producer Gateway UserStore FriendStore ApiNotify.

(** ** Requests and answers *)

Record FriendShipList : Type := mkFriendShipList { fl_friends : list Friend; fl_fs : list FriendshipWithUser }.
Record UpdateRemarkRequest : Type := mkUpdateRemark {
  ur_user_id : string; ur_friend_id : string; ur_remark : string
}.
Record UpdateFriendGroupRequest : Type := mkUpdateFriendGroup {
  uf_user_id : string; uf_friend_id : string; uf_group_id : string
}.
Record ManageFriendTagRequest : Type := mkManageFriendTag {
  mt_user_id : string; mt_friend_id : string; mt_tag_ids : list string; mt_is_add : bool
}.
Record FriendInfo : Type := mkFriendInfo {
  in_id : string; in_name : string; in_avatar : string; in_gender : string; in_age : Z;
  in_region : option string; in_account : string; in_signature : string; in_email : option string
}.
Record InteractionStats : Type := mkInteractionStats { is_score : f32; is_count : Z; is_last_interaction : Z }.
Record InteractionScoreRequest : Type := mkInteractionScore {
  sc_user_id : string; sc_friend_id : string; sc_score : f32
}.

Definition blank (s : string) : bool := bool_decide (s = ""%string).

Section handlers.
Context (to_json : Msg → string) (nanoid : nat → string) (cache : RedisCache) {pg_server : PgServer}.
Context (serial : string * string → Z).
Context `{!Bincode FriendshipWithUser} `{!Bincode Friend}.

Definition get_friends_list_by_user_id (user_id : string) (offline_time : Z) : IO FriendShipList :=
  friends ← get_friend_list user_id offline_time;
  fs ← get_fs_list user_id offline_time;
  mret (mkFriendShipList friends fs).

Definition get_apply_list_by_user_id (user_id : string) (offline_time : Z)
    : IO (list FriendshipWithUser) := get_fs_list user_id offline_time.

(** The notice of a new request: from the requester, to the friend the request
    named. *)
Definition notify_request (receiver_id : string) (fs_send : FriendshipWithUser) : IO unit :=
  fs ← encode_to_vec fs_send;
  announce to_json nanoid cache (fw_user_id fs_send)
    (λ now seq, new_with_friend_ship_req now (fw_user_id fs_send) receiver_id fs seq).

Definition create_friendship (new_friend : FsCreate) : IO FriendshipWithUser :=
  x ← create_fs nanoid new_friend;
  notify_request (fc_friend_id new_friend) x.2 ;;
  mret x.1.

(** The notice of an acceptance: to the requester, numbered by the other side. *)
Definition notify_accepted (req send : Friend) : IO unit :=
  friend ← encode_to_vec send;
  announce to_json nanoid cache (fi_friend_id send)
    (λ now seq, new_with_friend_ship_resp now (fi_friend_id req) friend seq).

Definition agree (a : AgreeReply) : IO Friend :=
  x ← agree_friend_apply_request a;
  notify_accepted x.1 x.2 ;;
  mret x.1.

Definition validated (o : outcome Error unit) : IO unit := λ w, (o, w).

Definition delete_friend_handler (req : DeleteFriendRequest) : IO unit :=
  validated (validate_delete_friend req) ;;
  delete_friend (df_fs_id req) (df_user_id req) ;;
  now ← now_ms;
  chat_send to_json nanoid (new_with_friend_del now (df_user_id req) (df_friend_id req)).

Definition update_friend_remark_handler (r : UpdateRemarkRequest) : IO unit :=
  if blank (ur_remark r) then throw (bad_request "remark is none")
  else update_friend_remark serial (ur_user_id r) (ur_friend_id r) (ur_remark r) ;; mret tt.

Definition query_friend_info (user_id : string) : IO FriendInfo :=
  user ← get_user_by_id user_id;
  user ← from_option not_found user;
  mret (mkFriendInfo (u_id user) (u_name user) (u_avatar user) (u_gender user) (u_age user)
          (u_region user) (u_account user) (u_signature user) (u_email user)).

(** ** Friend groups, tags, privacy, scores *)

Definition create_friend_group_handler (req : FriendGroup) : IO FriendGroup :=
  if blank (fg_name req) then throw (bad_request "group name is empty")
  else create_friend_group nanoid (fg_user_id req) (fg_name req) (fg_display_order req).

Definition update_friend_group_handler (req : FriendGroup) : IO FriendGroup :=
  if blank (fg_name req) || blank (fg_id req) then throw (bad_request "group name or id is empty")
  else update_friend_group (fg_id req) (fg_name req) (fg_display_order req).

Definition delete_friend_group_handler (id : string) : IO unit := delete_friend_group id.
Definition get_friend_groups_handler (id : string) : IO (list FriendGroup) := get_friend_groups id.

Definition assign_friend_to_group_handler (req : UpdateFriendGroupRequest) : IO unit :=
  if blank (uf_friend_id req) || blank (uf_group_id req)
  then throw (bad_request "friend_id or group_id is empty")
  else assign_friend_to_group (uf_user_id req) (uf_friend_id req) (uf_group_id req) ;; mret tt.

Definition create_friend_tag_handler (req : FriendTag) : IO FriendTag :=
  if blank (ft_tag_name req) then throw (bad_request "tag name is empty")
  else create_friend_tag nanoid (ft_user_id req) (ft_tag_name req) (ft_tag_color req).

Definition delete_friend_tag_handler (id : string) : IO unit := delete_friend_tag id.
Definition get_friend_tags_handler (id : string) : IO (list FriendTag) := get_friend_tags id.

Definition manage_friend_tags (req : ManageFriendTagRequest) : IO unit :=
  if blank (mt_friend_id req) || bool_decide (mt_tag_ids req = [])
  then throw (bad_request "friend_id or tag_ids is empty")
  else if mt_is_add req then add_tags_to_friend (mt_user_id req) (mt_friend_id req) (mt_tag_ids req)
  else remove_tags_from_friend (mt_user_id req) (mt_friend_id req) (mt_tag_ids req).

Definition update_friend_privacy_handler (req : FriendPrivacySettings) : IO unit :=
  if blank (fp_friend_id req) then throw (bad_request "friend_id is empty")
  else update_friend_privacy (fp_user_id req) (fp_friend_id req) req.

Definition get_friend_privacy_handler (user_id friend_id : string) : IO FriendPrivacySettings :=
  get_friend_privacy user_id friend_id.

Definition update_interaction_score_handler (req : InteractionScoreRequest) : IO f32 :=
  if blank (sc_user_id req) || blank (sc_friend_id req)
  then throw (bad_request "user_id or friend_id is empty")
  else update_interaction_score (sc_user_id req) (sc_friend_id req) (sc_score req).

Definition get_interaction_stats_handler (user_id friend_id : string) : IO InteractionStats :=
  x ← get_interaction_stats user_id friend_id;
  let '(score, count, last_interaction) := x in
  mret (mkInteractionStats score count last_interaction).

(** ** Properties *)

Lemma keeps_notify_request r s : keeps only_queues (notify_request r s).
Proof. apply keeps_bind; [apply _|apply keeps_encode|]. intros fs. apply keeps_announce. Qed.
Lemma keeps_notify_accepted r s : keeps only_queues (notify_accepted r s).
Proof. apply keeps_bind; [apply _|apply keeps_encode|]. intros fs. apply keeps_announce. Qed.

Lemma stamped_notice t s r b : stamp_invariant (λ m,
  msg_type m = t ∧ sender_id m = s ∧ receiver_id m = r ∧ content m = b).
Proof. by intros m id now H. Qed.

(** The notices, by what the store answered: a request's names the requester
    and carries the requester's profile, an acceptance's carries the
    acceptor's, a deletion's names the two. *)
Definition is_request_notice (fs : FsCreate) (x : FriendshipWithUser * FriendshipWithUser) (m : Msg) : Prop :=
  msg_type m = msg_type_i32 FriendApplyReq ∧ sender_id m = fw_user_id x.2
  ∧ receiver_id m = fc_friend_id fs ∧ bincode_encode x.2 = Some (content m).
Definition is_acceptance_notice (x : Friend * Friend) (m : Msg) : Prop :=
  msg_type m = msg_type_i32 FriendApplyResp ∧ sender_id m = ""%string
  ∧ receiver_id m = fi_friend_id x.1 ∧ bincode_encode x.2 = Some (content m).
Definition is_deletion_notice (r : DeleteFriendRequest) (_ : unit) (m : Msg) : Prop :=
  msg_type m = msg_type_i32 FriendDelete ∧ sender_id m = df_user_id r ∧ receiver_id m = df_friend_id r.

(** Encoding and then telling. *)
Lemma told {A B} `{Bincode A} (a : A) (b : B) (P : Msg → Prop) (tell : bytes → IO unit) w :
  (∀ bs v, bincode_encode a = Some bs → one_notice to_json P v (tell bs v).2) → (∀ bs, settles (tell bs)) →
  let m := ((bs ← encode_to_vec a; tell bs) ;; mret b : IO B) in
  one_notice to_json P w (m w).2 ∧ ((m w).1 = Ok b ∨ ∃ e, (m w).1 = Err e).
Proof.
  intros Hn Hs m. unfold m, encode_to_vec, mbind, M_bind.
  destruct (bincode_encode a) as [bs|]; simpl; [|by split; [split; [|left]|right; eexists]].
  specialize (Hn bs w eq_refl). specialize (Hs bs w).
  destruct (tell bs w) as [[[]|e| |] w1]; simpl in *; (split; [exact Hn|]); eauto;
    by destruct Hs as [[? ?]|[? ?]].
Qed.

Lemma request_told fs x w :
  let m := (notify_request (fc_friend_id fs) x.2 ;; mret x.1) in
  one_notice to_json (is_request_notice fs x) w (m w).2 ∧ ((m w).1 = Ok x.1 ∨ ∃ e, (m w).1 = Err e).
Proof.
  apply (told x.2 x.1 (is_request_notice fs x) (λ bs, announce to_json nanoid cache _ _));
    [|intros bs; apply settles_announce].
  intros bs v Hb. apply announce_notice; [by intros m id now|]. by intros now seq m [= <-].
Qed.
Lemma acceptance_told x w :
  let m := (notify_accepted x.1 x.2 ;; mret x.1) in
  one_notice to_json (is_acceptance_notice x) w (m w).2 ∧ ((m w).1 = Ok x.1 ∨ ∃ e, (m w).1 = Err e).
Proof.
  apply (told x.2 x.1 (is_acceptance_notice x) (λ bs, announce to_json nanoid cache _ _));
    [|intros bs; apply settles_announce].
  intros bs v Hb. apply announce_notice; [by intros m id now|]. by intros now seq m [= <-].
Qed.

(** ** The store calls tell nobody *)

Ltac quiet_split :=
  repeat lazymatch goal with
  | |- keeps quiet (mbind _ _) => apply keeps_bind; [apply _| |intros ?]
  | |- keeps quiet (mret _) => apply keeps_ret; apply _
  | |- keeps quiet (transaction _) => apply quiet_transaction
  | |- keeps quiet (pg_exec _) => apply quiet_pg_exec
  | |- keeps quiet (exec_one _ _) => apply quiet_exec_one
  | |- keeps quiet (query_all _ _) => apply quiet_exec_all
  | |- keeps quiet (let '(_, _) := ?x in _) => destruct x
  | |- keeps quiet (take_two ?us _) => destruct us as [|? [|? ?]]; [intros w; reflexivity..|]; simpl;
      apply keeps_if; apply keeps_ret; apply _
  | |- keeps quiet _ => by intros w
  end.

Lemma quiet_create_fs fs : keeps quiet (create_fs nanoid fs).
Proof. unfold create_fs. quiet_split. Qed.
Lemma quiet_agree a : keeps quiet (agree_friend_apply_request a).
Proof. unfold agree_friend_apply_request. quiet_split. Qed.
Lemma quiet_delete_friend id u : keeps quiet (delete_friend id u).
Proof. unfold delete_friend. quiet_split. Qed.

(** C30. Under any schedule of faults the notices come strictly after the commit
    and never undo it. The store call of each handler puts nothing on the
    queue; when it fails, panics or hangs, the handler does exactly the same,
    with the same error and in the same state; when it succeeds, the tables
    stay what it made them, at most one message is queued, the handler's
    notice, and the answer is the one the store call gave, or an error: a
    request whose notice is lost is answered with an error and stays. A
    deletion that names an empty id is refused before the store is called. *)
Theorem friend_handlers_commit_first (w : World) :
  (∀ fs, commits_first to_json (is_request_notice fs) fst (create_fs nanoid fs) (create_friendship fs) w)
  ∧ (∀ a, commits_first to_json is_acceptance_notice fst (agree_friend_apply_request a) (agree a) w)
  ∧ (∀ r, df_user_id r ≠ ""%string → df_friend_id r ≠ ""%string → df_fs_id r ≠ ""%string →
       commits_first to_json (is_deletion_notice r) id (delete_friend (df_fs_id r) (df_user_id r))
         (delete_friend_handler r) w)
  ∧ (∀ r, df_user_id r = ""%string ∨ df_friend_id r = ""%string ∨ df_fs_id r = ""%string →
       ∃ s, delete_friend_handler r w = (Err (bad_request s), w)).
Proof.
  split_and!.
  - intros fs. apply commit_then_notify; [apply quiet_create_fs|]. intros x w1. apply request_told.
  - intros a. apply commit_then_notify; [apply quiet_agree|]. intros x w1. apply acceptance_told.
  - intros r H1 H2 H3. unfold commits_first, delete_friend_handler, validated, validate_delete_friend.
    rewrite !bool_decide_eq_false_2 by done. erewrite bind_ok by done.
    apply (commit_then_notify to_json (is_deletion_notice r) id); [apply quiet_delete_friend|].
    intros [] w1. erewrite bind_ok by done. split.
    + apply chat_send_notice; [by intros m id now|]. by intros m [= <-].
    + destruct (settles_chat_send to_json nanoid (new_with_friend_del (w_clock w1) (df_user_id r)
        (df_friend_id r)) w1) as [[[] ?]|?]; auto.
  - intros r Hr. unfold delete_friend_handler, validated, validate_delete_friend.
    repeat case_bool_decide; (eexists; by erewrite bind_err by done) || by destruct Hr as [|[|]].
Qed.

Lemma create_fs_w fs w id p1 user friend :
  healthy w → keyed (w_pg w) →
  upsert_friendship (nanoid (w_ids w)) fs (w_clock w) (w_pg w) = Some (id, p1) →
  t_users (w_pg w) !! fc_user_id fs = Some user → t_users (w_pg w) !! fc_friend_id fs = Some friend →
  fc_user_id fs ≠ fc_friend_id fs →
  create_fs nanoid fs w = (Ok (fs_replies fs id user friend (w_clock w)),
    upd_pg (λ _, with_interactions fs (w_clock w) p1) (upd_ids S w)).
Proof.
  intros Hw Hk Hup Hu Hf Hne. rewrite (create_fs_run _ _ _ _ _ Hw Hup).
  by erewrite bind_ok by (by apply take_two_users).
Qed.

(** On a healthy network a request between two accounts is stored, answered
    with the other side's profile, and announced: exactly one message is queued,
    a friend request from the requester to the friend, numbered by the
    requester's next send number and carrying the requester's profile. *)
Theorem create_friendship_functional (fs : FsCreate) (w : World) (id : string) (p1 : Pg)
    (user friend : User) (b : bytes) (n : option Z * option Z)
    (Hnet : healthy w) (Hk : keyed (w_pg w))
    (Hup : upsert_friendship (nanoid (w_ids w)) fs (w_clock w) (w_pg w) = Some (id, p1))
    (Hu : t_users (w_pg w) !! fc_user_id fs = Some user)
    (Hf : t_users (w_pg w) !! fc_friend_id fs = Some friend) (Hne : fc_user_id fs ≠ fc_friend_id fs)
    (Henc : bincode_encode (fs_replies fs id user friend (w_clock w)).2 = Some b)
    (Hseq : can_send (fc_user_id fs) w n) :
  ∃ w' m, create_friendship fs w = (Ok (fs_replies fs id user friend (w_clock w)).1, w')
  ∧ w_kafka w' = w_kafka w ++ [to_json m]
  ∧ msg_type m = msg_type_i32 FriendApplyReq ∧ content m = b
  ∧ sender_id m = fc_user_id fs ∧ receiver_id m = fc_friend_id fs
  ∧ Types.send_seq m = (default 0 n.1 + 1)%Z
  ∧ w_pg w' = with_interactions fs (w_clock w) p1
  ∧ pseq (w_redis w') (send_seq_key (fc_user_id fs)) = Some (pair_of (bump (rc_seq_step cache) n)).
Proof.
  pose proof (create_fs_w fs w id p1 user friend Hnet Hk Hup Hu Hf Hne) as Hc.
  set (w1 := upd_pg (λ _, with_interactions fs (w_clock w) p1) (upd_ids S w)) in *.
  unfold create_friendship. mrun Hc. unfold notify_request.
  destruct (announce_run to_json nanoid cache (fc_user_id fs) (λ now seq, new_with_friend_ship_req now
    (fc_user_id fs) (fc_friend_id fs) b seq) _ w1 n Hnet Hseq eq_refl eq_refl) as (r' & Ha & Hp & _).
  do 2 eexists. split_and!.
  - erewrite bind_ok; [reflexivity|]. erewrite bind_ok by (unfold encode_to_vec; by rewrite Henc). exact Ha.
  - reflexivity.
  - reflexivity.
  - reflexivity.
  - reflexivity.
  - reflexivity.
  - reflexivity.
  - reflexivity.
  - exact Hp.
Qed.

(** Accepting is announced to the requester, with the acceptor's profile and
    under the acceptor's next number, but without a sender: the message names
    nobody as the one who accepted. *)
Theorem agree_functional_notice (a : AgreeReply) (w : World) (f : FriendshipRow) (user friend : User)
    (b : bytes) (n : option Z * option Z)
    (Hnet : healthy w) (Hk : keyed (w_pg w)) (Hf : t_friendships (w_pg w) !! ar_fs_id a = Some f)
    (Hu : t_users (w_pg w) !! fs_user_id f = Some user)
    (Hv : t_users (w_pg w) !! fs_friend_id f = Some friend) (Hne : fs_user_id f ≠ fs_friend_id f)
    (Henc : bincode_encode (agree_replies a f user friend (w_clock w)).2 = Some b)
    (Hseq : can_send (fs_friend_id f) w n) :
  ∃ w' m, agree a w = (Ok (agree_replies a f user friend (w_clock w)).1, w')
  ∧ w_kafka w' = w_kafka w ++ [to_json m]
  ∧ msg_type m = msg_type_i32 FriendApplyResp ∧ content m = b
  ∧ receiver_id m = fs_user_id f ∧ sender_id m = ""%string
  ∧ Types.send_seq m = (default 0 n.1 + 1)%Z
  ∧ w_pg w' = agreed a f (w_clock w) (w_pg w).
Proof.
  assert (Hc : agree_friend_apply_request a w
    = (Ok (agree_replies a f user friend (w_clock w)), upd_pg (agreed a f (w_clock w)) w)).
  { rewrite (agree_run _ _ _ Hnet Hf Hne). by erewrite bind_ok by (by apply take_two_users). }
  unfold agree. mrun Hc. unfold notify_accepted.
  destruct (announce_run to_json nanoid cache (fs_friend_id f) (λ now seq, new_with_friend_ship_resp now
    (fs_user_id f) b seq) _ (upd_pg (agreed a f (w_clock w)) w) n Hnet Hseq eq_refl eq_refl)
    as (r' & Ha & _).
  do 2 eexists. split_and!.
  - erewrite bind_ok; [reflexivity|]. erewrite bind_ok by (unfold encode_to_vec; by rewrite Henc). exact Ha.
  - reflexivity.
  - reflexivity.
  - reflexivity.
  - reflexivity.
  - reflexivity.
  - reflexivity.
  - reflexivity.
Qed.

(** A deletion is announced whatever it deleted: for any three non-empty
    ids, and any tables, the call succeeds and queues a friend-deleted notice
    from the one user to the other. *)
Theorem delete_notice_unchecked (r : DeleteFriendRequest) (w : World) (Hnet : healthy w)
    (Hr : validate_delete_friend r = Ok tt) :
  ∃ w' m, delete_friend_handler r w = (Ok tt, w')
  ∧ w_kafka w' = w_kafka w ++ [to_json m]
  ∧ msg_type m = msg_type_i32 FriendDelete
  ∧ sender_id m = df_user_id r ∧ receiver_id m = df_friend_id r.
Proof.
  unfold delete_friend_handler, validated. erewrite bind_ok by (by rewrite Hr).
  erewrite bind_ok by (by apply delete_friend_run). erewrite bind_ok by done.
  do 2 eexists. split_and!; [by apply chat_send_run|reflexivity..].
Qed.
End handlers.

(** ** Witnesses *)

(** A toy encoding by the names. *)
#[export] Instance toy_fs : Bincode FriendshipWithUser := λ f, Some (string_bytes (fw_user_id f)).
#[export] Instance toy_friend : Bincode Friend := λ f, Some (string_bytes (fi_friend_id f)).
Definition toy_json (m : Msg) : string := (sender_id m +:+ ">" +:+ receiver_id m)%string.

Lemma create_friendship_functional_witness :
  ∃ w', create_friendship toy_json ids redis_cache_new (ask "a" "b") two_people
        = (Ok (fs_replies (ask "a" "b") "n0" (person "a") (person "b") 0).1, w')
  ∧ w_kafka w' = ["a>b"%string].
Proof.
  destruct (create_friendship_functional toy_json ids redis_cache_new (ask "a" "b") two_people "n0" _
    (person "a") (person "b") (string_bytes "a") (None, None) eq_refl two_people_keyed eq_refl eq_refl eq_refl
    ltac:(discriminate) eq_refl ltac:(split; reflexivity))
    as (w' & m & H1 & H2 & _ & _ & H3 & H4 & _).
  exists w'. split; [exact H1|]. rewrite H2. unfold toy_json. rewrite H3, H4. reflexivity.
Defined.

Lemma agree_functional_notice_witness :
  ∃ w', agree toy_json ids redis_cache_new (yes "n0") asked
        = (Ok (agree_replies (yes "n0")
              (mkFriendshipRow "a" "b" FsPending (Some "hi"%string) None None None "search" 0 0 "a" "create")
              (person "a") (person "b") 0).1, w')
  ∧ w_kafka w' = [">a"%string].
Proof.
  destruct (agree_functional_notice toy_json ids redis_cache_new (yes "n0") asked _ (person "a") (person "b")
    (string_bytes "b") (None, None) eq_refl two_people_keyed eq_refl eq_refl eq_refl ltac:(discriminate)
    eq_refl ltac:(split; reflexivity)) as (w' & m & H1 & H2 & _ & _ & H3 & H4 & _).
  exists w'. split; [exact H1|]. rewrite H2. unfold toy_json. rewrite H3, H4. reflexivity.
Defined.

#[local] Existing Instance no_server.

Definition asking : FsCreate → IO FriendshipWithUser := create_friendship toy_json ids redis_cache_new.
Definition broken : World := upd_faults (λ _, [Pass; Pass; FailBefore]) two_people.
Definition silenced : World := upd_faults (λ _, [Pass; Pass; Pass; Pass; FailBefore]) asked.

(** A request whose insertion fails, one to somebody unknown, an acceptance,
    a deletion whose notice is lost, and one that is malformed. *)
Lemma friend_handlers_commit_first_witness :
  asking (ask "a" "b") broken = (Err pg_error, (create_fs ids (ask "a" "b") broken).2)
  ∧ asking (ask "a" "z") two_people = (Panic, (create_fs ids (ask "a" "z") two_people).2)
  ∧ one_notice toy_json
      (λ m, sender_id m = ""%string ∧ receiver_id m = "a"%string)
      (agree_friend_apply_request (yes "n0") asked).2 (agree toy_json ids redis_cache_new (yes "n0") asked).2
  ∧ w_pg (delete_friend_handler toy_json ids (mkDeleteFriendRequest "a" "b" "n0") silenced).2
    = w_pg (delete_friend "n0" "a" silenced).2
  ∧ ∃ s, delete_friend_handler toy_json ids (mkDeleteFriendRequest "a" "b" "") asked = (Err (bad_request s), asked).
Proof.
  split_and!.
  - pose proof (proj1 (friend_handlers_commit_first toy_json ids redis_cache_new broken) (ask "a" "b")) as H.
    unfold commits_first in H. assert (Hc : (create_fs ids (ask "a" "b") broken).1 = Err pg_error)
      by (vm_compute; reflexivity).
    destruct (create_fs ids (ask "a" "b") broken) as [o w1]. simpl in Hc. rewrite Hc in H. exact (proj2 H).
  - pose proof (proj1 (friend_handlers_commit_first toy_json ids redis_cache_new two_people) (ask "a" "z")) as H.
    unfold commits_first in H. assert (Hc : (create_fs ids (ask "a" "z") two_people).1 = Panic)
      by (vm_compute; reflexivity).
    destruct (create_fs ids (ask "a" "z") two_people) as [o w1]. simpl in Hc. rewrite Hc in H. exact (proj2 H).
  - pose proof (proj1 (proj2 (friend_handlers_commit_first toy_json ids redis_cache_new asked)) (yes "n0")) as H.
    unfold commits_first in H. assert (Hc : ∃ x, (agree_friend_apply_request (yes "n0") asked).1 = Ok x
      ∧ fi_friend_id x.1 = "a"%string) by (eexists; split; vm_compute; reflexivity).
    destruct Hc as (x & Hc & Hx).
    destruct (agree_friend_apply_request (yes "n0") asked) as [o w1]. simpl in Hc. rewrite Hc in H.
    destruct H as (_ & [Hp Hk] & _). split; [exact Hp|].
    destruct Hk as [Hk|(m & (_ & Hs & Hr & _) & Hk)]; [by left|right]. exists m. rewrite <- Hx. by split_and!.
  - pose proof (proj1 (proj2 (proj2 (friend_handlers_commit_first toy_json ids redis_cache_new silenced)))
      (mkDeleteFriendRequest "a" "b" "n0") ltac:(discriminate) ltac:(discriminate) ltac:(discriminate)) as H.
    unfold commits_first in H. assert (Hc : (delete_friend "n0" "a" silenced).1 = Ok tt)
      by (vm_compute; reflexivity).
    simpl df_fs_id in H. simpl df_user_id in H.
    destruct (delete_friend "n0" "a" silenced) as [o w1]. simpl in Hc. rewrite Hc in H.
    exact (proj1 (proj1 (proj2 H))).
  - exact (proj2 (proj2 (proj2 (friend_handlers_commit_first toy_json ids redis_cache_new asked)))
      (mkDeleteFriendRequest "a" "b" "") (or_intror (or_intror eq_refl))).
Defined.

Lemma delete_notice_unchecked_witness :
  ∃ w', delete_friend_handler toy_json ids (mkDeleteFriendRequest "x" "y" "z") world_empty = (Ok tt, w')
  ∧ w_kafka w' = ["x>y"%string].
Proof.
  destruct (delete_notice_unchecked toy_json ids (mkDeleteFriendRequest "x" "y" "z") world_empty eq_refl
    eq_refl) as (w' & m & H1 & H2 & _ & H3 & H4).
  exists w'. split; [exact H1|]. rewrite H2. unfold toy_json. rewrite H3, H4. reflexivity.
Defined.
