(* ===== verification/GroupApi.v ===== *)
(** * The group handlers of the API ([api/src/handlers/groups])

    The handlers as their store calls, the cached member set and the notices,
    and what the message consumer makes of those notices. *)

From S2P Require Import Prelude Errors Types Tables World Sql Records Cache Producer Gateway SeqStore RecBox Pusher GroupStore GroupData GroupContent Consumer Delivery ApiNotify.

(** ** Requests and answers *)

Record GroupAndMembers : Type := mkGroupAndMembers { gam_group : GroupInfo; gam_members : list GroupMember }.
Record GroupInviteNew : Type := mkGroupInviteNew {
  gi_user_id : string; gi_group_id : string; gi_members : list string
}.
Record DeleteGroupRequest : Type := mkDeleteGroup {
  dg_user_id : string; dg_group_id : string; dg_is_dismiss : bool
}.
Record MuteGroupMemberRequest : Type := mkMuteRequest {
  mm_group_id : string; mm_user_id : string; mm_operator_id : string; mm_mute_until : Z; mm_reason : string
}.
Record UpdateMemberSettingsRequest : Type := mkMemberSettings {
  ms_group_id : string; ms_user_id : string; ms_notification_level : string; ms_display_order : Z
}.
Record DeleteFileRequest : Type := mkDeleteFile { dfl_file_id : string; dfl_user_id : string }.
Record UpdateFilePinRequest : Type := mkFilePin { fpn_file_id : string; fpn_is_pinned : bool }.
Record ClosePollRequest : Type := mkClosePoll { clp_poll_id : string; clp_user_id : string }.
Record UnmuteRequest : Type := mkUnmute {
  um_group_id : string; um_user_id : string; um_operator_id : string
}.
Record DeleteAnnouncementRequest : Type := mkDeleteAnnouncement { da_id : string; da_user_id : string }.
Record PinAnnouncementRequest : Type := mkPinAnnouncement { pa_id : string; pa_is_pinned : bool }.
Record ChangeMemberRoleRequest : Type := mkChangeRole {
  cmr_group_id : string; cmr_user_id : string; cmr_target_id : string; cmr_new_role : string
}.

Section handlers.
Context (to_json : Msg → string) (nanoid : nat → string) (cache : RedisCache) {pg_server : PgServer}.
Context (options_of_json : string → option (list PollOption)) (json_of_options : list PollOption → string).
Context `{!Bincode GroupInvitation} `{!Bincode GroupInfo} `{!Bincode (list string)}
        `{!Bincode GroupFileInfo} `{!Bincode GroupPoll} `{!Bincode GroupMuteRecord}
        `{!Bincode GroupAnnouncementInfo}.

Abbreviation announce := (announce to_json nanoid cache).

(** ** Groups *)

Definition get_group_handler (user_id group_id : string) : IO GroupInfo := get_group user_id group_id.

Definition get_group_and_members_handler (user_id group_id : string) : IO GroupAndMembers :=
  group ← get_group_and_members user_id group_id;
  info ← from_option not_found (ggm_group group);
  mret (mkGroupAndMembers info (ggm_members group)).

Definition get_group_members_handler (req : GetMemberReq) : IO (list GroupMember) :=
  get_members (gmr_user_id req) (gmr_group_id req) (gmr_mem_ids req).

(** [members_id.retain(|v| !v.is_empty())], the fresh id, and the owner as the
    last member. *)
Definition prepared_group (g : GroupCreate) (group_id user_id : string) : GroupCreate :=
  mkGroupCreate group_id (cr_owner g) (cr_avatar g) (cr_group_name g)
    (filter (λ v, v ≠ ""%string) (cr_members_id g) ++ [user_id]).

Definition create_group_handler (user_id : string) (new_group : GroupCreate) : IO GroupInvitation :=
  group_id ← draw_nanoid nanoid;
  invitation ← create_group_with_members (prepared_group new_group group_id user_id);
  save_group_members_id group_id (gm_user_id <$> inv_members invitation) ;;
  msg ← encode_to_vec invitation;
  announce user_id (λ now seq, new_with_group_invitation now user_id group_id seq msg) ;;
  mret invitation.

Definition invite_new_members_handler (invitation : GroupInviteNew) : IO unit :=
  invite_new_members (gi_group_id invitation) (gi_user_id invitation) (gi_members invitation) ;;
  save_group_members_id (gi_group_id invitation) (gi_members invitation) ;;
  msg ← encode_to_vec (gi_members invitation);
  announce (gi_user_id invitation)
    (λ now seq, new_with_group_invite_new now (gi_user_id invitation) (gi_group_id invitation) seq msg).

Definition update_group_handler (user_id : string) (group_update : GroupUpdate) : IO GroupInfo :=
  group_info ← update_group group_update;
  msg ← encode_to_vec group_info;
  announce user_id (λ now seq, new_with_group_update now user_id (gi_id group_info) seq msg) ;;
  mret group_info.

Definition remove_member_handler (req : RemoveMemberRequest) : IO unit :=
  remove_member (rm_group_id req) (rm_user_id req) (rm_mem_id req) ;;
  msg ← encode_to_vec (rm_mem_id req);
  announce (rm_user_id req)
    (λ now seq, new_with_group_remove_mem now (rm_user_id req) (rm_group_id req) seq msg).

Definition delete_group_handler (group : DeleteGroupRequest) : IO unit :=
  msg ← (if dg_is_dismiss group
         then delete_group (dg_group_id group) (dg_user_id group) ;; mret GroupDismiss
         else exit_group (dg_user_id group) (dg_group_id group) ;; mret GroupMemberExit);
  announce (dg_user_id group)
    (λ now seq, new_with_group_operation now (dg_user_id group) (dg_group_id group) msg seq).

Definition update_group_settings_handler (req : UpdateGroupRequest) : IO GroupInfo :=
  group_info ← update_group_settings req;
  msg ← encode_to_vec group_info;
  announce (ug_user_id req)
    (λ now seq, new_with_group_update now (ug_user_id req) (ug_group_id req) seq msg) ;;
  mret group_info.

Definition update_member_settings_handler (req : UpdateMemberSettingsRequest) : IO GroupMember :=
  update_member_settings (ms_group_id req) (ms_user_id req) (ms_notification_level req) (ms_display_order req).

(** ** Categories *)

Definition create_group_category_handler (req : CreateGroupCategoryRequest) : IO GroupCategory :=
  create_group_category nanoid req.
Definition update_group_category_handler (category : GroupCategory) : IO GroupCategory :=
  update_group_category category.
Definition delete_group_category_handler (id : string) : IO unit := delete_group_category id.
Definition get_group_categories_handler : IO (list GroupCategory) := get_group_categories.

(** ** Files, polls, mutes, announcements *)

Definition upload_group_file_handler (req : GroupFileUploadRequest) : IO GroupFileInfo :=
  file ← upload_group_file nanoid req;
  msg ← encode_to_vec file;
  announce (up_uploader_id req)
    (λ _ seq, new_with_group_file (up_uploader_id req) (up_group_id req) seq msg) ;;
  mret file.
Definition delete_group_file_handler (req : DeleteFileRequest) : IO unit :=
  delete_group_file (dfl_file_id req) (dfl_user_id req).
Definition get_group_files_handler (group_id : string) : IO (list GroupFileInfo) := get_group_files group_id.
Definition update_file_pin_status_handler (req : UpdateFilePinRequest) : IO GroupFileInfo :=
  update_file_pin_status (fpn_file_id req) (fpn_is_pinned req).

Definition create_poll_handler (req : CreatePollRequest) : IO GroupPoll :=
  poll ← create_poll nanoid options_of_json req;
  msg ← encode_to_vec poll;
  announce (cp_creator_id req)
    (λ _ seq, new_with_group_poll (cp_creator_id req) (cp_group_id req) seq msg) ;;
  mret poll.
Definition vote_poll_handler (req : VotePollRequest) : IO GroupPoll :=
  vote_poll options_of_json json_of_options req.
Definition close_poll_handler (req : ClosePollRequest) : IO GroupPoll :=
  close_poll options_of_json (clp_poll_id req) (clp_user_id req).
Definition get_group_polls_handler (group_id : string) : IO (list GroupPoll) :=
  get_group_polls options_of_json group_id.
Definition get_poll_details_handler (poll_id : string) : IO GroupPoll :=
  get_poll_details options_of_json poll_id.

Definition mute_group_member_handler (req : MuteGroupMemberRequest) : IO GroupMuteRecord :=
  record ← mute_group_member nanoid (mm_group_id req) (mm_user_id req) (mm_operator_id req)
             (mm_mute_until req) (Some (mm_reason req));
  msg ← encode_to_vec record;
  announce (mm_operator_id req)
    (λ _ seq, new_with_group_mute (mm_operator_id req) (mm_group_id req) seq msg) ;;
  mret record.
Definition unmute_group_member_handler (req : UnmuteRequest) : IO unit :=
  unmute_group_member (um_group_id req) (um_user_id req) (um_operator_id req).
Definition get_group_muted_members_handler (group_id : string) : IO (list GroupMuteRecord) :=
  get_group_muted_members group_id.

Definition create_announcement_handler (req : CreateAnnouncementRequest) : IO GroupAnnouncementInfo :=
  announcement ← create_announcement nanoid req;
  msg ← encode_to_vec announcement;
  announce (ca_creator_id req)
    (λ _ seq, new_with_group_announcement (ca_creator_id req) (ca_group_id req) seq msg) ;;
  mret announcement.
Definition delete_announcement_handler (req : DeleteAnnouncementRequest) : IO unit :=
  delete_announcement (da_id req) (da_user_id req).
Definition get_group_announcements_handler (group_id : string) : IO (list GroupAnnouncementInfo) :=
  get_group_announcements group_id.
Definition pin_announcement_handler (req : PinAnnouncementRequest) : IO GroupAnnouncementInfo :=
  pin_announcement (pa_id req) (pa_is_pinned req).

Definition change_member_role_handler (req : ChangeMemberRoleRequest) : IO GroupMember :=
  change_member_role (cmr_group_id req) (cmr_user_id req) (cmr_target_id req) (cmr_new_role req).
End handlers.

(** ** Properties *)

Lemma SREM_run now k ms r s :
  ms ≠ [] → rset now r k = Some s → SREM now k ms r = (Ok tt, rput now r k (RSet (s ∖ list_to_set ms))).
Proof. intros Hms Hs. unfold SREM. destruct ms; [done|]. by rewrite Hs. Qed.

Section group_properties.
Context (to_json : Msg → string) (nanoid : nat → string) (cache : RedisCache).
Context `{!Bincode GroupInvitation} `{!Bincode GroupInfo} `{!Bincode (list string)}.

Lemma save_members_run gid ids w s :
  healthy w → rset (w_clock w) (w_redis w) (members_key gid) = Some s →
  ∃ r', save_group_members_id gid ids w = (Ok tt, upd_redis (λ _, r') w)
    ∧ rset (w_clock w) r' (members_key gid) = Some (list_to_set ids ∪ s)
    ∧ only_key (members_key gid) (w_redis w) r'.
Proof.
  intros Hnet Hs. destruct (sadd_all (w_clock w) (members_key gid) ids _ _ Hs) as (r' & Hr & Hs' & Ho).
  exists r'. split_and!; [|done|done]. unfold save_group_members_id.
  erewrite bind_ok by (by apply redis_conn_healthy). by apply redis_run_healthy.
Qed.

(** An invitation while the group is not cached (after a restart of the
    cache, or before its first message) makes the invited the whole cached
    group: from then on the consumer addresses them alone, and the members the
    group had before get nothing until the cache is dropped. *)
Theorem invite_hides_members (inv : GroupInviteNew) (w : World) (r : GroupRole) (g : GroupRow)
    (b : bytes) (n : option Z * option Z)
    (Hnet : healthy w) (Hrole : role_of (w_pg w) (gi_group_id inv) (gi_user_id inv) = Some r)
    (Hgroup : t_groups (w_pg w) !! gi_group_id inv = Some g)
    (Hmay : text_le r (g_invite_permission g) = true)
    (Hcold : rset (w_clock w) (w_redis w) (members_key (gi_group_id inv)) = Some ∅)
    (Hids : gi_members inv ≠ []) (Hseq : can_send (gi_user_id inv) w n)
    (Henc : bincode_encode (gi_members inv) = Some b) :
  ∃ w1, invite_new_members_handler to_json nanoid cache inv w = (Ok tt, w1)
    ∧ (∀ u, is_Some (t_members (w_pg w) !! (gi_group_id inv, u)) →
         is_Some (t_members (w_pg w1) !! (gi_group_id inv, u)))
    ∧ (∀ u, u ∈ group_members w1 (gi_group_id inv) ↔ u ∈ gi_members inv).
Proof.
  set (gid := gi_group_id inv) in *. set (u0 := gi_user_id inv) in *.
  pose proof (invite_run gid u0 (gi_members inv) w r g Hnet Hrole Hgroup) as Hi. rewrite Hmay in Hi.
  set (w0 := upd_pg _ w) in Hi.
  destruct (save_members_run gid (gi_members inv) w0 ∅ Hnet Hcold) as (r1 & Hsv & Hs1 & Ho1).
  assert (Hseq1 : can_send u0 (upd_redis (λ _, r1) w0) n).
  { destruct Hseq as [Hp Hroom]. split; [|done]. simpl.
    rewrite <- Hp. apply (pseq_other (members_key gid)); [done|]. by intros E%eq_sym%members_not_send. }
  destruct (announce_run to_json nanoid cache u0 (λ now seq, new_with_group_invite_new now u0 gid seq b)
    _ (upd_redis (λ _, r1) w0) n Hnet Hseq1 eq_refl eq_refl) as (r2 & Ha & _ & Ho2).
  eexists. split_and!.
  - unfold invite_new_members_handler. mrun Hi. mrun Hsv.
    erewrite bind_ok by (unfold encode_to_vec; by rewrite Henc). exact Ha.
  - intros u. apply insert_invited_keeps.
  - assert (Hs2 : rset (w_clock w) r2 (members_key gid) = Some (list_to_set (gi_members inv) ∪ ∅)).
    { rewrite (rset_only_key _ _ _ _ _ Ho2) by apply members_not_send. exact Hs1. }
    intros u. unfold group_members. simpl. rewrite Hs2. rewrite bool_decide_eq_false_2; [set_solver|].
    intros He%elements_empty_inv. destruct (gi_members inv) as [|x l]; [done|].
    apply (not_elem_of_empty (C := gset string) x), He. set_solver.
Qed.

Context (decode_strings : bytes → option (list string)) (cs : ConsumerService).

(** The consumer on a removal notice, when the group's members are cached. *)
Lemma removal_notice_run m ids w s :
  healthy w → msg_type m = msg_type_i32 GroupRemoveMember → group_id m = receiver_id m →
  decode_strings (content m) = Some ids → ids ≠ [] →
  rset (w_clock w) (w_redis w) (members_key (receiver_id m)) = Some s → s ≠ ∅ →
  Forall (can_bump (w_redis w)) (elements s) →
  ∃ l r', handle_group_seq decode_strings cs Group m w = (Ok l, upd_redis (λ _, r') w)
    ∧ rset (w_clock w) r' (members_key (receiver_id m)) = Some (s ∖ list_to_set ids).
Proof.
  intros Hnet Hty Hgid Hdec Hids Hs Hne Hall. set (k := members_key (receiver_id m)) in *.
  assert (Hgm : group_members w (receiver_id m) = elements s).
  { unfold group_members. fold k. rewrite Hs. rewrite bool_decide_eq_false_2; [done|].
    intros He%elements_empty_inv. by apply Hne, leibniz_equiv. }
  destruct (get_members_id_run (receiver_id m) w s Hnet Hs) as (r1 & Hm & Hs1 & Ho1). rewrite Hgm in Hm, Hs1.
  set (ms := filter (.≠ sender_id m) (elements s)).
  destruct (incr_group_seq_run (cs_cache cs) ms (upd_redis (λ _, r1) w) Hnet) as (r2 & Hr2 & _ & Ho2).
  { apply NoDup_filter, NoDup_elements. }
  { apply Forall_forall. intros u [_ Hu]%list_elem_of_filter.
    apply (can_bump_other (w_redis w) r1 k); [exact Ho1|apply seq_not_members|].
    rewrite Forall_forall in Hall. by apply Hall. }
  assert (Hs2 : rset (w_clock w) r2 k = Some s).
  { unfold rset, rget. rewrite Ho2.
    - change (rset (w_clock w) r1 k = Some s). rewrite <- (list_to_set_elements_L s). exact Hs1.
    - intros (u & E & _)%list_elem_of_fmap. by apply (seq_not_members u (receiver_id m)). }
  do 2 eexists. split.
  - unfold handle_group_seq. rewrite bool_decide_eq_false_2 by auto. mrun Hm.
    erewrite bind_ok by exact Hr2. rewrite Hty. cbn [msg_type_i32].
    erewrite bind_ok.
    2:{ rewrite bool_decide_eq_false_2 by done. rewrite bool_decide_eq_false_2 by done.
        rewrite bool_decide_eq_true_2 by done. erewrite bind_ok by (by rewrite Hdec).
        unfold remove_group_member_batch. erewrite bind_ok by (by apply redis_conn_healthy).
        apply redis_run_healthy; [done|]. rewrite Hgid. by apply SREM_run. }
    reflexivity.
  - apply rset_rput.
Qed.

(** Anyone can silently drop members out of a group's deliveries. A removal
    asked by a user who does not manage the group leaves every membership as it
    is, yet is answered with success and announced; and the consumer, handling
    that announcement, takes the named users out of the cached member set from
    which all deliveries are addressed. *)
Theorem kick_through_cache (req : RemoveMemberRequest) (w : World) (s : gset string) (b : bytes)
    (n : option Z * option Z)
    (Hnet : healthy w) (Hno : manages (w_pg w) (rm_group_id req) (rm_user_id req) = false)
    (Hids : rm_mem_id req ≠ [])
    (Hs : rset (w_clock w) (w_redis w) (members_key (rm_group_id req)) = Some s) (Hne : s ≠ ∅)
    (Hall : Forall (can_bump (w_redis w)) (elements s)) (Hseq : can_send (rm_user_id req) w n)
    (Henc : bincode_encode (rm_mem_id req) = Some b)
    (Hrt : decode_strings b = Some (rm_mem_id req)) :
  ∃ w1 m, remove_member_handler to_json nanoid cache req w = (Ok tt, w1)
    ∧ w_pg w1 = w_pg w ∧ w_kafka w1 = w_kafka w ++ [to_json m]
    ∧ ∃ l w2, handle_group_seq decode_strings cs Group m w1 = (Ok l, w2)
      ∧ w_pg w2 = w_pg w
      ∧ (s ∖ list_to_set (rm_mem_id req) ≠ ∅ → ∀ u, u ∈ group_members w2 (rm_group_id req)
           ↔ u ∈ s ∧ u ∉ rm_mem_id req).
Proof.
  set (gid := rm_group_id req) in *. set (u0 := rm_user_id req) in *.
  assert (Hr : remove_member gid u0 (rm_mem_id req) w = (Ok tt, w)).
  { unfold remove_member. erewrite pg_exec_healthy by done. rewrite Hno. by rewrite upd_pg_id. }
  destruct (announce_run to_json nanoid cache u0 (λ now seq, new_with_group_remove_mem now u0 gid seq b)
    _ w n Hnet Hseq eq_refl eq_refl) as (r1 & Ha & _ & Ho1).
  set (m := stamped _ _ _) in Ha.
  set (w1 := upd_kafka _ _) in Ha. exists w1, m. split_and!; [|done|done|].
  { unfold remove_member_handler. mrun Hr. erewrite bind_ok by (unfold encode_to_vec; by rewrite Henc).
    exact Ha. }
  destruct (removal_notice_run m (rm_mem_id req) w1 s) as (l & r2 & Hh & Hs2); [done..| | | |].
  - simpl. change (receiver_id m) with gid.
    by rewrite (rset_only_key _ (send_seq_key u0) _ (w_redis w)) by (done || apply members_not_send).
  - done.
  - eapply Forall_impl; [exact Hall|]. intros u.
    apply can_bump_other with (send_seq_key u0); [done|apply seq_send_key_ne].
  - exists l, (upd_redis (λ _, r2) w1). split_and!; [exact Hh|done|].
    intros Hrest u. change (receiver_id m) with gid in Hs2. unfold group_members.
    change (w_clock (upd_redis (λ _, r2) w1)) with (w_clock w1). simpl in Hs2 |- *. rewrite Hs2.
    rewrite bool_decide_eq_false_2; [set_solver|].
    intros He%elements_empty_inv. by apply Hrest, leibniz_equiv.
Qed.

(** The notices of files, polls, mutes and announcements. *)
Definition content_notice (m : Msg) : Prop := ∃ sender gid sq c,
  Some m ∈ [new_with_group_file sender gid sq c; new_with_group_poll sender gid sq c;
            new_with_group_mute sender gid sq c; new_with_group_announcement sender gid sq c].

Lemma content_notice_fields m : content_notice m →
  receiver_id m = ""%string
  ∧ (msg_type m = msg_type_i32 GroupFile ∨ msg_type m = msg_type_i32 Types.GroupPoll
     ∨ msg_type m = msg_type_i32 GroupMute ∨ msg_type m = msg_type_i32 GroupAnnouncement).
Proof.
  intros (sender & gid & sq & c & Hin).
  unfold new_with_group_file, new_with_group_poll, new_with_group_mute, new_with_group_announcement in Hin.
  rewrite !elem_of_cons in Hin.
  destruct Hin as [[= ->]|[[= ->]|[[= ->]|[[= ->]|Hin]]]]; simpl; auto. by apply not_elem_of_nil in Hin.
Qed.

(** The notices of uploaded files, polls, mutes and announcements reach
    nobody: they are addressed to the group with the empty name, so the
    consumer, which classifies them as group messages, finds no members and
    numbers, stores and pushes them for no one. *)
Theorem notices_reach_nobody (m : Msg) (w0 w : World) (Hm : content_notice m) (Hnet : healthy w)
    (Hcold : rset (w_clock w) (w_redis w) (members_key "") = Some ∅)
    (Hnone : ∀ u, t_members (w_pg w) !! (""%string, u) = None) :
  (∃ mt b, msg_type_try_from (msg_type m) = Some mt ∧ classify_msg_type mt = (Group, false, b))
  ∧ ∃ r', handle_group_seq decode_strings cs Group (stamped nanoid w0 m) w = (Ok [], upd_redis (λ _, r') w)
    ∧ only_key (members_key "") (w_redis w) r'.
Proof.
  assert (Hgm : group_members w "" = []).
  { unfold group_members. rewrite Hcold. rewrite bool_decide_eq_true_2 by done.
    apply elem_of_nil_inv. intros u [x Hx]%elem_of_members_of. by rewrite Hnone in Hx. }
  destruct (get_members_id_run "" w ∅ Hnet Hcold) as (r1 & Hg & _ & Ho1). rewrite Hgm in Hg.
  destruct (incr_group_seq_run (cs_cache cs) [] (upd_redis (λ _, r1) w) Hnet) as (r2 & Hr2 & _ & Ho2);
    [constructor|constructor|].
  assert (Hrun : ∀ m', receiver_id m' = ""%string →
      msg_type m' = msg_type_i32 GroupFile ∨ msg_type m' = msg_type_i32 Types.GroupPoll
      ∨ msg_type m' = msg_type_i32 GroupMute ∨ msg_type m' = msg_type_i32 GroupAnnouncement →
      handle_group_seq decode_strings cs Group m' w = (Ok [], upd_redis (λ _, r2) w)).
  { intros m' Hrecv Hty. unfold handle_group_seq. rewrite bool_decide_eq_false_2 by auto. rewrite Hrecv.
    mrun Hg. erewrite bind_ok by exact Hr2. by destruct Hty as [->|[->|[->| ->]]]. }
  destruct (content_notice_fields m Hm) as [Hrecv Hty]. split.
  - destruct Hty as [->|[->|[->| ->]]]; do 2 eexists; split; reflexivity.
  - exists r2. split.
    + unfold stamped. by apply Hrun; case_match.
    + intros k Hk. rewrite Ho2 by set_solver. by apply Ho1.
Qed.
End group_properties.

(** ** What no handler can do *)

Lemma dead_store {A B} (store : IO A) (tail : A → IO B) w :
  is_ok (store w).1 = false → is_ok ((store ≫= tail) w).1 = false ∧ ((store ≫= tail) w).2 = (store w).2.
Proof. unfold mbind, M_bind. by destruct (store w) as [[] ?]. Qed.

Lemma quiet_create g : keeps quiet (create_group_with_members g).
Proof.
  unfold create_group_with_members. apply keeps_bind; [apply _|apply keeps_gets; apply _|]. intros now.
  apply quiet_transaction. apply keeps_bind; [apply _|apply quiet_exec_one|]. intros info.
  apply keeps_bind; [apply _|apply quiet_exec_all|]. intros ms. apply keeps_ret. apply _.
Qed.

Lemma quiet_settings `{!PgServer} r : keeps quiet (update_group_settings r).
Proof.
  unfold update_group_settings. apply keeps_bind; [apply _|apply keeps_gets; apply _|]. intros now.
  apply keeps_bind; [apply _|apply quiet_pg_exec|]. intros rows. apply keeps_from_option. apply _.
Qed.

Lemma quiet_update g : keeps quiet (update_group g).
Proof.
  unfold update_group. apply keeps_bind; [apply _|apply keeps_gets; apply _|]. intros now.
  apply quiet_exec_one.
Qed.

Lemma update_never_ok g : never_ok (update_group g).
Proof.
  apply never_ok_bind_r. intros now. apply never_ok_exec_one. intros p rows p' r Hq Hr.
  destruct (update_returning_rows _ _ _ _ _ _ _ _ _ Hq Hr) as [x ->]. apply group_undecodable.
Qed.

Lemma create_never_ok g : never_ok (create_group_with_members g).
Proof. apply never_ok_bind_r. intros now. apply never_ok_transaction, create_body_never_ok. Qed.

Lemma delete_never_ok gid owner : never_ok (delete_group gid owner).
Proof. apply never_ok_transaction, delete_body_never_ok. Qed.

Lemma settings_never_ok `{!PgServer} r : never_ok (update_group_settings r).
Proof.
  apply never_ok_bind_r. intros now. apply never_ok_bind_l. intros w.
  unfold stmt_rows. match goal with |- context [pg_stmt _ ?q w] =>
    by destruct (pg_stmt_rejected update_settings_stmt q w ltac:(vm_compute; reflexivity)) as [fs ->] end.
Qed.

(** Over the API no group is ever created, dismissed, updated or given
    settings with success, whatever is stored and whatever fails, and nobody is
    told anything: the four handlers never answer, and leave the cache, the
    queue and the pushes as they were. *)
Theorem group_handlers_never_answer (to_json : Msg → string) (nanoid : nat → string) (cache : RedisCache) (server : PgServer)
    `{!Bincode GroupInvitation} `{!Bincode GroupInfo} (w : World) :
  (∀ u g, is_ok (create_group_handler to_json nanoid cache u g w).1 = false
          ∧ quiet w (create_group_handler to_json nanoid cache u g w).2)
  ∧ (∀ u g, is_ok (delete_group_handler to_json nanoid cache (mkDeleteGroup u g true) w).1 = false
          ∧ quiet w (delete_group_handler to_json nanoid cache (mkDeleteGroup u g true) w).2)
  ∧ (∀ u g, is_ok (update_group_handler to_json nanoid cache u g w).1 = false
          ∧ quiet w (update_group_handler to_json nanoid cache u g w).2)
  ∧ (∀ r, is_ok (update_group_settings_handler to_json nanoid cache r w).1 = false
          ∧ quiet w (update_group_settings_handler to_json nanoid cache r w).2).
Proof.
  assert (Hgen : ∀ {A B} (store : IO A) (tail : A → IO B) v, never_ok store → keeps quiet store →
    is_ok ((store ≫= tail) v).1 = false ∧ quiet v ((store ≫= tail) v).2).
  { intros A B store tail v Hn Hq. destruct (dead_store store tail v (Hn v)) as [H1 H2].
    split; [exact H1|]. rewrite H2. apply Hq. }
  split_and!; intros.
  - unfold create_group_handler. erewrite bind_ok by done.
    apply (Hgen _ _ _ _ (upd_ids S w)); [apply create_never_ok|apply quiet_create].
  - apply Hgen.
    + by apply never_ok_bind_l, delete_never_ok.
    + apply keeps_bind; [apply _|apply quiet_transaction, quiet_exec_one|]. intros x. apply keeps_ret. apply _.
  - apply Hgen; [apply update_never_ok|apply quiet_update].
  - apply Hgen; [apply settings_never_ok|apply quiet_settings].
Qed.

(** ** Witnesses *)

#[export] Instance toy_strings : Bincode (list string) := λ l, Some (string_bytes (String.concat "," l)).
Definition toy_decode (b : bytes) : option (list string) := Some ["bob"%string].
Definition cached_club : World :=
  upd_redis (λ _, {[members_key "g" := (RSet {["alice"; "bob"; "carol"]}, None)]}) club_world.

Lemma kick_through_cache_witness :
  ∃ w1 m, remove_member_handler (λ _, "j"%string) (λ _, "n"%string) redis_cache_new
            (mkRemoveMemberRequest "carol" "g" ["bob"%string]) cached_club = (Ok tt, w1)
    ∧ ∃ l w2, handle_group_seq toy_decode idle_service Group m w1 = (Ok l, w2)
      ∧ is_Some (t_members (w_pg w2) !! ("g", "bob")%string) ∧ "bob"%string ∉ group_members w2 "g".
Proof.
  destruct (kick_through_cache (λ _, "j"%string) (λ _, "n"%string) redis_cache_new toy_decode idle_service
    (mkRemoveMemberRequest "carol" "g" ["bob"%string]) cached_club {["alice"; "bob"; "carol"]}%string
    (string_bytes "bob") (None, None))
    as (w1 & m & H1 & _ & _ & l & w2 & H2 & H3 & H4).
  - reflexivity.
  - reflexivity.
  - discriminate.
  - vm_compute. reflexivity.
  - set_solver.
  - apply Forall_forall. intros u _. exists (None, None). split; reflexivity.
  - split; reflexivity.
  - reflexivity.
  - reflexivity.
  - exists w1, m. split; [exact H1|]. exists l, w2. split_and!; [exact H2| |].
    + rewrite H3. eexists. reflexivity.
    + intros Hb. apply H4 in Hb as [_ Hb]; [by apply Hb, list_elem_of_here|].
      apply (bool_decide_unpack _). vm_compute. exact I.
Defined.

Lemma invite_hides_members_witness :
  ∃ w1, invite_new_members_handler (λ _, "j"%string) (λ _, "n"%string) redis_cache_new
          (mkGroupInviteNew "bob" "g" ["dave"%string]) club_world = (Ok tt, w1)
    ∧ is_Some (t_members (w_pg w1) !! ("g", "alice")%string) ∧ "alice"%string ∉ group_members w1 "g".
Proof.
  destruct (invite_hides_members (λ _, "j"%string) (λ _, "n"%string) redis_cache_new
    (mkGroupInviteNew "bob" "g" ["dave"%string]) club_world Admin
    (mkGroupRow "alice" "" "" "" "" 0 0 500 true false None None false false Admin None)
    (string_bytes "dave") (None, None) eq_refl eq_refl eq_refl eq_refl eq_refl ltac:(discriminate)
    ltac:(split; reflexivity) eq_refl) as (w1 & H1 & H2 & H3).
  exists w1. split_and!; [exact H1| |].
  - apply H2. eexists. reflexivity.
  - intros Ha. apply H3, list_elem_of_singleton in Ha. discriminate.
Defined.

Lemma notices_reach_nobody_witness :
  ∃ r', handle_group_seq toy_decode idle_service Group
          (stamped (λ _, "n"%string) club_world (default default_msg (new_with_group_poll "carol" "g" 1 [])))
          club_world = (Ok [], upd_redis (λ _, r') club_world).
Proof.
  destruct (notices_reach_nobody (λ _, "n"%string) toy_decode idle_service
    (default default_msg (new_with_group_poll "carol" "g" 1 [])) club_world club_world) as (_ & r' & H & _).
  - exists "carol"%string, "g"%string, 1%Z, []. apply list_elem_of_further, list_elem_of_here.
  - reflexivity.
  - reflexivity.
  - intros u. destruct (t_members (w_pg club_world) !! _) as [x|] eqn:E; [exfalso|reflexivity].
    refine (bool_decide_unpack (map_Forall (λ (k : string * string) (_ : MemberRow), k.1 ≠ ""%string)
      (t_members (w_pg club_world))) _ _ _ E eq_refl). vm_compute. exact I.
  - exists r'. exact H.
Defined.
