(* ===== verification/Services.v ===== *)
(** * The services over one database

    Every handler of the API, the chat service, the consumer and the start-up
    loader as requests to one system, each taken apart into the calls it makes:
    to a repository, to the cache, or to anything that leaves the tables alone.
    The requests run side by side, call by call, and may stop anywhere; the
    database they share is kept in order all the same. *)

From S2P Require Import Prelude Script Errors Types Tables World Oss Sql Records Cache SeqStore RecBox ShardedBox Pusher Producer Gateway GroupStore GroupData GroupContent GroupInv UserStore Auth UserApi FriendStore FriendInv Stores Consumer Handling ApiNotify FriendApi GroupApi.

(** ** Calls that leave the tables alone *)

(** The tables are the same. *)
Definition unchanged (p p' : Pg) : Prop := p' = p.
#[export] Instance unchanged_preorder : PreOrder unchanged.
Proof. split; unfold unchanged; [done|]. intros p1 p2 p3. congruence. Qed.

Section leaves.
Context (R : Pg → Pg → Prop) `{!PreOrder R}.

Lemma frame_remote {A} e (op : IO A) : keeps (pg_frame R) op → keeps (pg_frame R) (remote e op).
Proof. intros H. apply keeps_remote; [apply _|intros w fs; apply (reflexivity (R := R))|done]. Qed.
Lemma frame_redis_run {A} (c : Z → RM A) : keeps (pg_frame R) (redis_run c).
Proof. apply keeps_redis_run; [apply _|intros w fs; apply (reflexivity (R := R))|intros w; apply (reflexivity (R := R))]. Qed.
Lemma frame_redis_conn : keeps (pg_frame R) redis_conn.
Proof. apply frame_remote, keeps_ret. apply _. Qed.
Lemma frame_queues {A} (m : IO A) : keeps only_queues m → keeps (pg_frame R) m.
Proof. intros H. apply frame_same; [apply _|]. intros w. apply (H w). Qed.
Lemma frame_outside {A} (m : IO A) : keeps (same outside_box) m → keeps (pg_frame R) m.
Proof. intros H. apply frame_same; [apply _|]. intros w. specialize (H w). unfold same, outside_box in H. by simplify_eq. Qed.
Lemma frame_stores {A} (m : IO A) : keeps (same stores) m → keeps (pg_frame R) m.
Proof. intros H. apply frame_same; [apply _|]. intros w. specialize (H w). unfold same, stores in H. by simplify_eq. Qed.
Lemma frame_join {A} (o : outcome Error A) : keeps (pg_frame R) (join o).
Proof. destruct o; intros w; apply (reflexivity (R := R)). Qed.
End leaves.

(** Take a body apart down to the calls it makes. *)
Ltac tables_split :=
  repeat first
    [ progress frame_split
    | lazymatch goal with
      | |- keeps _ (attempt _) => apply keeps_attempt
      | |- keeps _ (log_err _) => apply keeps_log_err
      | |- keeps _ (spawn _) => apply keeps_spawn
      | |- keeps _ (unwrap _) => apply keeps_unwrap
      | |- keeps _ (from_option _ _) => apply keeps_from_option; apply _
      | |- keeps _ (query_optional _ _) => unfold query_optional
      | |- keeps _ (gets _) => apply keeps_gets; apply _
      | |- keeps _ panic => apply keeps_panic; apply _
      | |- keeps _ hang => apply keeps_hang; apply _
      | |- keeps _ (join _) => apply frame_join; apply _
      | |- keeps _ (remote _ _) => apply frame_remote; [apply _|]
      | |- keeps _ (redis_run _) => apply frame_redis_run; apply _
      | |- keeps _ redis_conn => apply frame_redis_conn; apply _
      | |- keeps _ (announce _ _ _ _ _) => apply frame_queues; [apply _|apply keeps_announce]
      | |- keeps _ (chat_send _ _ _) => apply frame_queues; [apply _|apply keeps_chat_send]
      | |- keeps _ (encode_to_vec _) => apply frame_queues; [apply _|apply keeps_encode]
      | |- keeps _ (match ?x with _ => _ end) => destruct x
      end ].

Section cache.
Context (R : Pg → Pg → Prop) `{!PreOrder R}.

Lemma frame_cache_op c op : keeps (pg_frame R) (run_op c op).
Proof.
  destruct op; simpl;
    unfold check_seq_loaded, set_seq_loaded, set_seq, set_send_seq, get_seq, get_cur_seq, get_send_seq,
      increase_seq, incr_send_seq, incr_group_seq, query_group_members_id, save_group_members_id,
      add_group_member_id, remove_group_member_id, remove_group_member_batch, del_group_members,
      save_register_code, get_register_code, del_register_code, user_login, user_logout, online_count;
    tables_split.
  apply keeps_collect. apply _.
Qed.
End cache.

(** ** The boxes *)

(** What the API's message handlers ask of a box. *)
Class BoxCallFrames (b : MsgRecBoxRepo) : Prop := {
  box_frame_delete_many u l : keeps (same outside_box) (delete_messages b u l);
  box_frame_get_msgs u ss se rs re : keeps (same outside_box) (get_msgs b u ss se rs re)
}.

Lemma keeps_outside_capacity n : keeps (same outside_box) (with_capacity n).
Proof. apply keeps_if; [apply keeps_ret|apply keeps_panic]; apply _. Qed.

#[export] Instance msg_box_call_frames : BoxCallFrames msg_box.
Proof.
  split; intros; [apply keeps_mongo_run|].
  apply keeps_bind; [apply _|apply keeps_mongo_read|intros ds].
  apply keeps_bind; [apply _|apply keeps_outside_capacity|intros _]. apply keeps_ret, _.
Qed.

Lemma keeps_collect_docs colls q :
  (∀ c, keeps (same outside_box) (q c)) → keeps (same outside_box) (collect colls q).
Proof.
  intros Hq. induction colls as [|c colls IH]; simpl; [apply keeps_ret, _|].
  apply keeps_bind; [apply _|apply keeps_attempt, keeps_get_collection|intros g].
  apply keeps_bind; [apply _|destruct g; [apply keeps_ret, _|apply Hq]|intros ds].
  apply keeps_bind; [apply _|apply IH|intros rest]. apply keeps_ret, _.
Qed.

#[export] Instance sharded_box_call_frames shards month sub n :
  BoxCallFrames (sharded_box shards month sub n).
Proof.
  split; intros; simpl.
  - apply keeps_if; [apply keeps_ret, _|].
    apply keeps_bind; [apply _|apply keeps_user_collections|intros colls].
    apply keeps_for_each; [apply _|]. intros c. apply keeps_if_collection, keeps_mongo_run.
  - apply keeps_bind; [apply _|apply keeps_user_collections|intros colls].
    apply keeps_bind; [apply _|apply keeps_outside_capacity|intros _].
    apply keeps_bind; [apply _|apply keeps_collect_docs; intros c; apply keeps_mongo_read|intros ds].
    apply keeps_ret, _.
Qed.

(** ** The requests *)

(** [struct Seq] of the answer *)
Record Seq : Type := mkSeq { s_seq : Z; s_send_seq : Z }.

(** The API's [get_seq]: the numbers of both directions. *)
Definition get_seq_handler (user_id : string) : IO Seq :=
  seq ← get_cur_seq user_id;
  mret (mkSeq seq.1 seq.2).


Inductive FriendCall : Type :=
| CreateFriendship (fs : FsCreate) | Agree (a : AgreeReply) | DeleteFriend (r : DeleteFriendRequest)
| UpdateRemark (r : UpdateRemarkRequest) | FriendsList (u : string) (t : Z) | ApplyList (u : string) (t : Z)
| QueryFriendInfo (u : string) | CreateFriendGroup (g : FriendGroup) | UpdateFriendGroup (g : FriendGroup)
| DeleteFriendGroup (id : string) | FriendGroups (id : string) | AssignFriend (r : UpdateFriendGroupRequest)
| CreateFriendTag (t : FriendTag) | DeleteFriendTag (id : string) | FriendTags (id : string)
| ManageTags (r : ManageFriendTagRequest) | UpdatePrivacy (p : FriendPrivacySettings)
| GetPrivacy (u f : string) | UpdateScore (r : InteractionScoreRequest) | GetStats (u f : string).

Inductive GroupCall : Type :=
| GetGroup (u g : string) | GetGroupAndMembers (u g : string) | GetGroupMembers (r : GetMemberReq)
| CreateGroup (u : string) (g : GroupCreate) | InviteNew (i : GroupInviteNew)
| UpdateGroup (u : string) (g : GroupUpdate) | RemoveMember (r : RemoveMemberRequest)
| DeleteGroup (r : DeleteGroupRequest) | UpdateSettings (r : UpdateGroupRequest)
| UpdateMemberSettings (r : UpdateMemberSettingsRequest) | CreateCategory (r : CreateGroupCategoryRequest)
| UpdateCategory (c : GroupCategory) | DeleteCategory (id : string) | GetCategories
| UploadFile (r : GroupFileUploadRequest) | DeleteFile (r : DeleteFileRequest) | GetFiles (g : string)
| PinFile (r : UpdateFilePinRequest) | CreatePoll (r : CreatePollRequest) | VotePoll (r : VotePollRequest)
| ClosePoll (r : ClosePollRequest) | GetPolls (g : string) | GetPoll (id : string)
| MuteMember (r : MuteGroupMemberRequest) | UnmuteMember (r : UnmuteRequest) | GetMuted (g : string)
| CreateAnnouncement (r : CreateAnnouncementRequest) | DeleteAnnouncement (r : DeleteAnnouncementRequest)
| GetAnnouncements (g : string) | PinAnnouncement (r : PinAnnouncementRequest)
| ChangeRole (r : ChangeMemberRoleRequest).

Inductive UserCall : Type :=
| CreateUser (r : UserRegister) | UpdateUser (u : UserUpdate) | ModifyPwd (r : ModifyPwdRequest)
| GetUser (id : string) | RefreshToken (token : string) (is_refresh : bool) | SearchUser (u pattern : string)
| Login (r : LoginRequest) (addr : IpAddr) | Logout (uuid : string) | SendEmail (email : string)
| GithubCallback (code : string) (addr : IpAddr).

(** What reaches the processes: a call of the API, a message for the chat
    service, a record of the topic, the start of the loader. *)
Inductive Request : Type :=
| FriendReq (c : FriendCall) | GroupReq (c : GroupCall) | UserReq (c : UserCall)
| PullOffline (r : GetDbMessagesRequest) | DelMsg (u : string) (ids : list Z)
| GetSeq (u : string) | SendMsg (m : SendMsgRequest) | TopicRecord (payload : string) | LoadSeq.

(** What the user handlers call outside the repository. *)
Record UserLibs : Type := mkUserLibs {
  lb_get_service : IO (option string);
  lb_send_mail : string → string → IO unit;
  lb_exchange_code : string → IO string;
  lb_fetch_emails : string → IO (list GitHubEmail);
  lb_fetch_user : string → IO GitHubUser;
  lb_http_get : string → IO bytes
}.

(** None of them is connected to the database. *)
Class UserLibsLaws (l : UserLibs) : Prop := {
  lb_service_frame : keeps (same w_pg) (lb_get_service l);
  lb_mail_frame a b : keeps (same w_pg) (lb_send_mail l a b);
  lb_exchange_frame a : keeps (same w_pg) (lb_exchange_code l a);
  lb_emails_frame a : keeps (same w_pg) (lb_fetch_emails l a);
  lb_user_frame a : keeps (same w_pg) (lb_fetch_user l a);
  lb_get_frame a : keeps (same w_pg) (lb_http_get l a)
}.

Section system.
Context (to_json : Msg → string) (from_json : string → option Msg).
Context (decode_read : bytes → option MsgRead) (decode_strings : bytes → option (list string)).
Context (nanoid : nat → string) (argon : Argon2) (serial : string * string → Z) {pg_server : PgServer}.
Context (options_of_json : string → option (list PollOption)) (json_of_options : list PollOption → string).
Context (jwt : Jwt) (jwt_secret : string) (b64_decode : string → option string) (init_max_seq : Z).
Context (ws_protocol : string) (search_by_ip : string → option string) (random_code : nat → string).
Context (guess_extension : bytes → option string) (oss : S3Client) (libs : UserLibs).
Context (cache : RedisCache) (cs : ConsumerService).
Context `{!Bincode FriendshipWithUser} `{!Bincode Friend} `{!Bincode GroupInvitation} `{!Bincode GroupInfo}
        `{!Bincode (list string)} `{!Bincode GroupFileInfo} `{!Bincode Records.GroupPoll}
        `{!Bincode GroupMuteRecord} `{!Bincode GroupAnnouncementInfo}.

Definition serve_friend (c : FriendCall) : IO unit :=
  match c with
  | CreateFriendship fs => void (create_friendship to_json nanoid cache fs)
  | Agree a => void (agree to_json nanoid cache a)
  | DeleteFriend r => delete_friend_handler to_json nanoid r
  | UpdateRemark r => update_friend_remark_handler serial r
  | FriendsList u t => void (get_friends_list_by_user_id u t)
  | ApplyList u t => void (get_apply_list_by_user_id u t)
  | QueryFriendInfo u => void (query_friend_info u)
  | CreateFriendGroup g => void (create_friend_group_handler nanoid g)
  | UpdateFriendGroup g => void (update_friend_group_handler g)
  | DeleteFriendGroup id => delete_friend_group_handler id
  | FriendGroups id => void (get_friend_groups_handler id)
  | AssignFriend r => assign_friend_to_group_handler r
  | CreateFriendTag t => void (create_friend_tag_handler nanoid t)
  | DeleteFriendTag id => delete_friend_tag_handler id
  | FriendTags id => void (get_friend_tags_handler id)
  | ManageTags r => manage_friend_tags r
  | UpdatePrivacy p => update_friend_privacy_handler p
  | GetPrivacy u f => void (get_friend_privacy_handler u f)
  | UpdateScore r => void (update_interaction_score_handler r)
  | GetStats u f => void (get_interaction_stats_handler u f)
  end.

Definition serve_group (c : GroupCall) : IO unit :=
  match c with
  | GetGroup u g => void (get_group_handler u g)
  | GetGroupAndMembers u g => void (get_group_and_members_handler u g)
  | GetGroupMembers r => void (get_group_members_handler r)
  | CreateGroup u g => void (create_group_handler to_json nanoid cache u g)
  | InviteNew i => invite_new_members_handler to_json nanoid cache i
  | UpdateGroup u g => void (update_group_handler to_json nanoid cache u g)
  | RemoveMember r => remove_member_handler to_json nanoid cache r
  | DeleteGroup r => delete_group_handler to_json nanoid cache r
  | UpdateSettings r => void (update_group_settings_handler to_json nanoid cache r)
  | UpdateMemberSettings r => void (update_member_settings_handler r)
  | CreateCategory r => void (create_group_category_handler nanoid r)
  | UpdateCategory c => void (update_group_category_handler c)
  | DeleteCategory id => delete_group_category_handler id
  | GetCategories => void get_group_categories_handler
  | UploadFile r => void (upload_group_file_handler to_json nanoid cache r)
  | DeleteFile r => delete_group_file_handler r
  | GetFiles g => void (get_group_files_handler g)
  | PinFile r => void (update_file_pin_status_handler r)
  | CreatePoll r => void (create_poll_handler to_json nanoid cache options_of_json r)
  | VotePoll r => void (vote_poll_handler options_of_json json_of_options r)
  | ClosePoll r => void (close_poll_handler options_of_json r)
  | GetPolls g => void (get_group_polls_handler options_of_json g)
  | GetPoll id => void (get_poll_details_handler options_of_json id)
  | MuteMember r => void (mute_group_member_handler to_json nanoid cache r)
  | UnmuteMember r => unmute_group_member_handler r
  | GetMuted g => void (get_group_muted_members_handler g)
  | CreateAnnouncement r => void (create_announcement_handler to_json nanoid cache r)
  | DeleteAnnouncement r => delete_announcement_handler r
  | GetAnnouncements g => void (get_group_announcements_handler g)
  | PinAnnouncement r => void (pin_announcement_handler r)
  | ChangeRole r => void (change_member_role_handler r)
  end.

Definition serve_user (c : UserCall) : IO unit :=
  match c with
  | CreateUser r => void (UserApi.create_user argon nanoid init_max_seq r)
  | UpdateUser u => void (UserApi.update_user u)
  | ModifyPwd r => UserApi.modify_pwd argon b64_decode r
  | GetUser id => void (UserApi.get_user_by_id id)
  | RefreshToken token b => void (refresh_token jwt jwt_secret token b)
  | SearchUser u pattern => void (UserApi.search_user u pattern)
  | Login r addr => void (login argon jwt jwt_secret b64_decode (lb_get_service libs) ws_protocol search_by_ip r addr)
  | Logout uuid => logout uuid
  | SendEmail email => send_email (lb_send_mail libs) random_code email
  | GithubCallback code addr =>
      void (github_callback jwt jwt_secret nanoid init_max_seq (lb_get_service libs) ws_protocol search_by_ip
              (lb_exchange_code libs) (lb_fetch_emails libs) (lb_fetch_user libs) (lb_http_get libs)
              guess_extension oss code addr)
  end.

Definition serve (r : Request) : IO unit :=
  match r with
  | FriendReq c => serve_friend c
  | GroupReq c => serve_group c
  | UserReq c => serve_user c
  | PullOffline r => void (pull_offline_messages (cs_box cs) r)
  | DelMsg u ids => del_msg (cs_box cs) u ids
  | GetSeq u => void (get_seq_handler u)
  | SendMsg m => void (send_msg to_json nanoid m)
  | TopicRecord payload => handle_msg from_json decode_read decode_strings cs payload
  | LoadSeq => load_seq
  end.

(** ** The calls a request makes *)

(** What an operation does is what it does when its value is dropped. *)
Lemma void_self (m : IO unit) w : void m w = m w.
Proof. unfold void, mbind, M_bind. by destruct (m w) as [[[]|e| |] w']. Qed.

(** One method of a repository, one of the cache, or a call that leaves the
    tables alone: a query, the clock, an id, a message queued or pushed, a box,
    a library. *)
Inductive call (A : Type) (m : IO A) : Prop :=
| CallFriend op : (∀ w, void m w = run_friend_op nanoid serial op w) → call A m
| CallGroup op : (∀ w, void m w = run_group_op nanoid options_of_json json_of_options op w) → call A m
| CallUser op : (∀ w, void m w = run_user_op argon op w) → call A m
| CallReserve u : (∀ w, void m w = void (save_max_seq (cs_seq_step cs) u) w) → call A m
| CallReserveAll us : (∀ w, void m w = save_max_seq_batch (cs_seq_step cs) us w) → call A m
| CallHistory msg : (∀ w, void m w = cs_save_history cs msg w) → call A m
| CallCache c op : (∀ w, void m w = run_op c op w) → call A m
| CallBeside : keeps (pg_frame unchanged) m → call A m.

Abbreviation stepwise := (stepwise call).

Lemma keeps_as {A B} (R : World → World → Prop) (m : IO A) (m' : IO B) :
  (∀ w, void m w = void m' w) → keeps R m' → keeps R m.
Proof.
  intros E H w. specialize (H w). specialize (E w). unfold void, mbind, M_bind, mret, M_ret in E.
  destruct (m w) as [[] w1], (m' w) as [[] w2]; simpl in *; congruence.
Qed.

Lemma call_keeps_db A (m : IO A) (Hhistory : ∀ m, keeps db_frame (cs_save_history cs m)) :
  call A m → keeps db_frame m.
Proof.
  assert (Hv : ∀ (m' : IO unit), keeps db_frame m' → (∀ w, void m w = m' w) → keeps db_frame m).
  { intros m' H E. apply (keeps_as _ m m'); [|done]. intros w. by rewrite void_self. }
  intros [op E|op E|op E|u E|us E|msg E|c op E|H].
  - by eapply Hv, E; apply friend_op_db.
  - by eapply Hv, E; apply group_op_db.
  - by eapply Hv, E; apply user_op_db.
  - by eapply (keeps_as _ m), save_max_seq_db.
  - by eapply Hv, E; apply save_max_seq_batch_db.
  - by eapply Hv, E; apply Hhistory.
  - by eapply Hv, E; apply frame_cache_op, _.
  - intros w. specialize (H w). unfold pg_frame, unchanged in *. rewrite H. reflexivity.
Qed.

(** Close a call that is an operation, with its value dropped or as it is. *)
Tactic Notation "op_call" uconstr(C) := refine (C _); intros w; first [reflexivity | apply void_self].
Tactic Notation "as_op" uconstr(C) := apply stepwise_call; op_call C.
(** Close a call that leaves the tables alone. *)
Ltac beside := apply stepwise_call; apply CallBeside.

(** The methods of the repositories. *)
Ltac store_call :=
  lazymatch goal with
  | |- stepwise (create_fs _ ?a) => as_op (CallFriend _ _ (OpRequest a))
  | |- stepwise (agree_friend_apply_request ?a) => as_op (CallFriend _ _ (OpAgree a))
  | |- stepwise (delete_friend ?a ?b) => as_op (CallFriend _ _ (OpDelete a b))
  | |- stepwise (update_friend_remark _ ?a ?b ?c) => as_op (CallFriend _ _ (OpRemark a b c))
  | |- stepwise (create_friend_group _ ?a ?b ?c) => as_op (CallFriend _ _ (OpCreateFriendGroup a b c))
  | |- stepwise (update_friend_group ?a ?b ?c) => as_op (CallFriend _ _ (OpUpdateFriendGroup a b c))
  | |- stepwise (delete_friend_group ?a) => as_op (CallFriend _ _ (OpDeleteFriendGroup a))
  | |- stepwise (assign_friend_to_group ?a ?b ?c) => as_op (CallFriend _ _ (OpAssign a b c))
  | |- stepwise (create_friend_tag _ ?a ?b ?c) => as_op (CallFriend _ _ (OpCreateTag a b c))
  | |- stepwise (delete_friend_tag ?a) => as_op (CallFriend _ _ (OpDeleteTag a))
  | |- stepwise (add_tags_to_friend ?a ?b ?c) => as_op (CallFriend _ _ (OpAddTags a b c))
  | |- stepwise (remove_tags_from_friend ?a ?b ?c) => as_op (CallFriend _ _ (OpRemoveTags a b c))
  | |- stepwise (update_friend_privacy ?a ?b ?c) => as_op (CallFriend _ _ (OpPrivacy a b c))
  | |- stepwise (update_interaction_score ?a ?b ?c) => as_op (CallFriend _ _ (OpScore a b c))
  | |- stepwise (create_group_with_members ?a) => as_op (CallGroup _ _ (OpCreateGroup a))
  | |- stepwise (invite_new_members ?a ?b ?c) => as_op (CallGroup _ _ (OpInvite a b c))
  | |- stepwise (remove_member ?a ?b ?c) => as_op (CallGroup _ _ (OpRemove a b c))
  | |- stepwise (update_group ?a) => as_op (CallGroup _ _ (OpUpdateGroup a))
  | |- stepwise (exit_group ?a ?b) => as_op (CallGroup _ _ (OpExit a b))
  | |- stepwise (delete_group ?a ?b) => as_op (CallGroup _ _ (OpDeleteGroup a b))
  | |- stepwise (update_group_settings ?a) => as_op (CallGroup _ _ (OpSettings a))
  | |- stepwise (update_member_settings ?a ?b ?c ?d) => as_op (CallGroup _ _ (OpMemberSettings a b c d))
  | |- stepwise (create_group_category _ ?a) => as_op (CallGroup _ _ (OpCreateCategory a))
  | |- stepwise (update_group_category ?a) => as_op (CallGroup _ _ (OpUpdateCategory a))
  | |- stepwise (delete_group_category ?a) => as_op (CallGroup _ _ (OpDeleteCategory a))
  | |- stepwise (upload_group_file _ ?a) => as_op (CallGroup _ _ (OpUpload a))
  | |- stepwise (delete_group_file ?a ?b) => as_op (CallGroup _ _ (OpDeleteFile a b))
  | |- stepwise (update_file_pin_status ?a ?b) => as_op (CallGroup _ _ (OpPinFile a b))
  | |- stepwise (create_poll _ _ ?a) => as_op (CallGroup _ _ (OpCreatePoll a))
  | |- stepwise (vote_poll _ _ ?a) => as_op (CallGroup _ _ (OpVote a))
  | |- stepwise (close_poll _ ?a ?b) => as_op (CallGroup _ _ (OpClosePoll a b))
  | |- stepwise (mute_group_member _ ?a ?b ?c ?d ?e) => as_op (CallGroup _ _ (OpMute a b c d e))
  | |- stepwise (unmute_group_member ?a ?b ?c) => as_op (CallGroup _ _ (OpUnmute a b c))
  | |- stepwise (create_announcement _ ?a) => as_op (CallGroup _ _ (OpAnnounce a))
  | |- stepwise (delete_announcement ?a ?b) => as_op (CallGroup _ _ (OpDeleteAnnouncement a b))
  | |- stepwise (pin_announcement ?a ?b) => as_op (CallGroup _ _ (OpPinAnnouncement a b))
  | |- stepwise (change_member_role ?a ?b ?c ?d) => as_op (CallGroup _ _ (OpChangeRole a b c d))
  | |- stepwise (UserStore.create_user ?a ?b) => as_op (CallUser _ _ (OpCreateUser a b))
  | |- stepwise (UserStore.update_user ?a) => as_op (CallUser _ _ (OpUpdateUser a))
  | |- stepwise (update_region ?a ?b) => as_op (CallUser _ _ (OpRegion a b))
  | |- stepwise (UserStore.modify_pwd _ ?a ?b) => as_op (CallUser _ _ (OpModifyPwd a b))
  | |- stepwise (save_max_seq _ ?a) => as_op (CallReserve _ _ a)
  | |- stepwise (save_max_seq_batch _ ?a) => as_op (CallReserveAll _ _ a)
  | |- stepwise (cs_save_history _ ?a) => as_op (CallHistory _ _ a)
  end.

(** The methods of the cache. *)
Ltac cache_call :=
  lazymatch goal with
  | |- stepwise check_seq_loaded => as_op (CallCache _ _ cache OpCheckSeqLoaded)
  | |- stepwise set_seq_loaded => as_op (CallCache _ _ cache OpSetSeqLoaded)
  | |- stepwise (set_seq ?a) => as_op (CallCache _ _ cache (OpSetSeq a))
  | |- stepwise (get_cur_seq ?a) => as_op (CallCache _ _ cache (OpGetCurSeq a))
  | |- stepwise (get_send_seq ?a) => as_op (CallCache _ _ cache (OpGetSendSeq a))
  | |- stepwise (increase_seq ?c ?a) => as_op (CallCache _ _ c (OpIncreaseSeq a))
  | |- stepwise (incr_send_seq ?c ?a) => as_op (CallCache _ _ c (OpIncrSendSeq a))
  | |- stepwise (incr_group_seq ?c ?a) => as_op (CallCache _ _ c (OpIncrGroupSeq a))
  | |- stepwise (query_group_members_id ?a) => as_op (CallCache _ _ cache (OpQueryMembers a))
  | |- stepwise (save_group_members_id ?a ?b) => as_op (CallCache _ _ cache (OpSaveMembers a b))
  | |- stepwise (del_group_members ?a) => as_op (CallCache _ _ cache (OpDelMembers a))
  | |- stepwise (remove_group_member_id ?a ?b) => as_op (CallCache _ _ cache (OpRemoveMember a b))
  | |- stepwise (remove_group_member_batch ?a ?b) => as_op (CallCache _ _ cache (OpRemoveBatch a b))
  | |- stepwise (get_register_code ?a) => as_op (CallCache _ _ cache (OpGetCode a))
  | |- stepwise (save_register_code ?a ?b) => as_op (CallCache _ _ cache (OpSaveCode a b))
  | |- stepwise (del_register_code ?a) => as_op (CallCache _ _ cache (OpDelCode a))
  | |- stepwise (user_login ?a) => as_op (CallCache _ _ cache (OpLogin a))
  | |- stepwise (user_logout ?a) => as_op (CallCache _ _ cache (OpLogout a))
  end.

(** Take a body apart, down to the methods it calls. *)
Ltac steps_split :=
  repeat lazymatch goal with
  | |- stepwise (void _) => unfold void
  | |- stepwise (mbind _ _) => apply stepwise_bind; [|intros ?]
  | |- stepwise (if ?b then _ else _) => destruct b
  | |- stepwise (throw _) => apply stepwise_throw
  | |- stepwise (mret _) => apply stepwise_ret
  | |- stepwise panic => apply stepwise_panic
  | |- stepwise hang => apply stepwise_hang
  | |- stepwise (from_option _ _) => apply stepwise_from_option
  | |- stepwise (attempt _) => apply stepwise_attempt
  | |- stepwise (log_err _) => apply stepwise_log_err
  | |- stepwise (spawn _) => apply stepwise_spawn
  | |- stepwise (unwrap _) => apply stepwise_unwrap
  | |- stepwise (join ?o) => destruct o; [apply stepwise_ret|apply stepwise_throw|apply stepwise_throw|apply stepwise_hang]
  | |- stepwise (encode_to_vec _) => apply stepwise_from_option
  | |- stepwise (ApiNotify.announce _ _ _ _ _) => unfold ApiNotify.announce
  | |- stepwise (chat_send _ _ _) => beside; apply frame_queues; [apply _|apply keeps_chat_send]
  | |- stepwise now_ms => beside; apply frame_now; apply _
  | |- stepwise (gets _) => beside; apply keeps_gets; apply _
  | |- stepwise (draw_nanoid _) => beside; apply frame_nanoid; apply _
  | |- stepwise (pg_query _) => beside; apply frame_query; apply _
  | |- stepwise (query_one _ _) => beside; apply frame_query_one; apply _
  | |- stepwise (query_all _ _) => beside; apply frame_query_all; apply _
  | |- stepwise (query_optional _ _) => beside; unfold query_optional; frame_split
  | |- stepwise (λ w, (?o, w)) => by apply (stepwise_pure _ o)
  | |- stepwise (let '(_, _) := ?x in _) => destruct x
  | |- stepwise (match ?x with _ => _ end) => destruct x
  end; try store_call; try cache_call;
  try (apply stepwise_call, CallBeside, frame_dead; [apply _|dead_op]).

Lemma serve_friend_steps c : stepwise (serve_friend c).
Proof.
  destruct c; simpl;
    unfold create_friendship, notify_request, agree, notify_accepted, delete_friend_handler, validated, update_friend_remark_handler,
      get_friends_list_by_user_id, get_apply_list_by_user_id, query_friend_info, get_friend_list, get_fs_list,
      create_friend_group_handler, update_friend_group_handler, delete_friend_group_handler,
      get_friend_groups_handler, assign_friend_to_group_handler, create_friend_tag_handler,
      delete_friend_tag_handler, get_friend_tags_handler, manage_friend_tags, update_friend_privacy_handler,
      get_friend_privacy_handler, update_interaction_score_handler, get_interaction_stats_handler,
      UserStore.get_user_by_id;
    steps_split.
  apply stepwise_call, CallBeside. unfold get_friend_privacy. frame_split. by intros p a p' [= _ <-].
Qed.

Lemma serve_group_steps c : stepwise (serve_group c).
Proof.
  destruct c; simpl;
    unfold get_group_handler, get_group_and_members_handler, get_group_members_handler, create_group_handler,
      invite_new_members_handler, update_group_handler, remove_member_handler, delete_group_handler,
      update_group_settings_handler, update_member_settings_handler, create_group_category_handler,
      update_group_category_handler, delete_group_category_handler, get_group_categories_handler,
      upload_group_file_handler, delete_group_file_handler, get_group_files_handler,
      update_file_pin_status_handler, create_poll_handler, vote_poll_handler, close_poll_handler,
      get_group_polls_handler, get_poll_details_handler, mute_group_member_handler,
      unmute_group_member_handler, get_group_muted_members_handler, create_announcement_handler,
      delete_announcement_handler, get_group_announcements_handler, pin_announcement_handler,
      change_member_role_handler, get_group, get_group_and_members, get_members, get_group_categories,
      get_group_files, get_group_polls, get_poll_details, get_group_muted_members, get_group_announcements,
      query_group_members_by_group_id, get_group_by_id;
    steps_split.
Qed.

Lemma frame_libs {A} (m : IO A) : keeps (same w_pg) m → keeps (pg_frame unchanged) m.
Proof. intros H w. apply H. Qed.

Lemma frame_upload key content : keeps (pg_frame unchanged) (upload_avatar oss key content).
Proof.
  unfold upload_avatar, upload, put_object. apply frame_remote; [apply _|].
  apply frame_libs. intros w. by destruct (w_objects w !! _).
Qed.

Ltac user_call :=
  lazymatch goal with
  | |- stepwise (hash_password _ _ _) => unfold hash_password; steps_split
  | |- stepwise (Oss.upload_avatar _ _ _) => beside; apply frame_upload
  | |- stepwise _ => beside; apply frame_libs; first
      [ apply lb_service_frame | apply lb_mail_frame | apply lb_exchange_frame | apply lb_emails_frame
      | apply lb_user_frame | apply lb_get_frame | intros w; reflexivity ]
  end.

Context `{!UserLibsLaws libs}.

Lemma gen_token_steps user addr :
  stepwise (gen_token jwt jwt_secret (lb_get_service libs) ws_protocol search_by_ip user addr).
Proof. unfold gen_token, now_s. steps_split; user_call. Qed.

Lemma serve_user_steps c : stepwise (serve_user c).
Proof.
  destruct c; simpl;
    unfold UserApi.create_user, UserApi.update_user, UserApi.modify_pwd, UserApi.get_user_by_id, refresh_token, now_s,
      UserApi.search_user, UserStore.search_user, login, verify_pwd, logout, send_email, github_callback,
      register_user, UserApi.download_avatar, UserStore.get_user_by_id, get_user_by_email, UserApi.lift;
    steps_split; try apply gen_token_steps; try user_call.
Qed.

Context `{!PusherLaws (cs_pusher cs)} (box : MsgRecBoxLaws (cs_box cs)) `{!BoxCallFrames (cs_box cs)}.

Ltac box_call := beside; apply frame_outside; [apply _|]; first [apply box_frame_delete_many|apply box_frame_get_msgs].

Lemma consumer_handling : HandlingCalls call cs.
Proof.
  split; intros;
    lazymatch goal with
    | |- call _ (increase_seq ?c ?u) => op_call (CallCache _ _ c (OpIncreaseSeq u))
    | |- call _ (incr_group_seq ?c ?ms) => op_call (CallCache _ _ c (OpIncrGroupSeq ms))
    | |- call _ (save_max_seq _ ?u) => op_call (CallReserve _ _ u)
    | |- call _ (save_max_seq_batch _ ?us) => op_call (CallReserveAll _ _ us)
    | |- call _ (cs_save_history _ ?m) => op_call (CallHistory _ _ m)
    | |- call _ (get_send_seq ?u) => op_call (CallCache _ _ cache (OpGetSendSeq u))
    | |- call _ (query_group_members_id ?g) => op_call (CallCache _ _ cache (OpQueryMembers g))
    | |- call _ (save_group_members_id ?g ?l) => op_call (CallCache _ _ cache (OpSaveMembers g l))
    | |- call _ (del_group_members ?g) => op_call (CallCache _ _ cache (OpDelMembers g))
    | |- call _ (remove_group_member_id ?g ?u) => op_call (CallCache _ _ cache (OpRemoveMember g u))
    | |- call _ (remove_group_member_batch ?g ?l) => op_call (CallCache _ _ cache (OpRemoveBatch g l))
    | |- _ => apply CallBeside
    end;
    first [apply frame_query; apply _
      |apply frame_stores; [apply _|first [apply push_single_frame|apply push_group_frame]]
      |apply frame_outside; [apply _|]; first
        [apply (@box_frame_save _ box)|apply (@box_frame_group _ box)|apply (@box_frame_delete _ box)
        |apply (@box_frame_read _ box)]].
Qed.

Lemma handle_msg_calls payload :
  stepwise (handle_msg from_json decode_read decode_strings cs payload).
Proof. apply handle_msg_steps, consumer_handling. Defined.

Lemma load_loop_steps rows : ∀ l, stepwise (load_loop rows l).
Proof. induction rows as [|row rows IH]; intros l; simpl; steps_split; apply IH. Qed.

Lemma load_seq_steps : stepwise load_seq.
Proof.
  unfold load_seq, get_max_seq. steps_split; first
    [apply load_loop_steps|beside; apply frame_pg; [apply _|]; by intros p rows p' [= _ <-]].
Qed.

Lemma send_msg_steps m : stepwise (send_msg to_json nanoid m).
Proof.
  unfold send_msg, fresh_server_id. steps_split; beside; try (apply frame_remote; [apply _|]);
    apply frame_libs; intros w; reflexivity.
Qed.

Lemma serve_steps r : stepwise (serve r).
Proof.
  destruct r; simpl; try (apply stepwise_bind; [|intros; apply stepwise_ret]).
  - apply serve_friend_steps.
  - apply serve_group_steps.
  - apply serve_user_steps.
  - unfold pull_offline_messages. box_call.
  - unfold del_msg. box_call.
  - unfold get_seq_handler. steps_split.
  - apply send_msg_steps.
  - apply handle_msg_calls.
  - apply load_seq_steps.
Qed.

(** The script of a request, and what running it alone does. *)
Definition script_of (r : Request) : script (S := World) (E := Error) unit := sw_script (serve_steps r).

Lemma script_of_runs r w : run (script_of r) w = serve r w.
Proof. apply sw_run. Qed.
Lemma script_of_calls r : calls call (script_of r).
Proof. apply sw_calls. Qed.
End system.

(** ** The system over one database *)

(** Outside the requests anything may happen but to the database: time passes,
    faults come, connections open and close, the brokers and caches change. *)
Definition elsewhere (w w' : World) : Prop := w_pg w' = w_pg w.

(** C18. The processes together keep their database, call by call. Every request
    is a script of calls to the repositories, to the cache and beside the
    tables, and running the script alone is serving the request. From a
    database whose foreign keys, mutual friendships and accounts' counters are
    in order, and whatever starts in whatever order (calls of the API, messages
    sent, records of the topic, the loader), however the calls of the scripts
    in progress interleave, whatever faults hit them and wherever a script is
    dropped half way, the database is in order after every call; and a request
    that is left alone runs to the end from any such state. *)
Theorem services_keep_database
    (to_json : Msg → string) (from_json : string → option Msg) (decode_read : bytes → option MsgRead)
    (decode_strings : bytes → option (list string)) (nanoid : nat → string) (argon : Argon2) (server : PgServer)
    (serial : string * string → Z) (options_of_json : string → option (list PollOption))
    (json_of_options : list PollOption → string) (jwt : Jwt) (jwt_secret : string)
    (b64_decode : string → option string) (ws_protocol : string) (search_by_ip : string → option string)
    (random_code : nat → string) (guess_extension : bytes → option string) (oss : S3Client)
    (libs : UserLibs) `{!UserLibsLaws libs} (step : Z) (box : MsgRecBoxRepo) (box_laws : MsgRecBoxLaws box)
    `{!BoxCallFrames box} (pusher : Pusher) `{!PusherLaws pusher}
    `{!Bincode FriendshipWithUser} `{!Bincode Friend} `{!Bincode GroupInvitation} `{!Bincode GroupInfo}
    `{!Bincode (list string)} `{!Bincode GroupFileInfo} `{!Bincode Records.GroupPoll}
    `{!Bincode GroupMuteRecord} `{!Bincode GroupAnnouncementInfo} (w : World)
    (Hdb : db_ok (w_pg w)) :
  let serve := serve to_json from_json decode_read decode_strings nanoid argon serial
      options_of_json json_of_options jwt jwt_secret b64_decode step ws_protocol search_by_ip random_code
      guess_extension oss libs (redis_cache_from_config step) (consumer_new step box pusher) in
  ∃ script_of : Request → script unit,
    (∀ r w, run (script_of r) w = serve r w)
    ∧ (∀ r, calls (call nanoid argon serial options_of_json json_of_options (consumer_new step box pusher))
              (script_of r))
    ∧ (∀ w' ps, rtc (sched_step script_of elsewhere) (w, []) (w', ps) → db_ok (w_pg w'))
    ∧ (∀ r w ps, rtc (sched_step script_of elsewhere) (w, ps) ((serve r w).2, ps ++ [Done (serve r w).1])).
Proof.
  intros serve0.
  pose (scripts := script_of to_json from_json decode_read decode_strings nanoid argon serial
      options_of_json json_of_options jwt jwt_secret b64_decode step ws_protocol search_by_ip random_code
      guess_extension oss libs (redis_cache_from_config step) (consumer_new step box pusher) box_laws).
  exists scripts.
  assert (Hruns : ∀ r w, run (scripts r) w = serve0 r w) by (intros; apply script_of_runs).
  split_and!; [exact Hruns|intros; apply script_of_calls| |].
  - intros w' ps Hrun.
    refine (proj1 (sched_keeps scripts elsewhere _ (λ v, db_ok (w_pg v)) _ _ _ _ _ Hrun _)).
    + intros r. apply script_of_calls.
    + intros X op Hop. exact (call_keeps_db _ _ _ _ _ (consumer_new step box pusher) X op (λ m, save_message_db m) Hop).
    + intros v v' He Hv. unfold elsewhere in He. by rewrite He.
    + by split.
  - intros r v ps. eapply rtc_l; [apply (StepStart scripts elsewhere r)|].
    rewrite <- (Hruns r v). apply run_alone.
Qed.

(** ** A system that runs *)

#[local] Existing Instance no_server.

Definition idle_libs : UserLibs :=
  mkUserLibs (mret None) (λ _ _, mret tt) (λ _, throw not_found) (λ _, mret []) (λ _, throw not_found)
    (λ _, mret []).
#[export] Instance idle_libs_laws : UserLibsLaws idle_libs.
Proof. split; intros; first [apply keeps_ret; apply _|apply keeps_throw; apply _]. Qed.

(** One registration code is out; the last call of the history is lost. *)
Definition first_day : World :=
  upd_redis (λ _, {[REGISTER_CODE_KEY := (RHash {["bob@x"%string := HText "123456"]}, None)]}) world_empty.

Definition nothing_encoded {A} : Bincode A := λ _, Some [].

Definition toy_serve : Request → IO unit :=
  serve (λ _, "j"%string) (λ _, Some default_msg) (λ _, None) (λ _, None) (λ _, "n"%string)
    toy_argon (λ _, 0%Z) (λ _, None) (λ _, ""%string) claims_jwt "k" (λ s, Some s) 5 "ws" (λ _, None)
    (λ _, "123456"%string) (λ _, None) (mkS3Client "b" "a") idle_libs (redis_cache_from_config 5)
    (consumer_new 5 msg_box (push_service Some (λ _, true) id_arrival))
    (Bincode0 := nothing_encoded) (Bincode1 := nothing_encoded) (Bincode2 := nothing_encoded)
    (Bincode3 := nothing_encoded) (Bincode4 := nothing_encoded) (Bincode5 := nothing_encoded)
    (Bincode6 := nothing_encoded) (Bincode7 := nothing_encoded) (Bincode8 := nothing_encoded).

(** Bob registers; later a record is consumed while calls fail. *)
Definition registered_day : World := (toy_serve (UserReq (CreateUser bob_registers)) first_day).2.
Definition bad_day : World := upd_faults (λ _, [Pass; FailBefore]) registered_day.
Definition next_day : World := (toy_serve (TopicRecord "j") bad_day).2.

Lemma bob_is_there : is_Some (t_users (w_pg next_day) !! "n"%string).
Proof. apply (bool_decide_unpack _). vm_compute. exact I. Qed.

Lemma services_keep_database_witness :
  is_Some (t_users (w_pg next_day) !! "n"%string) ∧ db_ok (w_pg next_day).
Proof.
  split; [exact bob_is_there|].
  destruct (services_keep_database (λ _, "j"%string) (λ _, Some default_msg) (λ _, None) (λ _, None) (λ _, "n"%string)
    toy_argon no_server (λ _, 0%Z) (λ _, None) (λ _, ""%string) claims_jwt "k" (λ s, Some s) "ws" (λ _, None)
    (λ _, "123456"%string) (λ _, None) (mkS3Client "b" "a") idle_libs 5 msg_box msg_box_laws
    (push_service Some (λ _, true) id_arrival)
    (Bincode0 := nothing_encoded) (Bincode1 := nothing_encoded) (Bincode2 := nothing_encoded)
    (Bincode3 := nothing_encoded) (Bincode4 := nothing_encoded) (Bincode5 := nothing_encoded)
    (Bincode6 := nothing_encoded) (Bincode7 := nothing_encoded) (Bincode8 := nothing_encoded)
    first_day empty_db_ok) as (scripts & _ & _ & Hok & Halone).
  eapply Hok. etrans; [apply (Halone (UserReq (CreateUser bob_registers)) first_day [])|].
  eapply rtc_l; [apply (StepEnv _ _ registered_day bad_day); reflexivity|].
  apply (Halone (TopicRecord "j") bad_day).
Defined.
