(* ===== verification/Routes.v ===== *)
(** * The routes of the API ([api/src/routes.rs])

    Every route with its method, its path and its handler, and what the
    handler's signature extracts from a request: parameters of the path or the
    body, with or without a token. [dispatch] is the router's rule: of the paths
    that match, the one with a fixed segment where another has a parameter, then
    the method. Paths arrive split into their segments. *)

From S2P Require Import Prelude.

Inductive Method : Type := GET | POST | PUT | DELETE.
Global Instance Method_eq_dec : EqDecision Method.
Proof. solve_decision. Defined.

(** [PathWithAuthExtractor] and [PathExtractor] with their number of
    parameters, [JsonWithAuthExtractor] and [JsonExtractor], [Multipart], [Query]. *)
Inductive Input : Type :=
| PathInput (token : bool) (params : nat) | BodyInput (token : bool) | MultipartInput | QueryInput.

Global Instance Input_eq_dec : EqDecision Input.
Proof. solve_decision. Defined.

Record Route : Type := mkRoute {
  rt_method : Method; rt_path : string; rt_handler : string; rt_inputs : list Input
}.

Global Instance Route_eq_dec : EqDecision Route.
Proof. solve_decision. Defined.

(** 50 MiB *)
Definition MAX_FILE_UPLOAD_SIZE : Z := 1024 * 1024 * 50.

Definition friend_routes : list Route :=
  [ mkRoute POST "/" "create_friendship" [BodyInput true];
    mkRoute GET "/:id/:offline_time" "get_friends_list_by_user_id" [PathInput true 2];
    mkRoute GET "/:id/apply" "get_apply_list_by_user_id" [PathInput true 2];
    mkRoute PUT "/agree" "agree" [BodyInput true];
    mkRoute DELETE "/" "delete_friend" [BodyInput true];
    mkRoute PUT "/remark" "update_friend_remark" [BodyInput true];
    mkRoute GET "/query/:user_id" "query_friend_info" [PathInput true 1];
    mkRoute POST "/groups" "create_friend_group" [BodyInput true];
    mkRoute PUT "/groups" "update_friend_group" [BodyInput true];
    mkRoute DELETE "/groups/:id" "delete_friend_group" [PathInput true 1];
    mkRoute GET "/groups/:id" "get_friend_groups" [PathInput true 1];
    mkRoute POST "/assign-group" "assign_friend_to_group" [BodyInput true];
    mkRoute POST "/tags" "create_friend_tag" [BodyInput true];
    mkRoute DELETE "/tags/:id" "delete_friend_tag" [PathInput true 1];
    mkRoute GET "/tags/:id" "get_friend_tags" [PathInput true 1];
    mkRoute POST "/manage-tags" "manage_friend_tags" [BodyInput true];
    mkRoute POST "/privacy" "update_friend_privacy" [BodyInput true];
    mkRoute GET "/privacy/:user_id/:friend_id" "get_friend_privacy" [PathInput true 2];
    mkRoute POST "/interaction" "update_interaction_score" [BodyInput true];
    mkRoute GET "/interaction/:user_id/:friend_id" "get_interaction_stats" [PathInput true 2] ]%string.

Definition user_routes : list Route :=
  [ mkRoute POST "/" "create_user" [BodyInput false];
    mkRoute PUT "/" "update_user" [BodyInput false];
    mkRoute PUT "/pwd" "modify_pwd" [BodyInput false];
    mkRoute GET "/:id" "get_user_by_id" [PathInput false 1];
    mkRoute GET "/refresh_token/:token/:is_refresh" "refresh_token" [PathInput false 2];
    mkRoute GET "/:user_id/search/:pattern" "search_user" [PathInput true 2];
    mkRoute POST "/login" "login" [BodyInput false];
    mkRoute DELETE "/logout/:uuid" "logout" [PathInput false 1];
    mkRoute POST "/mail/send" "send_email" [BodyInput false];
    mkRoute GET "/auth/wechat" "google_login" [];
    mkRoute GET "/auth/wechat/callback" "google_callback" [QueryInput];
    mkRoute GET "/auth/github" "github_login" [];
    mkRoute GET "/auth/github/callback" "github_callback" [QueryInput] ]%string.

Definition group_routes : list Route :=
  [ mkRoute GET "/:user_id/:group_id" "get_group" [PathInput true 2];
    mkRoute POST "/:user_id" "create_group_handler" [PathInput true 1; BodyInput true];
    mkRoute PUT "/invite" "invite_new_members" [BodyInput true];
    mkRoute DELETE "/" "delete_group_handler" [BodyInput true];
    mkRoute PUT "/:user_id" "update_group_handler" [PathInput true 1; BodyInput true];
    mkRoute GET "/member/:user_id/:group_id" "get_group_and_members" [PathInput true 2];
    mkRoute POST "/member" "get_group_members" [BodyInput true];
    mkRoute DELETE "/member" "remove_member" [BodyInput true];
    mkRoute POST "/settings" "update_group_settings" [BodyInput true];
    mkRoute POST "/member/settings" "update_member_settings" [BodyInput true];
    mkRoute GET "/categories" "get_group_categories" [];
    mkRoute POST "/category" "create_group_category" [BodyInput true];
    mkRoute PUT "/category" "update_group_category" [BodyInput true];
    mkRoute DELETE "/category/:id" "delete_group_category" [PathInput true 1];
    mkRoute GET "/files/:group_id" "get_group_files" [PathInput true 1];
    mkRoute POST "/file" "upload_group_file" [BodyInput true];
    mkRoute DELETE "/file" "delete_group_file" [BodyInput true];
    mkRoute POST "/file/pin" "update_file_pin_status" [BodyInput true];
    mkRoute GET "/polls/:group_id" "get_group_polls" [PathInput true 1];
    mkRoute GET "/poll/:poll_id" "get_poll_details" [PathInput true 1];
    mkRoute POST "/poll" "create_poll" [BodyInput true];
    mkRoute POST "/poll/vote" "vote_poll" [BodyInput true];
    mkRoute POST "/poll/close" "close_poll" [BodyInput true];
    mkRoute GET "/muted/:group_id" "get_group_muted_members" [PathInput true 1];
    mkRoute POST "/mute" "mute_group_member" [BodyInput true];
    mkRoute POST "/unmute" "unmute_group_member" [BodyInput true];
    mkRoute GET "/announcements/:group_id" "get_group_announcements" [PathInput true 1];
    mkRoute POST "/announcement" "create_announcement" [BodyInput true];
    mkRoute DELETE "/announcement" "delete_announcement" [BodyInput true];
    mkRoute POST "/announcement/pin" "pin_announcement" [BodyInput true];
    mkRoute POST "/member/role" "change_member_role" [BodyInput true] ]%string.

Definition file_routes : list Route :=
  [ mkRoute POST "/upload" "upload" [MultipartInput];
    mkRoute GET "/get/:filename" "get_file_by_name" [PathInput false 1];
    mkRoute POST "/avatar/upload" "upload_avatar" [MultipartInput];
    mkRoute GET "/avatar/get/:filename" "get_avatar_by_name" [PathInput false 1] ]%string.

Definition msg_routes : list Route :=
  [ mkRoute POST "/" "pull_offline_messages" [BodyInput true];
    mkRoute GET "/seq/:user_id" "get_seq" [PathInput true 1];
    mkRoute DELETE "/" "del_msg" [BodyInput true] ]%string.

(** [Router::nest] *)
Definition nest (prefix : string) (routes : list Route) : list Route :=
  (λ r, mkRoute (rt_method r) (prefix +:+ rt_path r) (rt_handler r) (rt_inputs r)) <$> routes.

Definition app_routes : list Route :=
  nest "/user" user_routes ++ nest "/friend" friend_routes ++ nest "/file" file_routes
  ++ nest "/group" group_routes ++ nest "/message" msg_routes.

(** ** Matching *)

(** A fixed segment or a parameter; a segment starting with ':' (character 58)
    is a parameter. *)
Abbreviation Pattern := (list (option string)).

Definition segment (s : string) : option string :=
  match s with
  | String.String c _ => if (Ascii.nat_of_ascii c =? 58)%nat then None else Some s
  | String.EmptyString => Some s
  end.

Definition pattern (path : string) : Pattern := segment <$> filter (.≠ ""%string) (split_on 47 path).

Fixpoint match_path (p : Pattern) (req : list string) : option (list string) :=
  match p, req with
  | [], [] => Some []
  | Some s :: p, v :: req => if bool_decide (v = s) then match_path p req else None
  | None :: p, v :: req => if bool_decide (v = ""%string) then None else (v ::.) <$> match_path p req
  | _, _ => None
  end.

(** At the first difference a fixed segment wins over a parameter. *)
Fixpoint better (p q : Pattern) : bool :=
  match p, q with
  | Some _ :: _, None :: _ => true
  | None :: _, Some _ :: _ => false
  | _ :: p, _ :: q => better p q
  | _, _ => false
  end.

Fixpoint resolve (ps : list Pattern) (req : list string) : option Pattern :=
  match ps with
  | [] => None
  | p :: ps =>
      match match_path p req, resolve ps req with
      | None, best => best
      | Some _, Some q => if better q p then Some q else Some p
      | Some _, None => Some p
      end
  end.

(** ** Answering *)

Inductive Response : Type :=
| NotFound | MethodNotAllowed | Unauthorized | WrongParameters | Runs (handler : string) (params : list string).

Definition refusal (params : nat) (token_ok : bool) (i : Input) : option Response :=
  match i with
  | PathInput token n =>
      if token && negb token_ok then Some Unauthorized
      else if bool_decide (params = n) then None else Some WrongParameters
  | BodyInput token => if token && negb token_ok then Some Unauthorized else None
  | MultipartInput | QueryInput => None
  end.

Global Instance Response_eq_dec : EqDecision Response.
Proof. solve_decision. Defined.

(** The extractors run in order; the first refusal is the answer. *)
Definition refused (r : Route) (params : nat) (token_ok : bool) : option Response :=
  head (omap (refusal params token_ok) (rt_inputs r)).
Definition serve (r : Route) (params : list string) (token_ok : bool) : Response :=
  default (Runs (rt_handler r) params) (refused r (length params) token_ok).

Definition route_key (r : Route) : Pattern * Method := (pattern (rt_path r), rt_method r).

Definition dispatch (routes : list Route) (m : Method) (req : list string) (token_ok : bool) : Response :=
  match resolve ((λ r, pattern (rt_path r)) <$> routes) req with
  | None => NotFound
  | Some p =>
      match List.find (λ r, bool_decide (route_key r = (p, m))) routes with
      | Some r => serve r (default [] (match_path p req)) token_ok
      | None => MethodNotAllowed
      end
  end.

Example group_of_files : dispatch app_routes GET ["group"; "files"; "g1"]%string true
  = Runs "get_group_files" ["g1"%string].
Proof. vm_compute. reflexivity. Qed.
Example wrong_method : dispatch app_routes DELETE ["user"]%string true = MethodNotAllowed.
Proof. vm_compute. reflexivity. Qed.

(** ** The router finds every route *)

(** A path with values for its parameters. *)
Fixpoint instantiate (p : Pattern) (vals : list string) : list string :=
  match p, vals with
  | Some s :: p, _ => s :: instantiate p vals
  | None :: p, v :: vals => v :: instantiate p vals
  | _, _ => []
  end.

Definition holes (p : Pattern) : nat := length (filter (.= None) p).
(** The fixed segments of the table. *)
Definition words (ps : list Pattern) : list string := ps ≫= λ p : Pattern, omap id p.

Lemma match_instantiate p : ∀ vals, length vals = holes p → Forall (.≠ ""%string) vals →
  match_path p (instantiate p vals) = Some vals.
Proof.
  induction p as [|[s|] p IH]; intros vals Hl Hv.
  - by destruct vals.
  - simpl. rewrite bool_decide_eq_true_2 by done. by apply IH.
  - destruct vals as [|v vals]; [done|]. apply Forall_cons in Hv as [Hv Hvs]. injection Hl as Hl.
    simpl. rewrite bool_decide_eq_false_2 by done. by rewrite IH.
Qed.

(** A path that matches the same request is the same or worse. *)
Lemma match_worse q : ∀ p vals, length vals = holes p → (∀ v, v ∈ vals → Some v ∉ q) →
  is_Some (match_path q (instantiate p vals)) → q = p ∨ (better p q = true ∧ better q p = false).
Proof.
  induction q as [|[s|] q IH]; intros p vals Hl Hw [params Hm].
  - destruct p as [|[t|] p]; [by left|done|]. by destruct vals.
  - destruct p as [|[t|] p]; [done| |].
    + simpl in Hm. case_bool_decide as E; [|done]. subst t.
      destruct (IH p vals Hl) as [->|?]; [set_solver|by eexists|by left|by right].
    + destruct vals as [|v vals]; [done|]. simpl in Hm. case_bool_decide as E; [|done]. subst v.
      destruct (Hw s); apply elem_of_cons; by left.
  - destruct p as [|[t|] p]; [done|by right|].
    destruct vals as [|v vals]; [done|]. injection Hl as Hl. simpl in Hm. case_bool_decide; [done|].
    apply fmap_Some in Hm as (params' & Hm & _).
    destruct (IH p vals Hl) as [->|?]; [set_solver|by eexists|by left|by right].
Qed.

Lemma better_irrefl p : better p p = false.
Proof. by induction p as [|[] p IH]. Qed.

Lemma resolve_best ps p req : is_Some (match_path p req) →
  (∀ q, q ∈ ps → is_Some (match_path q req) → q = p ∨ (better p q = true ∧ better q p = false)) →
  (p ∈ ps → resolve ps req = Some p)
  ∧ (∀ q, resolve ps req = Some q → q ∈ ps ∧ is_Some (match_path q req)).
Proof.
  intros Hp. induction ps as [|x ps IH]; intros Hq; [split; [by intros ?%not_elem_of_nil|done]|].
  destruct IH as [IH1 IH2]; [intros q Hin; apply Hq, elem_of_cons; by right|]. split.
  - intros [->|Hin]%elem_of_cons.
    + simpl. destruct Hp as [v ->]. destruct (resolve ps req) as [q|] eqn:E; [|done].
      destruct (IH2 q eq_refl) as [Hin Hm].
      destruct (Hq q) as [->|[_ ->]]; [apply elem_of_cons; by right|done| |done].
      by rewrite better_irrefl.
    + simpl. rewrite IH1 by done. destruct (match_path x req) as [v|] eqn:E; [|done].
      destruct (Hq x) as [->|[-> _]]; [apply elem_of_cons; by left|by eexists| |done].
      by destruct (better p p).
  - intros q. simpl. destruct (match_path x req) as [v|] eqn:E.
    + assert (Hx : x ∈ x :: ps ∧ is_Some (match_path x req)) by (rewrite E; split; [apply elem_of_cons; by left|by eexists]).
      destruct (resolve ps req) as [q'|] eqn:E'; [destruct (better q' x)|]; intros [= <-]; try exact Hx.
      destruct (IH2 q' eq_refl). split; [apply elem_of_cons; by right|done].
    + intros Hr. destruct (IH2 q Hr). split; [apply elem_of_cons; by right|done].
Qed.

Lemma find_unique {A B} (f : A → B) `{!EqDecision B} (l : list A) x :
  NoDup (f <$> l) → x ∈ l → List.find (λ y, bool_decide (f y = f x)) l = Some x.
Proof.
  induction l as [|y l IH]; intros Hnd Hx; [by apply not_elem_of_nil in Hx|].
  cbn in Hnd. apply NoDup_cons in Hnd as [Hy Hnd]. simpl. apply elem_of_cons in Hx as [->|Hx].
  - by rewrite bool_decide_eq_true_2.
  - rewrite bool_decide_eq_false_2; [by apply IH|]. intros E. apply Hy. rewrite E. by apply list_elem_of_fmap_2.
Qed.

Section table.
Context (routes : list Route) (Hnd : NoDup (route_key <$> routes)).
Abbreviation patterns := ((λ r, pattern (rt_path r)) <$> routes).

(** With values that are no words of the table, a route is found by its own
    path and method, and gets the values in order. *)
Lemma dispatch_route r vals token_ok : r ∈ routes → length vals = holes (pattern (rt_path r)) →
  Forall (λ v, v ≠ ""%string ∧ v ∉ words patterns) vals →
  dispatch routes (rt_method r) (instantiate (pattern (rt_path r)) vals) token_ok = serve r vals token_ok.
Proof.
  intros Hr Hl Hv. set (p := pattern (rt_path r)) in *.
  assert (Hm : match_path p (instantiate p vals) = Some vals).
  { apply match_instantiate; [done|]. eapply Forall_impl; [exact Hv|naive_solver]. }
  destruct (resolve_best patterns p (instantiate p vals)) as [Hres _].
  - by eexists.
  - intros q Hq. apply match_worse; [done|]. intros v Hin Hvq.
    destruct (proj1 (Forall_forall _ _) Hv v Hin) as [_ []]. unfold words.
    apply list_elem_of_bind. exists q. split; [|done]. apply list_elem_of_omap. by exists (Some v).
  - unfold dispatch. rewrite Hres by by apply (list_elem_of_fmap_2 (λ r, pattern (rt_path r))).
    change (p, rt_method r) with (route_key r). by rewrite find_unique, Hm.
Qed.

(** Only routes of the table run, and they run their own handler. *)
Lemma dispatch_runs m req token_ok h params :
  dispatch routes m req token_ok = Runs h params →
  ∃ r vals, r ∈ routes ∧ serve r vals token_ok = Runs h params.
Proof.
  unfold dispatch. destruct (resolve _ _) as [p|]; [|done].
  destruct (List.find _ _) as [r|] eqn:E; [|done]. intros H.
  apply List.find_some in E as [Hin _]. exists r. eexists. split; [by apply list_elem_of_In|exact H].
Qed.
End table.

Lemma app_routes_distinct : NoDup (route_key <$> app_routes).
Proof. apply (bool_decide_unpack _). vm_compute. exact I. Qed.

(** ** Properties *)

Definition route_words : list string := words ((λ r, pattern (rt_path r)) <$> app_routes).
Definition broken_route : string := "get_apply_list_by_user_id".

(** Every route is reached: a request with a valid token, the route's method and
    its path with any values that are not words of the table runs its handler on
    these values; except the list of requests to a user, whose path has one
    parameter where its handler extracts two. *)
Theorem every_route_reached (r : Route) (vals : list string)
    (Hr : r ∈ app_routes) (Hl : length vals = holes (pattern (rt_path r)))
    (Hv : Forall (λ v, v ≠ ""%string ∧ v ∉ route_words) vals) :
  dispatch app_routes (rt_method r) (instantiate (pattern (rt_path r)) vals) true
  = if bool_decide (rt_handler r = broken_route) then WrongParameters else Runs (rt_handler r) vals.
Proof.
  rewrite (dispatch_route app_routes app_routes_distinct) by done.
  assert (Hall : Forall (λ r, refused r (holes (pattern (rt_path r))) true
    = if bool_decide (rt_handler r = broken_route) then Some WrongParameters else None) app_routes).
  { apply (bool_decide_unpack _). vm_compute. exact I. }
  unfold serve. rewrite Hl, (proj1 (Forall_forall _ _) Hall r Hr). by case_bool_decide.
Qed.

(** The handlers that run without a token. *)
Definition open_handlers : list string :=
  ["create_user"; "update_user"; "modify_pwd"; "get_user_by_id"; "refresh_token"; "login"; "logout";
   "send_email"; "google_login"; "google_callback"; "github_login"; "github_callback";
   "upload"; "get_file_by_name"; "upload_avatar"; "get_avatar_by_name"; "get_group_categories"]%string.

Definition needs_token (i : Input) : bool :=
  match i with PathInput token _ => token | BodyInput token => token | MultipartInput | QueryInput => false end.

Lemma needs_token_refused r n : existsb needs_token (rt_inputs r) = true → refused r n false ≠ None.
Proof.
  unfold refused. induction (rt_inputs r) as [|i l IH]; [done|]. simpl.
  destruct i as [[] k|[]| |]; simpl; try done. by case_bool_decide.
Qed.

Lemma serve_runs r vals token_ok h params : serve r vals token_ok = Runs h params →
  h = rt_handler r ∧ refused r (length vals) token_ok = None.
Proof.
  unfold serve. destruct (refused r (length vals) token_ok) as [x|] eqn:E; simpl; [|by intros [= <- <-]].
  intros ->. exfalso. unfold refused in E. apply head_Some_elem_of, list_elem_of_omap in E as (i & _ & E).
  destruct i as [[] k|[]| |], token_ok; simpl in E; try done; by case_bool_decide.
Qed.

(** Without a token exactly the open handlers run: no other request runs
    anything, and each open route runs on any values. Among them are the change
    of an account's profile and the reading of any account. *)
Theorem open_without_token :
  (∀ m req h params, dispatch app_routes m req false = Runs h params → h ∈ open_handlers)
  ∧ (∀ r vals, r ∈ app_routes → rt_handler r ∈ open_handlers →
       length vals = holes (pattern (rt_path r)) →
       Forall (λ v, v ≠ ""%string ∧ v ∉ route_words) vals →
       dispatch app_routes (rt_method r) (instantiate (pattern (rt_path r)) vals) false
       = Runs (rt_handler r) vals).
Proof.
  assert (Hall : Forall (λ r, (if bool_decide (rt_handler r ∈ open_handlers)
    then bool_decide (refused r (holes (pattern (rt_path r))) false = None)
    else existsb needs_token (rt_inputs r)) = true) app_routes).
  { apply (bool_decide_unpack _). vm_compute. exact I. }
  split.
  - intros m req h params (r & vals & Hr & [-> Ho]%serve_runs)%dispatch_runs.
    pose proof (proj1 (Forall_forall _ _) Hall r Hr) as H; cbv beta in H. case_bool_decide as Hin; [done|].
    by apply (needs_token_refused _ (length vals)) in H.
  - intros r vals Hr Ho Hl Hv. rewrite (dispatch_route app_routes app_routes_distinct) by done.
    pose proof (proj1 (Forall_forall _ _) Hall r Hr) as H; cbv beta in H. rewrite bool_decide_eq_true_2 in H by done.
    apply bool_decide_eq_true in H.
    unfold serve. by rewrite Hl, H.
Qed.

Lemma every_route_reached_witness :
  dispatch app_routes GET ["friend"; "query"; "u7"]%string true = Runs "query_friend_info" ["u7"%string].
Proof.
  apply (every_route_reached (mkRoute GET "/friend/query/:user_id" "query_friend_info" [PathInput true 1])
    ["u7"%string]).
  - apply (bool_decide_unpack _). vm_compute. exact I.
  - reflexivity.
  - apply (bool_decide_unpack _). vm_compute. exact I.
Defined.

Lemma open_without_token_witness :
  dispatch app_routes PUT ["user"]%string false = Runs "update_user" [].
Proof.
  apply (proj2 open_without_token (mkRoute PUT "/user/" "update_user" [BodyInput false]) []).
  - apply (bool_decide_unpack _). vm_compute. exact I.
  - apply (bool_decide_unpack _). vm_compute. exact I.
  - reflexivity.
  - constructor.
Defined.
